(** * uttori-audio-midi: a shallow embedding of the Standard MIDI File codec

    The development follows [AudioMIDI] (the codec) and the [DataBuffer]
    byte cursor it extends.  JavaScript numbers that the codec only ever uses
    as integers are modelled by [Z]; "number or undefined" is [option Z];
    32-bit bitwise operators are written out with their wrap-around. *)

From Stdlib Require Import ZArith QArith List String Ascii Lia Bool.
From stdpp Require Import base option list strings gmap.
Import ListNotations.

#[local] Set Warnings "-register-all".

Open Scope string_scope.
Open Scope list_scope.
Open Scope Z_scope.

(** ** JavaScript integer arithmetic *)

Module Js.

(** [ToInt32]: reduce modulo 2^32 into the signed range. *)
Definition to_int32 (x : Z) : Z :=
  let m := x mod 4294967296 in
  if m <? 2147483648 then m else m - 4294967296.

(** [ToInt32] of a value that may be [undefined] ([undefined] becomes 0). *)
Definition int32_of (o : option Z) : Z :=
  match o with
  | Some z => to_int32 z
  | None => 0
  end.

(** [a & b] *)
Definition and (a b : Z) : Z := to_int32 (Z.land (to_int32 a) (to_int32 b)).
(** [a | b] *)
Definition or (a b : Z) : Z := to_int32 (Z.lor (to_int32 a) (to_int32 b)).
(** [a << n] *)
Definition shl (a n : Z) : Z := to_int32 (Z.shiftl (to_int32 a) (n mod 32)).
(** [a >> n] (sign-propagating) *)
Definition sar (a n : Z) : Z := Z.shiftr (to_int32 a) (n mod 32).

(** Conversion of a number stored into a [Uint8Array]. *)
Definition to_uint8 (x : Z) : Z := x mod 256.

(** [String.fromCharCode] restricted to the one-byte code units the codec
    produces; [undefined] converts to code unit 0. *)
Definition fromCharCode (o : option Z) : ascii :=
  match o with
  | Some c => ascii_of_N (Z.to_N (c mod 256))
  | None => zero
  end.

(** Decimal rendering of an integer, as a template literal does it. *)
Fixpoint digits_of_pos (fuel : nat) (n : Z) (acc : string) : string :=
  match fuel with
  | O => acc
  | S f =>
      let d := String (ascii_of_N (Z.to_N (48 + n mod 10))) acc in
      if n / 10 =? 0 then d else digits_of_pos f (n / 10) d
  end.

Definition toString (z : Z) : string :=
  if z <? 0
  then String "-" (digits_of_pos (S (Z.to_nat (Z.log2 (- z)))) (- z) EmptyString)
  else digits_of_pos (S (Z.to_nat (Z.log2 z))) z EmptyString.

Definition hex_digit (d : Z) : ascii :=
  if d <? 10 then ascii_of_N (Z.to_N (48 + d)) else ascii_of_N (Z.to_N (55 + d)).

Fixpoint hex_of_pos (fuel : nat) (n : Z) (acc : string) : string :=
  match fuel with
  | O => acc
  | S f =>
      let d := String (hex_digit (n mod 16)) acc in
      if n / 16 =? 0 then d else hex_of_pos f (n / 16) d
  end.

(** [n.toString(16).toUpperCase()] for a non-negative integer. *)
Definition toHexUpper (z : Z) : string :=
  hex_of_pos (S (Z.to_nat (Z.log2 z))) z EmptyString.

Definition is_digit (c : ascii) : bool :=
  let n := Z.of_N (N_of_ascii c) in (48 <=? n) && (n <=? 57).

Definition digit_val (c : ascii) : Z := Z.of_N (N_of_ascii c) - 48.

(** The longest prefix of decimal digits and its value. *)
Fixpoint read_digits (s : string) (acc : Z) (seen : bool) : option Z :=
  match s with
  | String c s' =>
      if is_digit c then read_digits s' (acc * 10 + digit_val c) true
      else if seen then Some acc else None
  | EmptyString => if seen then Some acc else None
  end.

Definition is_space (c : ascii) : bool :=
  let n := Z.of_N (N_of_ascii c) in
  (n =? 32) || ((9 <=? n) && (n <=? 13)).

Fixpoint skip_spaces (s : string) : string :=
  match s with
  | String c s' => if is_space c then skip_spaces s' else s
  | EmptyString => s
  end.

(** [parseInt(s, 10)]; [None] stands for [NaN]. *)
Definition parseInt (s : string) : option Z :=
  match skip_spaces s with
  | String "-" s' => z ← read_digits s' 0 false; Some (- z)
  | String "+" s' => read_digits s' 0 false
  | s' => read_digits s' 0 false
  end.

End Js.

(** ** Outcomes of a computation: a value, a thrown error, or no answer
    within the given number of loop iterations. *)

(** What the code throws.  [Error msg] keeps the fixed opening words of the
    message; the values the source interpolates after them (the event or its
    data through [JSON.stringify], the offending number or string) are left
    out. *)
Inductive JsError : Type :=
| UnderflowError
| RangeError
| TypeError
| Error (msg : string).

Inductive outcome (A : Type) : Type :=
| Ok (a : A)
| Throw (e : JsError)
| OutOfFuel.

Arguments Ok {A} a.
Arguments Throw {A} e.
Arguments OutOfFuel {A}.

Definition obind {A B : Type} (m : outcome A) (k : A -> outcome B) : outcome B :=
  match m with
  | Ok a => k a
  | Throw e => Throw e
  | OutOfFuel => OutOfFuel
  end.

(** A computation over a mutable object of type [S]: it returns a value and
    the object's new state, throws, or runs out of loop iterations. *)
Definition M (S A : Type) : Type := S -> outcome (A * S).

Definition ret {S A : Type} (a : A) : M S A := fun s => Ok (a, s).

Definition bind {S A B : Type} (m : M S A) (k : A -> M S B) : M S B :=
  fun s =>
    match m s with
    | Ok (a, s') => k a s'
    | Throw e => Throw e
    | OutOfFuel => OutOfFuel
    end.

Definition throw {S A : Type} (e : JsError) : M S A := fun _ => Throw e.

Notation "'let*' x ':=' m 'in' k" := (bind m (fun x => k))
  (at level 10, x pattern, m at level 100, k at level 200).
Notation "'run' m 'in' k" := (bind m (fun _ => k))
  (at level 10, m at level 100, k at level 200).

(** ** DataBuffer *)

Module DataBuffer.

(** *** Reading side *)

Record t : Type := mk {
  data : list Z;
  offset : Z
}.

(** [new DataBuffer(input)] for an array of numbers: the bytes are stored in a
    [Uint8Array], the cursor starts at 0. *)
Definition new (input : list Z) : t :=
  mk (map Js.to_uint8 input) 0.

(** A computation that moves the cursor of a buffer being read. *)
Definition reader (A : Type) : Type := M t A.

Definition bufLength (b : t) : Z := Z.of_nat (length (data b)).

Definition remainingBytes (b : t) : Z := bufLength b - offset b.

Definition available (b : t) (bytes : Z) : bool :=
  bytes <=? remainingBytes b.

Definition availableAt (b : t) (bytes off : Z) : bool :=
  bytes <=? bufLength b - off.

(** [this.data[i]]: [undefined] outside the array. *)
Definition data_at (b : t) (i : Z) : option Z :=
  if i <? 0 then None else data b !! Z.to_nat i.

Definition advance (bytes : Z) : reader unit := fun b =>
  if available b bytes
  then Ok (tt, mk (data b) (offset b + bytes))
  else Throw UnderflowError.

Definition rewind (bytes : Z) : reader unit := fun b =>
  if bytes >? offset b
  then Throw UnderflowError
  else Ok (tt, mk (data b) (offset b - bytes)).

Definition readUInt8 : reader (option Z) := fun b =>
  if available b 1
  then Ok (data_at b (offset b), mk (data b) (offset b + 1))
  else Throw UnderflowError.

Definition peekUInt8 (off : Z) : reader (option Z) := fun b =>
  if availableAt b 1 off
  then Ok (data_at b off, b)
  else Throw UnderflowError.

Fixpoint read_loop (n : nat) : reader (list Z) :=
  match n with
  | O => ret []
  | S n' =>
      let* x := readUInt8 in
      let* rest := read_loop n' in
      ret (Js.to_uint8 (default 0 x) :: rest)
  end.

(** [read(bytes)]: a fresh [Uint8Array(bytes)] filled by [bytes] successive
    [readUInt8] calls. *)
Definition read (bytes : Z) : reader (list Z) :=
  if bytes <? 0 then throw RangeError else read_loop (Z.to_nat bytes).

Definition be_value (bytes : list Z) : Z :=
  fold_left (fun acc x => acc * 256 + x) bytes 0.

Definition readUInt16 : reader Z := let* bs := read 2 in ret (be_value bs).

Definition readUInt32 : reader Z := let* bs := read 4 in ret (be_value bs).

Fixpoint decode_ascii (n : nat) (off : Z) : reader string :=
  match n with
  | O => ret EmptyString
  | S n' =>
      let* c := peekUInt8 off in
      let* rest := decode_ascii n' (off + 1) in
      ret (String (Js.fromCharCode c) rest)
  end.

(** [readString(length)] with the default ['ascii'] encoding; a falsy length
    means "everything that remains". *)
Definition readString (len : Z) : reader string := fun b =>
  let len' := if len =? 0 then remainingBytes b else len in
  (let* s := decode_ascii (Z.to_nat len') (offset b) in
   run advance len' in
   ret s) b.

(** *** Writing side

    A buffer created without input is in writing mode: [available] always
    holds, and bytes go to the [buffer] array, which [commit] turns into a
    [Uint8Array].  The array is only ever observed through [commit], so each
    element is kept as the byte that conversion gives ([undefined] and holes
    give 0). *)

Record Writer : Type := mkWriter {
  buffer : list Z;
  woffset : Z
}.

Definition newWriter : Writer := mkWriter [] 0.

Definition writer (A : Type) : Type := M Writer A.

(** [buffer[i] = x] on a JavaScript array: assignment past the end extends the
    array; a negative index does not touch the elements. *)
Definition array_set (l : list Z) (i : Z) (x : Z) : list Z :=
  if i <? 0 then l
  else
    let n := Z.to_nat i in
    if (n <? length l)%nat then <[n := x]> l
    else l ++ replicate (n - length l) 0 ++ [x].

Definition writeUInt8 (x : Z) : writer unit := fun w =>
  Ok (tt, mkWriter (array_set (buffer w) (woffset w) (Js.to_uint8 x)) (woffset w + 1)).

Definition writeUInt16 (x : Z) : writer unit := fun w =>
  let o := woffset w in
  let b1 := array_set (buffer w) o (Js.to_uint8 (Js.sar (Js.and x 65280) 8)) in
  let b2 := array_set b1 (o + 1) (Js.to_uint8 (Js.and x 255)) in
  Ok (tt, mkWriter b2 (o + 2)).

Definition writeUInt32 (x : Z) : writer unit := fun w =>
  let o := woffset w in
  let b1 := array_set (buffer w) o (Js.to_uint8 (Js.sar (Js.and x 4278190080) 24)) in
  let b2 := array_set b1 (o + 1) (Js.to_uint8 (Js.sar (Js.and x 16711680) 16)) in
  let b3 := array_set b2 (o + 2) (Js.to_uint8 (Js.sar (Js.and x 65280) 8)) in
  let b4 := array_set b3 (o + 3) (Js.to_uint8 (Js.and x 255)) in
  Ok (tt, mkWriter b4 (o + 4)).

Fixpoint write_at (l : list Z) (i : Z) (bytes : list Z) : list Z :=
  match bytes with
  | [] => l
  | x :: rest => write_at (array_set l i (Js.to_uint8 x)) (i + 1) rest
  end.

Definition writeBytes (bytes : list Z) : writer unit := fun w =>
  Ok (tt, mkWriter (write_at (buffer w) (woffset w) bytes)
                   (woffset w + Z.of_nat (length bytes))).

Definition char_codes (s : string) : list Z :=
  map (fun c => Z.of_N (N_of_ascii c)) (list_ascii_of_string s).

(** [writeString(string)] with the default ['ascii'] encoding. *)
Definition writeString (s : string) : writer unit :=
  writeBytes (map (fun c => Js.and c 255) (char_codes s)).

(** [seek(position)] while writing: moving forward never fails, moving back
    fails only below 0. *)
Definition wseek (position : Z) : writer unit := fun w =>
  if position >? woffset w then Ok (tt, mkWriter (buffer w) position)
  else if position <? woffset w then
    if woffset w - position >? woffset w then Throw UnderflowError
    else Ok (tt, mkWriter (buffer w) position)
  else Ok (tt, w).

Definition commit (w : Writer) : list Z := buffer w.

End DataBuffer.

(** ** Variable-length quantities *)

Fixpoint vlq_loop (fuel : nat) (value : Z) : DataBuffer.reader Z :=
  match fuel with
  | O => fun _ => OutOfFuel
  | S f =>
      let* byte := DataBuffer.readUInt8 in
      let value' := Js.shl value 7 + Js.and (Js.int32_of byte) 127 in
      fun b =>
        if negb (Js.and (Js.int32_of byte) 128 =? 0) && (DataBuffer.remainingBytes b >? 0)
        then vlq_loop f value' b
        else Ok (value', b)
  end.

(** The do-while loop reads one byte per round and goes round again only
    while bytes remain, so one more round than there are bytes is enough. *)
Definition readVariableLengthValues : DataBuffer.reader Z := fun b =>
  vlq_loop (S (Z.to_nat (DataBuffer.remainingBytes b))) 0 b.

(** The do-while loop of [writeVariableLengthValue]: 7-bit groups, least
    significant first. *)
Fixpoint vlq_groups (fuel : nat) (value : Z) : list Z :=
  match fuel with
  | O => []
  | S f =>
      let g := Js.and value 127 in
      let value' := Js.sar value 7 in
      g :: (if value' >? 0 then vlq_groups f value' else [])
  end.

(** The two pop loops; [r] is the array seen from its end. *)
Fixpoint write_popped (r : list Z) : DataBuffer.writer unit :=
  match r with
  | [] => DataBuffer.writeUInt8 0
  | [x] => DataBuffer.writeUInt8 x
  | x :: r' => run DataBuffer.writeUInt8 (Js.or x 128) in write_popped r'
  end.

(** [Math.round] of an integer is the integer; of [undefined] it is [NaN],
    which [&] and [>>] read as 0.  After the first shift the value is below
    2^24, so five groups are the most the loop produces. *)
Definition writeVariableLengthValue (value : option Z) : DataBuffer.writer unit :=
  let v := default 0 value in
  write_popped (rev (vlq_groups 5 v)).

(** The bytes [writeVariableLengthValue] leaves in a fresh buffer. *)
Definition vlq_bytes (n : Z) : list Z :=
  match writeVariableLengthValue (Some n) DataBuffer.newWriter with
  | Ok (_, w) => DataBuffer.commit w
  | _ => []
  end.

(** ** Values and events

    Event payloads are dynamically typed in the source ([EventData]); they are
    kept as JavaScript values.  Non-integral numbers only arise as constants
    ([VFrac 2997 100] is 29.97), as [Infinity] and as [NaN]. *)

Inductive JsValue : Type :=
| VUndefined
| VNum (z : Z)
| VFrac (num den : Z)
| VInfinity
| VNaN
| VStr (s : string)
| VBytes (b : list Z)
| VArr (l : list JsValue)
| VObj (fields : list (string * JsValue)).

(** A byte read from the buffer, as a value. *)
Definition jv (o : option Z) : JsValue :=
  match o with
  | Some z => VNum z
  | None => VUndefined
  end.

(** [`${x}`] for a number that may be [undefined]. *)
Definition template (o : option Z) : string :=
  match o with
  | Some z => Js.toString z
  | None => "undefined"
  end.

(** [a + b] where [a] is a number and [b] may be [undefined]. *)
Definition js_plus (a : JsValue) (b : option Z) : JsValue :=
  match a, b with
  | VNum x, Some y => VNum (x + y)
  | _, _ => VNaN
  end.

Fixpoint assoc_get {A : Type} (k : string) (l : list (string * A)) : option A :=
  match l with
  | [] => None
  | (k', v) :: l' => if String.eqb k k' then Some v else assoc_get k l'
  end.

Fixpoint assoc_set {A : Type} (k : string) (v : A) (l : list (string * A))
  : list (string * A) :=
  match l with
  | [] => [(k, v)]
  | (k', v') :: l' =>
      if String.eqb k k' then (k, v) :: l' else (k', v') :: assoc_set k v l'
  end.

(** [k in o] *)
Definition has_field (k : string) (o : JsValue) : bool :=
  match o with
  | VObj fs => match assoc_get k fs with Some _ => true | None => false end
  | _ => false
  end.

(** [o.k] ([undefined] when the property is absent). *)
Definition get_field (k : string) (o : JsValue) : JsValue :=
  match o with
  | VObj fs => default VUndefined (assoc_get k fs)
  | _ => VUndefined
  end.

(** [o.k = v] on an object. *)
Definition set_field (k : string) (v : JsValue) (o : JsValue) : JsValue :=
  match o with
  | VObj fs => VObj (assoc_set k v fs)
  | _ => o
  end.

(** JavaScript truthiness. *)
Definition truthy (v : JsValue) : bool :=
  match v with
  | VUndefined | VNaN => false
  | VNum z => negb (z =? 0)
  | VStr s => negb (String.eqb s EmptyString)
  | _ => true
  end.

Record MidiTrackEvent : Type := mkEvent {
  deltaTime : option Z;
  type : option Z;
  label : option string;
  data : JsValue;
  metaType : option Z;
  metaEventLength : option Z;
  channel : option Z
}.

(** The object [{}] once [deltaTime] has been assigned. *)
Definition newEvent (delta : Z) : MidiTrackEvent :=
  mkEvent (Some delta) None None VUndefined None None None.

Definition set_type (t : option Z) (e : MidiTrackEvent) : MidiTrackEvent :=
  mkEvent (deltaTime e) t (label e) (data e) (metaType e) (metaEventLength e) (channel e).
Definition set_label (l : string) (e : MidiTrackEvent) : MidiTrackEvent :=
  mkEvent (deltaTime e) (type e) (Some l) (data e) (metaType e) (metaEventLength e) (channel e).
Definition set_data (d : JsValue) (e : MidiTrackEvent) : MidiTrackEvent :=
  mkEvent (deltaTime e) (type e) (label e) d (metaType e) (metaEventLength e) (channel e).
Definition set_metaType (m : option Z) (e : MidiTrackEvent) : MidiTrackEvent :=
  mkEvent (deltaTime e) (type e) (label e) (data e) m (metaEventLength e) (channel e).
Definition set_metaEventLength (n : option Z) (e : MidiTrackEvent) : MidiTrackEvent :=
  mkEvent (deltaTime e) (type e) (label e) (data e) (metaType e) n (channel e).
Definition set_channel (c : option Z) (e : MidiTrackEvent) : MidiTrackEvent :=
  mkEvent (deltaTime e) (type e) (label e) (data e) (metaType e) (metaEventLength e) c.

Record Track : Type := mkTrack {
  chunkType : string;
  chunkLength : Z;
  events : list MidiTrackEvent
}.

Record Header : Type := mkHeader {
  h_type : string;
  h_chunkLength : Z;
  h_format : Z;
  h_trackCount : Z;
  h_framesPerSecond : option Z;
  h_ticksPerFrame : option Z;
  h_timeDivision : option Z
}.

(** The fields of an [AudioMIDI] instance besides its byte cursor. *)
Record AudioMIDI : Type := mkAudioMIDI {
  format : Z;
  trackCount : Z;
  timeDivision : option Z;
  chunks : list Track
}.

(** ** Label tables *)

Definition controller_labels : list (Z * string) :=
  [ (0, "Bank Select (MSB)");
    (1, "Modulation Wheel (MSB)");
    (2, "Breath Controller (MSB)");
    (4, "Foot Controller (MSB)");
    (5, "Portamento Time (MSB)");
    (6, "Data Entry (MSB)");
    (7, "Volume (MSB)");
    (8, "Balance (MSB)");
    (10, "Pan (MSB)");
    (11, "Expression Controller (MSB)");
    (12, "Effect Control 1 (MSB)");
    (13, "Effect Control 2 (MSB)");
    (16, "General Purpose Controller 1 (MSB)");
    (17, "General Purpose Controller 2 (MSB)");
    (18, "General Purpose Controller 3 (MSB)");
    (19, "General Purpose Controller 4 (MSB)");
    (32, "Bank Select (LSB)");
    (33, "Modulation Wheel (LSB)");
    (34, "Breath Controller (LSB)");
    (36, "Foot Controller (LSB)");
    (37, "Portamento Time (LSB)");
    (38, "Data Entry (LSB)");
    (39, "Volume (LSB)");
    (40, "Balance (LSB)");
    (42, "Pan (LSB)");
    (43, "Expression Controller (LSB)");
    (44, "Effect Control 1 (LSB)");
    (45, "Effect Control 2 (LSB)");
    (48, "General Purpose Controller 1 (LSB)");
    (49, "General Purpose Controller 2 (LSB)");
    (50, "General Purpose #3 LSB");
    (51, "General Purpose #4 LSB");
    (64, "Hold Pedal #1");
    (65, "Portamento (GS)");
    (66, "Sostenuto (GS)");
    (67, "Soft Pedal (GS)");
    (68, "Legato Pedal");
    (69, "Hold Pedal #2");
    (70, "Sound Variation");
    (71, "Sound Timbre");
    (72, "Sound Release Time");
    (73, "Sound Attack Time");
    (74, "Sound Brightness");
    (75, "Sound Control #6");
    (76, "Sound Control #7");
    (77, "Sound Control #8");
    (78, "Sound Control #9");
    (79, "Sound Control #10");
    (80, "GP Control #5");
    (81, "GP Control #6");
    (82, "GP Control #7");
    (83, "GP Control #8");
    (84, "Portamento Control (GS)");
    (91, "Reverb Level (GS)");
    (92, "Tremolo Depth");
    (93, "Chorus Level (GS)");
    (94, "Celeste Depth");
    (95, "Phaser Depth");
    (96, "Data Increment");
    (97, "Data Decrement");
    (98, "NRPN Parameter LSB (GS)");
    (99, "NRPN Parameter MSB (GS)");
    (100, "RPN Parameter LSB");
    (101, "RPN Parameter MSB");
    (120, "All Sound Off (GS)");
    (121, "Reset All Controllers");
    (122, "Local On/Off");
    (123, "All Notes Off");
    (124, "Omni Mode Off");
    (125, "Omni Mode On");
    (126, "Mono Mode On");
    (127, "Poly Mode On") ].

Definition manufacturers : list (Z * string) :=
  [ (1, "Sequential Circuits");
    (2, "Big Briar");
    (3, "Octave/Plateau");
    (4, "Moog");
    (5, "Passport Designs");
    (6, "Lexicon");
    (7, "Kurzweil");
    (8, "Fender");
    (9, "Gulbransen");
    (10, "Delta Labs");
    (11, "Sound Comp");
    (12, "General Electro");
    (13, "Matthews Research");
    (14, "Effect control 2");
    (16, "Oberheim");
    (17, "PAIA");
    (18, "Simmons");
    (19, "DigiDesign");
    (20, "Fairlight");
    (21, "JL Cooper");
    (22, "Lowery");
    (23, "Lin");
    (24, "Emu");
    (27, "Peavey");
    (32, "BonTempi");
    (33, "S.I.E.L.");
    (35, "SyntheAxe");
    (36, "Hohner");
    (37, "Crumar");
    (38, "Solton");
    (39, "Jellinghaus Ms");
    (40, "CTS");
    (41, "PPG");
    (47, "Elka");
    (54, "Cheetah");
    (62, "Waldorf");
    (64, "Kawai");
    (65, "Roland");
    (66, "Korg");
    (67, "Yamaha");
    (68, "Casio");
    (70, "Kamiya Studio");
    (71, "Akai");
    (72, "Victor");
    (75, "Fujitsu");
    (76, "Sony");
    (78, "Teac");
    (80, "Matsushita");
    (81, "Fostex");
    (82, "Zoom");
    (84, "Matsushita");
    (85, "Suzuki");
    (86, "Fuji Sound");
    (87, "Acoustic Technical Laboratory");
    (126, "Universal Non Realtime Message (UNRT)");
    (127, "Universal Realtime Message (URT)") ].

Fixpoint table_get {A : Type} (k : Z) (l : list (Z * A)) : option A :=
  match l with
  | [] => None
  | (k', v) :: l' => if k =? k' then Some v else table_get k l'
  end.

Definition getControllerLabel (controller : option Z) : string :=
  match controller with
  | Some c =>
      match table_get c controller_labels with
      | Some l => l
      | None => "Unknown Controller: " +:+ template controller
      end
  | None => "Unknown Controller: " +:+ template controller
  end.

(** An identifier that is not in the table is rendered in hexadecimal; that
    is a method call on the identifier, which fails on [undefined]. *)
Definition getManufacturerLabel (manufacturerId : option Z) : outcome string :=
  match manufacturerId with
  | Some m =>
      match table_get m manufacturers with
      | Some l => Ok l
      | None => Ok ("Unknown Manufacturer: " +:+ Js.toHexUpper m)
      end
  | None => Throw TypeError
  end.

Definition key_names : list (Z * string) :=
  [ (-7, "C♭"); (-6, "G♭"); (-5, "D♭"); (-4, "A♭"); (-3, "E♭"); (-2, "B♭");
    (-1, "F"); (0, "C"); (1, "G"); (2, "D"); (3, "A"); (4, "E"); (5, "B");
    (6, "F♯"); (7, "C♯") ].

Definition frameRates : list (Z * JsValue) :=
  [ (0, VNum 24); (1, VNum 25); (2, VFrac 2997 100); (3, VNum 30) ].

(** ** Decoding *)

Definition run_reader {A : Type} (m : DataBuffer.reader A) (b : DataBuffer.t)
  : outcome A :=
  match m b with
  | Ok (a, _) => Ok a
  | Throw e => Throw e
  | OutOfFuel => OutOfFuel
  end.

(** [decodeHeader(chunk)]: the chunk is read through a stream over a single
    buffer, whose reads are big-endian on every host. *)
Definition decodeHeader (chunk : list Z) : outcome Header :=
  run_reader
    (let* type := DataBuffer.readString 4 in
     let* chunkLength := DataBuffer.readUInt32 in
     let* format := DataBuffer.readUInt16 in
     let* trackCount := DataBuffer.readUInt16 in
     let* timeDivisionByte1 := DataBuffer.readUInt8 in
     let* timeDivisionByte2 := DataBuffer.readUInt8 in
     let b1 := default 0 timeDivisionByte1 in
     let b2 := default 0 timeDivisionByte2 in
     if b1 >=? 128
     then ret (mkHeader type chunkLength format trackCount
                 (Some (b1 - 128)) (Some b2) None)
     else ret (mkHeader type chunkLength format trackCount
                 None None (Some (b1 * 256 + b2))))
    (DataBuffer.new chunk).

(** An entry of the [activeNotes] map of [parse]; [noteOnEvent] is the
    reference to the Note On event object. *)
Record NoteOnData : Type := mkNoteOnData {
  startTime : Z;
  velocity : option Z;
  noteOnEvent : nat
}.

(** What [parse] mutates while it runs.  Event objects live in [heap] in the
    order of their creation, and both the track's [events] array and the
    [activeNotes] map refer to them by position, so that the assignment to a
    Note On's [data.length] is seen through the track as well. *)
Record ParseState : Type := mkParseState {
  buf : DataBuffer.t;
  currentTime : Z;
  activeNotes : gmap (option Z) NoteOnData;
  heap : list MidiTrackEvent
}.

Definition parser (A : Type) : Type := M ParseState A.

(** A read on the instance's own buffer. *)
Definition this {A : Type} (m : DataBuffer.reader A) : parser A := fun st =>
  match m (buf st) with
  | Ok (a, b') => Ok (a, mkParseState b' (currentTime st) (activeNotes st) (heap st))
  | Throw e => Throw e
  | OutOfFuel => OutOfFuel
  end.

Definition lift {S A : Type} (o : outcome A) : M S A := fun s =>
  match o with
  | Ok a => Ok (a, s)
  | Throw e => Throw e
  | OutOfFuel => OutOfFuel
  end.

Definition get_state : parser ParseState := fun st => Ok (st, st).

Definition add_time (delta : Z) : parser unit := fun st =>
  Ok (tt, mkParseState (buf st) (currentTime st + delta) (activeNotes st) (heap st)).

Definition set_activeNotes (m : gmap (option Z) NoteOnData) : parser unit := fun st =>
  Ok (tt, mkParseState (buf st) (currentTime st) m (heap st)).

(** [ref.data.length = len] on the event object behind [ref]. *)
Definition patch_length (ref : nat) (len : Z) : parser unit := fun st =>
  Ok (tt, mkParseState (buf st) (currentTime st) (activeNotes st)
            (alter (fun e => set_data (set_field "length" (VNum len) (data e)) e)
                   ref (heap st))).

(** [track.events.push(event)]: the object gets its place in the heap and the
    track keeps the reference. *)
Definition push_event (e : MidiTrackEvent) : parser nat := fun st =>
  Ok (length (heap st),
      mkParseState (buf st) (currentTime st) (activeNotes st) (heap st ++ [e])).

(** The cases 0xF3 to 0xFE: a length, then that many bytes. *)
Definition length_prefixed (l : option string) (e : MidiTrackEvent)
  : parser MidiTrackEvent :=
  let* len := this readVariableLengthValues in
  let* d := this (DataBuffer.read len) in
  ret (match l with
       | Some s => set_label s (set_data (VBytes d) e)
       | None => set_data (VBytes d) e
       end).

Definition text_event (l : string) (e : MidiTrackEvent) : parser MidiTrackEvent :=
  let* s := this (DataBuffer.readString (default 0 (metaEventLength e))) in
  ret (set_label l (set_data (VStr s) e)).

(** [Math.round(60000000 / tempo)]: the quotient of two integers below 2^26
    is never within a rounding error of a half, so integer arithmetic gives
    the same result. *)
Definition bpm_of (tempo : JsValue) : JsValue :=
  match tempo with
  | VNum t =>
      if t =? 0 then VInfinity else VNum ((120000000 + t) / (2 * t))
  | _ => VNaN
  end.

(** The [case 0xFF] of the event switch. *)
Definition meta_event (self_trackCount : Z) (e0 : MidiTrackEvent)
  : parser MidiTrackEvent :=
  let e := set_type (Some 255) e0 in
  let* mt := this DataBuffer.readUInt8 in
  let e := set_metaType mt e in
  let* len := this readVariableLengthValues in
  let e := set_metaEventLength (Some len) e in
  match mt with
  | Some 0 =>
      let* (sequenceNumber, ty) :=
        if len =? 2 then
          let* byte1 := this DataBuffer.readUInt8 in
          let* byte2 := this DataBuffer.readUInt8 in
          ret (js_plus (VNum (Js.shl (Js.int32_of byte1) 8)) byte2, "Provided")
        else
          run this (DataBuffer.advance 1) in
          ret (VNum self_trackCount, "Next Track Index")
      in
      ret (set_label "Sequence Number"
             (set_data (VObj [("sequenceNumber", sequenceNumber); ("type", VStr ty)]) e))
  | Some 1 => text_event "Text Event" e
  | Some 2 => text_event "Copyright Notice" e
  | Some 3 => text_event "Sequence / Track Name" e
  | Some 4 => text_event "Instrument Name" e
  | Some 5 => text_event "Lyrics" e
  | Some 6 => text_event "Marker" e
  | Some 7 => text_event "Cue Point" e
  | Some 8 => text_event "Program Name" e
  | Some 9 => text_event "Device (Port) Name" e
  | Some 32 =>
      let* d := this DataBuffer.readUInt8 in
      ret (set_label "Channel Prefix" (set_data (jv d) e))
  | Some 33 =>
      let* d := this DataBuffer.readUInt8 in
      ret (set_label "MIDI Port" (set_data (jv d) e))
  | Some 47 =>
      ret (set_label "End of Track" (set_data (VStr EmptyString) e))
  | Some 75 =>
      let* tag := this DataBuffer.readUInt8 in
      let tagLabel :=
        match tag with
        | Some 1 => "Genre"
        | Some 2 => "Artist"
        | Some 3 => "Composer"
        | Some 4 => "Duration (seconds)"
        | Some 5 => "BPM (Tempo)"
        | _ => "Unknown Tag: undefined"
        end in
      let* tagValue := this (DataBuffer.read len) in
      ret (set_label "M-Live Tag"
             (set_data (VObj [("tag", jv tag); ("tagLabel", VStr tagLabel);
                              ("tagValue", VBytes tagValue)]) e))
  | Some 81 =>
      if negb (len =? 3) then
        let* d := this (DataBuffer.read len) in
        ret (set_data (VBytes d) e)
      else
        let* byte1 := this DataBuffer.readUInt8 in
        let* byte2 := this DataBuffer.readUInt8 in
        let* byte3 := this DataBuffer.readUInt8 in
        let tempo :=
          js_plus (VNum (Js.shl (Js.int32_of byte1) 16 + Js.shl (Js.int32_of byte2) 8))
                  byte3 in
        ret (set_label "Set Tempo"
               (set_data (VObj [("byte1", jv byte1); ("byte2", jv byte2);
                                ("byte3", jv byte3); ("tempo", tempo);
                                ("bpm", bpm_of tempo)]) e))
  | Some 84 =>
      let* hourByte := this DataBuffer.readUInt8 in
      let* minute := this DataBuffer.readUInt8 in
      let* second := this DataBuffer.readUInt8 in
      let* frame := this DataBuffer.readUInt8 in
      let* subFrame := this DataBuffer.readUInt8 in
      let frameRateBits := Js.and (Js.sar (Js.int32_of hourByte) 5) 3 in
      let frameRate :=
        default (VStr ("Unknown Frame Rate: " +:+ Js.toString frameRateBits))
                (table_get frameRateBits frameRates) in
      let hour := Js.and (Js.int32_of hourByte) 31 in
      ret (set_label "SMPTE Offset"
             (set_data (VObj [("hourByte", jv hourByte); ("hour", VNum hour);
                              ("minute", jv minute); ("second", jv second);
                              ("frame", jv frame); ("subFrame", jv subFrame);
                              ("frameRate", frameRate)]) e))
  | Some 88 =>
      let* numerator := this DataBuffer.readUInt8 in
      let* denominator := this DataBuffer.readUInt8 in
      let* metronome := this DataBuffer.readUInt8 in
      let* thirtySecondNotes := this DataBuffer.readUInt8 in
      ret (set_label "Time Signature"
             (set_data (VObj [("numerator", jv numerator);
                              ("denominator", jv denominator);
                              ("metronome", jv metronome);
                              ("thirtySecondNotes", jv thirtySecondNotes)]) e))
  | Some 89 =>
      if negb (len =? 2) then
        let* d := this (DataBuffer.read len) in
        ret (set_data (VBytes d) e)
      else
        let* keySignature := this DataBuffer.readUInt8 in
        let* majorOrMinor := this DataBuffer.readUInt8 in
        let keyName :=
          match keySignature with
          | Some k => default "Unknown Key" (table_get k key_names)
          | None => "Unknown Key"
          end in
        let mode :=
          match majorOrMinor with
          | Some 0 => "Major"
          | _ => "Minor"
          end in
        ret (set_label "Key Signature"
               (set_data (VObj [("keySignature", jv keySignature);
                                ("majorOrMinor", jv majorOrMinor);
                                ("keyName", VStr keyName);
                                ("mode", VStr mode)]) e))
  | Some 127 =>
      let* d := this (DataBuffer.read len) in
      ret (set_label "Sequencer Specific" (set_data (VBytes d) e))
  | Some _ =>
      let* d := this (DataBuffer.read len) in
      ret (set_data (VBytes d) e)
  | None =>
      (* the default case renders the meta type in hexadecimal first *)
      throw TypeError
  end.

Definition note_data (note velocity : JsValue) : JsValue :=
  VObj [("note", note); ("velocity", velocity)].

(** The [default] case of the event switch: channel events, by the upper
    four bits of the status byte. *)
Definition channel_event (eventType : option Z) (e0 : MidiTrackEvent)
  : parser MidiTrackEvent :=
  let e := set_type eventType e0 in
  let e := set_channel (Some (Js.and (Js.int32_of eventType) 15)) e in
  let type := Js.and (Js.sar (Js.int32_of eventType) 4) 15 in
  match type with
  | 8 =>
      let* note := this DataBuffer.readUInt8 in
      let* velocity := this DataBuffer.readUInt8 in
      let* st := get_state in
      match activeNotes st !! note with
      | Some noteOnData =>
          let noteLength := currentTime st - startTime noteOnData in
          run patch_length (noteOnEvent noteOnData) noteLength in
          run set_activeNotes (delete note (activeNotes st)) in
          ret (set_label "Note Off"
                 (set_data (VObj [("note", VStr (template note));
                                  ("velocity", jv velocity);
                                  ("length", VNum noteLength)]) e))
      | None =>
          ret (set_label "Note Off"
                 (set_data (VObj [("note", VStr (template note));
                                  ("velocity", jv velocity);
                                  ("length", VNum 0)]) e))
      end
  | 9 =>
      let* note := this DataBuffer.readUInt8 in
      let* velocity := this DataBuffer.readUInt8 in
      let* st := get_state in
      (* the event is pushed at the end of this round: its reference is the
         next free place of the heap *)
      run set_activeNotes
            (<[note := mkNoteOnData (currentTime st) velocity (length (heap st))]>
               (activeNotes st)) in
      ret (set_label "Note On" (set_data (note_data (jv note) (jv velocity)) e))
  | 10 =>
      let* note := this DataBuffer.readUInt8 in
      let* velocity := this DataBuffer.readUInt8 in
      ret (set_label "Note Aftertouch" (set_data (note_data (jv note) (jv velocity)) e))
  | 11 =>
      let* controller := this DataBuffer.readUInt8 in
      let* value := this DataBuffer.readUInt8 in
      ret (set_label "Controller"
             (set_data (VObj [("controller", jv controller); ("value", jv value);
                              ("label", VStr (getControllerLabel controller))]) e))
  | 12 =>
      let* d := this DataBuffer.readUInt8 in
      ret (set_label "Program Change" (set_data (jv d) e))
  | 13 =>
      let* d := this DataBuffer.readUInt8 in
      ret (set_label "Channel Aftertouch" (set_data (jv d) e))
  | 14 =>
      let* firstByte := this DataBuffer.readUInt8 in
      let* secondByte := this DataBuffer.readUInt8 in
      let pitchValue := js_plus (VNum (Js.shl (Js.int32_of secondByte) 7)) firstByte in
      ret (set_label "Pitch Bend Event"
             (set_data (VObj [("pitchValue", pitchValue); ("firstByte", jv firstByte);
                              ("secondByte", jv secondByte)]) e))
  | 15 => length_prefixed None e
  | _ => ret e
  end.

(** The bytes of a System Exclusive event up to the 0xF7 that ends it; one
    byte is read per round. *)
Fixpoint sysex_data (fuel : nat) (acc : list JsValue) : parser (list JsValue) :=
  match fuel with
  | O => fun _ => OutOfFuel
  | S f =>
      let* byte := this DataBuffer.readUInt8 in
      match byte with
      | Some 247 => ret acc
      | _ => sysex_data f (acc ++ [jv byte])
      end
  end.

(** The event switch. *)
Definition decode_event (self_trackCount : Z) (eventType : option Z)
    (e : MidiTrackEvent) : parser MidiTrackEvent :=
  match eventType with
  | Some 240 =>
      let* manufacturerId := this DataBuffer.readUInt8 in
      let* manufacturerLabel := lift (getManufacturerLabel manufacturerId) in
      let* st := get_state in
      let* bytes := sysex_data (S (Z.to_nat (DataBuffer.remainingBytes (buf st)))) [] in
      ret (set_data (VObj [("manufacturerId", jv manufacturerId);
                           ("manufacturerLabel", VStr manufacturerLabel);
                           ("data", VArr bytes)]) e)
  | Some 242 =>
      let* msb := this DataBuffer.readUInt8 in
      let* lsb := this DataBuffer.readUInt8 in
      ret (set_label "Song Position Pointer"
             (set_data (VObj [("msb", jv msb); ("lsb", jv lsb)]) e))
  | Some 243 => length_prefixed (Some "System Common Messages - Song Select") e
  | Some 244 => length_prefixed (Some "System Real Time Messages - Undefined 0xF4 (Reserved)") e
  | Some 245 => length_prefixed (Some "System Real Time Messages - Undefined 0xF5 (Reserved)") e
  | Some 246 => length_prefixed (Some "System Common Messages - Tune Request") e
  | Some 247 => length_prefixed (Some "System Common Messages - EOX") e
  | Some 248 => length_prefixed (Some "System Real Time Messages - MIDI Clock") e
  | Some 249 => length_prefixed (Some "System Real Time Messages - Undefined 0xF9 (Reserved)") e
  | Some 250 => length_prefixed (Some "System Real Time Messages - Start") e
  | Some 251 => length_prefixed (Some "System Real Time Messages - Continue") e
  | Some 252 => length_prefixed (Some "System Real Time Messages - Stop") e
  | Some 253 => length_prefixed (Some "System Real Time Messages - Undefined 0xFD (Reserved)") e
  | Some 254 => length_prefixed (Some "System Real Time Messages - Active Sensing") e
  | Some 255 => meta_event self_trackCount e
  | _ => channel_event eventType e
  end.

(** One round of the event loop of a track; it returns the reference of the
    event it pushed and the status byte now in force. *)
Definition track_event (self_trackCount : Z) (laststatusByte : option Z)
  : parser (nat * option Z) :=
  let* delta := this readVariableLengthValues in
  run add_time delta in
  let* eventType := this DataBuffer.readUInt8 in
  let* status :=
    if default false ((fun x => x >=? 128) <$> eventType)
    then ret eventType
    else run this (DataBuffer.rewind 1) in ret laststatusByte
  in
  let* event := decode_event self_trackCount status (newEvent delta) in
  let* ref := push_event event in
  ret (ref, status).

(** [while (this.remainingBytes() > 0) { ... }] *)
Fixpoint track_events (fuel : nat) (self_trackCount : Z)
    (laststatusByte : option Z) (refs : list nat) : parser (list nat) :=
  fun st =>
    if DataBuffer.remainingBytes (buf st) >? 0 then
      match fuel with
      | O => OutOfFuel
      | S f =>
          (let* (ref, status) := track_event self_trackCount laststatusByte in
           track_events f self_trackCount status (refs ++ [ref])) st
      end
    else Ok (refs, st).

(** A track while [parse] runs: its events are references. *)
Record TrackRefs : Type := mkTrackRefs {
  r_type : string;
  r_chunkLength : Z;
  r_events : list nat
}.

(** [for (let t = 0; t < header.trackCount; t++) { ... }], with [n] the
    number of rounds still to go. *)
Fixpoint parse_tracks (fuel : nat) (self_trackCount : Z) (n : nat)
    (done : list TrackRefs) : parser (list TrackRefs) :=
  match n with
  | O => ret done
  | S n' =>
      fun st =>
        if DataBuffer.remainingBytes (buf st) =? 0 then Ok (done, st)
        else
          (let* ty := this (DataBuffer.readString 4) in
           let* len := this DataBuffer.readUInt32 in
           if negb (String.eqb ty "MTrk") then ret done
           else
             let* refs := track_events fuel self_trackCount None [] in
             parse_tracks fuel self_trackCount n'
               (done ++ [mkTrackRefs ty len refs])) st
  end.

(** The event objects a track's array holds once parsing is over. *)
Definition resolve (h : list MidiTrackEvent) (t : TrackRefs) : Track :=
  mkTrack (r_type t) (r_chunkLength t) (omap (fun r => h !! r) (r_events t)).

(** [new AudioMIDI(input).parse()]: the instance after the call.  [fuel]
    bounds the rounds of each track's event loop. *)
Definition parse (fuel : nat) (input : list Z) : outcome AudioMIDI :=
  let b := DataBuffer.new input in
  match DataBuffer.read 14 b with
  | Ok (chunk, b') =>
      match decodeHeader chunk with
      | Ok header =>
          match parse_tracks fuel (h_trackCount header)
                  (Z.to_nat (h_trackCount header)) []
                  (mkParseState b' 0 ∅ []) with
          | Ok (tracks, st) =>
              Ok (mkAudioMIDI (h_format header) (h_trackCount header)
                    (h_timeDivision header) (map (resolve (heap st)) tracks))
          | Throw e => Throw e
          | OutOfFuel => OutOfFuel
          end
      | Throw e => Throw e
      | OutOfFuel => OutOfFuel
      end
  | Throw e => Throw e
  | OutOfFuel => OutOfFuel
  end.

(** ** Encoding *)

(** [ToNumber] of a string, for decimal integers; [None] is [NaN].
    Hexadecimal, fractional and exponent literals are not part of the
    model and read as [NaN]. *)
Definition string_to_number (s : string) : option Z :=
  let t := Js.skip_spaces s in
  match t with
  | EmptyString => Some 0
  | String "-" r =>
      if forallb Js.is_digit (list_ascii_of_string r) && negb (String.eqb r EmptyString)
      then Js.parseInt t else None
  | _ =>
      if forallb Js.is_digit (list_ascii_of_string t) then Js.parseInt t else None
  end.

(** [ToNumber], truncated to an integer; [None] is [NaN]. *)
Fixpoint to_integer (v : JsValue) : option Z :=
  match v with
  | VNum z => Some z
  | VFrac n d => Some (Z.quot n d)
  | VStr s => string_to_number s
  | VBytes [] => Some 0
  | VBytes [x] => Some x
  | VArr [] => Some 0
  | VArr [x] => to_integer x
  | _ => None
  end.

(** The byte a value becomes in a [Uint8Array]. *)
Definition to_byte (v : JsValue) : Z := Js.to_uint8 (default 0 (to_integer v)).

(** [ToInt32] of a value, as the bitwise operators apply it. *)
Definition to_int32_value (v : JsValue) : Z := Js.to_int32 (default 0 (to_integer v)).

(** [new TextEncoder().encode(s)] for code units below 256. *)
Definition utf8_encode (s : string) : list Z :=
  flat_map (fun c => if c <? 128 then [c]
                     else [Z.lor 192 (Z.shiftr c 6); Z.lor 128 (Z.land c 63)])
           (DataBuffer.char_codes s).

Definition is_undefined (v : JsValue) : bool :=
  match v with
  | VUndefined => true
  | _ => false
  end.

(** [typeof v === 'object'] *)
Definition is_object (v : JsValue) : bool :=
  match v with
  | VBytes _ | VArr _ | VObj _ => true
  | _ => false
  end.

Definition writeEventData (d : JsValue) : DataBuffer.writer unit :=
  match d with
  | VBytes bs => DataBuffer.writeBytes bs
  | VArr l =>
      if existsb is_undefined l
      then throw (Error "Invalid data")
      else
        (fix each (l : list JsValue) : DataBuffer.writer unit :=
           match l with
           | [] => ret tt
           | byte :: l' => run DataBuffer.writeUInt8 (to_byte byte) in each l'
           end) l
  | VStr s => DataBuffer.writeBytes (utf8_encode s)
  | _ => throw (Error "Invalid writeEventData")
  end.

(** [d.k]: reading a property of [undefined] is a [TypeError]. *)
Definition prop {S : Type} (k : string) (d : JsValue) : M S JsValue :=
  match d with
  | VUndefined => throw TypeError
  | _ => ret (get_field k d)
  end.

(** The status byte computed by [writeEvent]. *)
Definition statusByte_of (e : MidiTrackEvent) : option Z :=
  match channel e with
  | Some c => Some (Js.or (Js.int32_of (type e)) (Js.and c 15))
  | None => type e
  end.

(** The meta part of [writeEvent], after the meta type and length. *)
Definition writeMetaData (mt : option Z) (d : JsValue) : DataBuffer.writer unit :=
  match mt with
  | Some 0 =>
      let* sequenceNumber := prop "sequenceNumber" d in
      if negb (truthy sequenceNumber) then throw (Error "Invalid sequenceNumber")
      else writeEventData
             (VArr [VNum (Js.sar (to_int32_value sequenceNumber) 8);
                    VNum (Js.and (to_int32_value sequenceNumber) 255)])
  | Some 1 | Some 2 | Some 3 | Some 4 | Some 5 | Some 6 | Some 7 | Some 8 | Some 9 =>
      if negb (truthy d) then throw (Error "Invalid text data")
      else writeEventData d
  | Some 32 | Some 33 =>
      if negb (truthy d) then throw (Error "Invalid data")
      else DataBuffer.writeUInt8 (to_byte d)
  | Some 47 => ret tt
  | Some 81 =>
      if negb (truthy d) then throw (Error "Invalid data")
      else writeEventData
             (VArr [get_field "byte1" d; get_field "byte2" d; get_field "byte3" d])
  | Some 84 =>
      if negb (truthy d) then throw (Error "Invalid data")
      else writeEventData
             (VArr [get_field "hourByte" d; get_field "minute" d; get_field "second" d;
                    get_field "frame" d; get_field "subFrame" d])
  | Some 88 =>
      let* numerator := prop "numerator" d in
      let* denominator := prop "denominator" d in
      let* metronome := prop "metronome" d in
      let* thirtySecondNotes := prop "thirtySecondNotes" d in
      if negb (truthy numerator) || negb (truthy denominator)
         || negb (truthy metronome) || negb (truthy thirtySecondNotes)
      then throw (Error "Invalid numerator or denominator or metronome or thirtySecondNotes")
      else writeEventData (VArr [numerator; denominator; metronome; thirtySecondNotes])
  | Some 89 =>
      let* keySignature := prop "keySignature" d in
      let* majorOrMinor := prop "majorOrMinor" d in
      if negb (truthy keySignature) || negb (truthy majorOrMinor)
      then throw (Error "Invalid data or majorOrMino")
      else writeEventData (VArr [keySignature; majorOrMinor])
  | Some 127 =>
      if negb (truthy d) then throw (Error "Invalid data")
      else writeEventData d
  | Some _ => ret tt
  | None => throw TypeError
  end.

Definition writeEvent (event : MidiTrackEvent) : DataBuffer.writer unit :=
  let d := data event in
  let statusByte := statusByte_of event in
  if negb (truthy (jv statusByte)) then throw (Error "Invalid status byte")
  else if is_undefined (jv (deltaTime event)) then throw (Error "Invalid delta time")
  else
    run writeVariableLengthValue (deltaTime event) in
    run DataBuffer.writeUInt8 (default 0 statusByte) in
    match type event with
    | Some 128 | Some 144 | Some 160 =>
        if negb (is_object d) || negb (has_field "note" d)
           || is_undefined (get_field "note" d)
        then throw (Error "Invalid note value")
        else if negb (is_object d) || negb (has_field "velocity" d)
                || is_undefined (get_field "velocity" d)
        then throw (Error "Invalid velocity / pressure value")
        else writeEventData (VArr [get_field "note" d; get_field "velocity" d])
    | Some 176 =>
        let* controllerNumber := prop "controllerNumber" d in
        if negb (truthy controllerNumber) then throw (Error "Invalid controller number or value")
        else
          let* value := prop "value" d in
          if negb (truthy value) then throw (Error "Invalid controller number or value")
          else writeEventData (VArr [controllerNumber; value])
    | Some 192 =>
        let* programNumber := prop "programNumber" d in
        if negb (truthy programNumber) then throw (Error "Invalid programNumber")
        else writeEventData (VArr [programNumber])
    | Some 208 =>
        let* pressureAmount := prop "pressureAmount" d in
        if negb (truthy pressureAmount) then throw (Error "Invalid pressureAmount")
        else writeEventData (VArr [pressureAmount])
    | Some 224 =>
        let* lsb := prop "lsb" d in
        let* msb := prop "msb" d in
        if negb (truthy lsb) || negb (truthy msb) then throw (Error "Invalid lsb or msb")
        else writeEventData (VArr [lsb; msb])
    | Some 240 =>
        if negb (is_object d) || negb (has_field "manufacturerId" d)
           || negb (truthy (get_field "manufacturerId" d))
           || negb (has_field "data" d) || negb (truthy (get_field "data" d))
        then
          (* the message reads [data.manufacturerId] *)
          run @prop DataBuffer.Writer "manufacturerId" d in
          throw (Error "Invalid manufacturerId or data")
        else
          run DataBuffer.writeUInt8 (to_byte (get_field "manufacturerId" d)) in
          run writeEventData (get_field "data" d) in
          DataBuffer.writeUInt8 247
    | Some 243 =>
        let* songNumber := prop "songNumber" d in
        if negb (truthy songNumber) then throw (Error "Invalid songNumber")
        else writeEventData (VArr [songNumber])
    | Some 246 | Some 247 => ret tt
    | Some 248 | Some 250 | Some 251 | Some 252 | Some 254 => ret tt
    | Some 255 =>
        run DataBuffer.writeUInt8 (default 0 (metaType event)) in
        run writeVariableLengthValue (metaEventLength event) in
        writeMetaData (metaType event) d
    | Some _ => ret tt
    | None => throw TypeError
    end.

Fixpoint writeEvents (evs : list MidiTrackEvent) : DataBuffer.writer unit :=
  match evs with
  | [] => ret tt
  | e :: evs' => run writeEvent e in writeEvents evs'
  end.

Definition get_offset : DataBuffer.writer Z := fun w => Ok (DataBuffer.woffset w, w).

(** [writeChunk(dataBuffer, chunk)]; it returns the chunk, whose
    [chunkLength] it updates. *)
Definition writeChunk (chunk : Track) : DataBuffer.writer Track :=
  if String.eqb (chunkType chunk) "MTrk" then
    run DataBuffer.writeString "MTrk" in
    let* chunkLengthPosition := get_offset in
    run DataBuffer.writeUInt32 0 in
    let* startPosition := get_offset in
    run writeEvents (events chunk) in
    let* endPosition := get_offset in
    let chunkLength := endPosition - startPosition in
    run DataBuffer.wseek chunkLengthPosition in
    run DataBuffer.writeUInt32 chunkLength in
    run DataBuffer.wseek endPosition in
    ret (mkTrack (chunkType chunk) chunkLength (events chunk))
  else ret chunk.

Fixpoint writeChunks (cs : list Track) : DataBuffer.writer (list Track) :=
  match cs with
  | [] => ret []
  | c :: cs' =>
      let* c' := writeChunk c in
      let* rest := writeChunks cs' in
      ret (c' :: rest)
  end.

(** [saveToDataBuffer()]: the bytes of the committed buffer, and the instance
    with the chunk lengths the call stored. *)
Definition saveToDataBuffer (self : AudioMIDI) : outcome (list Z * AudioMIDI) :=
  match
    (run DataBuffer.writeString "MThd" in
     run DataBuffer.writeUInt32 6 in
     run DataBuffer.writeUInt16 (format self) in
     run DataBuffer.writeUInt16 (trackCount self) in
     run DataBuffer.writeUInt16 (default 0 (timeDivision self)) in
     writeChunks (chunks self)) DataBuffer.newWriter
  with
  | Ok (cs, w) =>
      Ok (DataBuffer.commit w,
          mkAudioMIDI (format self) (trackCount self) (timeDivision self) cs)
  | Throw e => Throw e
  | OutOfFuel => OutOfFuel
  end.

(** ** Note names *)

Definition noteNames : list string :=
  ["C"; "C#"; "D"; "D#"; "E"; "F"; "F#"; "G"; "G#"; "A"; "A#"; "B"].

Definition noteMap : list (string * Z) :=
  [("C", 0); ("C#", 1); ("D", 2); ("D#", 3); ("E", 4); ("E#", 5); ("F", 5);
   ("F#", 6); ("G", 7); ("G#", 8); ("A", 9); ("A#", 10); ("B", 11); ("B#", 0)].

(** [midiToNote(midiValue, octaveOffset, noteNames)] *)
Definition midiToNote (midiValue : Z) (octaveOffset : Z) (names : list string)
  : outcome string :=
  if (midiValue <? 0) || (midiValue >? 127)
  then Throw (Error "Invalid MIDI value")
  else
    let noteIndex := midiValue mod 12 in
    let octave := midiValue / 12 - octaveOffset in
    Ok (default "undefined" (names !! Z.to_nat noteIndex) +:+ Js.toString octave).

(** The groups of a match of [/^([A-G]#?)(-?\d+)$/]. *)
Definition match_note (noteString : string) : option (string * string) :=
  match noteString with
  | String c rest =>
      let n := Z.of_N (N_of_ascii c) in
      if (65 <=? n) && (n <=? 71) then
        let '(note, rest1) :=
          match rest with
          | String "#" r => (String c "#", r)
          | _ => (String c EmptyString, rest)
          end in
        let digits :=
          match rest1 with
          | String "-" r => r
          | _ => rest1
          end in
        if negb (String.eqb digits EmptyString)
           && forallb Js.is_digit (list_ascii_of_string digits)
        then Some (note, rest1)
        else None
      else None
  | EmptyString => None
  end.

(** [noteToMidi(noteString, octaveOffset, noteMap)]; the result [None] is
    [NaN], which a note missing from the map gives and which passes the
    range check. *)
Definition noteToMidi (noteString : string) (octaveOffset : Z)
    (map : list (string * Z)) : outcome (option Z) :=
  match match_note noteString with
  | None => Throw (Error "Invalid note format")
  | Some (note, octave) =>
      match Js.parseInt octave, assoc_get note map with
      | Some o, Some v =>
          let midiNumber := (o + octaveOffset) * 12 + v in
          if (midiNumber <? 0) || (midiNumber >? 127)
          then Throw (Error "Note out of valid MIDI range")
          else Ok (Some midiNumber)
      | _, _ => Ok None
      end
  end.

(** ** Queries on a parsed file *)

Record UsedNote : Type := mkUsedNote {
  noteNumber : Z;
  noteString : string
}.

(** [event?.type === 0.90]: the literal is the number nine tenths. *)
Definition is_literal_0_90 (t : option Z) : bool :=
  match t with
  | Some z => Qeq_bool (inject_Z z) (9 # 10)
  | None => false
  end.

(** [v > 0] *)
Definition gt0 (v : JsValue) : bool :=
  match v with
  | VInfinity => true
  | VFrac n d => 0 <? n * d
  | _ => match to_integer v with Some z => 0 <? z | None => false end
  end.

(** [parseInt(v, 10)]; [None] is [NaN]. *)
Fixpoint parseInt_value (v : JsValue) : option Z :=
  match v with
  | VNum z => Some z
  | VFrac n d => Some (Z.quot n d)
  | VStr s => Js.parseInt s
  | VBytes (x :: _) => Some x
  | VArr (x :: _) => parseInt_value x
  | _ => None
  end.

(** [noteNumbers.add(n)] on a set kept in insertion order. *)
Definition set_add (n : Z) (s : list Z) : list Z :=
  if existsb (Z.eqb n) s then s else s ++ [n].

Fixpoint insert_sorted (n : Z) (l : list Z) : list Z :=
  match l with
  | [] => [n]
  | x :: l' => if n <=? x then n :: l else x :: insert_sorted n l'
  end.

(** [[...s].sort((a, b) => a - b)] *)
Definition sort_numbers (s : list Z) : list Z := foldr insert_sorted [] s.

(** The note of a Note On that [getUsedNotes] adds to its set, if any.  A
    note that is neither a number nor a string is not a [NoteData] note and
    is skipped here. *)
Definition used_note_of (event : MidiTrackEvent) : option Z :=
  let d := data event in
  if is_object d && has_field "velocity" d && gt0 (get_field "velocity" d) then
    match get_field "note" d with
    | VStr s => Js.parseInt s
    | VNum z => Some z
    | _ => None
    end
  else None.

Definition collect_used_notes (cs : list Track) : list Z :=
  fold_left
    (fun acc track =>
       fold_left
         (fun acc event =>
            match used_note_of event with
            | Some n => set_add n acc
            | None => acc
            end)
         (List.filter (fun event => is_literal_0_90 (type event)) (events track))
         acc)
    cs [].

Fixpoint map_outcome {A B : Type} (f : A -> outcome B) (l : list A) : outcome (list B) :=
  match l with
  | [] => Ok []
  | x :: l' =>
      match f x with
      | Ok y =>
          match map_outcome f l' with
          | Ok ys => Ok (y :: ys)
          | Throw e => Throw e
          | OutOfFuel => OutOfFuel
          end
      | Throw e => Throw e
      | OutOfFuel => OutOfFuel
      end
  end.

Definition getUsedNotes (self : AudioMIDI) : outcome (list UsedNote) :=
  map_outcome
    (fun n =>
       match midiToNote n 2 noteNames with
       | Ok s => Ok (mkUsedNote n s)
       | Throw e => Throw e
       | OutOfFuel => OutOfFuel
       end)
    (sort_numbers (collect_used_notes (chunks self))).

(** ** Validation *)

(** The messages of [validate], by kind and with the values they print. *)
Inductive Issue : Type :=
| UnsupportedFormat (format : Z)
| TrackCountMismatch (trackCount : Z) (parsed : nat)
| UnknownChunkType (trackIndex : nat) (chunkType : string)
| ZeroLengthWithEvents (trackIndex : nat) (count : nat)
| LengthWithoutEvents (trackIndex : nat) (chunkLength : Z)
| NegativeDeltaTime (trackIndex eventIndex : nat) (deltaTime : Z)
| MissingNoteVelocity (trackIndex eventIndex : nat)
| MissingNoteForNoteOff (trackIndex eventIndex : nat)
| NoteOffNotActive (trackIndex eventIndex : nat) (note : option Z)
| MissingMetaType (trackIndex eventIndex : nat)
| BadMetaLength (trackIndex eventIndex : nat) (metaType : Z) (len : option Z)
| MissingEndOfTrack (trackIndex : nat)
| UnmatchedNoteOn (trackIndex : nat) (count : Z) (note : option Z).

(** The [Map] of [validate], in insertion order; a key [None] is [NaN]. *)
Definition NoteCounts : Type := list (option Z * Z).

Fixpoint counts_get (k : option Z) (m : NoteCounts) : option Z :=
  match m with
  | [] => None
  | (k', v) :: m' => if bool_decide (k = k') then Some v else counts_get k m'
  end.

Fixpoint counts_set (k : option Z) (v : Z) (m : NoteCounts) : NoteCounts :=
  match m with
  | [] => [(k, v)]
  | (k', v') :: m' =>
      if bool_decide (k = k') then (k, v) :: m' else (k', v') :: counts_set k v m'
  end.

(** [activeNotes.get(n) || 0] *)
Definition count_of (k : option Z) (m : NoteCounts) : Z := default 0 (counts_get k m).

(** What the pass over a track's events carries along. *)
Record TrackCheck : Type := mkTrackCheck {
  issues : list Issue;
  activeCounts : NoteCounts;
  gotEndOfTrack : bool
}.

Definition add_issue (i : Issue) (c : TrackCheck) : TrackCheck :=
  mkTrackCheck (issues c ++ [i]) (activeCounts c) (gotEndOfTrack c).

Definition set_count (k : option Z) (v : Z) (c : TrackCheck) : TrackCheck :=
  mkTrackCheck (issues c) (counts_set k v (activeCounts c)) (gotEndOfTrack c).

(** A Note Off, or a Note On with velocity 0, for [note]. *)
Definition release (trackIndex eventIndex : nat) (note : option Z) (c : TrackCheck)
  : TrackCheck :=
  let count := count_of note (activeCounts c) in
  if count <=? 0 then add_issue (NoteOffNotActive trackIndex eventIndex note) c
  else set_count note (count - 1) c.

Definition check_meta_length (trackIndex eventIndex : nat) (mt : Z)
    (len : option Z) (expected : list Z) (c : TrackCheck) : TrackCheck :=
  if existsb (fun x => bool_decide (len = Some x)) expected then c
  else add_issue (BadMetaLength trackIndex eventIndex mt len) c.

(** The body of [track.events.forEach((event, eventIndex) => ...)]. *)
Definition check_event (trackIndex eventIndex : nat) (event : MidiTrackEvent)
    (c : TrackCheck) : TrackCheck :=
  let c :=
    match deltaTime event with
    | Some d => if d <? 0 then add_issue (NegativeDeltaTime trackIndex eventIndex d) c else c
    | None => c
    end in
  let d := data event in
  match type event with
  | Some 144 =>
      if negb (truthy d) || is_undefined (get_field "note" d)
         || is_undefined (get_field "velocity" d)
      then add_issue (MissingNoteVelocity trackIndex eventIndex) c
      else
        let noteOnNumber := parseInt_value (get_field "note" d) in
        if gt0 (get_field "velocity" d)
        then set_count noteOnNumber (count_of noteOnNumber (activeCounts c) + 1) c
        else release trackIndex eventIndex noteOnNumber c
  | Some 128 =>
      if negb (truthy d) || is_undefined (get_field "note" d)
      then add_issue (MissingNoteForNoteOff trackIndex eventIndex) c
      else release trackIndex eventIndex (parseInt_value (get_field "note" d)) c
  | Some 255 =>
      match metaType event with
      | None => add_issue (MissingMetaType trackIndex eventIndex) c
      | Some 47 =>
          check_meta_length trackIndex eventIndex 47 (metaEventLength event) [0]
            (mkTrackCheck (issues c) (activeCounts c) true)
      | Some 81 => check_meta_length trackIndex eventIndex 81 (metaEventLength event) [3] c
      | Some 88 => check_meta_length trackIndex eventIndex 88 (metaEventLength event) [4] c
      | Some 89 => check_meta_length trackIndex eventIndex 89 (metaEventLength event) [2] c
      | Some 84 => check_meta_length trackIndex eventIndex 84 (metaEventLength event) [5] c
      | Some 0 => check_meta_length trackIndex eventIndex 0 (metaEventLength event) [2; 0] c
      | Some _ => c
      end
  | _ => c
  end.

Fixpoint check_events (trackIndex eventIndex : nat) (evs : list MidiTrackEvent)
    (c : TrackCheck) : TrackCheck :=
  match evs with
  | [] => c
  | e :: evs' =>
      check_events trackIndex (S eventIndex) evs' (check_event trackIndex eventIndex e c)
  end.

(** The entries of the map that are reported at the end of a track. *)
Definition leftover (m : NoteCounts) : NoteCounts :=
  List.filter (fun p => bool_decide (0 < snd p)) m.

(** The pass over the events of a track, from an empty map. *)
Definition track_check (trackIndex : nat) (track : Track) : TrackCheck :=
  check_events trackIndex 0 (events track) (mkTrackCheck [] [] false).

(** The body of [this.chunks.forEach((track, trackIndex) => ...)]: the issues
    of one track. *)
Definition check_track (trackIndex : nat) (track : Track) : list Issue :=
  let is_track := String.eqb (chunkType track) "MTrk" in
  let i1 :=
    if negb (String.eqb (chunkType track) "MThd") && negb is_track
    then [UnknownChunkType trackIndex (chunkType track)] else [] in
  let i2 :=
    if is_track then
      if (chunkLength track =? 0) && (0 <? length (events track))%nat
      then [ZeroLengthWithEvents trackIndex (length (events track))]
      else if (chunkLength track >? 0) && (length (events track) =? 0)%nat
      then [LengthWithoutEvents trackIndex (chunkLength track)]
      else []
    else [] in
  if negb is_track then i1 ++ i2
  else
    let c := track_check trackIndex track in
    i1 ++ i2 ++ issues c
      ++ (if gotEndOfTrack c then [] else [MissingEndOfTrack trackIndex])
      ++ map (fun p => UnmatchedNoteOn trackIndex (snd p) (fst p))
             (leftover (activeCounts c)).

Definition validate (self : AudioMIDI) : list Issue :=
  (if (format self <? 0) || (format self >? 2)
   then [UnsupportedFormat (format self)] else [])
  ++ (if bool_decide (trackCount self = Z.of_nat (length (chunks self))) then []
      else [TrackCountMismatch (trackCount self) (length (chunks self))])
  ++ concat (imap check_track (chunks self)).


(** ** Building a file *)

(** [new AudioMIDI(input, options)]: the fields besides the byte cursor.
    [format] and [timeDivision] come from the options when these give them;
    the track count starts at 0 and no method of the class changes it but
    [parse]. *)
Definition newAudioMIDI (opt_format opt_timeDivision : option Z) : AudioMIDI :=
  mkAudioMIDI (default 0 opt_format) 0 (Some (default 480 opt_timeDivision)) [].

(** [addTrack()]: the new track is pushed on [chunks]; the caller gets a
    reference to it, here its position in [chunks]. *)
Definition addTrack (self : AudioMIDI) : nat * AudioMIDI :=
  (length (chunks self),
   mkAudioMIDI (format self) (trackCount self) (timeDivision self)
     (chunks self ++ [mkTrack "MTrk" 0 []])).

(** The second argument of [addEvent]: an event, or an array of events. *)
Inductive EventArg : Type :=
| OneEvent (event : MidiTrackEvent)
| ManyEvents (events : list MidiTrackEvent).

(** [addEvent(track, event)] for a track of the instance, given by its
    position; an array of events is appended, a single event is pushed. *)
Definition addEvent (track : nat) (event : EventArg) (self : AudioMIDI) : AudioMIDI :=
  let more := match event with
              | OneEvent e => [e]
              | ManyEvents l => l
              end in
  mkAudioMIDI (format self) (trackCount self) (timeDivision self)
    (alter (fun t => mkTrack (chunkType t) (chunkLength t) (events t ++ more))
           track (chunks self)).

(** [Math.round(60000000 / bpm)] for an integer [bpm]: as in [bpm_of], the
    quotient is never within a rounding error of a half while [bpm] is below
    2^26 in absolute value, so that the integer quotient rounded half up is
    what the code computes; a [bpm] of 0 gives [Infinity]. *)
Definition tempo_of (bpm : Z) : JsValue :=
  if bpm =? 0 then VInfinity else VNum ((120000000 + bpm) / (2 * bpm)).

(** [generateTempoEvent(bpm)] *)
Definition generateTempoEvent (bpm : Z) : MidiTrackEvent :=
  let tempo := tempo_of bpm in
  let byte1 := Js.and (Js.sar (to_int32_value tempo) 16) 255 in
  let byte2 := Js.and (Js.sar (to_int32_value tempo) 8) 255 in
  let byte3 := Js.and (to_int32_value tempo) 255 in
  mkEvent (Some 0) (Some 255) (Some "Set Tempo")
    (VObj [("byte1", VNum byte1); ("byte2", VNum byte2); ("byte3", VNum byte3);
           ("tempo", tempo); ("bpm", VNum bpm)])
    (Some 81) (Some 3) None.

Definition meta_string_labels : list (Z * string) :=
  [ (1, "Text Event"); (2, "Copyright Notice"); (3, "Sequence / Track Name");
    (4, "Instrument Name"); (5, "Lyrics"); (6, "Marker"); (7, "Cue Point");
    (8, "Program Name"); (9, "Device (Port) Name") ].

(** [generateMetaStringEvent(metaType, data)], for a meta type that is not
    negative. *)
Definition generateMetaStringEvent (metaType : Z) (data : string) : MidiTrackEvent :=
  let metaEventLength := Z.of_nat (length (utf8_encode data)) in
  let label :=
    match table_get metaType meta_string_labels with
    | Some l => l
    | None => "Meta Event 0x" +:+ Js.toHexUpper metaType +:+ ": " +:+ data
    end in
  mkEvent (Some 0) (Some 255) (Some label) (VStr data)
    (Some metaType) (Some metaEventLength) None.

(** [generateEndOfTrackEvent()] *)
Definition generateEndOfTrackEvent : MidiTrackEvent :=
  mkEvent (Some 0) (Some 255) (Some "End of Track") (VStr EmptyString)
    (Some 47) (Some 0) None.

(** * Vocabulary of the statements *)

(** Exhaustive check of a test on the [2^n] integers from [acc * 2^n]. *)
Fixpoint check_bits (n : nat) (acc : Z) (test : Z -> bool) : bool :=
  match n with
  | O => test acc
  | S k => check_bits k (2 * acc) test && check_bits k (2 * acc + 1) test
  end.

(** The number a list of 7-bit groups stands for, most significant first. *)
Definition base128 (groups : list Z) : Z :=
  fold_left (fun acc g => acc * 128 + g) groups 0.

Definition is_group (g : Z) : Prop := 0 <= g < 128.

(** The number a list of 7-bit groups stands for, least significant first. *)
Definition lsb_value (groups : list Z) : Z :=
  fold_right (fun g acc => acc * 128 + g) 0 groups.

(** The cursor of a writer stands at the end of what was written. *)
Definition at_end (w : DataBuffer.Writer) : Prop :=
  DataBuffer.woffset w = Z.of_nat (length (DataBuffer.buffer w)).

(** The 14 bytes of an MThd chunk with the standard length 6, format 0 and
    480 pulses per quarter note, for [n] tracks below 256. *)
Definition header_bytes (n : Z) : list Z :=
  [77; 84; 104; 100; 0; 0; 0; 6; 0; 0; 0; n; 1; 224].

(** The 8 bytes that open an MTrk chunk of declared length [len] below 256. *)
Definition track_header (len : Z) : list Z := [77; 84; 114; 107; 0; 0; 0; len].

Definition end_of_track : list Z := [0; 255; 47; 0].

(** Two tracks, each holding only its End of Track event. *)
Definition two_track_file : list Z :=
  header_bytes 2 ++ track_header 4 ++ end_of_track ++ track_header 4 ++ end_of_track.

(** One track whose body is 00 90 3C 40 00 3E 40 00 40 40. *)
Definition running_status_file : list Z :=
  header_bytes 1 ++ track_header 10 ++ [0; 144; 60; 64; 0; 62; 64; 0; 64; 64].

(** One track: Note On 60 with velocity 100, then End of Track. *)
Definition note_on_file : list Z :=
  header_bytes 1 ++ track_header 8 ++ [0; 144; 60; 100] ++ end_of_track.

(** A Control Change event as [writeEvent] expects it. *)
Definition control_change (delta controllerNumber value : Z) : MidiTrackEvent :=
  mkEvent (Some delta) (Some 176) (Some "Controller")
          (VObj [("controllerNumber", VNum controllerNumber); ("value", VNum value)])
          None None (Some 0).


(** How many elements of a list pass a test. *)
Fixpoint count {A : Type} (p : A -> bool) (l : list A) : Z :=
  match l with
  | [] => 0
  | x :: l' => (if p x then 1 else 0) + count p l'
  end.

Definition sum (l : list Z) : Z := fold_right Z.add 0 l.



Definition is_not_active (i : Issue) : bool :=
  match i with
  | NoteOffNotActive _ _ _ => true
  | _ => false
  end.

(** The count an "unmatched Note On" message reports. *)
Definition unmatched_count (i : Issue) : Z :=
  match i with
  | UnmatchedNoteOn _ c _ => c
  | _ => 0
  end.

Definition total_count (m : NoteCounts) : Z := sum (map snd m).


(** What a step of the pass of [validate] over a track leaves unchanged:
    notes started + releases reported as not active
    = releases + notes still counted as active. *)
Definition balanced (on rel : Z) (c : TrackCheck) : Prop :=
  on + count is_not_active (issues c) = rel + total_count (activeCounts c)
  /\ Forall (fun p => 0 <= snd p) (activeCounts c)
  /\ sum (map unmatched_count (issues c)) = 0.



(** A writer computation that, started at the end of the buffer, only adds
    bytes after what is there and stops at the new end. *)
Definition appends {A : Type} (m : DataBuffer.writer A) : Prop :=
  forall w a w', at_end w -> m w = Ok (a, w') ->
    at_end w' /\ exists bs, DataBuffer.buffer w' = DataBuffer.buffer w ++ bs.

Definition is_mtrk (c : Track) : bool := String.eqb (chunkType c) "MTrk".

(** The test behind the two bytes [writeUInt16] stores. *)
Definition u16_ok (x : Z) : bool :=
  (Js.to_uint8 (Js.sar (Js.and x 65280) 8) =? x / 256)
  && (Js.to_uint8 (Js.and x 255) =? x mod 256).

(** A header that announces two tracks, followed by a chunk that is not a
    track. *)
Definition bad_track_file : list Z :=
  header_bytes 2 ++ [88; 88; 88; 88; 0; 0; 0; 4] ++ end_of_track.

(** A read leaves the bytes alone and keeps the cursor within them. *)
Definition rd_ok {A : Type} (r : DataBuffer.reader A) : Prop :=
  forall b a b', r b = Ok (a, b') ->
    DataBuffer.data b' = DataBuffer.data b
    /\ (0 <= DataBuffer.remainingBytes b -> 0 <= DataBuffer.remainingBytes b').

(** A step of [parse] that only reads: the heap of events, the active notes
    and the clock stay as they are, and the value it returns satisfies [Q]. *)
Definition quiet {A : Type} (m : parser A) (Q : A -> Prop) : Prop :=
  forall st a st', m st = Ok (a, st') ->
    heap st' = heap st
    /\ activeNotes st' = activeNotes st
    /\ currentTime st' = currentTime st
    /\ DataBuffer.data (buf st') = DataBuffer.data (buf st)
    /\ (0 <= DataBuffer.remainingBytes (buf st) -> 0 <= DataBuffer.remainingBytes (buf st'))
    /\ Q a.

(** The event keeps the delta time and the type it was given. *)
Definition same_head (e0 e : MidiTrackEvent) : Prop :=
  deltaTime e = deltaTime e0 /\ type e = type e0.

(** *** Note pairing *)

Definition is_byte (z : Z) : Prop := 0 <= z < 256.

(** A value a byte read can give: a byte, or [undefined]. *)
Definition valid_key (k : option Z) : Prop :=
  match k with
  | Some z => is_byte z
  | None => True
  end.

(** What an event is to the pairing of notes, with the note it names. *)
Inductive note_kind : Type :=
| KOther
| KOn (k : option Z)
| KOff (k : option Z).

(** The upper four bits of a status byte. *)
Definition nibble (t : option Z) : Z := Js.and (Js.sar (Js.int32_of t) 4) 15.

(** The note of a Note On, which is stored as a number. *)
Definition key_of (v : JsValue) : option Z :=
  match v with
  | VNum z => Some z
  | _ => None
  end.

(** The note of a Note Off, which is stored as a string. *)
Definition untemplate (v : JsValue) : option Z :=
  match v with
  | VStr s => if String.eqb s "undefined" then None else Js.parseInt s
  | _ => None
  end.

Definition kind_of (e : MidiTrackEvent) : note_kind :=
  match nibble (type e) with
  | 9 => KOn (key_of (get_field "note" (data e)))
  | 8 => KOff (untemplate (get_field "note" (data e)))
  | _ => KOther
  end.

Definition delta_of (e : MidiTrackEvent) : Z := default 0 (deltaTime e).

(** The [length] property of the event's data, if it has one. *)
Definition length_of (e : MidiTrackEvent) : option JsValue :=
  match data e with
  | VObj fs => assoc_get "length" fs
  | _ => None
  end.

(** The assignment [event.data.length = len]. *)
Definition patch (len : Z) (e : MidiTrackEvent) : MidiTrackEvent :=
  set_data (set_field "length" (VNum len) (data e)) e.

(** One round of the event loop, seen from the heap [H] of events and the
    map [A] of active notes, at the time [T] of the event [e]. *)
Definition paired_step (H : list MidiTrackEvent) (A : gmap (option Z) NoteOnData)
    (T : Z) (e : MidiTrackEvent)
    (H' : list MidiTrackEvent) (A' : gmap (option Z) NoteOnData) : Prop :=
  match kind_of e with
  | KOther => H' = H ++ [e] /\ A' = A
  | KOn k =>
      H' = H ++ [e]
      /\ (exists v, A' = <[k := mkNoteOnData T v (length H)]> A)
      /\ (exists fs, data e = VObj fs /\ assoc_get "length" fs = None)
  | KOff k =>
      match A !! k with
      | Some d =>
          H' = alter (patch (T - startTime d)) (noteOnEvent d) H ++ [e]
          /\ A' = delete k A
      | None => H' = H ++ [e] /\ A' = A
      end
  end.

(** The test behind reading back the note of a Note Off. *)
Definition untemplate_ok (z : Z) : bool :=
  match untemplate (VStr (template (Some z))) with
  | Some z' => z' =? z
  | None => false
  end.

(** What the event switch leaves of the state, apart from the heap and the
    active notes. *)
Definition kept (st st' : ParseState) : Prop :=
  DataBuffer.data (buf st') = DataBuffer.data (buf st)
  /\ (0 <= DataBuffer.remainingBytes (buf st) -> 0 <= DataBuffer.remainingBytes (buf st'))
  /\ currentTime st' = currentTime st.

(** The effect of the event switch, by the kind of the event it returns. *)
Definition decoded (st : ParseState) (e : MidiTrackEvent) (st' : ParseState) : Prop :=
  kept st st'
  /\ match kind_of e with
     | KOther => heap st' = heap st /\ activeNotes st' = activeNotes st
     | KOn k =>
         heap st' = heap st
         /\ (exists v, activeNotes st'
                       = <[k := mkNoteOnData (currentTime st) v (length (heap st))]>
                           (activeNotes st))
         /\ (exists fs, data e = VObj fs /\ assoc_get "length" fs = None)
     | KOff k =>
         match activeNotes st !! k with
         | Some d =>
             heap st' = alter (patch (currentTime st - startTime d)) (noteOnEvent d) (heap st)
             /\ activeNotes st' = delete k (activeNotes st)
         | None => heap st' = heap st /\ activeNotes st' = activeNotes st
         end
     end.

(** An event of kind [kd] is a Note On or a Note Off for the note [k]. *)
Definition touches (k : option Z) (kd : note_kind) : bool :=
  match kd with
  | KOn k' | KOff k' => bool_decide (k = k')
  | KOther => false
  end.

(** The first event for the note [k] in a list of kinds, with its place. *)
Fixpoint first_touch (k : option Z) (ks : list note_kind) : option (nat * note_kind) :=
  match ks with
  | [] => None
  | kd :: ks' =>
      if touches k kd then Some (O, kd)
      else match first_touch k ks' with
           | Some (j, kd') => Some (S j, kd')
           | None => None
           end
  end.

(** The length a Note On for [k] at place [i] is due: if the next event for
    the same note is a Note Off, the ticks from the one to the other. *)
Definition expected_length (ks : list note_kind) (ds : list Z) (i : nat)
    (k : option Z) : option Z :=
  match first_touch k (drop (S i) ks) with
  | Some (j, KOff _) => Some (sum (take (S j) (drop (S i) ds)))
  | _ => None
  end.

(** What holds of the heap [H], the active notes [A] and the clock [T]
    between two rounds of the event loop. *)
Definition pairing_inv (H : list MidiTrackEvent) (A : gmap (option Z) NoteOnData)
    (T : Z) : Prop :=
  (forall i e k, H !! i = Some e -> kind_of e = KOn k ->
     (exists fs, data e = VObj fs)
     /\ length_of e = VNum <$> expected_length (map kind_of H) (map delta_of H) i k)
  /\ (forall k d, A !! k = Some d ->
        map kind_of H !! noteOnEvent d = Some (KOn k)
        /\ first_touch k (drop (S (noteOnEvent d)) (map kind_of H)) = None
        /\ startTime d = T - sum (drop (S (noteOnEvent d)) (map delta_of H)))
  /\ (forall k, A !! k = None ->
        forall i, map kind_of H !! i = Some (KOn k) ->
        first_touch k (drop (S i) (map kind_of H)) <> None).

(** The rounds of the event loop, from one state of heap, active notes and
    clock to another. *)
Inductive paired_run :
  list MidiTrackEvent -> gmap (option Z) NoteOnData -> Z ->
  list MidiTrackEvent -> gmap (option Z) NoteOnData -> Z -> Prop :=
| run_done H A T : paired_run H A T H A T
| run_round H A T e H1 A1 H' A' T' :
    paired_step H A (T + delta_of e) e H1 A1 ->
    paired_run H1 A1 (T + delta_of e) H' A' T' ->
    paired_run H A T H' A' T'.

(** One track: Note On 60 with velocity 100, then, 240 ticks on, Note On 60
    with velocity 0, then End of Track. *)
Definition zero_velocity_file : list Z :=
  header_bytes 1 ++ track_header 13
    ++ [0; 144; 60; 100] ++ [129; 112; 144; 60; 0] ++ end_of_track.

(** One track: Note On 60 with velocity 100, then, 240 ticks on, Note Off
    60, then End of Track. *)
Definition paired_note_file : list Z :=
  header_bytes 1 ++ track_header 13
    ++ [0; 144; 60; 100] ++ [129; 112; 128; 60; 0] ++ end_of_track.

(** The read [r] succeeds whenever [n] bytes remain, and moves the cursor by
    [n]. *)
Definition reads {A : Type} (n : Z) (r : DataBuffer.reader A) : Prop :=
  forall b, 0 <= DataBuffer.offset b ->
    DataBuffer.offset b + n <= DataBuffer.bufLength b ->
    exists a, r b = Ok (a, DataBuffer.mk (DataBuffer.data b) (DataBuffer.offset b + n)).

(** Bytes as the string of their code units. *)
Definition ascii_string (bytes : list Z) : string :=
  fold_right (fun c s => String (Js.fromCharCode (Some c)) s) EmptyString bytes.

(** The bytes of the input from position [from], [n] of them. *)
Definition bytes_at (from n : nat) (input : list Z) : list Z :=
  take n (drop from (map Js.to_uint8 input)).

(** An MThd chunk that declares 8 bytes and has them, then one MTrk chunk
    that holds its End of Track event. *)
Definition oversized_header_file : list Z :=
  [77; 84; 104; 100; 0; 0; 0; 8; 0; 0; 0; 1; 1; 224; 0; 0]
    ++ track_header 4 ++ end_of_track.

(** A track that holds one Note On and its End of Track. *)
Definition note_on_track : Track :=
  mkTrack "MTrk" 8
    [mkEvent (Some 0) (Some 144) (Some "Note On")
       (VObj [("note", VNum 60); ("velocity", VNum 100)]) None None (Some 0);
     mkEvent (Some 0) (Some 255) (Some "End of Track") (VStr EmptyString)
       (Some 47) (Some 0) None].

(** An instance without chunks. *)
Definition empty_midi : AudioMIDI := mkAudioMIDI 0 1 (Some 480) [].


(** *** Further vocabulary *)

(** The read [r] throws an underflow error whenever fewer than [n] bytes
    remain. *)
Definition underflows {A : Type} (n : Z) (r : DataBuffer.reader A) : Prop :=
  forall b, 0 <= DataBuffer.offset b ->
    DataBuffer.remainingBytes b < n -> r b = Throw UnderflowError.

(** The header that 14 bytes or more stand for. *)
Definition header_of (chunk : list Z) : Header :=
  let b1 := default 0 (bytes_at 12 1 chunk !! 0%nat) in
  let b2 := default 0 (bytes_at 13 1 chunk !! 0%nat) in
  mkHeader (ascii_string (bytes_at 0 4 chunk))
           (DataBuffer.be_value (bytes_at 4 4 chunk))
           (DataBuffer.be_value (bytes_at 8 2 chunk))
           (DataBuffer.be_value (bytes_at 10 2 chunk))
           (if b1 >=? 128 then Some (b1 - 128) else None)
           (if b1 >=? 128 then Some b2 else None)
           (if b1 >=? 128 then None else Some (b1 * 256 + b2)).

(** An event that [validate] takes for the End of Track. *)
Definition is_end_of_track (e : MidiTrackEvent) : bool :=
  match type e, metaType e with
  | Some 255, Some 47 => true
  | _, _ => false
  end.

Definition is_missing_end (i : Issue) : bool :=
  match i with
  | MissingEndOfTrack _ => true
  | _ => false
  end.

(** The pass over the events has seen an End of Track exactly when [seen],
    and has reported no missing End of Track. *)
Definition end_seen (seen : bool) (c : TrackCheck) : Prop :=
  gotEndOfTrack c = seen /\ count is_missing_end (issues c) = 0.

(** The four bytes of a number modulo 2^32, most significant first. *)
Definition be32 (x : Z) : list Z :=
  [(x / 16777216) mod 256; (x / 65536) mod 256; (x / 256) mod 256; x mod 256].

(** The two bytes of a number modulo 2^16, most significant first. *)
Definition be16 (x : Z) : list Z := [(x / 256) mod 256; x mod 256].

(** The instances that the constructor, [addTrack] and [addEvent] build. *)
Inductive built : AudioMIDI -> Prop :=
| built_new (opt_format opt_timeDivision : option Z) :
    built (newAudioMIDI opt_format opt_timeDivision)
| built_track (m : AudioMIDI) : built m -> built (snd (addTrack m))
| built_event (m : AudioMIDI) (track : nat) (event : EventArg) :
    built m -> built (addEvent track event m).

(** The 14 bytes written for a header with fields below 2^16. *)
Definition saved_header (f tc td : Z) : list Z :=
  [77; 84; 104; 100; 0; 0; 0; 6;
   f / 256; f mod 256; tc / 256; tc mod 256; td / 256; td mod 256].

(** A writer computation that, started at the end of the buffer, returns
    [a] and adds exactly the bytes [bs]. *)
Definition emits {A : Type} (m : DataBuffer.writer A) (a : A) (bs : list Z) : Prop :=
  forall w, at_end w ->
    m w = Ok (a, DataBuffer.mkWriter (DataBuffer.buffer w ++ bs)
                   (DataBuffer.woffset w + Z.of_nat (length bs))).

(** The test behind the status byte of an event whose type holds a channel:
    [x] is the type times 16 plus the low four bits of the channel. *)
Definition status_ok (x : Z) : bool :=
  let t := x / 16 in
  let k := x mod 16 in
  (t <? 128) || (128 <=? Js.or (Js.to_int32 t) k) && (Js.or (Js.to_int32 t) k <? 256).

(** What is left to read: the cursor is within the bytes and [l] is what
    follows it. *)
Definition at_cursor (b : DataBuffer.t) (l : list Z) : Prop :=
  0 <= DataBuffer.offset b
  /\ DataBuffer.offset b + Z.of_nat (length l) = DataBuffer.bufLength b
  /\ drop (Z.to_nat (DataBuffer.offset b)) (DataBuffer.data b) = l.

(** The buffer with its cursor [k] bytes on. *)
Definition moved (k : nat) (b : DataBuffer.t) : DataBuffer.t :=
  DataBuffer.mk (DataBuffer.data b) (DataBuffer.offset b + Z.of_nat k).

(** The parser state with its cursor [k] bytes on. *)
Definition st_moved (k : nat) (st : ParseState) : ParseState :=
  mkParseState (moved k (buf st)) (currentTime st) (activeNotes st) (heap st).

(** A Note On on the first channel, as [parse] returns it. *)
Definition note_on_event (delta note velocity : Z) : MidiTrackEvent :=
  mkEvent (Some delta) (Some 144) (Some "Note On")
    (note_data (VNum note) (VNum velocity)) None None (Some 0).

(** A Note Aftertouch on the first channel, as [parse] returns it. *)
Definition aftertouch_event (delta note pressure : Z) : MidiTrackEvent :=
  mkEvent (Some delta) (Some 160) (Some "Note Aftertouch")
    (note_data (VNum note) (VNum pressure)) None None (Some 0).

(** The microseconds per quarter note of a tempo. *)
Definition tempo_number (bpm : Z) : Z := (120000000 + bpm) / (2 * bpm).

Definition is_ascii7 (s : string) : Prop :=
  Forall (fun c => 0 <= c < 128) (DataBuffer.char_codes s).

(** Events that are written and read back unchanged, with their bytes. *)
Inductive wire : MidiTrackEvent -> list Z -> Prop :=
| wire_note_on (delta note velocity : Z) :
    0 <= delta < 2147483648 -> is_byte note -> is_byte velocity ->
    wire (note_on_event delta note velocity) (vlq_bytes delta ++ [144; note; velocity])
| wire_aftertouch (delta note pressure : Z) :
    0 <= delta < 2147483648 -> is_byte note -> is_byte pressure ->
    wire (aftertouch_event delta note pressure) (vlq_bytes delta ++ [160; note; pressure])
| wire_tempo (bpm : Z) :
    4 <= bpm <= 7811 ->
    wire (generateTempoEvent bpm)
         ([0; 255; 81; 3]
            ++ [tempo_number bpm / 65536; (tempo_number bpm / 256) mod 256;
                tempo_number bpm mod 256])
| wire_text (metaType : Z) (text : string) :
    1 <= metaType <= 9 -> text <> EmptyString -> is_ascii7 text ->
    Z.of_nat (length (DataBuffer.char_codes text)) < 2147483648 ->
    wire (generateMetaStringEvent metaType text)
         ([0; 255; metaType] ++ vlq_bytes (Z.of_nat (length (DataBuffer.char_codes text)))
            ++ DataBuffer.char_codes text)
| wire_end :
    wire generateEndOfTrackEvent [0; 255; 47; 0].

(** The test behind the bytes of a tempo and the tempo read back. *)
Definition tempo_ok (bpm : Z) : bool :=
  (bpm <? 4) || (7811 <? bpm)
  || (let t := tempo_number bpm in
      (0 <? t) && (t <? 16777216)
      && (Js.and (Js.sar (Js.to_int32 t) 16) 255 =? t / 65536)
      && (Js.and (Js.sar (Js.to_int32 t) 8) 255 =? (t / 256) mod 256)
      && (Js.and (Js.to_int32 t) 255 =? t mod 256)
      && (Js.shl (Js.to_int32 (t / 65536)) 16
          + Js.shl (Js.to_int32 ((t / 256) mod 256)) 8 + t mod 256 =? t)
      && ((120000000 + t) / (2 * t) =? bpm)).


(** The data bytes of a channel event: one for Program Change and Channel
    Aftertouch, two for the other kinds. *)
Definition channel_data (status x y : Z) : list Z :=
  if (status / 16 =? 12) || (status / 16 =? 13) then [x] else [x; y].

(** Channel messages of one status, each given by its delta time and its
    data bytes: the bytes of the messages with the status byte in each, and
    with the status byte left out (running status). *)
Definition explicit_bytes (status : Z) (msgs : list (Z * Z * Z)) : list Z :=
  concat (map (fun '(d, x, y) => vlq_bytes d ++ status :: channel_data status x y) msgs).

Definition running_bytes (status : Z) (msgs : list (Z * Z * Z)) : list Z :=
  concat (map (fun '(d, x, y) => vlq_bytes d ++ channel_data status x y) msgs).

(** A message whose first data byte is a data byte. *)
Definition channel_message (m : Z * Z * Z) : Prop :=
  let '(d, x, y) := m in 0 <= d < 2147483648 /\ 0 <= x < 128 /\ is_byte y.

(** Two parser states that differ only in the bytes of their buffers, with
    what remains to be read in each. *)
Definition alike (l1 l2 : list Z) (st1 st2 : ParseState) : Prop :=
  at_cursor (buf st1) l1 /\ at_cursor (buf st2) l2
  /\ currentTime st1 = currentTime st2
  /\ activeNotes st1 = activeNotes st2
  /\ heap st1 = heap st2.

(** A step of [parse] that reads exactly the bytes [p]: from two states that
    are alike and both have [p] next, it returns the same value and leaves
    the states alike, whatever follows [p] in each. *)
Definition reads_alike {A : Type} (p : list Z) (m : parser A) (Q : A -> Prop) : Prop :=
  forall l1 l2 st1 st2, alike (p ++ l1) (p ++ l2) st1 st2 ->
    exists a s1 s2,
      m st1 = Ok (a, s1) /\ m st2 = Ok (a, s2) /\ alike l1 l2 s1 s2 /\ Q a.

(** Note On and Note Off messages of the first channel, each given by its
    delta time, its status byte, its note and its velocity, and their
    bytes. *)
Definition note_bytes (msgs : list (Z * Z * Z * Z)) : list Z :=
  concat (map (fun '(d, s, n, v) => vlq_bytes d ++ [s; n; v]) msgs).

Definition note_message (m : Z * Z * Z * Z) : Prop :=
  let '(d, s, n, v) := m in
  0 <= d < 2147483648 /\ (s = 144 \/ s = 128) /\ is_byte n /\ is_byte v.

(** An event that holds the message [m]: its delta time, its type and the
    first channel, and in its data the note (a number, or for a Note Off
    the string that [parse] stores) and the velocity. *)
Definition note_like (e : MidiTrackEvent) (m : Z * Z * Z * Z) : Prop :=
  let '(d, s, n, v) := m in
  deltaTime e = Some d /\ type e = Some s /\ channel e = Some 0
  /\ exists fs nv,
       data e = VObj fs
       /\ assoc_get "note" fs = Some nv
       /\ is_undefined nv = false
       /\ to_byte nv = n
       /\ assoc_get "velocity" fs = Some (VNum v).

(** The test behind the byte written for the note of a Note Off. *)
Definition note_string_ok (n : Z) : bool := to_byte (VStr (template (Some n))) =? n.

(** A writer computation that does the same wherever the end of the buffer
    is: it returns one value and adds one list of bytes, or it throws one
    error. *)
Definition steady {A : Type} (m : DataBuffer.writer A) : Prop :=
  (exists a bs, emits m a bs)
  \/ (exists e, forall w, at_end w -> m w = Throw e).

(** The bytes of a chunk of type MTrk in a saved file, for the bytes [body]
    its events wrote: the four letters, the length of [body] and [body]. *)
Definition track_image (body : list Z) : list Z :=
  [77; 84; 114; 107] ++ be32 (Z.of_nat (length body)) ++ body.

(** An instance that stores a track count of 3 and holds a chunk of type
    XXXX, a track with a Note On and the track end, and a chunk of type
    mtrk in small letters. *)
Definition mixed_midi : AudioMIDI :=
  mkAudioMIDI 0 3 (Some 480)
    [mkTrack "XXXX" 4 [generateEndOfTrackEvent];
     mkTrack "MTrk" 0 [note_on_event 0 60 64; generateEndOfTrackEvent];
     mkTrack "mtrk" 4 [generateEndOfTrackEvent]].

(** The instance built with a time division of 66016, with one track that
    holds the track end. *)
Definition wide_division_midi : AudioMIDI :=
  addEvent 0 (OneEvent generateEndOfTrackEvent)
    (snd (addTrack (newAudioMIDI None (Some 66016)))).

(** An instance that stores a track count of 65537, with one track that
    holds the track end. *)
Definition wide_count_midi : AudioMIDI :=
  mkAudioMIDI 0 65537 (Some 480) [mkTrack "MTrk" 0 [generateEndOfTrackEvent]].
(** * Properties *)

(** ** Arithmetic *)

Lemma check_bits_sound (test : Z -> bool) (n : nat) :
  forall acc, check_bits n acc test = true ->
  forall x, acc * 2 ^ Z.of_nat n <= x < (acc + 1) * 2 ^ Z.of_nat n -> test x = true.
Proof.
  induction n as [|k IH]; intros acc H x Hx.
  - simpl in *. assert (x = acc) by lia. now subst.
  - cbn [check_bits] in H. apply andb_prop in H as [H1 H2].
    rewrite Nat2Z.inj_succ, Z.pow_succ_r in Hx by lia.
    destruct (Z_lt_le_dec x ((2 * acc + 1) * 2 ^ Z.of_nat k)).
    + apply (IH _ H1). lia.
    + apply (IH _ H2). lia.
Qed.

Lemma to_int32_small (x : Z) :
  -2147483648 <= x < 2147483648 -> Js.to_int32 x = x.
Proof.
  intros H. unfold Js.to_int32.
  destruct (Z_lt_le_dec x 0).
  - replace (x mod 4294967296) with (x + 4294967296).
    + destruct (Z.ltb_spec (x + 4294967296) 2147483648); lia.
    + apply Z.mod_unique with (q := -1); lia.
  - rewrite Z.mod_small by lia.
    destruct (Z.ltb_spec x 2147483648); lia.
Qed.

Lemma js_and_127 (x : Z) : 0 <= x < 2147483648 -> Js.and x 127 = x mod 128.
Proof.
  intros H. unfold Js.and. rewrite (to_int32_small x), (to_int32_small 127) by lia.
  change 127 with (Z.ones 7). rewrite Z.land_ones by lia.
  change (2 ^ 7) with 128.
  apply to_int32_small. pose proof (Z.mod_pos_bound x 128 ltac:(lia)). lia.
Qed.

Lemma js_sar_7 (x : Z) : 0 <= x < 2147483648 -> Js.sar x 7 = x / 128.
Proof.
  intros H. unfold Js.sar. rewrite to_int32_small by lia.
  change (7 mod 32) with 7. rewrite Z.shiftr_div_pow2 by lia. reflexivity.
Qed.

Lemma js_shl_7 (x : Z) : 0 <= x < 16777216 -> Js.shl x 7 = x * 128.
Proof.
  intros H. unfold Js.shl. rewrite (to_int32_small x) by lia.
  change (7 mod 32) with 7. rewrite Z.shiftl_mul_pow2 by lia.
  change (2 ^ 7) with 128. apply to_int32_small. lia.
Qed.

Lemma js_or_128 (g : Z) : 0 <= g < 128 -> Js.or g 128 = g + 128.
Proof.
  intros H.
  apply (check_bits_sound (fun g => Js.or g 128 =? g + 128) 7 0) in H.
  - now apply Z.eqb_eq in H.
  - now vm_compute.
Qed.

Lemma js_and_byte_127 (b : Z) :
  0 <= b < 256 -> Js.and (Js.int32_of (Some b)) 127 = b mod 128.
Proof.
  intros H. cbn [Js.int32_of]. rewrite to_int32_small by lia.
  apply js_and_127. lia.
Qed.

Lemma js_and_byte_128 (b : Z) :
  0 <= b < 256 ->
  (Js.and (Js.int32_of (Some b)) 128 =? 0) = (b <? 128).
Proof.
  intros H.
  apply (check_bits_sound
           (fun b => Bool.eqb (Js.and (Js.int32_of (Some b)) 128 =? 0) (b <? 128)) 8 0) in H.
  - now apply Bool.eqb_prop in H.
  - now vm_compute.
Qed.

(** ** Variable-length quantities *)

Ltac len_simpl :=
  repeat (rewrite ?length_app, ?length_map, ?length_rev; cbn [length]).

Section VlqWriter.

Lemma vlq_groups_props (fuel : nat) :
  forall n, 0 <= n < 2147483648 -> n < 128 ^ Z.of_nat fuel -> (0 < fuel)%nat ->
  exists g gs, vlq_groups fuel n = g :: gs
               /\ Forall is_group (g :: gs)
               /\ lsb_value (g :: gs) = n
               /\ (n < 128 -> gs = [])
               /\ (128 <= n -> 128 ^ Z.of_nat (length gs) <= n).
Proof.
  induction fuel as [|f IH]; intros n Hn Hf Hpos0.
  - lia.
  - cbn [vlq_groups]. rewrite js_and_127, js_sar_7 by lia.
    pose proof (Z.mod_pos_bound n 128 ltac:(lia)) as Hm.
    pose proof (Z.div_mod n 128 ltac:(lia)) as Hd.
    destruct (Z.gtb_spec (n / 128) 0) as [Hpos|Hzero].
    + assert (Hq : 0 <= n / 128 < 2147483648) by (split; [lia | apply Z.div_lt_upper_bound; lia]).
      assert (Hqf : n / 128 < 128 ^ Z.of_nat f).
      { apply Z.div_lt_upper_bound; [lia|].
        rewrite Nat2Z.inj_succ, Z.pow_succ_r in Hf by lia. lia. }
      assert (Hfpos : (0 < f)%nat).
      { destruct f; [simpl in Hqf; lia | lia]. }
      destruct (IH _ Hq Hqf Hfpos) as (g & gs & Eg & Hall & Hval & Hsmall & Hbig).
      exists (n mod 128), (g :: gs). rewrite Eg. repeat split.
      * constructor; [exact Hm | exact Hall].
      * cbn [lsb_value fold_right] in *. lia.
      * intros Hlt. assert (n / 128 = 0) by (apply Z.div_small; lia). lia.
      * intros _. cbn [length]. rewrite Nat2Z.inj_succ, Z.pow_succ_r by lia.
        destruct (Z_lt_le_dec (n / 128) 128) as [Hs|Hb].
        -- rewrite (Hsmall Hs). simpl. lia.
        -- specialize (Hbig Hb). lia.
    + assert (n / 128 = 0) by (pose proof (Z.div_pos n 128); lia).
      exists (n mod 128), []. repeat split.
      * constructor; [exact Hm | constructor].
      * cbn [lsb_value fold_right]. lia.
      * intros Hbig. lia.
Qed.

Lemma array_set_end (l : list Z) (v : Z) :
  DataBuffer.array_set l (Z.of_nat (length l)) v = l ++ [v].
Proof.
  unfold DataBuffer.array_set.
  destruct (Z.ltb_spec (Z.of_nat (length l)) 0); [lia|].
  rewrite Nat2Z.id.
  destruct (Nat.ltb_spec (length l) (length l)); [lia|].
  now rewrite Nat.sub_diag.
Qed.

Lemma writeUInt8_end (x : Z) (w : DataBuffer.Writer) :
  at_end w ->
  DataBuffer.writeUInt8 x w
  = Ok (tt, DataBuffer.mkWriter (DataBuffer.buffer w ++ [Js.to_uint8 x])
                                (DataBuffer.woffset w + 1))
    /\ at_end (DataBuffer.mkWriter (DataBuffer.buffer w ++ [Js.to_uint8 x])
                                   (DataBuffer.woffset w + 1)).
Proof.
  intros He. unfold DataBuffer.writeUInt8. rewrite He, array_set_end.
  split; [reflexivity|]. unfold at_end. cbn. rewrite length_app. cbn. lia.
Qed.

Lemma write_popped_snoc (r : list Z) :
  forall (x : Z) (w : DataBuffer.Writer), at_end w ->
  write_popped (r ++ [x]) w
  = Ok (tt, DataBuffer.mkWriter
              (DataBuffer.buffer w
                 ++ map (fun y => Js.to_uint8 (Js.or y 128)) r ++ [Js.to_uint8 x])
              (DataBuffer.woffset w + Z.of_nat (length r) + 1)).
Proof.
  induction r as [|y r IH]; intros x w He.
  - cbn. destruct (writeUInt8_end x w He) as [-> _]. do 3 f_equal. lia.
  - change ((y :: r) ++ [x]) with (y :: (r ++ [x])).
    assert (Hne : r ++ [x] <> []) by (destruct r; discriminate).
    cbn [write_popped]. destruct (r ++ [x]) as [|z t] eqn:E; [congruence|].
    rewrite <- E. unfold bind.
    destruct (writeUInt8_end (Js.or y 128) w He) as [-> He'].
    rewrite (IH x _ He'). cbn. rewrite <- app_assoc. cbn.
    do 3 f_equal. lia.
Qed.

Lemma vlq_bytes_shape (n : Z) :
  0 <= n < 268435456 ->
  exists g gs, vlq_groups 5 n = g :: gs
               /\ Forall is_group (g :: gs)
               /\ lsb_value (g :: gs) = n
               /\ (n < 128 -> gs = [])
               /\ (128 <= n -> 128 ^ Z.of_nat (length gs) <= n)
               /\ vlq_bytes n = map (fun y => y + 128) (rev gs) ++ [g].
Proof.
  intros Hn.
  destruct (vlq_groups_props 5 n) as (g & gs & Eg & Hall & Hval & Hs & Hb);
    [lia | simpl; lia | lia |].
  exists g, gs. repeat split; try assumption.
  unfold vlq_bytes, writeVariableLengthValue.
  change (default 0 (Some n)) with n.
  rewrite Eg. cbn [rev].
  rewrite write_popped_snoc by reflexivity. cbn.
  inversion Hall as [|? ? Hg Hgs]; subst.
  f_equal.
  - apply map_ext_in. intros y Hy. apply in_rev in Hy.
    rewrite Forall_forall in Hgs. specialize (Hgs y).
    assert (is_group y) as Hy' by (apply Hgs; now apply list_elem_of_In).
    unfold is_group in Hy'. rewrite js_or_128 by lia.
    unfold Js.to_uint8. apply Z.mod_small. lia.
  - unfold is_group in Hg. unfold Js.to_uint8. f_equal. apply Z.mod_small. lia.
Qed.

End VlqWriter.

Section VlqReader.

Lemma readUInt8_at (b : DataBuffer.t) (pre post : list Z) (x : Z) :
  DataBuffer.data b = pre ++ x :: post ->
  DataBuffer.offset b = Z.of_nat (length pre) ->
  DataBuffer.readUInt8 b
  = Ok (Some x, DataBuffer.mk (DataBuffer.data b) (DataBuffer.offset b + 1)).
Proof.
  intros Hd Ho. unfold DataBuffer.readUInt8, DataBuffer.available,
    DataBuffer.remainingBytes, DataBuffer.bufLength, DataBuffer.data_at.
  rewrite Hd, Ho, length_app. cbn [length].
  destruct (Z.leb_spec 1 (Z.of_nat (length pre + S (length post)) - Z.of_nat (length pre)));
    [|lia].
  destruct (Z.ltb_spec (Z.of_nat (length pre)) 0); [lia|].
  rewrite Nat2Z.id, list_lookup_middle by reflexivity. reflexivity.
Qed.

Lemma base128_acc_le (gs : list Z) :
  forall v, 0 <= v -> Forall is_group gs ->
  v <= fold_left (fun acc g => acc * 128 + g) gs v.
Proof.
  induction gs as [|g gs IH]; intros v Hv Hall; cbn [fold_left]; [lia|].
  inversion Hall as [|? ? Hg Hgs]; subst. unfold is_group in Hg.
  etransitivity; [|apply IH; [lia | assumption]]. lia.
Qed.

Lemma vlq_loop_spec (hi : list Z) :
  forall (value : Z) (fuel : nat) (pre rest : list Z) (last : Z),
  Forall is_group hi -> is_group last -> 0 <= value ->
  fold_left (fun acc g => acc * 128 + g) hi value < 16777216 ->
  (length hi < fuel)%nat ->
  vlq_loop fuel value
    (DataBuffer.mk (pre ++ map (fun y => y + 128) hi ++ last :: rest)
                   (Z.of_nat (length pre)))
  = Ok (fold_left (fun acc g => acc * 128 + g) (hi ++ [last]) value,
        DataBuffer.mk (pre ++ map (fun y => y + 128) hi ++ last :: rest)
                      (Z.of_nat (length pre) + Z.of_nat (length hi) + 1)).
Proof.
  induction hi as [|h hi IH]; intros value fuel pre rest last Hall Hlast Hv Hbound Hfuel;
    (destruct fuel as [|fuel]; [cbn in Hfuel; lia|]); cbn [vlq_loop]; unfold bind.
  - cbn [map app length fold_left] in *. unfold is_group in Hlast.
    erewrite readUInt8_at by (cbn; reflexivity). cbn [DataBuffer.data DataBuffer.offset].
    rewrite js_and_byte_128, js_and_byte_127, js_shl_7 by lia.
    destruct (Z.ltb_spec last 128); [|lia]. cbn [negb andb].
    rewrite Z.mod_small by lia. do 3 f_equal. lia.
  - inversion Hall as [|? ? Hh Hhi]; subst. unfold is_group in Hh, Hlast.
    cbn [map app fold_left length] in *.
    pose proof (base128_acc_le hi (value * 128 + h) ltac:(lia) Hhi) as Hmono.
    erewrite readUInt8_at by (cbn; reflexivity). cbn [DataBuffer.data DataBuffer.offset].
    rewrite js_and_byte_128, js_and_byte_127, js_shl_7 by lia.
    destruct (Z.ltb_spec (h + 128) 128); [lia|]. cbn [negb andb].
    replace ((h + 128) mod 128) with h
      by (apply Z.mod_unique with (q := 1); lia).
    unfold DataBuffer.remainingBytes, DataBuffer.bufLength. cbn [DataBuffer.data DataBuffer.offset].
    len_simpl.
    destruct (Z.gtb_spec (Z.of_nat (length pre + S (length hi + S (length rest)))
                          - (Z.of_nat (length pre) + 1)) 0); [|lia].
    specialize (IH (value * 128 + h) fuel (pre ++ [h + 128]) rest last Hhi
                  ltac:(assumption) ltac:(lia) Hbound ltac:(lia)).
    rewrite length_app in IH. cbn [length] in IH.
    rewrite <- app_assoc in IH. cbn [app] in IH.
    replace (Z.of_nat (length pre) + 1) with (Z.of_nat (length pre + 1)) by lia.
    rewrite IH. do 3 f_equal. lia.
Qed.

Lemma base128_bound (gs : list Z) :
  Forall is_group gs -> 0 <= base128 gs < 128 ^ Z.of_nat (length gs).
Proof.
  unfold base128. induction gs as [|g gs IH] using rev_ind; intros Hall.
  - cbn. lia.
  - apply Forall_app in Hall as [Hgs Hg]. inversion Hg as [|? ? Hg' _]; subst.
    unfold is_group in Hg'. specialize (IH Hgs).
    rewrite fold_left_app, length_app. cbn [fold_left length].
    rewrite Nat2Z.inj_add, Z.pow_add_r by lia. cbn. lia.
Qed.

Lemma base128_rev (gs : list Z) : base128 (rev gs) = lsb_value gs.
Proof.
  unfold base128, lsb_value.
  rewrite <- (rev_involutive gs) at 2.
  now rewrite fold_left_rev_right.
Qed.

End VlqReader.

(** C3: a quantity below 2^28 is read back from the bytes written for it,
    whatever follows them; no list of 7-bit groups for the same number is
    shorter than what is written; 0 is written as the single byte 0, and in
    general every byte but the last has its high bit set and the last has
    it clear. *)
Theorem vlq_roundtrip_minimal (n : Z) (rest : list Z) :
  0 <= n < 268435456 ->
  readVariableLengthValues (DataBuffer.new (vlq_bytes n ++ rest))
  = Ok (n, DataBuffer.mk (map Js.to_uint8 (vlq_bytes n ++ rest))
                         (Z.of_nat (length (vlq_bytes n))))
  /\ (forall gs, gs <> [] -> Forall is_group gs -> base128 gs = n ->
      (length (vlq_bytes n) <= length gs)%nat)
  /\ (n = 0 -> vlq_bytes n = [0])
  /\ (exists hi last, vlq_bytes n = hi ++ [last]
                      /\ Forall (fun b => 128 <= b < 256) hi
                      /\ 0 <= last < 128).
Proof.
  intros Hn.
  destruct (vlq_bytes_shape n Hn) as (g & gs & Eg & Hall & Hval & Hsmall & Hbig & Hbytes).
  pose proof (Forall_inv Hall) as Hg. pose proof (Forall_inv_tail Hall) as Hgs.
  unfold is_group in Hg.
  assert (Hrev : Forall is_group (rev gs)) by (apply Forall_rev; assumption).
  assert (Hvalue : base128 (rev gs ++ [g]) = n).
  { change (rev gs ++ [g]) with (rev (g :: gs)). now rewrite base128_rev. }
  repeat split.
  - assert (Hsame : map Js.to_uint8 (vlq_bytes n) = vlq_bytes n).
    { rewrite Hbytes, map_app. f_equal.
      - rewrite map_map. apply map_ext_in. intros y Hy.
        rewrite Forall_forall in Hrev.
        assert (is_group y) as Hy' by (apply Hrev; now apply list_elem_of_In).
        unfold is_group in Hy'. unfold Js.to_uint8. apply Z.mod_small. lia.
      - cbn. unfold Js.to_uint8. now rewrite Z.mod_small by lia. }
    unfold readVariableLengthValues, DataBuffer.new.
    rewrite map_app, Hsame, Hbytes, <- app_assoc. cbn [app].
    pose proof (vlq_loop_spec (rev gs) 0
                  (S (Z.to_nat (DataBuffer.remainingBytes
                     (DataBuffer.mk (map (fun y => y + 128) (rev gs)
                                       ++ g :: map Js.to_uint8 rest) 0))))
                  [] (map Js.to_uint8 rest) g Hrev Hg ltac:(lia)) as Hread.
    cbn [app length] in Hread. change (Z.of_nat 0) with 0 in Hread. rewrite Hread.
    + fold (base128 (rev gs ++ [g])). rewrite Hvalue. do 3 f_equal. len_simpl. lia.
    + unfold base128 in Hvalue. rewrite fold_left_app in Hvalue. cbn [fold_left] in Hvalue.
      lia.
    + unfold DataBuffer.remainingBytes, DataBuffer.bufLength. cbn [DataBuffer.data DataBuffer.offset].
      len_simpl. lia.
  - intros gs' Hne Hgs' Hv.
    rewrite Hbytes. len_simpl.
    destruct gs' as [|g' gs']; [congruence|].
    destruct (Z_lt_le_dec n 128) as [Hlt|Hge].
    + rewrite (Hsmall Hlt). cbn. lia.
    + specialize (Hbig Hge).
      pose proof (base128_bound (g' :: gs') Hgs') as Hb. rewrite Hv in Hb.
      destruct (Nat.le_gt_cases (length gs + 1) (length (g' :: gs'))) as [|Hshort];
        [assumption|].
      assert (128 ^ Z.of_nat (length (g' :: gs')) <= 128 ^ Z.of_nat (length gs))
        by (apply Z.pow_le_mono_r; lia).
      lia.
  - intros ->. rewrite Hbytes, Hsmall by lia. cbn in Hval. cbn. f_equal. lia.
  - exists (map (fun y => y + 128) (rev gs)), g. repeat split; try lia; try assumption.
    apply Forall_map. eapply Forall_impl; [exact Hrev|].
    intros y Hy. unfold is_group in Hy. cbn. lia.
Qed.


Lemma vlq_roundtrip_minimal_witness :
  0 <= 300 < 268435456
  /\ readVariableLengthValues (DataBuffer.new (vlq_bytes 300 ++ [1; 2]))
     = Ok (300, DataBuffer.mk (map Js.to_uint8 (vlq_bytes 300 ++ [1; 2]))
                  (Z.of_nat (length (vlq_bytes 300)))).
Proof.
  split; [lia|]. apply (vlq_roundtrip_minimal 300 [1; 2]). lia.
Defined.
(** ** Note names *)



(** ** Parsing concrete files *)

(** C4: with running status, the body 00 90 3C 40 00 3E 40 00 40 40 decodes
    to three Note On events on channel 0, for the notes 60, 62 and 64, each
    with velocity 0x40. *)
Theorem running_status_three_note_ons :
  parse 3 running_status_file
  = Ok (mkAudioMIDI 0 1 (Some 480)
          [mkTrack "MTrk" 10
             [mkEvent (Some 0) (Some 144) (Some "Note On")
                      (VObj [("note", VNum 60); ("velocity", VNum 64)]) None None (Some 0);
              mkEvent (Some 0) (Some 144) (Some "Note On")
                      (VObj [("note", VNum 62); ("velocity", VNum 64)]) None None (Some 0);
              mkEvent (Some 0) (Some 144) (Some "Note On")
                      (VObj [("note", VNum 64); ("velocity", VNum 64)]) None None (Some 0)]]).
Proof. now vm_compute. Qed.

(** C1, at the failing input: of two well-formed tracks, [parse] returns a
    single chunk; the event loop of the first track goes on after its End of
    Track and decodes the second track's header and body as two more events
    of the first track. *)
Theorem two_tracks_parsed_as_one :
  exists first,
    parse 3 two_track_file = Ok (mkAudioMIDI 0 2 (Some 480) [first])
    /\ map label (events first)
       = [Some "End of Track"; Some "SMPTE Offset"; Some "End of Track"]
    /\ map deltaTime (events first) = [Some 0; Some 77; Some 0].
Proof. eexists. split; [now vm_compute | split; reflexivity]. Qed.

(** ** Used notes *)

Lemma type_never_literal_0_90 (t : option Z) : is_literal_0_90 t = false.
Proof.
  destruct t as [z|]; [|reflexivity].
  unfold is_literal_0_90, Qeq_bool, inject_Z. cbn [Qnum Qden].
  apply Z.eqb_neq. lia.
Qed.

Lemma getUsedNotes_always_empty (self : AudioMIDI) : getUsedNotes self = Ok [].
Proof.
  unfold getUsedNotes.
  assert (Hc : forall cs acc, fold_left
    (fun acc track =>
       fold_left
         (fun acc event =>
            match used_note_of event with
            | Some n => set_add n acc
            | None => acc
            end)
         (List.filter (fun event => is_literal_0_90 (type event)) (events track))
         acc) cs acc = acc).
  { induction cs as [|c cs IH]; intros acc; [reflexivity|]. cbn [fold_left].
    rewrite IH.
    generalize (events c). induction l as [|e l IHl]; [reflexivity|].
    cbn [List.filter]. rewrite type_never_literal_0_90. exact IHl. }
  unfold collect_used_notes. now rewrite Hc.
Qed.

(** C2, at the failing input: the file holds a Note On for note 60 with
    velocity 100, and [getUsedNotes] returns the empty array. *)
Theorem used_notes_empty_despite_note_on :
  exists m track event,
    parse 2 note_on_file = Ok m
    /\ chunks m = [track]
    /\ events track !! 0%nat = Some event
    /\ type event = Some 144
    /\ get_field "note" (data event) = VNum 60
    /\ get_field "velocity" (data event) = VNum 100
    /\ getUsedNotes m = Ok [].
Proof.
  do 3 eexists. split; [now vm_compute|].
  repeat split; try reflexivity.
Qed.

(** ** Writing events *)

Lemma write_popped_ok (r : list Z) :
  forall w, exists w', write_popped r w = Ok (tt, w').
Proof.
  induction r as [|x r IH]; intros w; [eexists; reflexivity|].
  destruct r as [|y r]; [eexists; reflexivity|].
  cbn [write_popped]. unfold bind. cbn [DataBuffer.writeUInt8].
  apply IH.
Qed.

Lemma writeVariableLengthValue_ok (v : option Z) (w : DataBuffer.Writer) :
  exists w', writeVariableLengthValue v w = Ok (tt, w').
Proof. apply write_popped_ok. Qed.

(** C6, at the failing input: a Control Change whose controller number is
    present and whose value is the legal 0 makes [writeEvent] throw, while
    the same event with the value 5 is written. *)
Theorem control_change_value_zero_throws (delta controllerNumber : Z) (w : DataBuffer.Writer) :
  writeEvent (control_change delta controllerNumber 0) w
  = Throw (Error "Invalid controller number or value")
  /\ writeEvent (control_change 0 7 5) DataBuffer.newWriter
     = Ok (tt, DataBuffer.mkWriter [0; 176; 7; 5] 4).
Proof.
  split; [|reflexivity].
  unfold writeEvent, control_change.
  cbn [statusByte_of channel type data deltaTime jv is_undefined].
  change (truthy (VNum (Js.or (Js.int32_of (Some 176)) (Js.and 0 15)))) with true.
  cbn [negb].
  destruct (writeVariableLengthValue_ok (Some delta) w) as [w' Hw'].
  unfold bind at 1. rewrite Hw'.
  unfold bind at 1. cbn [DataBuffer.writeUInt8].
  unfold bind, prop, ret, get_field, throw. cbn.
  destruct (controllerNumber =? 0); reflexivity.
Qed.

(** ** Validation: the balance of Note On and Note Off events *)

Section NoteBalance.

Lemma count_app {A : Type} (p : A -> bool) (l1 l2 : list A) :
  count p (l1 ++ l2) = count p l1 + count p l2.
Proof. induction l1 as [|x l1 IH]; cbn [count app]; lia. Qed.

Lemma sum_app (l1 l2 : list Z) : sum (l1 ++ l2) = sum l1 + sum l2.
Proof. unfold sum. induction l1 as [|x l1 IH]; cbn; lia. Qed.






Lemma balanced_end_of_track (on rel : Z) (c : TrackCheck) :
  balanced on rel c -> balanced on rel (mkTrackCheck (issues c) (activeCounts c) true).
Proof. intros H. exact H. Qed.






End NoteBalance.





(** ** Saving *)

Section Appends.

Lemma array_set_at_end (l : list Z) (i v : Z) :
  i = Z.of_nat (length l) -> DataBuffer.array_set l i v = l ++ [v].
Proof. intros ->. apply array_set_end. Qed.

Lemma array_set_inside (pre post : list Z) (x v i : Z) :
  i = Z.of_nat (length pre) ->
  DataBuffer.array_set (pre ++ x :: post) i v = pre ++ v :: post.
Proof.
  intros ->. unfold DataBuffer.array_set.
  destruct (Z.ltb_spec (Z.of_nat (length pre)) 0); [lia|].
  rewrite Nat2Z.id, length_app. cbn [length].
  destruct (Nat.ltb_spec (length pre) (length pre + S (length post))); [|lia].
  replace (length pre) with (length pre + 0)%nat at 1 by lia.
  now rewrite insert_app_r.
Qed.

Lemma appends_ret {A : Type} (a : A) : appends (ret a).
Proof.
  intros w a' w' He H. injection H as <- <-. split; [exact He|].
  exists []. now rewrite app_nil_r.
Qed.

Lemma appends_throw {A : Type} (e : JsError) : appends (@throw _ A e).
Proof. intros w a w' _ H. discriminate. Qed.

Lemma appends_bind {A B : Type} (m : DataBuffer.writer A) (k : A -> DataBuffer.writer B) :
  appends m -> (forall a, appends (k a)) -> appends (bind m k).
Proof.
  intros Hm Hk w b w' He H. unfold bind in H.
  destruct (m w) as [[a w1]| |] eqn:E; try discriminate.
  destruct (Hm _ _ _ He E) as [He1 [bs1 Hb1]].
  destruct (Hk a _ _ _ He1 H) as [He2 [bs2 Hb2]].
  split; [exact He2|]. exists (bs1 ++ bs2). now rewrite Hb2, Hb1, app_assoc.
Qed.

Lemma appends_prop (k : string) (d : JsValue) : appends (prop k d).
Proof. destruct d; first [apply appends_throw | apply appends_ret]. Qed.

Lemma appends_writeUInt8 (x : Z) : appends (DataBuffer.writeUInt8 x).
Proof.
  intros w a w' He H. destruct (writeUInt8_end x w He) as [E He'].
  rewrite E in H. injection H as <- <-. split; [exact He'|]. now eexists.
Qed.

Lemma write_at_end (bytes : list Z) :
  forall l, DataBuffer.write_at l (Z.of_nat (length l)) bytes
            = l ++ map Js.to_uint8 bytes.
Proof.
  induction bytes as [|x bytes IH]; intros l; cbn [DataBuffer.write_at map].
  - now rewrite app_nil_r.
  - rewrite array_set_end.
    replace (Z.of_nat (length l) + 1) with (Z.of_nat (length (l ++ [Js.to_uint8 x])))
      by (len_simpl; lia).
    rewrite IH, <- app_assoc. reflexivity.
Qed.

Lemma appends_writeBytes (bytes : list Z) : appends (DataBuffer.writeBytes bytes).
Proof.
  intros w a w' He H. unfold DataBuffer.writeBytes in H. injection H as <- <-.
  rewrite He, write_at_end. split; [|now eexists].
  unfold at_end. cbn. len_simpl. lia.
Qed.

Lemma appends_writeString (s : string) : appends (DataBuffer.writeString s).
Proof. apply appends_writeBytes. Qed.

Lemma writeUInt16_end (x : Z) (w : DataBuffer.Writer) :
  at_end w ->
  DataBuffer.writeUInt16 x w
  = Ok (tt, DataBuffer.mkWriter
              (DataBuffer.buffer w
                 ++ [Js.to_uint8 (Js.sar (Js.and x 65280) 8); Js.to_uint8 (Js.and x 255)])
              (DataBuffer.woffset w + 2)).
Proof.
  intros He. unfold DataBuffer.writeUInt16.
  rewrite (array_set_at_end _ _ _ He).
  rewrite array_set_at_end by (len_simpl; rewrite He; lia).
  now rewrite <- app_assoc.
Qed.

Lemma writeUInt32_end (x : Z) (w : DataBuffer.Writer) :
  at_end w ->
  DataBuffer.writeUInt32 x w
  = Ok (tt, DataBuffer.mkWriter
              (DataBuffer.buffer w
                 ++ [Js.to_uint8 (Js.sar (Js.and x 4278190080) 24);
                     Js.to_uint8 (Js.sar (Js.and x 16711680) 16);
                     Js.to_uint8 (Js.sar (Js.and x 65280) 8);
                     Js.to_uint8 (Js.and x 255)])
              (DataBuffer.woffset w + 4)).
Proof.
  intros He. unfold DataBuffer.writeUInt32.
  rewrite (array_set_at_end _ _ _ He).
  rewrite (array_set_at_end (DataBuffer.buffer w ++ [_]) (DataBuffer.woffset w + 1))
    by (len_simpl; rewrite He; lia).
  rewrite (array_set_at_end ((DataBuffer.buffer w ++ [_]) ++ [_]) (DataBuffer.woffset w + 2))
    by (len_simpl; rewrite He; lia).
  rewrite (array_set_at_end (((DataBuffer.buffer w ++ [_]) ++ [_]) ++ [_])
             (DataBuffer.woffset w + 3))
    by (len_simpl; rewrite He; lia).
  now rewrite <- !app_assoc.
Qed.

Lemma writeUInt32_inside (x : Z) (w : DataBuffer.Writer) (pre post : list Z) (a b c d : Z) :
  DataBuffer.buffer w = pre ++ [a; b; c; d] ++ post ->
  DataBuffer.woffset w = Z.of_nat (length pre) ->
  exists b4, length b4 = 4%nat
    /\ DataBuffer.writeUInt32 x w
       = Ok (tt, DataBuffer.mkWriter (pre ++ b4 ++ post) (DataBuffer.woffset w + 4)).
Proof.
  intros Hb Ho. unfold DataBuffer.writeUInt32. rewrite Hb, Ho. cbn [app].
  rewrite (array_set_inside pre (b :: c :: d :: post) a) by reflexivity.
  change (pre ++ ?v :: b :: c :: d :: post) with (pre ++ [v] ++ b :: c :: d :: post).
  rewrite app_assoc.
  rewrite (array_set_inside (pre ++ [_]) (c :: d :: post) b) by (len_simpl; lia).
  rewrite <- app_assoc. cbn [app].
  change (pre ++ ?v :: ?v2 :: c :: d :: post) with (pre ++ [v; v2] ++ c :: d :: post).
  rewrite app_assoc.
  rewrite (array_set_inside (pre ++ [_; _]) (d :: post) c) by (len_simpl; lia).
  rewrite <- app_assoc. cbn [app].
  change (pre ++ ?v :: ?v2 :: ?v3 :: d :: post) with (pre ++ [v; v2; v3] ++ d :: post).
  rewrite app_assoc.
  rewrite (array_set_inside (pre ++ [_; _; _]) post d) by (len_simpl; lia).
  rewrite <- app_assoc. cbn [app].
  eexists [_; _; _; _]. split; reflexivity.
Qed.

Lemma appends_write_popped (r : list Z) : appends (write_popped r).
Proof.
  induction r as [|x r IH]; [apply appends_writeUInt8|].
  destruct r as [|y r]; [apply appends_writeUInt8|].
  cbn [write_popped]. apply appends_bind; [apply appends_writeUInt8 | intros _; exact IH].
Qed.

Lemma appends_writeVariableLengthValue (v : option Z) :
  appends (writeVariableLengthValue v).
Proof. apply appends_write_popped. Qed.

Lemma appends_writeEventData (d : JsValue) : appends (writeEventData d).
Proof.
  destruct d; cbn [writeEventData];
    try apply appends_throw; try apply appends_writeBytes.
  destruct (existsb is_undefined l); [apply appends_throw|].
  induction l as [|x l IH]; [apply appends_ret|].
  apply appends_bind; [apply appends_writeUInt8 | intros _; exact IH].
Qed.

Ltac appends_step :=
  first
    [ apply appends_ret
    | apply appends_throw
    | apply appends_writeUInt8
    | apply appends_writeEventData
    | apply appends_writeVariableLengthValue
    | apply appends_prop
    | apply appends_bind; [|intros ?]
    | match goal with
      | |- appends (if ?b then _ else _) => destruct b
      | |- appends (match ?x with _ => _ end) => destruct x
      end ].

Lemma appends_writeMetaData (mt : option Z) (d : JsValue) : appends (writeMetaData mt d).
Proof. unfold writeMetaData. repeat appends_step. Qed.

Lemma appends_writeEvent (e : MidiTrackEvent) : appends (writeEvent e).
Proof.
  unfold writeEvent.
  destruct (negb (truthy (jv (statusByte_of e)))); [apply appends_throw|].
  destruct (is_undefined (jv (deltaTime e))); [apply appends_throw|].
  apply appends_bind; [apply appends_writeVariableLengthValue | intros _].
  apply appends_bind; [apply appends_writeUInt8 | intros _].
  generalize (data e) (metaType e) (metaEventLength e). intros d mt len.
  destruct (type e) as [z|]; [|apply appends_throw].
  repeat first [ apply appends_writeMetaData | appends_step ].
Qed.

Lemma appends_writeEvents (evs : list MidiTrackEvent) : appends (writeEvents evs).
Proof.
  induction evs as [|e evs IH]; [apply appends_ret|].
  cbn [writeEvents]. apply appends_bind; [apply appends_writeEvent | intros _; exact IH].
Qed.

End Appends.

Section SaveToDataBuffer.

Lemma wseek_to (position : Z) (w : DataBuffer.Writer) :
  0 <= position ->
  DataBuffer.wseek position w = Ok (tt, DataBuffer.mkWriter (DataBuffer.buffer w) position).
Proof.
  intros Hp. unfold DataBuffer.wseek.
  destruct (Z.gtb_spec position (DataBuffer.woffset w)); [reflexivity|].
  destruct (Z.ltb_spec position (DataBuffer.woffset w)).
  - destruct (Z.gtb_spec (DataBuffer.woffset w - position) (DataBuffer.woffset w));
      [lia | reflexivity].
  - assert (position = DataBuffer.woffset w) as -> by lia. now destruct w.
Qed.

Lemma appends_writeChunk (c : Track) : appends (writeChunk c).
Proof.
  unfold writeChunk. destruct (String.eqb (chunkType c) "MTrk"); [|apply appends_ret].
  intros w a w' He H. unfold bind at 1 in H.
  unfold DataBuffer.writeString, DataBuffer.writeBytes in H.
  rewrite He, write_at_end in H.
  set (pre := DataBuffer.buffer w ++ map Js.to_uint8 (map (fun c => Js.and c 255)
                                                 (DataBuffer.char_codes "MTrk"))) in *.
  assert (Hpre : Z.of_nat (length (DataBuffer.buffer w))
                 + Z.of_nat (length (map (fun c => Js.and c 255) (DataBuffer.char_codes "MTrk")))
                 = Z.of_nat (length pre)).
  { subst pre. len_simpl. lia. }
  rewrite Hpre in H. unfold bind at 1 in H. cbn [get_offset DataBuffer.woffset] in H.
  unfold bind at 1 in H.
  rewrite writeUInt32_end in H by reflexivity.
  cbn [DataBuffer.buffer DataBuffer.woffset] in H.
  unfold bind at 1 in H. cbn [get_offset DataBuffer.woffset] in H.
  unfold bind at 1 in H.
  match type of H with
  | context [writeEvents (events c) ?w2] =>
      destruct (writeEvents (events c) w2) as [[[] w3]| |] eqn:Eev; try discriminate;
      destruct (appends_writeEvents (events c) w2 tt w3) as [He3 [evs Hb3]];
        [unfold at_end; cbn; len_simpl; lia | exact Eev |]
  end.
  cbn [DataBuffer.buffer] in Hb3.
  unfold bind at 1 in H. cbn [get_offset] in H.
  unfold bind at 1 in H. rewrite wseek_to in H by lia.
  unfold bind at 1 in H.
  match type of H with
  | context [DataBuffer.writeUInt32 ?x ?w4] =>
      edestruct (writeUInt32_inside x w4 pre evs) as (b4 & Hlen & E4);
        [cbn [DataBuffer.buffer]; rewrite Hb3, <- app_assoc; reflexivity
        | reflexivity | rewrite E4 in H]
  end.
  unfold bind at 1 in H. rewrite wseek_to in H.
  - cbn [DataBuffer.buffer] in H. unfold ret in H. injection H as <- <-.
    split.
    + unfold at_end. cbn [DataBuffer.buffer DataBuffer.woffset].
      rewrite He3, Hb3. len_simpl. rewrite Hlen. lia.
    + subst pre. cbn [DataBuffer.buffer]. rewrite <- app_assoc. now eexists.
  - rewrite He3. lia.
Qed.

Lemma appends_writeChunks (cs : list Track) : appends (writeChunks cs).
Proof.
  induction cs as [|c cs IH]; [apply appends_ret|].
  cbn [writeChunks]. apply appends_bind; [apply appends_writeChunk | intros c'].
  apply appends_bind; [exact IH | intros rest; apply appends_ret].
Qed.

Lemma writeChunk_other_type (c : Track) (w : DataBuffer.Writer) :
  is_mtrk c = false -> writeChunk c w = Ok (c, w).
Proof. unfold is_mtrk, writeChunk. now intros ->. Qed.

Lemma u16_bytes (x : Z) :
  0 <= x < 65536 ->
  Js.to_uint8 (Js.sar (Js.and x 65280) 8) = x / 256
  /\ Js.to_uint8 (Js.and x 255) = x mod 256.
Proof.
  intros Hx.
  assert (H : u16_ok x = true).
  { apply (check_bits_sound u16_ok 16 0); [now vm_compute | simpl; lia]. }
  unfold u16_ok in H. apply andb_prop in H as [H1 H2].
  split; now apply Z.eqb_eq.
Qed.

Lemma header_written {A : Type} (f tc td : Z) (k : DataBuffer.writer A) :
  0 <= f < 65536 -> 0 <= tc < 65536 -> 0 <= td < 65536 ->
  (run DataBuffer.writeString "MThd" in
   run DataBuffer.writeUInt32 6 in
   run DataBuffer.writeUInt16 f in
   run DataBuffer.writeUInt16 tc in
   run DataBuffer.writeUInt16 td in
   k) DataBuffer.newWriter
  = k (DataBuffer.mkWriter
         [77; 84; 104; 100; 0; 0; 0; 6;
          f / 256; f mod 256; tc / 256; tc mod 256; td / 256; td mod 256] 14).
Proof.
  intros Hf Ht Hd.
  unfold bind at 1.
  change (DataBuffer.writeString "MThd" DataBuffer.newWriter)
    with (Ok (tt, DataBuffer.mkWriter [77; 84; 104; 100] 4)).
  unfold bind at 1.
  change (DataBuffer.writeUInt32 6 (DataBuffer.mkWriter [77; 84; 104; 100] 4))
    with (Ok (tt, DataBuffer.mkWriter [77; 84; 104; 100; 0; 0; 0; 6] 8)).
  unfold bind at 1. rewrite writeUInt16_end by reflexivity.
  cbn [DataBuffer.buffer DataBuffer.woffset app].
  unfold bind at 1. rewrite writeUInt16_end by reflexivity.
  cbn [DataBuffer.buffer DataBuffer.woffset app].
  unfold bind at 1. rewrite writeUInt16_end by reflexivity.
  cbn [DataBuffer.buffer DataBuffer.woffset app].
  destruct (u16_bytes _ Hf) as [-> ->].
  destruct (u16_bytes _ Ht) as [-> ->].
  destruct (u16_bytes _ Hd) as [-> ->].
  reflexivity.
Qed.

End SaveToDataBuffer.
(** ** Reading: what every read preserves *)

Create HintDb rd discriminated.

Section Reads.

Lemma rd_ok_ret {A : Type} (a : A) : rd_ok (ret a).
Proof. intros b a' b' H. injection H as <- <-. auto. Qed.

Lemma rd_ok_throw {A : Type} (e : JsError) : rd_ok (@throw _ A e).
Proof. intros b a b' H. discriminate. Qed.

Lemma rd_ok_bind {A B : Type} (m : DataBuffer.reader A) (k : A -> DataBuffer.reader B) :
  rd_ok m -> (forall a, rd_ok (k a)) -> rd_ok (bind m k).
Proof.
  intros Hm Hk b x b' H. unfold bind in H.
  destruct (m b) as [[a b1]| |] eqn:E; try discriminate.
  destruct (Hm _ _ _ E) as [Hd1 Hr1]. destruct (Hk a _ _ _ H) as [Hd2 Hr2].
  split; [congruence | auto].
Qed.

Lemma rd_ok_readUInt8 : rd_ok DataBuffer.readUInt8.
Proof.
  intros b a b' H. unfold DataBuffer.readUInt8, DataBuffer.available in H.
  destruct (Z.leb_spec 1 (DataBuffer.remainingBytes b)); [|discriminate].
  injection H as <- <-. split; [reflexivity|].
  unfold DataBuffer.remainingBytes, DataBuffer.bufLength in *. cbn. lia.
Qed.

Lemma rd_ok_peekUInt8 (off : Z) : rd_ok (DataBuffer.peekUInt8 off).
Proof.
  intros b a b' H. unfold DataBuffer.peekUInt8 in H.
  destruct (DataBuffer.availableAt b 1 off); [|discriminate].
  injection H as <- <-. auto.
Qed.

Lemma rd_ok_advance (n : Z) : rd_ok (DataBuffer.advance n).
Proof.
  intros b a b' H. unfold DataBuffer.advance, DataBuffer.available in H.
  destruct (Z.leb_spec n (DataBuffer.remainingBytes b)); [|discriminate].
  injection H as <- <-. split; [reflexivity|].
  unfold DataBuffer.remainingBytes, DataBuffer.bufLength in *. cbn. lia.
Qed.

Lemma rd_ok_rewind : rd_ok (DataBuffer.rewind 1).
Proof.
  intros b a b' H. unfold DataBuffer.rewind in H.
  destruct (Z.gtb_spec 1 (DataBuffer.offset b)); [discriminate|].
  injection H as <- <-. split; [reflexivity|].
  unfold DataBuffer.remainingBytes, DataBuffer.bufLength in *. cbn. lia.
Qed.

Lemma rd_ok_read_loop (n : nat) : rd_ok (DataBuffer.read_loop n).
Proof.
  induction n as [|n IH]; cbn [DataBuffer.read_loop]; [apply rd_ok_ret|].
  apply rd_ok_bind; [apply rd_ok_readUInt8 | intros x].
  apply rd_ok_bind; [exact IH | intros rest; apply rd_ok_ret].
Qed.

Lemma rd_ok_read (n : Z) : rd_ok (DataBuffer.read n).
Proof.
  unfold DataBuffer.read. destruct (n <? 0); [apply rd_ok_throw | apply rd_ok_read_loop].
Qed.

Lemma rd_ok_readUInt16 : rd_ok DataBuffer.readUInt16.
Proof. apply rd_ok_bind; [apply rd_ok_read | intros; apply rd_ok_ret]. Qed.

Lemma rd_ok_readUInt32 : rd_ok DataBuffer.readUInt32.
Proof. apply rd_ok_bind; [apply rd_ok_read | intros; apply rd_ok_ret]. Qed.

Lemma rd_ok_decode_ascii (n : nat) : forall off, rd_ok (DataBuffer.decode_ascii n off).
Proof.
  induction n as [|n IH]; intros off; cbn [DataBuffer.decode_ascii]; [apply rd_ok_ret|].
  apply rd_ok_bind; [apply rd_ok_peekUInt8 | intros c].
  apply rd_ok_bind; [apply IH | intros rest; apply rd_ok_ret].
Qed.

Lemma rd_ok_readString (len : Z) : rd_ok (DataBuffer.readString len).
Proof.
  intros b a b' H. unfold DataBuffer.readString in H.
  revert H. generalize (if len =? 0 then DataBuffer.remainingBytes b else len).
  intros len' H.
  refine (rd_ok_bind _ _ (rd_ok_decode_ascii _ _) _ b a b' H).
  intros s. apply rd_ok_bind; [apply rd_ok_advance | intros; apply rd_ok_ret].
Qed.

Lemma rd_ok_vlq_loop (fuel : nat) : forall value, rd_ok (vlq_loop fuel value).
Proof.
  induction fuel as [|fuel IH]; intros value b a b' H; [discriminate|].
  cbn [vlq_loop] in H. unfold bind in H.
  destruct (DataBuffer.readUInt8 b) as [[byte b1]| |] eqn:E; try discriminate.
  destruct (rd_ok_readUInt8 _ _ _ E) as [Hd1 Hr1].
  destruct (negb _ && _).
  - destruct (IH _ _ _ _ H) as [Hd2 Hr2]. split; [congruence | auto].
  - injection H as <- <-. auto.
Qed.

Lemma rd_ok_readVariableLengthValues : rd_ok readVariableLengthValues.
Proof. intros b a b' H. exact (rd_ok_vlq_loop _ _ _ _ _ H). Qed.

End Reads.

#[export] Hint Resolve rd_ok_readUInt8 rd_ok_advance rd_ok_rewind rd_ok_read
  rd_ok_readUInt32 rd_ok_readString rd_ok_readVariableLengthValues : rd.

Section Quiet.

Lemma quiet_ret {A : Type} (a : A) (Q : A -> Prop) : Q a -> quiet (ret a) Q.
Proof. intros HQ st a' st' H. injection H as <- <-. auto 10. Qed.

Lemma quiet_throw {A : Type} (e : JsError) (Q : A -> Prop) : quiet (throw e) Q.
Proof. intros st a st' H. discriminate. Qed.

Lemma quiet_bind {A B : Type} (m : parser A) (k : A -> parser B)
    (P : A -> Prop) (Q : B -> Prop) :
  quiet m P -> (forall a, P a -> quiet (k a) Q) -> quiet (bind m k) Q.
Proof.
  intros Hm Hk st b st' H. unfold bind in H.
  destruct (m st) as [[a st1]| |] eqn:E; try discriminate.
  destruct (Hm _ _ _ E) as (H1 & H2 & H3 & H4 & H5 & HP).
  destruct (Hk a HP _ _ _ H) as (K1 & K2 & K3 & K4 & K5 & HQ).
  repeat split; try congruence; auto.
Qed.

Lemma quiet_this {A : Type} (r : DataBuffer.reader A) :
  rd_ok r -> quiet (this r) (fun _ => True).
Proof.
  intros Hr st a st' H. unfold this in H.
  destruct (r (buf st)) as [[x b']| |] eqn:E; try discriminate.
  injection H as <- <-. destruct (Hr _ _ _ E). cbn. auto 10.
Qed.

Lemma quiet_lift {A : Type} (o : outcome A) : quiet (lift o) (fun _ => True).
Proof.
  intros st a st' H. unfold lift in H. destruct o; try discriminate.
  injection H as <- <-. auto 10.
Qed.

Lemma quiet_get_state : quiet get_state (fun _ => True).
Proof. intros st a st' H. injection H as <- <-. auto 10. Qed.

Lemma quiet_weaken {A : Type} (m : parser A) (P Q : A -> Prop) :
  quiet m P -> (forall a, P a -> Q a) -> quiet m Q.
Proof.
  intros Hm HPQ st a st' H. destruct (Hm _ _ _ H) as (H1 & H2 & H3 & H4 & H5 & HP).
  auto 10.
Qed.

Lemma quiet_sysex_data (fuel : nat) :
  forall acc, quiet (sysex_data fuel acc) (fun _ => True).
Proof.
  induction fuel as [|fuel IH]; intros acc; [intros st a st' H; discriminate|].
  cbn [sysex_data].
  eapply quiet_bind; [apply quiet_this, rd_ok_readUInt8 | intros byte _].
  repeat match goal with
         | |- quiet (match ?x with _ => _ end) _ => destruct x
         end; first [apply quiet_ret; exact I | apply IH].
Qed.

End Quiet.

(** One step through a computation that only reads. *)
Ltac quiet_step :=
  first
    [ apply quiet_throw
    | apply quiet_ret; cbn; solve [auto]
    | eapply quiet_bind; [apply quiet_this; solve [auto with rd] | intros ? _]
    | eapply quiet_bind; [apply quiet_lift | intros ? _]
    | eapply quiet_bind; [apply quiet_get_state | intros ? _]
    | eapply quiet_bind; [apply quiet_sysex_data | intros ? _]
    | match goal with
      | |- quiet (if ?b then _ else _) _ => destruct b
      | |- quiet (match ?x with _ => _ end) _ => destruct x
      | |- quiet (let (_, _) := ?x in _) _ => destruct x
      end
    | eapply (quiet_bind _ _ (fun _ => True)); [|intros ? _] ].

Section QuietEvents.

Lemma quiet_length_prefixed (l : option string) (e0 : MidiTrackEvent) :
  quiet (length_prefixed l e0) (same_head e0).
Proof. unfold length_prefixed, same_head. destruct l; repeat quiet_step. Qed.

Lemma quiet_text_event (l : string) (e0 : MidiTrackEvent) :
  quiet (text_event l e0) (same_head e0).
Proof. unfold text_event, same_head. repeat quiet_step. Qed.

Lemma quiet_meta_event (tc : Z) (e0 : MidiTrackEvent) :
  quiet (meta_event tc e0)
        (fun e => deltaTime e = deltaTime e0 /\ type e = Some 255).
Proof.
  unfold meta_event.
  eapply quiet_bind; [apply quiet_this; auto with rd | intros mt _].
  eapply quiet_bind; [apply quiet_this; auto with rd | intros len _].
  destruct mt as [z|]; [|apply quiet_throw].
  repeat match goal with
         | |- quiet (match ?x with _ => _ end) _ =>
             match type of x with
             | Z => destruct x
             | positive => destruct x
             end
         end;
    try (eapply quiet_weaken; [apply quiet_text_event | intros ? [? ?]; cbn in *; auto]);
    repeat quiet_step.
Qed.

End QuietEvents.

(** ** One round of the event loop *)

Ltac split_match_in H :=
  repeat match type of H with
         | context [match ?x with _ => _ end] =>
             match type of x with
             | Z => destruct x
             | positive => destruct x
             end
         end.

Section Steps.

Lemma untemplate_template (k : option Z) :
  valid_key k -> untemplate (VStr (template k)) = k.
Proof.
  destruct k as [z|]; [|reflexivity]. intros Hz. unfold valid_key, is_byte in Hz.
  assert (H : untemplate_ok z = true).
  { apply (check_bits_sound untemplate_ok 8 0); [now vm_compute | simpl; lia]. }
  unfold untemplate_ok in H.
  destruct (untemplate (VStr (template (Some z)))) as [z'|]; [|discriminate].
  apply Z.eqb_eq in H. now subst.
Qed.

Lemma readUInt8_valid (b b' : DataBuffer.t) (x : option Z) :
  Forall is_byte (DataBuffer.data b) ->
  DataBuffer.readUInt8 b = Ok (x, b') -> valid_key x.
Proof.
  intros Hall H. unfold DataBuffer.readUInt8 in H.
  destruct (DataBuffer.available b 1); [|discriminate].
  injection H as <- <-. unfold DataBuffer.data_at.
  destruct (DataBuffer.offset b <? 0); [exact I|].
  destruct (DataBuffer.data b !! Z.to_nat (DataBuffer.offset b)) as [z|] eqn:E; [|exact I].
  cbn. eapply Forall_lookup_1; eassumption.
Qed.

Lemma key_of_jv (k : option Z) : key_of (jv k) = k.
Proof. now destruct k. Qed.

Lemma get_note_of_note_data (n v : JsValue) : get_field "note" (note_data n v) = n.
Proof. reflexivity. Qed.

Lemma get_note_of_note_off (n v l : JsValue) :
  get_field "note" (VObj [("note", n); ("velocity", v); ("length", l)]) = n.
Proof. reflexivity. Qed.

Lemma quiet_decoded {m : parser MidiTrackEvent} {Q : MidiTrackEvent -> Prop}
    (dt : option Z) (st st' : ParseState) (e : MidiTrackEvent) :
  quiet m Q ->
  (forall e, Q e -> kind_of e = KOther /\ deltaTime e = dt) ->
  m st = Ok (e, st') ->
  decoded st e st' /\ deltaTime e = dt.
Proof.
  intros Hq HQ H. destruct (Hq _ _ _ H) as (H1 & H2 & H3 & H4 & H5 & He).
  destruct (HQ _ He) as [Hk Hd]. split; [|exact Hd].
  unfold decoded, kept. rewrite Hk. auto 10.
Qed.

(** Two bytes read from the instance's buffer. *)
Lemma read_two (st st' : ParseState) {A : Type} (k : option Z -> option Z -> parser A) (a : A) :
  Forall is_byte (DataBuffer.data (buf st)) ->
  (let* x := this DataBuffer.readUInt8 in
   let* y := this DataBuffer.readUInt8 in k x y) st = Ok (a, st') ->
  exists x y b2,
    valid_key x
    /\ DataBuffer.data b2 = DataBuffer.data (buf st)
    /\ (0 <= DataBuffer.remainingBytes (buf st) -> 0 <= DataBuffer.remainingBytes b2)
    /\ k x y (mkParseState b2 (currentTime st) (activeNotes st) (heap st)) = Ok (a, st').
Proof.
  intros Hall H. unfold bind, this in H.
  destruct (DataBuffer.readUInt8 (buf st)) as [[x b1]| |] eqn:E1; try discriminate.
  cbn [buf currentTime activeNotes heap] in H.
  destruct (DataBuffer.readUInt8 b1) as [[y b2]| |] eqn:E2; try discriminate.
  cbn [buf currentTime activeNotes heap] in H.
  destruct (rd_ok_readUInt8 _ _ _ E1) as [Hd1 Hr1].
  destruct (rd_ok_readUInt8 _ _ _ E2) as [Hd2 Hr2].
  exists x, y, b2. repeat split; [ | congruence | auto | exact H].
  eapply readUInt8_valid; eassumption.
Qed.

Lemma channel_event_step (et : option Z) (e0 e : MidiTrackEvent) (st st' : ParseState) :
  Forall is_byte (DataBuffer.data (buf st)) ->
  channel_event et e0 st = Ok (e, st') ->
  decoded st e st' /\ deltaTime e = deltaTime e0.
Proof.
  intros Hall H. unfold channel_event in H.
  assert (Hk : forall e, type e = et ->
            kind_of e = match Js.and (Js.sar (Js.int32_of et) 4) 15 with
                        | 9 => KOn (key_of (get_field "note" (data e)))
                        | 8 => KOff (untemplate (get_field "note" (data e)))
                        | _ => KOther
                        end).
  { intros e1 He1. unfold kind_of, nibble. now rewrite He1. }
  revert H Hk. generalize (Js.and (Js.sar (Js.int32_of et) 4) 15). intros n H Hk.
  split_match_in H;
    try (match type of H with
         | ?m st = _ =>
             refine (quiet_decoded (deltaTime e0) st st' e (m := m)
                       (Q := fun e => deltaTime e = deltaTime e0 /\ type e = et) _ _ H);
             [ first [ eapply quiet_weaken;
                       [apply quiet_length_prefixed | intros ? [? ?]; cbn in *; auto]
                     | repeat quiet_step ]
             | intros e1 [Hd1 Ht1]; split; [exact (Hk e1 Ht1) | exact Hd1] ]
         end).
  - (* Note On *)
    destruct (read_two _ _ _ _ Hall H) as (note & vel & b2 & Hv & Hd & Hr & H2).
    unfold bind, get_state, set_activeNotes, ret in H2.
    cbn [buf currentTime activeNotes heap] in H2. injection H2 as <- <-.
    split; [|reflexivity]. unfold decoded, kept.
    erewrite Hk by reflexivity.
    cbn [buf currentTime activeNotes heap data set_label set_data].
    rewrite get_note_of_note_data, key_of_jv. repeat split; auto; [now exists vel|].
    eexists. split; reflexivity.
  - (* Note Off *)
    destruct (read_two _ _ _ _ Hall H) as (note & vel & b2 & Hv & Hd & Hr & H2).
    unfold bind at 1 in H2. unfold get_state at 1 in H2.
    cbn [buf currentTime activeNotes heap] in H2.
    destruct (activeNotes st !! note) as [d|] eqn:El.
    + unfold bind, patch_length, set_activeNotes, ret in H2.
      cbn [buf currentTime activeNotes heap] in H2. injection H2 as <- <-.
      split; [|reflexivity]. unfold decoded, kept.
      erewrite Hk by reflexivity.
      cbn [buf currentTime activeNotes heap data set_label set_data].
      rewrite get_note_of_note_off, (untemplate_template _ Hv), El. repeat split; auto.
    + unfold ret in H2. injection H2 as <- <-.
      split; [|reflexivity]. unfold decoded, kept.
      erewrite Hk by reflexivity.
      cbn [buf currentTime activeNotes heap data set_label set_data].
      rewrite get_note_of_note_off, (untemplate_template _ Hv), El. repeat split; auto.
Qed.

Lemma decode_event_step (tc : Z) (status : option Z) (e0 e : MidiTrackEvent)
    (st st' : ParseState) :
  Forall is_byte (DataBuffer.data (buf st)) ->
  type e0 = None ->
  decode_event tc status e0 st = Ok (e, st') ->
  decoded st e st' /\ deltaTime e = deltaTime e0.
Proof.
  intros Hall Ht0 H. unfold decode_event in H.
  destruct status as [z|]; [|eapply channel_event_step; eassumption].
  split_match_in H;
    first
      [ eapply channel_event_step; eassumption
      | refine (quiet_decoded (deltaTime e0) st st' e (quiet_meta_event tc e0) _ H);
        intros e1 [Hd1 Ht1]; split; [unfold kind_of; now rewrite Ht1 | exact Hd1]
      | match type of H with
        | ?m st = _ =>
            refine (quiet_decoded (deltaTime e0) st st' e (m := m) (Q := same_head e0) _ _ H);
            [ first [apply quiet_length_prefixed | unfold same_head; repeat quiet_step]
            | intros e1 [Hd1 Ht1]; split;
              [unfold kind_of; now rewrite Ht1, Ht0 | exact Hd1] ]
        end ].
Qed.

Lemma track_event_step (tc : Z) (last status : option Z) (ref : nat)
    (st st' : ParseState) :
  Forall is_byte (DataBuffer.data (buf st)) ->
  track_event tc last st = Ok ((ref, status), st') ->
  exists e,
    paired_step (heap st) (activeNotes st) (currentTime st + delta_of e) e
                (heap st') (activeNotes st')
    /\ currentTime st' = currentTime st + delta_of e
    /\ ref = length (heap st)
    /\ DataBuffer.data (buf st') = DataBuffer.data (buf st)
    /\ (0 <= DataBuffer.remainingBytes (buf st) ->
        0 <= DataBuffer.remainingBytes (buf st')).
Proof.
  intros Hall H. unfold track_event in H.
  unfold bind at 1 in H.
  destruct (this readVariableLengthValues st) as [[delta st1]| |] eqn:E1; try discriminate.
  destruct (quiet_this _ rd_ok_readVariableLengthValues _ _ _ E1)
    as (A1 & A2 & A3 & A4 & A5 & _).
  unfold bind at 1 in H. unfold add_time at 1 in H.
  unfold bind at 1 in H.
  match type of H with
  | context [this DataBuffer.readUInt8 ?s] =>
      destruct (this DataBuffer.readUInt8 s) as [[eventType st2]| |] eqn:E2;
        try discriminate;
      destruct (quiet_this _ rd_ok_readUInt8 _ _ _ E2) as (B1 & B2 & B3 & B4 & B5 & _)
  end.
  cbn [heap activeNotes currentTime buf] in *.
  unfold bind at 1 in H.
  match type of H with
  | context [match ?m st2 with _ => _ end] =>
      destruct (m st2) as [[status' st3]| |] eqn:E3; try discriminate;
      assert (Hq3 : quiet m (fun _ => True)) by (repeat quiet_step);
      destruct (Hq3 _ _ _ E3) as (C1 & C2 & C3 & C4 & C5 & _)
  end.
  unfold bind at 1 in H.
  destruct (decode_event tc status' (newEvent delta) st3) as [[event st4]| |] eqn:E4;
    try discriminate.
  destruct (decode_event_step tc status' (newEvent delta) event st3 st4) as [[Hkept Hdec] Hdt];
    [congruence | reflexivity | exact E4 |].
  destruct Hkept as (D1 & D2 & D3).
  unfold bind, push_event, ret in H. injection H as <- <- <-.
  cbn [heap activeNotes currentTime buf].
  assert (Hdelta : delta_of event = delta) by (unfold delta_of; now rewrite Hdt).
  exists event. rewrite Hdelta.
  assert (Hpair : paired_step (heap st) (activeNotes st) (currentTime st + delta) event
                    (heap st4 ++ [event]) (activeNotes st4)
                  /\ length (heap st4) = length (heap st)).
  { unfold paired_step. rewrite C1, C2, C3, B1, B2, B3, A1, A2, A3 in Hdec.
    destruct (kind_of event) as [|k|k].
    - destruct Hdec as [-> ->]. repeat split.
    - destruct Hdec as (-> & Hv & Hl).
      split; [split; [reflexivity | split; [exact Hv | exact Hl]] | reflexivity].
    - destruct (activeNotes st !! k) as [d|].
      + destruct Hdec as [-> ->]. repeat split. apply length_alter.
      + destruct Hdec as [-> ->]. repeat split. }
  destruct Hpair as [Hpair Hlen].
  repeat split; try assumption; try congruence.
  intros Hr. auto.
Qed.

End Steps.

(** ** Note pairing over a whole track *)

Section FirstTouch.

Lemma first_touch_found (k : option Z) (ks : list note_kind) (j : nat) (kd : note_kind) :
  first_touch k ks = Some (j, kd) ->
  ks !! j = Some kd /\ touches k kd = true /\ (j < length ks)%nat.
Proof.
  revert j. induction ks as [|x ks IH]; intros j H; [discriminate|].
  cbn [first_touch] in H. destruct (touches k x) eqn:Ex.
  - injection H as <- <-. cbn. repeat split; [assumption | lia].
  - destruct (first_touch k ks) as [[j' kd']|]; [|discriminate].
    injection H as <- <-. destruct (IH j' eq_refl) as (H1 & H2 & H3).
    cbn. repeat split; [assumption.. | lia].
Qed.

Lemma first_touch_none (k : option Z) (ks : list note_kind) (j : nat) (kd : note_kind) :
  first_touch k ks = None -> ks !! j = Some kd -> touches k kd = false.
Proof.
  revert j. induction ks as [|x ks IH]; intros j H Hj; [discriminate|].
  cbn [first_touch] in H. destruct (touches k x) eqn:Ex; [discriminate|].
  destruct (first_touch k ks) as [[j' kd']|] eqn:E; [discriminate|].
  destruct j as [|j]; cbn in Hj.
  - now injection Hj as <-.
  - eapply IH; [reflexivity | eassumption].
Qed.

Lemma first_touch_app (k : option Z) (ks : list note_kind) (kd : note_kind) :
  first_touch k (ks ++ [kd])
  = match first_touch k ks with
    | Some x => Some x
    | None => if touches k kd then Some (length ks, kd) else None
    end.
Proof.
  induction ks as [|x ks IH]; cbn [first_touch app length].
  - destruct (touches k kd); reflexivity.
  - destruct (touches k x); [reflexivity|]. rewrite IH.
    destruct (first_touch k ks) as [[j kd']|]; [reflexivity|].
    destruct (touches k kd); reflexivity.
Qed.

Lemma sum_snoc (l : list Z) (x : Z) : sum (l ++ [x]) = sum l + x.
Proof. rewrite sum_app. unfold sum. cbn. lia. Qed.

Lemma expected_length_snoc (ks : list note_kind) (ds : list Z) (kd : note_kind)
    (delta : Z) (i : nat) (k : option Z) :
  length ks = length ds -> (i < length ks)%nat ->
  expected_length (ks ++ [kd]) (ds ++ [delta]) i k
  = match first_touch k (drop (S i) ks) with
    | Some _ => expected_length ks ds i k
    | None =>
        if touches k kd
        then match kd with
             | KOff _ => Some (sum (drop (S i) ds) + delta)
             | _ => None
             end
        else None
    end.
Proof.
  intros Hlen Hi. unfold expected_length.
  rewrite !drop_app_le by lia. rewrite first_touch_app.
  destruct (first_touch k (drop (S i) ks)) as [[j kd']|] eqn:E.
  - destruct kd'; try reflexivity.
    apply first_touch_found in E as (_ & _ & Hj).
    rewrite take_app_le; [reflexivity|].
    rewrite length_drop in Hj. rewrite length_drop. lia.
  - destruct (touches k kd); [|reflexivity].
    destruct kd; try reflexivity.
    rewrite take_ge; [now rewrite sum_snoc|].
    rewrite length_app, !length_drop. cbn. lia.
Qed.

Lemma open_note_on_unique (ks : list note_kind) (k : option Z) (i r : nat) :
  ks !! i = Some (KOn k) -> ks !! r = Some (KOn k) ->
  first_touch k (drop (S i) ks) = None ->
  first_touch k (drop (S r) ks) = None ->
  i = r.
Proof.
  intros Hi Hr Fi Fr.
  assert (Ht : touches k (KOn k) = true) by (cbn; now apply bool_decide_eq_true).
  destruct (Nat.lt_trichotomy i r) as [Hlt|[Heq|Hgt]]; [|assumption|]; exfalso.
  - assert (Hl : drop (S i) ks !! (r - S i)%nat = Some (KOn k)).
    { rewrite lookup_drop. replace (S i + (r - S i))%nat with r by lia. assumption. }
    rewrite (first_touch_none _ _ _ _ Fi Hl) in Ht. discriminate.
  - assert (Hl : drop (S r) ks !! (i - S r)%nat = Some (KOn k)).
    { rewrite lookup_drop. replace (S r + (i - S r))%nat with i by lia. assumption. }
    rewrite (first_touch_none _ _ _ _ Fr Hl) in Ht. discriminate.
Qed.

End FirstTouch.

Section Patch.

Lemma assoc_get_set_other {A : Type} (k k' : string) (v : A) (l : list (string * A)) :
  k <> k' -> assoc_get k (assoc_set k' v l) = assoc_get k l.
Proof.
  intros Hne. induction l as [|[k0 v0] l IH]; cbn [assoc_set assoc_get].
  - destruct (String.eqb_spec k k'); [contradiction | reflexivity].
  - destruct (String.eqb_spec k' k0) as [Heq|Hk0]; cbn [assoc_get].
    + subst k0. destruct (String.eqb_spec k k'); [contradiction | reflexivity].
    + destruct (String.eqb_spec k k0); [reflexivity | exact IH].
Qed.

Lemma assoc_get_set_same {A : Type} (k : string) (v : A) (l : list (string * A)) :
  assoc_get k (assoc_set k v l) = Some v.
Proof.
  induction l as [|[k0 v0] l IH]; cbn [assoc_set assoc_get].
  - now rewrite String.eqb_refl.
  - destruct (String.eqb_spec k k0) as [Heq|Hk0]; cbn [assoc_get].
    + now rewrite String.eqb_refl.
    + destruct (String.eqb_spec k k0); [contradiction | exact IH].
Qed.

Lemma kind_of_patch (len : Z) (e : MidiTrackEvent) : kind_of (patch len e) = kind_of e.
Proof.
  unfold kind_of, patch. cbn [type data set_data].
  assert (Hn : get_field "note" (set_field "length" (VNum len) (data e))
               = get_field "note" (data e)).
  { destruct (data e); try reflexivity. cbn [set_field get_field].
    now rewrite assoc_get_set_other by discriminate. }
  now rewrite Hn.
Qed.

Lemma delta_of_patch (len : Z) (e : MidiTrackEvent) : delta_of (patch len e) = delta_of e.
Proof. reflexivity. Qed.

Lemma length_of_patch (len : Z) (e : MidiTrackEvent) (fs : list (string * JsValue)) :
  data e = VObj fs ->
  length_of (patch len e) = Some (VNum len)
  /\ exists fs', data (patch len e) = VObj fs'.
Proof.
  intros Hd. unfold length_of, patch. cbn [data set_data]. rewrite Hd. cbn [set_field].
  split; [apply assoc_get_set_same | now eexists].
Qed.

Lemma map_alter_same {A B : Type} (g : A -> B) (f : A -> A) (l : list A) :
  (forall x, g (f x) = g x) -> forall i, map g (alter f i l) = map g l.
Proof.
  intros Hg. induction l as [|x l IH]; intros i; [reflexivity|].
  destruct i as [|i]; cbn; [now rewrite Hg | now rewrite IH].
Qed.

End Patch.

Section Invariant.

Lemma lookup_snoc_cases {A : Type} (l : list A) (x : A) (i : nat) (y : A) :
  (l ++ [x]) !! i = Some y ->
  (l !! i = Some y /\ (i < length l)%nat) \/ (i = length l /\ y = x).
Proof.
  intros Hl. destruct (Nat.lt_ge_cases i (length l)) as [Hlt|Hge].
  - left. rewrite lookup_app_l in Hl by assumption. auto.
  - right. rewrite lookup_app_r in Hl by assumption.
    destruct (i - length l)%nat as [|n] eqn:En; cbn in Hl; [|discriminate].
    injection Hl as <-. split; [lia | reflexivity].
Qed.

Lemma touches_self_on (k : option Z) : touches k (KOn k) = true.
Proof. cbn. now apply bool_decide_eq_true. Qed.

Lemma touches_self_off (k : option Z) : touches k (KOff k) = true.
Proof. cbn. now apply bool_decide_eq_true. Qed.

Lemma touches_on_other (k k0 : option Z) : k <> k0 -> touches k (KOn k0) = false.
Proof. intros Hne. cbn. now apply bool_decide_eq_false. Qed.

Lemma touches_off_other (k k0 : option Z) : k <> k0 -> touches k (KOff k0) = false.
Proof. intros Hne. cbn. now apply bool_decide_eq_false. Qed.

Variables (K : list note_kind) (D : list Z).
Hypothesis Hlen : length K = length D.
Variables (kd : note_kind) (delta : Z).

(** The next event for [k] was found already: nothing changes. *)
Lemma expected_kept_found (i : nat) (k : option Z) :
  (i < length K)%nat -> first_touch k (drop (S i) K) <> None ->
  expected_length (K ++ [kd]) (D ++ [delta]) i k = expected_length K D i k.
Proof.
  intros Hi Hf. rewrite expected_length_snoc by assumption.
  destruct (first_touch k (drop (S i) K)); [reflexivity | contradiction].
Qed.

(** The new event is not for [k]: nothing changes. *)
Lemma expected_kept_untouched (i : nat) (k : option Z) :
  (i < length K)%nat -> touches k kd = false ->
  expected_length (K ++ [kd]) (D ++ [delta]) i k = expected_length K D i k.
Proof.
  intros Hi Ht. rewrite expected_length_snoc by assumption. rewrite Ht.
  unfold expected_length. destruct (first_touch k (drop (S i) K)); reflexivity.
Qed.

(** The new event is a Note On for [k]: a Note On that waited will not get
    a length. *)
Lemma expected_after_note_on (i : nat) (k : option Z) :
  (i < length K)%nat -> kd = KOn k -> first_touch k (drop (S i) K) = None ->
  expected_length (K ++ [kd]) (D ++ [delta]) i k = None
  /\ expected_length K D i k = None.
Proof.
  intros Hi -> Hf. rewrite expected_length_snoc by assumption. rewrite Hf.
  rewrite touches_self_on. unfold expected_length. now rewrite Hf.
Qed.

(** The new event is a Note Off for [k]: the Note On that waited is due
    the ticks since. *)
Lemma expected_after_note_off (i : nat) (k : option Z) :
  (i < length K)%nat -> kd = KOff k -> first_touch k (drop (S i) K) = None ->
  expected_length (K ++ [kd]) (D ++ [delta]) i k = Some (sum (drop (S i) D) + delta).
Proof.
  intros Hi -> Hf. rewrite expected_length_snoc by assumption. rewrite Hf.
  now rewrite touches_self_off.
Qed.

Lemma waiting_kept (T : Z) (k : option Z) (d : NoteOnData) :
  touches k kd = false ->
  K !! noteOnEvent d = Some (KOn k)
  /\ first_touch k (drop (S (noteOnEvent d)) K) = None
  /\ startTime d = T - sum (drop (S (noteOnEvent d)) D) ->
  (K ++ [kd]) !! noteOnEvent d = Some (KOn k)
  /\ first_touch k (drop (S (noteOnEvent d)) (K ++ [kd])) = None
  /\ startTime d = T + delta - sum (drop (S (noteOnEvent d)) (D ++ [delta])).
Proof.
  intros Ht (P1 & P2 & P3).
  assert (Hr : (noteOnEvent d < length K)%nat) by (eapply lookup_lt_Some; eassumption).
  repeat split.
  - now rewrite lookup_app_l.
  - rewrite drop_app_le by lia. now rewrite first_touch_app, P2, Ht.
  - rewrite drop_app_le by lia. rewrite sum_snoc. lia.
Qed.

Lemma closed_kept (k : option Z) (i : nat) :
  (i < length K)%nat -> first_touch k (drop (S i) K) <> None ->
  first_touch k (drop (S i) (K ++ [kd])) <> None.
Proof.
  intros Hi Hf. rewrite drop_app_le by lia. rewrite first_touch_app.
  destruct (first_touch k (drop (S i) K)); [discriminate | contradiction].
Qed.

Lemma closed_now (k : option Z) (i : nat) :
  (i < length K)%nat -> touches k kd = true ->
  first_touch k (drop (S i) (K ++ [kd])) <> None.
Proof.
  intros Hi Ht. rewrite drop_app_le by lia. rewrite first_touch_app, Ht.
  destruct (first_touch k (drop (S i) K)); discriminate.
Qed.

End Invariant.

Section Preservation.

Lemma expected_at_end (K : list note_kind) (D : list Z) (kd : note_kind) (delta : Z)
    (k : option Z) :
  expected_length (K ++ [kd]) (D ++ [delta]) (length K) k = None.
Proof.
  unfold expected_length. rewrite drop_ge by (rewrite length_app; cbn; lia). reflexivity.
Qed.

Lemma pairing_inv_step (H : list MidiTrackEvent) (A : gmap (option Z) NoteOnData)
    (T : Z) (e : MidiTrackEvent) (H' : list MidiTrackEvent)
    (A' : gmap (option Z) NoteOnData) :
  pairing_inv H A T ->
  paired_step H A (T + delta_of e) e H' A' ->
  pairing_inv H' A' (T + delta_of e).
Proof.
  intros (I1 & I2 & I3) Hstep.
  pose (K := map kind_of H). pose (D := map delta_of H).
  assert (Hlen : length K = length D) by (unfold K, D; now rewrite !length_map).
  assert (HlenH : length K = length H) by (unfold K; now rewrite length_map).
  fold K D in I1, I2, I3.
  unfold paired_step in Hstep.
  destruct (kind_of e) as [|k0|k0] eqn:Hk.
  - (* an event that is no Note On or Note Off *)
    destruct Hstep as [-> ->].
    unfold pairing_inv. rewrite !map_app. cbn [map]. rewrite Hk. fold K D.
    split; [|split].
    + intros i ei k Hl Hon.
      destruct (lookup_snoc_cases _ _ _ _ Hl) as [[Hl0 Hlt]|[-> ->]]; [|congruence].
      destruct (I1 i ei k Hl0 Hon) as [Hobj Hl1]. split; [exact Hobj|].
      rewrite Hl1. now rewrite (expected_kept_untouched K D Hlen) by (try lia; reflexivity).
    + intros k d Hd. apply (waiting_kept K D Hlen); [reflexivity | exact (I2 k d Hd)].
    + intros k Hn i Hi.
      destruct (lookup_snoc_cases _ _ _ _ Hi) as [[Hi0 Hlt]|[-> Heq]]; [|discriminate].
      apply (closed_kept K D Hlen); [lia | exact (I3 k Hn i Hi0)].
  - (* a Note On *)
    destruct Hstep as (-> & [v ->] & (fs & Hfs & Hnolen)).
    unfold pairing_inv. rewrite !map_app. cbn [map]. rewrite Hk. fold K D.
    split; [|split].
    + intros i ei k Hl Hon.
      destruct (lookup_snoc_cases _ _ _ _ Hl) as [[Hl0 Hlt]|[-> ->]].
      * destruct (I1 i ei k Hl0 Hon) as [Hobj Hl1]. split; [exact Hobj|].
        rewrite Hl1. destruct (decide (k = k0)) as [->|Hne].
        -- destruct (first_touch k0 (drop (S i) K)) as [x|] eqn:E.
           ++ rewrite (expected_kept_found K D Hlen); [reflexivity | lia | congruence].
           ++ destruct (expected_after_note_on K D Hlen (KOn k0) (delta_of e) i k0)
                as [-> ->]; [lia | reflexivity | assumption | reflexivity].
        -- rewrite (expected_kept_untouched K D Hlen);
             [reflexivity | lia | now apply touches_on_other].
      * split; [now exists fs|]. rewrite <- HlenH, expected_at_end.
        unfold length_of. now rewrite Hfs.
    + intros k d Hd. destruct (decide (k = k0)) as [->|Hne].
      * rewrite lookup_insert_eq in Hd. injection Hd as <-.
        cbn [noteOnEvent startTime]. rewrite <- HlenH. repeat split.
        -- rewrite lookup_app_r by lia. now rewrite Nat.sub_diag.
        -- rewrite drop_ge by (rewrite length_app; cbn; lia). reflexivity.
        -- rewrite Hlen. rewrite drop_ge by (rewrite length_app; cbn; lia).
           unfold sum. cbn. lia.
      * rewrite lookup_insert_ne in Hd by congruence.
        apply (waiting_kept K D Hlen); [now apply touches_on_other | exact (I2 k d Hd)].
    + intros k Hn i Hi. destruct (decide (k = k0)) as [->|Hne].
      * rewrite lookup_insert_eq in Hn. discriminate.
      * rewrite lookup_insert_ne in Hn by congruence.
        destruct (lookup_snoc_cases _ _ _ _ Hi) as [[Hi0 Hlt]|[-> Heq]]; [|congruence].
        apply (closed_kept K D Hlen); [lia | exact (I3 k Hn i Hi0)].
  - (* a Note Off *)
    destruct (A !! k0) as [d0|] eqn:Ed0.
    + destruct Hstep as [-> ->].
      destruct (I2 k0 d0 Ed0) as (P1 & P2 & P3).
      assert (Hr : (noteOnEvent d0 < length K)%nat) by (eapply lookup_lt_Some; eassumption).
      unfold pairing_inv. rewrite !map_app. cbn [map]. rewrite Hk.
      rewrite (map_alter_same kind_of _ _ (kind_of_patch _)).
      rewrite (map_alter_same delta_of _ _ (delta_of_patch _)). fold K D.
      split; [|split].
      * intros i ei k Hl Hon.
        destruct (lookup_snoc_cases _ _ _ _ Hl) as [[Hl0 Hlt]|[-> ->]]; [|congruence].
        rewrite length_alter in Hlt.
        destruct (decide (i = noteOnEvent d0)) as [->|Hne].
        -- rewrite list_lookup_alter_eq in Hl0.
           destruct (H !! noteOnEvent d0) as [er|] eqn:Er; cbn in Hl0; [|discriminate].
           injection Hl0 as <-.
           rewrite kind_of_patch in Hon.
           assert (k = k0) as ->.
           { unfold K in P1. rewrite list_lookup_fmap, Er in P1. cbn in P1. congruence. }
           destruct (I1 _ _ _ Er Hon) as [[fs Hfs] _].
           destruct (length_of_patch (T + delta_of e - startTime d0) er fs Hfs) as [-> Hobj].
           split; [exact Hobj|].
           rewrite (expected_after_note_off K D Hlen (KOff k0) (delta_of e));
             [|lia | reflexivity | assumption].
           cbn. do 2 f_equal. lia.
        -- rewrite list_lookup_alter_ne in Hl0 by congruence.
           destruct (I1 i ei k Hl0 Hon) as [Hobj Hl1]. split; [exact Hobj|].
           rewrite Hl1. destruct (decide (k = k0)) as [->|Hnek].
           ++ rewrite (expected_kept_found K D Hlen); [reflexivity | lia |].
              intros Hf. apply Hne.
              apply (open_note_on_unique K k0); try assumption.
              unfold K. rewrite list_lookup_fmap, Hl0. cbn. now rewrite Hon.
           ++ rewrite (expected_kept_untouched K D Hlen);
                [reflexivity | lia | now apply touches_off_other].
      * intros k d Hd. destruct (decide (k = k0)) as [->|Hne].
        -- rewrite lookup_delete_eq in Hd. discriminate.
        -- rewrite lookup_delete_ne in Hd by congruence.
           apply (waiting_kept K D Hlen); [now apply touches_off_other | exact (I2 k d Hd)].
      * intros k Hn i Hi.
        destruct (lookup_snoc_cases _ _ _ _ Hi) as [[Hi0 Hlt]|[-> Heq]]; [|congruence].
        destruct (decide (k = k0)) as [->|Hne].
        -- apply (closed_now K D Hlen); [lia | apply touches_self_off].
        -- rewrite lookup_delete_ne in Hn by congruence.
           apply (closed_kept K D Hlen); [lia | exact (I3 k Hn i Hi0)].
    + destruct Hstep as [-> ->].
      unfold pairing_inv. rewrite !map_app. cbn [map]. rewrite Hk. fold K D.
      split; [|split].
      * intros i ei k Hl Hon.
        destruct (lookup_snoc_cases _ _ _ _ Hl) as [[Hl0 Hlt]|[-> ->]]; [|congruence].
        destruct (I1 i ei k Hl0 Hon) as [Hobj Hl1]. split; [exact Hobj|].
        rewrite Hl1. destruct (decide (k = k0)) as [->|Hne].
        -- rewrite (expected_kept_found K D Hlen); [reflexivity | lia |].
           apply (I3 k0 Ed0). unfold K. rewrite list_lookup_fmap, Hl0. cbn. now rewrite Hon.
        -- rewrite (expected_kept_untouched K D Hlen);
             [reflexivity | lia | now apply touches_off_other].
      * intros k d Hd. destruct (decide (k = k0)) as [->|Hne]; [congruence|].
        apply (waiting_kept K D Hlen); [now apply touches_off_other | exact (I2 k d Hd)].
      * intros k Hn i Hi.
        destruct (lookup_snoc_cases _ _ _ _ Hi) as [[Hi0 Hlt]|[-> Heq]]; [|congruence].
        apply (closed_kept K D Hlen); [lia | exact (I3 k Hn i Hi0)].
Qed.

Lemma pairing_inv_run H A T H' A' T' :
  paired_run H A T H' A' T' -> pairing_inv H A T -> pairing_inv H' A' T'.
Proof.
  induction 1 as [|H A T e H1 A1 H' A' T' Hstep Hrun IH]; intros Hinv; [exact Hinv|].
  apply IH. eapply pairing_inv_step; eassumption.
Qed.

Lemma pairing_inv_start : pairing_inv [] ∅ 0.
Proof.
  split; [|split].
  - intros i e k Hl. discriminate.
  - intros k d Hd. rewrite lookup_empty in Hd. discriminate.
  - intros k _ i Hi. discriminate.
Qed.

End Preservation.

(** ** The event loop and the track loop *)

Section Tracks.

Lemma paired_step_length H A T e H' A' :
  paired_step H A T e H' A' -> length H' = S (length H).
Proof.
  unfold paired_step. intros Hs.
  destruct (kind_of e).
  - destruct Hs as [-> _]. rewrite length_app. cbn. lia.
  - destruct Hs as (-> & _). rewrite length_app. cbn. lia.
  - destruct (A !! k).
    + destruct Hs as [-> _]. rewrite length_app, length_alter. cbn. lia.
    + destruct Hs as [-> _]. rewrite length_app. cbn. lia.
Qed.

Lemma paired_run_trans H A T H1 A1 T1 H2 A2 T2 :
  paired_run H A T H1 A1 T1 -> paired_run H1 A1 T1 H2 A2 T2 ->
  paired_run H A T H2 A2 T2.
Proof.
  induction 1; intros Hr; [exact Hr|].
  eapply run_round; [eassumption | auto].
Qed.

Lemma track_events_run (fuel : nat) (tc : Z) :
  forall last refs st refs' st',
  Forall is_byte (DataBuffer.data (buf st)) ->
  0 <= DataBuffer.remainingBytes (buf st) ->
  track_events fuel tc last refs st = Ok (refs', st') ->
  paired_run (heap st) (activeNotes st) (currentTime st)
             (heap st') (activeNotes st') (currentTime st')
  /\ refs' = refs ++ seq (length (heap st)) (length (heap st') - length (heap st))
  /\ (length (heap st) <= length (heap st'))%nat
  /\ DataBuffer.data (buf st') = DataBuffer.data (buf st)
  /\ DataBuffer.remainingBytes (buf st') = 0.
Proof.
  assert (Hstop : forall refs st refs' st',
    0 <= DataBuffer.remainingBytes (buf st) ->
    (DataBuffer.remainingBytes (buf st) >? 0) = false ->
    Ok (refs, st) = Ok (refs', st') ->
    paired_run (heap st) (activeNotes st) (currentTime st)
               (heap st') (activeNotes st') (currentTime st')
    /\ refs' = refs ++ seq (length (heap st)) (length (heap st') - length (heap st))
    /\ (length (heap st) <= length (heap st'))%nat
    /\ DataBuffer.data (buf st') = DataBuffer.data (buf st)
    /\ DataBuffer.remainingBytes (buf st') = 0).
  { intros refs st refs' st' Hr Hc H. injection H as <- <-.
    rewrite Nat.sub_diag. cbn [seq]. rewrite app_nil_r.
    repeat split; [constructor | lia |].
    destruct (Z.gtb_spec (DataBuffer.remainingBytes (buf st)) 0); [discriminate | lia]. }
  induction fuel as [|fuel IH]; intros last refs st refs' st' Hall Hr H;
    cbn [track_events] in H;
    destruct (DataBuffer.remainingBytes (buf st) >? 0) eqn:Hc;
    try discriminate; try (now apply Hstop).
  unfold bind in H.
  destruct (track_event tc last st) as [[[ref status] st1]| |] eqn:E1; try discriminate.
  destruct (track_event_step _ _ _ _ _ _ Hall E1) as (e & Hstep & Ht & Href & Hd & Hr1).
  destruct (IH _ _ _ _ _ ltac:(now rewrite Hd) (Hr1 Hr) H) as (Hrun & Hrefs & Hle & Hd' & Hz).
  pose proof (paired_step_length _ _ _ _ _ _ Hstep) as Hlen1.
  repeat split.
  - eapply run_round; [exact Hstep|]. rewrite <- Ht. exact Hrun.
  - rewrite Hrefs, Href, <- app_assoc. f_equal. rewrite Hlen1.
    replace (length (heap st') - length (heap st))%nat
      with (S (length (heap st') - S (length (heap st)))) by lia.
    reflexivity.
  - lia.
  - congruence.
  - exact Hz.
Qed.

Lemma parse_tracks_stops (fuel : nat) (tc : Z) (n : nat) (done : list TrackRefs)
    (st : ParseState) :
  DataBuffer.remainingBytes (buf st) = 0 ->
  parse_tracks fuel tc n done st = Ok (done, st).
Proof.
  intros Hz. destruct n as [|n]; [reflexivity|].
  cbn [parse_tracks]. now rewrite Hz.
Qed.

Lemma parse_tracks_shape (fuel : nat) (tc : Z) (n : nat) (st st' : ParseState)
    (tracks : list TrackRefs) :
  Forall is_byte (DataBuffer.data (buf st)) ->
  0 <= DataBuffer.remainingBytes (buf st) ->
  parse_tracks fuel tc n [] st = Ok (tracks, st') ->
  (tracks = [] /\ heap st' = heap st)
  \/ (exists ty len,
        tracks = [mkTrackRefs ty len
                    (seq (length (heap st)) (length (heap st') - length (heap st)))]
        /\ (length (heap st) <= length (heap st'))%nat
        /\ paired_run (heap st) (activeNotes st) (currentTime st)
                      (heap st') (activeNotes st') (currentTime st')).
Proof.
  intros Hall Hr H. destruct n as [|n]; [injection H as <- <-; now left|].
  cbn [parse_tracks] in H.
  destruct (DataBuffer.remainingBytes (buf st) =? 0); [injection H as <- <-; now left|].
  unfold bind at 1 in H.
  destruct (this (DataBuffer.readString 4) st) as [[ty st1]| |] eqn:E1; try discriminate.
  destruct (quiet_this _ (rd_ok_readString 4) _ _ _ E1) as (A1 & A2 & A3 & A4 & A5 & _).
  unfold bind at 1 in H.
  destruct (this DataBuffer.readUInt32 st1) as [[len st2]| |] eqn:E2; try discriminate.
  destruct (quiet_this _ rd_ok_readUInt32 _ _ _ E2) as (B1 & B2 & B3 & B4 & B5 & _).
  destruct (negb (String.eqb ty "MTrk")).
  { injection H as <- <-. left. split; [reflexivity | congruence]. }
  unfold bind at 1 in H.
  destruct (track_events fuel tc None [] st2) as [[refs st3]| |] eqn:E3; try discriminate.
  destruct (track_events_run _ _ _ _ _ _ _ ltac:(rewrite B4, A4; exact Hall) ltac:(auto) E3)
    as (Hrun & Hrefs & Hle & Hd & Hz).
  rewrite parse_tracks_stops in H by exact Hz. injection H as <- <-.
  right. exists ty, len. cbn [app] in *. rewrite Hrefs.
  rewrite B1, A1, B2, A2, B3, A3 in *. auto.
Qed.

Lemma resolve_all (h pre : list MidiTrackEvent) :
  omap (fun r => (pre ++ h) !! r) (seq (length pre) (length h)) = h.
Proof.
  revert pre. induction h as [|x h IH]; intros pre; [reflexivity|].
  cbn [length seq]. cbn. rewrite list_lookup_middle by reflexivity.
  replace (pre ++ x :: h) with ((pre ++ [x]) ++ h) by (now rewrite <- app_assoc).
  replace (S (length pre)) with (length (pre ++ [x])) by (rewrite length_app; cbn; lia).
  now rewrite IH.
Qed.

Lemma new_bytes (input : list Z) : Forall is_byte (DataBuffer.data (DataBuffer.new input)).
Proof.
  cbn. apply Forall_map, Forall_forall. intros x _. unfold Js.to_uint8, is_byte.
  apply Z.mod_pos_bound. lia.
Qed.

(** A parsed instance has no chunk, or one chunk whose events are the whole
    heap that the rounds of a single event loop built. *)
Lemma parse_chunks (fuel : nat) (input : list Z) (m : AudioMIDI) :
  parse fuel input = Ok m ->
  chunks m = []
  \/ exists ty len H A T,
       chunks m = [mkTrack ty len H] /\ paired_run [] ∅ 0 H A T.
Proof.
  unfold parse. intros H.
  destruct (DataBuffer.read 14 (DataBuffer.new input)) as [[chunk b']| |] eqn:E0;
    try discriminate.
  destruct (rd_ok_read 14 _ _ _ E0) as [Hd Hr].
  destruct (decodeHeader chunk) as [header| |]; try discriminate.
  destruct (parse_tracks fuel (h_trackCount header) (Z.to_nat (h_trackCount header)) []
              (mkParseState b' 0 ∅ [])) as [[tracks st]| |] eqn:E1; try discriminate.
  injection H as <-. cbn [chunks].
  assert (Hall : Forall is_byte (DataBuffer.data b'))
    by (rewrite Hd; apply new_bytes).
  assert (Hrem : 0 <= DataBuffer.remainingBytes b')
    by (apply Hr; unfold DataBuffer.remainingBytes, DataBuffer.bufLength; cbn; lia).
  destruct (parse_tracks_shape _ _ _ (mkParseState b' 0 ∅ []) _ _ Hall Hrem E1)
    as [[-> _]|(ty & len & -> & _ & Hrun)]; [now left|].
  right. cbn [heap activeNotes currentTime length] in *.
  exists ty, len, (heap st), (activeNotes st), (currentTime st).
  split; [|exact Hrun]. cbn [map]. unfold resolve. cbn [r_type r_chunkLength r_events].
  rewrite Nat.sub_0_r. f_equal. f_equal. exact (resolve_all (heap st) []).
Qed.

End Tracks.

(** Whatever the header announces, [parse] returns at most one chunk. *)
Lemma parse_at_most_one_chunk (fuel : nat) (input : list Z) (m : AudioMIDI) :
  parse fuel input = Ok m -> (length (chunks m) <= 1)%nat.
Proof.
  intros H. destruct (parse_chunks _ _ _ H) as [->|(ty & len & h & A & T & -> & _)];
    cbn; lia.
Qed.

(** C5, as the code has it: in a parsed track, a Note On has a [length]
    exactly when the next event for the same note is a Note Off, and then
    it is the sum of the delta times from the one to the other; a Note On
    that is followed first by another Note On for its note, whatever the
    velocity, or by no event for its note, has no [length] property. *)
Theorem note_on_length_pairing (fuel : nat) (input : list Z) (m : AudioMIDI)
    (track : Track) (i : nat) (e : MidiTrackEvent) (k : option Z) :
  parse fuel input = Ok m ->
  In track (chunks m) ->
  events track !! i = Some e ->
  kind_of e = KOn k ->
  length_of e
  = VNum <$> expected_length (map kind_of (events track))
                             (map delta_of (events track)) i k.
Proof.
  intros Hp Hin Hl Hon.
  destruct (parse_chunks _ _ _ Hp) as [Hc|(ty & len & h & A & T & Hc & Hrun)];
    rewrite Hc in Hin; [contradiction|].
  destruct Hin as [<-|[]]. cbn [events] in *.
  destruct (pairing_inv_run _ _ _ _ _ _ Hrun pairing_inv_start) as (I1 & _ & _).
  exact (proj2 (I1 i e k Hl Hon)).
Qed.

Lemma note_on_length_pairing_witness :
  exists m track e,
    parse 3 paired_note_file = Ok m
    /\ In track (chunks m)
    /\ events track !! 0%nat = Some e
    /\ kind_of e = KOn (Some 60)
    /\ length_of e = Some (VNum 240)
    /\ length_of e
       = VNum <$> expected_length (map kind_of (events track))
                                  (map delta_of (events track)) 0 (Some 60).
Proof.
  do 3 eexists.
  split; [vm_compute; reflexivity|].
  split; [left; reflexivity|].
  split; [reflexivity|].
  split; [vm_compute; reflexivity|].
  split; [vm_compute; reflexivity|].
  eapply (note_on_length_pairing 3 paired_note_file _ _ 0 _ (Some 60));
    [vm_compute; reflexivity | left; reflexivity | reflexivity | vm_compute; reflexivity].
Defined.

(** C5, the claim as stated fails: a Note On with velocity 0 that follows a
    Note On for the same note 240 ticks later leaves the first without any
    [length]: it is neither 240 nor 0. *)
Lemma zero_velocity_note_on_does_not_patch :
  exists m track first second,
    parse 3 zero_velocity_file = Ok m
    /\ chunks m = [track]
    /\ events track !! 0%nat = Some first
    /\ events track !! 1%nat = Some second
    /\ kind_of first = KOn (Some 60)
    /\ kind_of second = KOn (Some 60)
    /\ get_field "velocity" (data second) = VNum 0
    /\ deltaTime second = Some 240
    /\ has_field "length" (data first) = false
    /\ get_field "length" (data first) <> VNum 240
    /\ get_field "length" (data first) <> VNum 0.
Proof.
  do 4 eexists. split; [now vm_compute|].
  repeat split; try reflexivity; discriminate.
Qed.

(** ** The header read *)

Section Header.

Lemma reads_ret {A : Type} (a : A) : reads 0 (ret a).
Proof.
  intros b _ _. exists a. unfold ret. rewrite Z.add_0_r. now destruct b.
Qed.

Lemma reads_bind {A B : Type} (n m : Z) (r : DataBuffer.reader A)
    (k : A -> DataBuffer.reader B) :
  0 <= n -> 0 <= m ->
  reads n r -> (forall a, reads m (k a)) -> reads (n + m) (bind r k).
Proof.
  intros Hn Hm Hr Hk b Ho Hlen.
  destruct (Hr b Ho ltac:(lia)) as [a Ea].
  destruct (Hk a (DataBuffer.mk (DataBuffer.data b) (DataBuffer.offset b + n)))
    as [x Ex]; cbn; [lia | unfold DataBuffer.bufLength in *; cbn; lia |].
  exists x. unfold bind. rewrite Ea, Ex. cbn. now rewrite Z.add_assoc.
Qed.

Lemma readUInt8_in (b : DataBuffer.t) :
  0 <= DataBuffer.offset b -> DataBuffer.offset b + 1 <= DataBuffer.bufLength b ->
  exists x,
    DataBuffer.data b !! Z.to_nat (DataBuffer.offset b) = Some x
    /\ DataBuffer.readUInt8 b
       = Ok (Some x, DataBuffer.mk (DataBuffer.data b) (DataBuffer.offset b + 1)).
Proof.
  intros Ho Hlen. unfold DataBuffer.bufLength in Hlen.
  destruct (lookup_lt_is_Some_2 (DataBuffer.data b) (Z.to_nat (DataBuffer.offset b)))
    as [x Hx]; [lia|].
  exists x. split; [exact Hx|].
  unfold DataBuffer.readUInt8, DataBuffer.available, DataBuffer.remainingBytes,
    DataBuffer.bufLength, DataBuffer.data_at.
  destruct (Z.leb_spec 1 (Z.of_nat (length (DataBuffer.data b)) - DataBuffer.offset b));
    [|lia].
  destruct (Z.ltb_spec (DataBuffer.offset b) 0); [lia|]. now rewrite Hx.
Qed.

Lemma reads_readUInt8 : reads 1 DataBuffer.readUInt8.
Proof.
  intros b Ho Hlen. destruct (readUInt8_in b Ho Hlen) as (x & _ & E). eauto.
Qed.

Lemma read_loop_spec (n : nat) :
  forall b, 0 <= DataBuffer.offset b ->
    DataBuffer.offset b + Z.of_nat n <= DataBuffer.bufLength b ->
    Forall is_byte (DataBuffer.data b) ->
    DataBuffer.read_loop n b
    = Ok (take n (drop (Z.to_nat (DataBuffer.offset b)) (DataBuffer.data b)),
          DataBuffer.mk (DataBuffer.data b) (DataBuffer.offset b + Z.of_nat n)).
Proof.
  induction n as [|n IH]; intros b Ho Hlen Hall.
  - cbn. rewrite Z.add_0_r. now destruct b.
  - cbn [DataBuffer.read_loop]. unfold bind at 1.
    destruct (readUInt8_in b Ho ltac:(lia)) as (x & Hx & ->).
    unfold bind at 1.
    rewrite IH; cbn [DataBuffer.data DataBuffer.offset];
      [| lia | unfold DataBuffer.bufLength in *; cbn; lia | exact Hall].
    unfold ret. cbn [default].
    assert (Hb : is_byte x) by (eapply Forall_lookup_1; eassumption).
    unfold Js.to_uint8. rewrite Z.mod_small by exact Hb.
    rewrite (drop_S _ _ _ Hx). cbn [take].
    replace (Z.to_nat (DataBuffer.offset b + 1))
      with (S (Z.to_nat (DataBuffer.offset b))) by lia.
    do 3 f_equal. lia.
Qed.

Lemma reads_read (n : Z) : 0 <= n -> reads n (DataBuffer.read n).
Proof.
  intros Hn b Ho Hlen. unfold DataBuffer.read.
  destruct (Z.ltb_spec n 0); [lia|].
  assert (G : forall k b, 0 <= DataBuffer.offset b ->
            DataBuffer.offset b + Z.of_nat k <= DataBuffer.bufLength b ->
            exists a, DataBuffer.read_loop k b
              = Ok (a, DataBuffer.mk (DataBuffer.data b)
                         (DataBuffer.offset b + Z.of_nat k))).
  { clear. induction k as [|k IH]; intros b Ho Hlen.
    - exists []. cbn. rewrite Z.add_0_r. now destruct b.
    - destruct (readUInt8_in b Ho ltac:(lia)) as (x & _ & E).
      destruct (IH (DataBuffer.mk (DataBuffer.data b) (DataBuffer.offset b + 1)))
        as [a Ea]; cbn; [lia | unfold DataBuffer.bufLength in *; cbn; lia |].
      eexists. cbn [DataBuffer.read_loop]. unfold bind. rewrite E, Ea.
      unfold ret. cbn. do 3 f_equal. lia. }
  destruct (G (Z.to_nat n) b Ho ltac:(lia)) as [a Ea].
  exists a. rewrite Ea. do 3 f_equal. lia.
Qed.

Lemma reads_readUInt16 : reads 2 DataBuffer.readUInt16.
Proof.
  unfold DataBuffer.readUInt16. change 2 with (2 + 0) at 1.
  apply reads_bind; [lia | lia | now apply reads_read | intros; apply reads_ret].
Qed.

Lemma reads_readUInt32 : reads 4 DataBuffer.readUInt32.
Proof.
  unfold DataBuffer.readUInt32. change 4 with (4 + 0) at 1.
  apply reads_bind; [lia | lia | now apply reads_read | intros; apply reads_ret].
Qed.

Lemma decode_ascii_spec (n : nat) :
  forall off b, 0 <= off -> off + Z.of_nat n <= DataBuffer.bufLength b ->
    DataBuffer.decode_ascii n off b
    = Ok (ascii_string (take n (drop (Z.to_nat off) (DataBuffer.data b))), b).
Proof.
  induction n as [|n IH]; intros off b Ho Hlen; [reflexivity|].
  cbn [DataBuffer.decode_ascii]. unfold bind at 1.
  unfold DataBuffer.peekUInt8, DataBuffer.availableAt, DataBuffer.data_at.
  destruct (Z.leb_spec 1 (DataBuffer.bufLength b - off)); [|lia].
  destruct (Z.ltb_spec off 0); [lia|].
  unfold DataBuffer.bufLength in *.
  destruct (lookup_lt_is_Some_2 (DataBuffer.data b) (Z.to_nat off)) as [x Hx]; [lia|].
  rewrite Hx. unfold bind at 1. rewrite IH by lia. unfold ret.
  rewrite (drop_S _ _ _ Hx). cbn [take ascii_string fold_right].
  replace (Z.to_nat (off + 1)) with (S (Z.to_nat off)) by lia. reflexivity.
Qed.

Lemma readString_spec (len : Z) (b : DataBuffer.t) :
  0 < len -> 0 <= DataBuffer.offset b ->
  DataBuffer.offset b + len <= DataBuffer.bufLength b ->
  DataBuffer.readString len b
  = Ok (ascii_string (take (Z.to_nat len)
                        (drop (Z.to_nat (DataBuffer.offset b)) (DataBuffer.data b))),
        DataBuffer.mk (DataBuffer.data b) (DataBuffer.offset b + len)).
Proof.
  intros Hl Ho Hlen. unfold DataBuffer.readString.
  destruct (Z.eqb_spec len 0); [lia|].
  unfold bind at 1. rewrite decode_ascii_spec by lia.
  unfold bind, DataBuffer.advance, DataBuffer.available, DataBuffer.remainingBytes.
  destruct (Z.leb_spec len (DataBuffer.bufLength b - DataBuffer.offset b)); [|lia].
  reflexivity.
Qed.

Lemma reads_readString (len : Z) : 0 < len -> reads len (DataBuffer.readString len).
Proof.
  intros Hl b Ho Hlen. eexists. now apply readString_spec.
Qed.

(** A chunk of 14 bytes always decodes as a header. *)
Lemma decodeHeader_total (chunk : list Z) :
  length chunk = 14%nat -> exists h, decodeHeader chunk = Ok h.
Proof.
  intros Hlen. unfold decodeHeader, run_reader.
  match goal with
  | |- context [match ?r (DataBuffer.new chunk) with _ => _ end] =>
      assert (Hr : reads (4 + (4 + (2 + (2 + (1 + (1 + 0)))))) r)
  end.
  { apply reads_bind; [lia | lia | now apply reads_readString | intros ty].
    apply reads_bind; [lia | lia | apply reads_readUInt32 | intros len].
    apply reads_bind; [lia | lia | apply reads_readUInt16 | intros fmt].
    apply reads_bind; [lia | lia | apply reads_readUInt16 | intros tc].
    apply reads_bind; [lia | lia | apply reads_readUInt8 | intros b1].
    apply reads_bind; [lia | lia | apply reads_readUInt8 | intros b2].
    cbv zeta. destruct (_ >=? _); apply reads_ret. }
  destruct (Hr (DataBuffer.new chunk)) as [h Eh]; cbn; [lia | |].
  - unfold DataBuffer.bufLength. cbn. rewrite length_map, Hlen. lia.
  - exists h. cbv zeta in Eh. now rewrite Eh.
Qed.

End Header.

(** C7, as the code has it: [parse] takes the first 14 bytes as the header,
    whatever length they declare, and reads the track type at position 14.
    When the four bytes there are not MTrk, as for the excess bytes of a
    longer header, it returns the header's fields and no chunk at all. *)
Theorem header_is_fourteen_bytes (fuel : nat) (input : list Z) :
  (22 <= length input)%nat ->
  ascii_string (bytes_at 14 4 input) <> "MTrk" ->
  exists h,
    decodeHeader (bytes_at 0 14 input) = Ok h
    /\ parse fuel input
       = Ok (mkAudioMIDI (h_format h) (h_trackCount h) (h_timeDivision h) []).
Proof.
  intros Hlen Hty.
  assert (Hb : DataBuffer.bufLength (DataBuffer.new input) = Z.of_nat (length input))
    by (unfold DataBuffer.bufLength; cbn; now rewrite length_map).
  destruct (decodeHeader_total (bytes_at 0 14 input)) as [h Eh].
  { unfold bytes_at. rewrite length_take, length_drop, length_map. lia. }
  exists h. split; [exact Eh|].
  unfold parse, DataBuffer.read. change (14 <? 0) with false. cbv iota.
  rewrite read_loop_spec; [| cbn; lia | rewrite Hb; cbn; lia | apply new_bytes].
  change (take (Z.to_nat 14) _) with (bytes_at 0 14 input).
  change (DataBuffer.offset (DataBuffer.new input) + Z.of_nat (Z.to_nat 14)) with 14.
  change (DataBuffer.data (DataBuffer.new input)) with (map Js.to_uint8 input).
  rewrite Eh.
  destruct (Z.to_nat (h_trackCount h)) as [|n]; [reflexivity|].
  assert (Hl : DataBuffer.bufLength (DataBuffer.mk (map Js.to_uint8 input) 14)
               = Z.of_nat (length input))
    by (unfold DataBuffer.bufLength; cbn; now rewrite length_map).
  cbn [parse_tracks buf].
  unfold DataBuffer.remainingBytes at 1. rewrite Hl. cbn [DataBuffer.offset].
  destruct (Z.eqb_spec (Z.of_nat (length input) - 14) 0); [lia|].
  unfold bind at 1, this at 1. cbn [buf].
  rewrite readString_spec; [| lia | cbn; lia | rewrite Hl; cbn; lia].
  cbn [DataBuffer.data DataBuffer.offset].
  change (take (Z.to_nat 4) _) with (bytes_at 14 4 input).
  unfold bind at 1, this at 1. cbn [buf].
  destruct (reads_readUInt32 (DataBuffer.mk (map Js.to_uint8 input) (14 + 4)))
    as [len El]; [cbn; lia | unfold DataBuffer.bufLength; cbn; rewrite length_map; lia |].
  rewrite El.
  destruct (String.eqb_spec (ascii_string (bytes_at 14 4 input)) "MTrk"); [contradiction|].
  reflexivity.
Qed.

Lemma header_is_fourteen_bytes_witness :
  (22 <= length oversized_header_file)%nat
  /\ ascii_string (bytes_at 14 4 oversized_header_file) <> "MTrk"
  /\ exists h,
       decodeHeader (bytes_at 0 14 oversized_header_file) = Ok h
       /\ parse 1 oversized_header_file
          = Ok (mkAudioMIDI (h_format h) (h_trackCount h) (h_timeDivision h) []).
Proof.
  split; [simpl; lia|].
  split; [vm_compute; discriminate|].
  apply (header_is_fourteen_bytes 1 oversized_header_file);
    [simpl; lia | vm_compute; discriminate].
Defined.

(** C7, the claim as stated fails: the header declares 8 bytes and has
    them, a well-formed MTrk chunk follows, and [parse] returns no chunk. *)
Lemma oversized_header_loses_the_track :
  (exists h, decodeHeader (bytes_at 0 14 oversized_header_file) = Ok h
             /\ h_chunkLength h = 8)
  /\ bytes_at 16 12 oversized_header_file = track_header 4 ++ end_of_track
  /\ parse 1 (header_bytes 1 ++ track_header 4 ++ end_of_track)
     = Ok (mkAudioMIDI 0 1 (Some 480)
             [mkTrack "MTrk" 4
                [mkEvent (Some 0) (Some 255) (Some "End of Track") (VStr EmptyString)
                   (Some 47) (Some 0) None]])
  /\ parse 1 oversized_header_file = Ok (mkAudioMIDI 0 1 (Some 480) []).
Proof.
  split; [eexists; split; vm_compute; reflexivity|].
  repeat split; vm_compute; reflexivity.
Qed.


(** * Further properties *)

(** ** Variable-length quantities beyond four bytes *)

Lemma vlq_bytes_groups (n : Z) :
  0 <= n < 2147483648 ->
  exists g gs, Forall is_group (g :: gs)
               /\ lsb_value (g :: gs) = n
               /\ (length gs < 5)%nat
               /\ vlq_bytes n = map (fun y => y + 128) (rev gs) ++ [g].
Proof.
  intros Hn.
  destruct (vlq_groups_props 5 n) as (g & gs & Eg & Hall & Hval & Hs & Hb);
    [lia | simpl; lia | lia |].
  exists g, gs. repeat split; try assumption.
  - destruct (Z_lt_le_dec n 128) as [Hlt|Hge]; [rewrite (Hs Hlt); cbn; lia|].
    specialize (Hb Hge).
    destruct (Nat.lt_ge_cases (length gs) 5) as [|Hlong]; [assumption|].
    assert (128 ^ 5 <= 128 ^ Z.of_nat (length gs)) by (apply Z.pow_le_mono_r; lia).
    change (128 ^ 5) with 34359738368 in *. lia.
  - unfold vlq_bytes, writeVariableLengthValue.
    change (default 0 (Some n)) with n.
    rewrite Eg. cbn [rev].
    rewrite write_popped_snoc by reflexivity. cbn.
    inversion Hall as [|? ? Hg Hgs]; subst.
    f_equal.
    + apply map_ext_in. intros y Hy. apply in_rev in Hy.
      rewrite Forall_forall in Hgs. specialize (Hgs y).
      assert (is_group y) as Hy' by (apply Hgs; now apply list_elem_of_In).
      unfold is_group in Hy'. rewrite js_or_128 by lia.
      unfold Js.to_uint8. apply Z.mod_small. lia.
    + unfold is_group in Hg. unfold Js.to_uint8. f_equal. apply Z.mod_small. lia.
Qed.

(** A quantity below 2^31 is written in at most five bytes and read back
    from them, whatever follows. *)
Theorem vlq_roundtrip_five_bytes (n : Z) (rest : list Z) :
  0 <= n < 2147483648 ->
  (1 <= length (vlq_bytes n) <= 5)%nat
  /\ readVariableLengthValues (DataBuffer.new (vlq_bytes n ++ rest))
     = Ok (n, DataBuffer.mk (map Js.to_uint8 (vlq_bytes n ++ rest))
                            (Z.of_nat (length (vlq_bytes n)))).
Proof.
  intros Hn.
  destruct (vlq_bytes_groups n Hn) as (g & gs & Hall & Hval & Hlen & Hbytes).
  pose proof (Forall_inv Hall) as Hg. pose proof (Forall_inv_tail Hall) as Hgs.
  unfold is_group in Hg.
  assert (Hrev : Forall is_group (rev gs)) by (apply Forall_rev; assumption).
  assert (Hvalue : base128 (rev gs ++ [g]) = n).
  { change (rev gs ++ [g]) with (rev (g :: gs)). now rewrite base128_rev. }
  split; [rewrite Hbytes; len_simpl; lia|].
  assert (Hsame : map Js.to_uint8 (vlq_bytes n) = vlq_bytes n).
  { rewrite Hbytes, map_app. f_equal.
    - rewrite map_map. apply map_ext_in. intros y Hy.
      rewrite Forall_forall in Hrev.
      assert (is_group y) as Hy' by (apply Hrev; now apply list_elem_of_In).
      unfold is_group in Hy'. unfold Js.to_uint8. apply Z.mod_small. lia.
    - cbn. unfold Js.to_uint8. now rewrite Z.mod_small by lia. }
  unfold readVariableLengthValues, DataBuffer.new.
  rewrite map_app, Hsame, Hbytes, <- app_assoc. cbn [app].
  pose proof (vlq_loop_spec (rev gs) 0
                (S (Z.to_nat (DataBuffer.remainingBytes
                   (DataBuffer.mk (map (fun y => y + 128) (rev gs)
                                     ++ g :: map Js.to_uint8 rest) 0))))
                [] (map Js.to_uint8 rest) g Hrev Hg ltac:(lia)) as Hread.
  cbn [app length] in Hread. change (Z.of_nat 0) with 0 in Hread. rewrite Hread.
  - fold (base128 (rev gs ++ [g])). rewrite Hvalue. do 3 f_equal. len_simpl. lia.
  - unfold base128 in Hvalue. rewrite fold_left_app in Hvalue. cbn [fold_left] in Hvalue.
    lia.
  - unfold DataBuffer.remainingBytes, DataBuffer.bufLength.
    cbn [DataBuffer.data DataBuffer.offset]. len_simpl. lia.
Qed.

Lemma vlq_roundtrip_five_bytes_witness :
  0 <= 2147483647 < 2147483648
  /\ (1 <= length (vlq_bytes 2147483647) <= 5)%nat
  /\ readVariableLengthValues (DataBuffer.new (vlq_bytes 2147483647 ++ [9]))
     = Ok (2147483647,
           DataBuffer.mk (map Js.to_uint8 (vlq_bytes 2147483647 ++ [9]))
                         (Z.of_nat (length (vlq_bytes 2147483647)))).
Proof.
  split; [lia|]. apply (vlq_roundtrip_five_bytes 2147483647 [9]). lia.
Defined.

Lemma to_int32_mod_128 (n : Z) : Js.to_int32 n mod 128 = n mod 128.
Proof.
  unfold Js.to_int32.
  assert (H : (n mod 4294967296) mod 128 = n mod 128).
  { apply Z.mod_mod_divide. exists 33554432. lia. }
  destruct (_ <? _); [exact H|].
  rewrite <- H.
  replace (n mod 4294967296 - 4294967296)
    with (n mod 4294967296 + (-33554432) * 128) by lia.
  apply Z.mod_add. lia.
Qed.

Lemma js_and_127_any (n : Z) : Js.and n 127 = n mod 128.
Proof.
  unfold Js.and. rewrite (to_int32_small 127) by lia.
  change 127 with (Z.ones 7). rewrite Z.land_ones by lia.
  change (2 ^ 7) with 128. rewrite to_int32_mod_128.
  apply to_int32_small. pose proof (Z.mod_pos_bound n 128 ltac:(lia)). lia.
Qed.

Lemma vlq_bytes_negative (n : Z) : Js.to_int32 n < 0 -> vlq_bytes n = [n mod 128].
Proof.
  intros Hneg. unfold vlq_bytes, writeVariableLengthValue.
  change (default 0 (Some n)) with n. cbn [vlq_groups].
  assert (Hs : Js.sar n 7 < 0) by (unfold Js.sar; now apply Z.shiftr_neg).
  destruct (Z.gtb_spec (Js.sar n 7) 0); [lia|].
  cbn. rewrite js_and_127_any. unfold Js.to_uint8.
  pose proof (Z.mod_pos_bound n 128 ltac:(lia)).
  now rewrite (Z.mod_small (n mod 128)) by lia.
Qed.

(** A quantity that is negative as a 32-bit integer, such as one from 2^31
    to 2^32, is written as a single byte, its low seven bits; what is read
    back is that byte, not the quantity. *)
Theorem vlq_out_of_range_is_one_byte (n : Z) (rest : list Z) :
  -2147483648 <= n < 0 \/ 2147483648 <= n < 4294967296 ->
  vlq_bytes n = [n mod 128]
  /\ readVariableLengthValues (DataBuffer.new (vlq_bytes n ++ rest))
     = Ok (n mod 128, DataBuffer.mk (map Js.to_uint8 (vlq_bytes n ++ rest)) 1)
  /\ n mod 128 <> n.
Proof.
  intros Hn.
  assert (Hneg : Js.to_int32 n < 0).
  { destruct Hn as [Hn|Hn]; [rewrite to_int32_small by lia; lia|].
    unfold Js.to_int32. rewrite Z.mod_small by lia.
    destruct (Z.ltb_spec n 2147483648); lia. }
  pose proof (Z.mod_pos_bound n 128 ltac:(lia)) as Hm.
  rewrite (vlq_bytes_negative n Hneg). repeat split; [|lia].
  unfold readVariableLengthValues, DataBuffer.new. cbn [app map].
  replace (Js.to_uint8 (n mod 128)) with (n mod 128)
    by (unfold Js.to_uint8; now rewrite (Z.mod_small (n mod 128)) by lia).
  apply (vlq_loop_spec [] 0 _ [] (map Js.to_uint8 rest) (n mod 128));
    [constructor | exact Hm | lia | cbn; lia | cbn; lia].
Qed.

Lemma vlq_out_of_range_is_one_byte_witness :
  (-2147483648 <= 4294967295 < 0 \/ 2147483648 <= 4294967295 < 4294967296)
  /\ vlq_bytes 4294967295 = [4294967295 mod 128].
Proof.
  split; [right; lia|]. apply (vlq_out_of_range_is_one_byte 4294967295 []). right; lia.
Defined.

Lemma readUInt8_underflow (b : DataBuffer.t) :
  DataBuffer.remainingBytes b < 1 -> DataBuffer.readUInt8 b = Throw UnderflowError.
Proof.
  intros H. unfold DataBuffer.readUInt8, DataBuffer.available.
  destruct (Z.leb_spec 1 (DataBuffer.remainingBytes b)); [lia | reflexivity].
Qed.

Lemma vlq_loop_cut (hi : list Z) :
  forall (value : Z) (fuel : nat) (pre : list Z),
  hi <> [] -> Forall is_group hi -> 0 <= value ->
  fold_left (fun acc g => acc * 128 + g) hi value < 2147483648 ->
  (length hi <= fuel)%nat ->
  vlq_loop fuel value
    (DataBuffer.mk (pre ++ map (fun y => y + 128) hi) (Z.of_nat (length pre)))
  = Ok (fold_left (fun acc g => acc * 128 + g) hi value,
        DataBuffer.mk (pre ++ map (fun y => y + 128) hi)
                      (Z.of_nat (length pre) + Z.of_nat (length hi))).
Proof.
  induction hi as [|h hi IH]; intros value fuel pre Hne Hall Hv Hbound Hfuel;
    [congruence|].
  destruct fuel as [|fuel]; [cbn in Hfuel; lia|]. cbn [vlq_loop]. unfold bind.
  inversion Hall as [|? ? Hh Hhi]; subst. unfold is_group in Hh.
  cbn [map app fold_left length] in *.
  pose proof (base128_acc_le hi (value * 128 + h) ltac:(lia) Hhi) as Hmono.
  erewrite readUInt8_at by (cbn; reflexivity). cbn [DataBuffer.data DataBuffer.offset].
  rewrite js_and_byte_128, js_and_byte_127, js_shl_7 by lia.
  destruct (Z.ltb_spec (h + 128) 128); [lia|]. cbn [negb andb].
  replace ((h + 128) mod 128) with h by (apply Z.mod_unique with (q := 1); lia).
  unfold DataBuffer.remainingBytes, DataBuffer.bufLength.
  cbn [DataBuffer.data DataBuffer.offset]. len_simpl.
  destruct hi as [|h2 hi].
  - cbn [length map fold_left].
    destruct (Z.gtb_spec (Z.of_nat (length pre + 1) - (Z.of_nat (length pre) + 1)) 0);
      [lia|]. repeat (f_equal; try lia).
  - destruct (Z.gtb_spec (Z.of_nat (length pre + S (length (h2 :: hi)))
                          - (Z.of_nat (length pre) + 1)) 0); [|cbn [length] in *; lia].
    specialize (IH (value * 128 + h) fuel (pre ++ [h + 128]) ltac:(discriminate) Hhi
                  ltac:(lia) Hbound ltac:(cbn [length] in *; lia)).
    rewrite length_app in IH. cbn [length] in IH.
    rewrite <- app_assoc in IH. cbn [app] in IH.
    replace (Z.of_nat (length pre) + 1) with (Z.of_nat (length pre + 1)) by lia.
    cbn [map length] in *. rewrite IH. repeat (f_equal; try lia).
Qed.

(** A quantity cut short by the end of the input: when every byte up to the
    end has its high bit set, the reader stops at the end and returns what
    it has gathered; at the end of the input it throws. *)
Theorem vlq_reader_stops_at_end (pre bytes : list Z) :
  bytes <> [] -> Forall (fun b => 128 <= b < 256) bytes -> (length bytes <= 4)%nat ->
  readVariableLengthValues (DataBuffer.mk (pre ++ bytes) (Z.of_nat (length pre)))
  = Ok (base128 (map (fun b => b - 128) bytes),
        DataBuffer.mk (pre ++ bytes) (Z.of_nat (length pre) + Z.of_nat (length bytes)))
  /\ readVariableLengthValues (DataBuffer.mk pre (Z.of_nat (length pre)))
     = Throw UnderflowError.
Proof.
  intros Hne Hall Hlen. split.
  - set (hi := map (fun b => b - 128) bytes).
    assert (Hb : bytes = map (fun y => y + 128) hi).
    { subst hi. rewrite map_map. rewrite <- (map_id bytes) at 1.
      apply map_ext. intros b. cbv beta. unfold id. lia. }
    assert (Hhi : Forall is_group hi).
    { subst hi. apply Forall_map. eapply Forall_impl; [exact Hall|].
      intros b Hb'. cbv beta in Hb'. unfold compose, is_group. lia. }
    assert (Hl : length hi = length bytes) by (subst hi; now rewrite length_map).
    pose proof (base128_bound hi Hhi) as Hbound. rewrite Hl in Hbound.
    assert (128 ^ Z.of_nat (length bytes) <= 128 ^ 4) by (apply Z.pow_le_mono_r; lia).
    change (128 ^ 4) with 268435456 in *.
    unfold readVariableLengthValues. rewrite Hb at 1 2 3. rewrite <- Hl.
    apply vlq_loop_cut; [destruct bytes; [congruence | subst hi; discriminate]
                        | exact Hhi | lia | unfold base128 in Hbound; lia |].
    unfold DataBuffer.remainingBytes, DataBuffer.bufLength.
    cbn [DataBuffer.data DataBuffer.offset]. len_simpl. lia.
  - unfold readVariableLengthValues. cbn [vlq_loop]. unfold bind.
    rewrite readUInt8_underflow; [reflexivity|].
    unfold DataBuffer.remainingBytes, DataBuffer.bufLength. cbn. lia.
Qed.

Lemma vlq_reader_stops_at_end_witness :
  [129; 130] <> []
  /\ Forall (fun b => 128 <= b < 256) [129; 130]
  /\ (length [129; 130] <= 4)%nat
  /\ readVariableLengthValues (DataBuffer.mk ([0] ++ [129; 130]) (Z.of_nat (length [0])))
     = Ok (base128 (map (fun b => b - 128) [129; 130]),
           DataBuffer.mk ([0] ++ [129; 130])
             (Z.of_nat (length [0]) + Z.of_nat (length [129; 130]))).
Proof.
  split; [discriminate|].
  split; [repeat constructor; lia|].
  split; [simpl; lia|].
  apply (vlq_reader_stops_at_end [0] [129; 130]);
    [discriminate | repeat constructor; lia | simpl; lia].
Defined.


(** ** Short input and the shape of a parsed instance *)

Section Underflow.

Lemma underflows_bind_l {A B : Type} (n : Z) (r : DataBuffer.reader A)
    (k : A -> DataBuffer.reader B) :
  underflows n r -> underflows n (bind r k).
Proof.
  intros Hr b Ho Hrem. unfold bind. now rewrite (Hr b Ho Hrem).
Qed.

Lemma underflows_bind {A B : Type} (n m : Z) (r : DataBuffer.reader A)
    (k : A -> DataBuffer.reader B) :
  0 <= n -> reads n r -> underflows n r -> (forall a, underflows m (k a)) ->
  underflows (n + m) (bind r k).
Proof.
  intros Hn Hreads Hr Hk b Ho Hrem.
  destruct (Z_lt_le_dec (DataBuffer.remainingBytes b) n) as [Hlt|Hge].
  - unfold bind. now rewrite (Hr b Ho Hlt).
  - unfold DataBuffer.remainingBytes in *.
    destruct (Hreads b Ho ltac:(lia)) as [a Ea].
    unfold bind. rewrite Ea. apply Hk; cbn; [lia|].
    unfold DataBuffer.remainingBytes, DataBuffer.bufLength in *. cbn. lia.
Qed.

Lemma underflows_readUInt8 : underflows 1 DataBuffer.readUInt8.
Proof. intros b _ H. now apply readUInt8_underflow. Qed.

Lemma underflows_read_loop (n : nat) :
  underflows (Z.of_nat (S n)) (DataBuffer.read_loop (S n)).
Proof.
  induction n as [|n IH]; intros b Ho Hrem.
  - cbn [DataBuffer.read_loop]. unfold bind.
    rewrite readUInt8_underflow by lia. reflexivity.
  - change (DataBuffer.read_loop (S (S n)))
      with (let* x := DataBuffer.readUInt8 in
            let* rest := DataBuffer.read_loop (S n) in
            ret (Js.to_uint8 (default 0 x) :: rest)).
    destruct (Z_lt_le_dec (DataBuffer.remainingBytes b) 1) as [Hlt|Hge].
    + unfold bind at 1. now rewrite readUInt8_underflow.
    + unfold DataBuffer.remainingBytes in *.
      destruct (readUInt8_in b Ho ltac:(lia)) as (x & _ & E).
      unfold bind at 1. rewrite E. unfold bind at 1.
      rewrite IH; [reflexivity | cbn; lia |].
      unfold DataBuffer.remainingBytes, DataBuffer.bufLength in *. cbn. lia.
Qed.

Lemma underflows_read (n : Z) : 0 < n -> underflows n (DataBuffer.read n).
Proof.
  intros Hn b Ho Hrem. unfold DataBuffer.read.
  destruct (Z.ltb_spec n 0); [lia|].
  destruct (Z.to_nat n) as [|k] eqn:E; [lia|].
  apply underflows_read_loop; [exact Ho | lia].
Qed.

Lemma underflows_readUInt16 : underflows 2 DataBuffer.readUInt16.
Proof. apply underflows_bind_l, underflows_read. lia. Qed.

Lemma underflows_readUInt32 : underflows 4 DataBuffer.readUInt32.
Proof. apply underflows_bind_l, underflows_read. lia. Qed.

Lemma decode_ascii_underflow (n : nat) :
  forall off b, 0 <= off -> DataBuffer.bufLength b < off + Z.of_nat (S n) ->
  DataBuffer.decode_ascii (S n) off b = Throw UnderflowError.
Proof.
  induction n as [|n IH]; intros off b Ho Hlen.
  - cbn [DataBuffer.decode_ascii]. unfold bind at 1.
    unfold DataBuffer.peekUInt8, DataBuffer.availableAt.
    destruct (Z.leb_spec 1 (DataBuffer.bufLength b - off)); [lia | reflexivity].
  - change (DataBuffer.decode_ascii (S (S n)) off b)
      with ((let* c := DataBuffer.peekUInt8 off in
             let* rest := DataBuffer.decode_ascii (S n) (off + 1) in
             ret (String (Js.fromCharCode c) rest)) b).
    unfold bind at 1. unfold DataBuffer.peekUInt8, DataBuffer.availableAt.
    destruct (Z.leb_spec 1 (DataBuffer.bufLength b - off)); [|reflexivity].
    unfold bind at 1. rewrite (IH (off + 1) b) by lia. reflexivity.
Qed.

Lemma underflows_readString (len : Z) : 0 < len -> underflows len (DataBuffer.readString len).
Proof.
  intros Hl b Ho Hrem. unfold DataBuffer.readString.
  destruct (Z.eqb_spec len 0); [lia|].
  destruct (Z.to_nat len) as [|k] eqn:E; [lia|].
  unfold bind at 1. rewrite decode_ascii_underflow; [reflexivity | exact Ho |].
  unfold DataBuffer.remainingBytes in Hrem. lia.
Qed.

End Underflow.

Section HeaderSpec.

Lemma bytes_at_lookup (from : nat) (chunk : list Z) :
  bytes_at from 1 chunk !! 0%nat = map Js.to_uint8 chunk !! from.
Proof.
  unfold bytes_at. rewrite lookup_take. cbn. rewrite lookup_drop. f_equal. lia.
Qed.

Lemma decodeHeader_spec (chunk : list Z) :
  (14 <= length chunk)%nat -> decodeHeader chunk = Ok (header_of chunk).
Proof.
  intros Hlen. unfold decodeHeader, run_reader.
  assert (Hb : DataBuffer.bufLength (DataBuffer.new chunk) = Z.of_nat (length chunk))
    by (unfold DataBuffer.bufLength; cbn; now rewrite length_map).
  assert (Hl : forall o, DataBuffer.bufLength (DataBuffer.mk (map Js.to_uint8 chunk) o)
                         = Z.of_nat (length chunk))
    by (intros o; unfold DataBuffer.bufLength; cbn; now rewrite length_map).
  assert (Hall : Forall is_byte (map Js.to_uint8 chunk)) by apply (new_bytes chunk).
  unfold bind at 1. rewrite readString_spec; [| lia | cbn; lia | rewrite Hb; cbn; lia].
  cbn [DataBuffer.new DataBuffer.data DataBuffer.offset].
  unfold bind at 1, DataBuffer.readUInt32, bind at 1, DataBuffer.read.
  change (4 <? 0) with false. cbv iota.
  rewrite read_loop_spec; [| cbn; lia | rewrite Hl; cbn; lia | exact Hall].
  cbn [DataBuffer.data DataBuffer.offset]. unfold ret at 1.
  unfold bind at 1, DataBuffer.readUInt16, bind at 1, DataBuffer.read.
  change (2 <? 0) with false. cbv iota.
  rewrite read_loop_spec; [| cbn; lia | rewrite Hl; cbn; lia | exact Hall].
  cbn [DataBuffer.data DataBuffer.offset]. unfold ret at 1.
  unfold bind at 1, bind at 1.
  rewrite read_loop_spec; [| cbn; lia | rewrite Hl; cbn; lia | exact Hall].
  cbn [DataBuffer.data DataBuffer.offset]. unfold ret at 1.
  unfold bind at 1.
  destruct (readUInt8_in (DataBuffer.mk (map Js.to_uint8 chunk) 12))
    as (b1 & Hb1 & E1); [cbn; lia | rewrite Hl; cbn; lia |].
  change (0 + 4 + Z.of_nat (Z.to_nat 4) + Z.of_nat (Z.to_nat 2) + Z.of_nat (Z.to_nat 2))
    with 12.
  rewrite E1. cbn [DataBuffer.data DataBuffer.offset]. unfold bind at 1.
  destruct (readUInt8_in (DataBuffer.mk (map Js.to_uint8 chunk) 13))
    as (b2 & Hb2 & E2); [cbn; lia | rewrite Hl; cbn; lia |].
  change (12 + 1) with 13. rewrite E2.
  cbn [DataBuffer.data DataBuffer.offset] in Hb1, Hb2.
  unfold header_of. rewrite !bytes_at_lookup.
  change (Z.to_nat 12) with 12%nat in Hb1. change (Z.to_nat 13) with 13%nat in Hb2.
  rewrite Hb1, Hb2.
  change (default 0 (Some b1)) with b1. change (default 0 (Some b2)) with b2.
  change (Z.to_nat 0) with 0%nat. change (Z.to_nat 4) with 4%nat.
  change (Z.to_nat 2) with 2%nat.
  change (Z.to_nat (0 + 4)) with 4%nat.
  change (Z.to_nat (0 + 4 + Z.of_nat 4)) with 8%nat.
  change (Z.to_nat (0 + 4 + Z.of_nat 4 + Z.of_nat 2)) with 10%nat.
  fold (bytes_at 0 4 chunk) (bytes_at 4 4 chunk) (bytes_at 8 2 chunk)
       (bytes_at 10 2 chunk).
  destruct (b1 >=? 128); reflexivity.
Qed.

Lemma decodeHeader_underflow (chunk : list Z) :
  (length chunk < 14)%nat -> decodeHeader chunk = Throw UnderflowError.
Proof.
  intros Hlen. unfold decodeHeader, run_reader.
  match goal with
  | |- context [match ?r (DataBuffer.new chunk) with _ => _ end] =>
      assert (Hr : underflows (4 + (4 + (2 + (2 + (1 + 1))))) r)
  end.
  { apply underflows_bind;
      [lia | now apply reads_readString | now apply underflows_readString | intros ty].
    apply underflows_bind;
      [lia | apply reads_readUInt32 | apply underflows_readUInt32 | intros len].
    apply underflows_bind;
      [lia | apply reads_readUInt16 | apply underflows_readUInt16 | intros fmt].
    apply underflows_bind;
      [lia | apply reads_readUInt16 | apply underflows_readUInt16 | intros tc].
    apply underflows_bind;
      [lia | apply reads_readUInt8 | apply underflows_readUInt8 | intros b1].
    apply underflows_bind_l, underflows_readUInt8. }
  cbv zeta in Hr. rewrite Hr; [reflexivity | cbn; lia |].
  unfold DataBuffer.remainingBytes, DataBuffer.bufLength. cbn. rewrite length_map. lia.
Qed.

End HeaderSpec.

(** [decodeHeader] fails exactly on fewer than 14 bytes, with an underflow
    error; on 14 bytes or more it checks neither the signature nor the
    declared length and returns the fields of the first 14 bytes, the time
    division as ticks per quarter note when the byte at position 12 is below
    128 and as frames per second and ticks per frame otherwise. *)
Theorem decodeHeader_total_from_14_bytes (chunk : list Z) :
  ((length chunk < 14)%nat -> decodeHeader chunk = Throw UnderflowError)
  /\ ((14 <= length chunk)%nat -> decodeHeader chunk = Ok (header_of chunk)).
Proof.
  split; [apply decodeHeader_underflow | apply decodeHeader_spec].
Qed.

Lemma decodeHeader_total_from_14_bytes_witness :
  ((length [77; 84] < 14)%nat /\ decodeHeader [77; 84] = Throw UnderflowError)
  /\ ((14 <= length (header_bytes 1))%nat
      /\ decodeHeader (header_bytes 1) = Ok (header_of (header_bytes 1))).
Proof.
  split.
  - split; [simpl; lia|].
    apply (proj1 (decodeHeader_total_from_14_bytes [77; 84])). simpl; lia.
  - split; [simpl; lia|].
    apply (proj2 (decodeHeader_total_from_14_bytes (header_bytes 1))). simpl; lia.
Defined.

Section ParseShape.

Lemma read_14 (input : list Z) :
  (14 <= length input)%nat ->
  DataBuffer.read 14 (DataBuffer.new input)
  = Ok (bytes_at 0 14 input, DataBuffer.mk (map Js.to_uint8 input) 14).
Proof.
  intros Hlen. unfold DataBuffer.read. change (14 <? 0) with false. cbv iota.
  rewrite read_loop_spec; [reflexivity | cbn; lia | | apply new_bytes].
  unfold DataBuffer.bufLength. cbn. rewrite length_map. lia.
Qed.

Lemma read_14_underflow (input : list Z) :
  (length input < 14)%nat ->
  DataBuffer.read 14 (DataBuffer.new input) = Throw UnderflowError.
Proof.
  intros Hlen. apply underflows_read; [lia | cbn; lia |].
  unfold DataBuffer.remainingBytes, DataBuffer.bufLength. cbn. rewrite length_map. lia.
Qed.

Lemma to_uint8_idem (l : list Z) : map Js.to_uint8 (map Js.to_uint8 l) = map Js.to_uint8 l.
Proof.
  rewrite map_map. apply map_ext. intros x. unfold Js.to_uint8.
  apply Z.mod_mod. lia.
Qed.

Lemma bytes_at_prefix (from n : nat) (input : list Z) :
  (from + n <= 14)%nat ->
  bytes_at from n (bytes_at 0 14 input) = bytes_at from n input.
Proof.
  intros H. unfold bytes_at. rewrite drop_0.
  replace (map Js.to_uint8 (take 14 (map Js.to_uint8 input)))
    with (take 14 (map Js.to_uint8 input))
    by (now rewrite <- (firstn_map Js.to_uint8 14 (map Js.to_uint8 input)), to_uint8_idem).
  rewrite skipn_firstn_comm, firstn_firstn. f_equal. lia.
Qed.

Lemma header_of_prefix (input : list Z) :
  header_of (bytes_at 0 14 input) = header_of input.
Proof.
  unfold header_of. now rewrite !bytes_at_prefix by lia.
Qed.

Lemma parse_tracks_types (fuel : nat) (tc : Z) (n : nat) :
  forall done st tracks st',
  Forall (fun t => r_type t = "MTrk") done ->
  parse_tracks fuel tc n done st = Ok (tracks, st') ->
  Forall (fun t => r_type t = "MTrk") tracks.
Proof.
  induction n as [|n IH]; intros done st tracks st' Hdone H.
  - injection H as <- <-. exact Hdone.
  - cbn [parse_tracks] in H.
    destruct (DataBuffer.remainingBytes (buf st) =? 0); [injection H as <- <-; exact Hdone|].
    unfold bind at 1 in H.
    destruct (this (DataBuffer.readString 4) st) as [[ty st1]| |]; try discriminate.
    unfold bind at 1 in H.
    destruct (this DataBuffer.readUInt32 st1) as [[len st2]| |]; try discriminate.
    destruct (String.eqb_spec ty "MTrk") as [->|Hne]; cbn [negb] in H;
      [|injection H as <- <-; exact Hdone].
    unfold bind at 1 in H.
    destruct (track_events fuel tc None [] st2) as [[refs st3]| |]; try discriminate.
    eapply IH; [|exact H]. apply Forall_app. split; [exact Hdone|].
    constructor; [reflexivity | constructor].
Qed.

End ParseShape.

(** On fewer than 14 bytes [parse] throws an underflow error.  When it
    returns, the format, the track count and the time division are those of
    the first 14 bytes, and there is at most one chunk, of type MTrk,
    whatever the track count is. *)
Theorem parse_result_shape (fuel : nat) (input : list Z) :
  ((length input < 14)%nat -> parse fuel input = Throw UnderflowError)
  /\ (forall m, parse fuel input = Ok m ->
        format m = h_format (header_of input)
        /\ trackCount m = h_trackCount (header_of input)
        /\ timeDivision m = h_timeDivision (header_of input)
        /\ (length (chunks m) <= 1)%nat
        /\ Forall (fun t => chunkType t = "MTrk") (chunks m)).
Proof.
  split.
  - intros Hlen. unfold parse. now rewrite read_14_underflow.
  - intros m H.
    destruct (Nat.lt_ge_cases (length input) 14) as [Hlt|Hge].
    { unfold parse in H. rewrite read_14_underflow in H by exact Hlt. discriminate. }
    destruct (parse_chunks _ _ _ H) as [Hc|(ty & len & h & A & T & Hc & _)].
    + unfold parse in H. rewrite read_14, decodeHeader_spec, header_of_prefix in H;
        [| unfold bytes_at; rewrite length_take, length_drop, length_map; lia | exact Hge].
      destruct (parse_tracks _ _ _ _ _) as [[tracks st]| |]; try discriminate.
      injection H as <-. cbn in *. rewrite Hc. repeat split; cbn; [lia | constructor].
    + unfold parse in H. rewrite read_14, decodeHeader_spec, header_of_prefix in H;
        [| unfold bytes_at; rewrite length_take, length_drop, length_map; lia | exact Hge].
      destruct (parse_tracks _ _ _ _ _) as [[tracks st]| |] eqn:E; try discriminate.
      pose proof (parse_tracks_types _ _ _ _ _ _ _ ltac:(constructor) E) as Hty.
      injection H as <-. cbn [format trackCount timeDivision chunks] in *.
      repeat split.
      * rewrite Hc. cbn. lia.
      * apply Forall_map. eapply Forall_impl; [exact Hty|]. intros t Ht. exact Ht.
Qed.

Lemma parse_result_shape_witness :
  (length [77; 84; 104; 100] < 14)%nat
  /\ parse 0 [77; 84; 104; 100] = Throw UnderflowError.
Proof.
  split; [simpl; lia|].
  apply (proj1 (parse_result_shape 0 [77; 84; 104; 100])). simpl; lia.
Defined.


(** ** Validation: track count and End of Track *)

(** A parsed file whose header announces two tracks or more is always
    reported: [parse] keeps at most one chunk, and [validate] compares the
    track count with the number of chunks. *)
Theorem validate_reports_track_count (fuel : nat) (input : list Z) (m : AudioMIDI) :
  parse fuel input = Ok m ->
  2 <= trackCount m ->
  In (TrackCountMismatch (trackCount m) (length (chunks m))) (validate m)
  /\ (length (chunks m) <= 1)%nat.
Proof.
  intros Hp Htc.
  destruct (parse_chunks _ _ _ Hp) as [Hc|(ty & len & h & A & T & Hc & _)];
    unfold validate; rewrite Hc; cbn [length]; (split; [|lia]);
    apply in_or_app; right; apply in_or_app; left.
  - destruct (bool_decide_reflect (trackCount m = Z.of_nat 0)); [lia | now left].
  - destruct (bool_decide_reflect (trackCount m = Z.of_nat 1)); [lia | now left].
Qed.

Lemma validate_reports_track_count_witness :
  exists m,
    parse 3 two_track_file = Ok m
    /\ 2 <= trackCount m
    /\ In (TrackCountMismatch (trackCount m) (length (chunks m))) (validate m).
Proof.
  eexists. split; [vm_compute; reflexivity|].
  split; [simpl; lia|].
  eapply (proj1 (validate_reports_track_count 3 two_track_file _ _ _)).
  Unshelve. - vm_compute; reflexivity. - simpl; lia.
Defined.

Section EndOfTrack.

Lemma end_seen_add_issue (s : bool) (i : Issue) (c : TrackCheck) :
  is_missing_end i = false -> end_seen s c -> end_seen s (add_issue i c).
Proof.
  intros Hi [Hg Hc]. split; [exact Hg|].
  unfold add_issue. cbn [issues]. rewrite count_app, Hc. cbn [count]. rewrite Hi. lia.
Qed.

Lemma end_seen_release (s : bool) ti ei k (c : TrackCheck) :
  end_seen s c -> end_seen s (release ti ei k c).
Proof.
  intros H. unfold release. destruct (_ <=? 0).
  - now apply end_seen_add_issue.
  - exact H.
Qed.

Lemma end_seen_meta (s : bool) ti ei mt len expected (c : TrackCheck) :
  end_seen s c -> end_seen s (check_meta_length ti ei mt len expected c).
Proof.
  intros H. unfold check_meta_length.
  destruct (existsb _ expected); [exact H|]. now apply end_seen_add_issue.
Qed.

Lemma end_seen_event ti ei (e : MidiTrackEvent) (s : bool) (c : TrackCheck) :
  end_seen s c -> end_seen (s || is_end_of_track e) (check_event ti ei e c).
Proof.
  intros H. unfold check_event, is_end_of_track.
  set (c1 := match deltaTime e with
             | Some d => if d <? 0 then add_issue (NegativeDeltaTime ti ei d) c else c
             | None => c
             end).
  assert (H1 : end_seen s c1).
  { subst c1. destruct (deltaTime e) as [d|]; [|exact H].
    destruct (d <? 0); [|exact H]. now apply end_seen_add_issue. }
  clearbody c1. clear H c.
  assert (Hid : end_seen (s || false) c1) by (now rewrite orb_false_r).
  destruct (type e) as [z|]; [|exact Hid].
  repeat match goal with
         | |- context [match ?x with _ => _ end] =>
             match type of x with
             | Z => destruct x
             | positive => destruct x
             end
         end; try exact Hid.
  - (* 0xFF *)
    destruct (metaType e) as [mt|];
      [|rewrite orb_false_r; now apply end_seen_add_issue].
    repeat match goal with
           | |- context [match ?x with _ => _ end] =>
               match type of x with
               | Z => destruct x
               | positive => destruct x
               end
           end; try exact Hid;
      try (rewrite orb_false_r; apply end_seen_meta; exact H1).
    rewrite orb_true_r. apply end_seen_meta. destruct H1 as [_ Hc]. now split.
  - (* 0x90 *)
    rewrite orb_false_r.
    destruct (negb (truthy (data e)) || is_undefined (get_field "note" (data e))
              || is_undefined (get_field "velocity" (data e))).
    + now apply end_seen_add_issue.
    + destruct (gt0 (get_field "velocity" (data e))); [exact H1|].
      now apply end_seen_release.
  - (* 0x80 *)
    rewrite orb_false_r.
    destruct (negb (truthy (data e)) || is_undefined (get_field "note" (data e))).
    + now apply end_seen_add_issue.
    + now apply end_seen_release.
Qed.

Lemma end_seen_events ti (evs : list MidiTrackEvent) :
  forall ei s c, end_seen s c ->
  end_seen (s || existsb is_end_of_track evs) (check_events ti ei evs c).
Proof.
  induction evs as [|e evs IH]; intros ei s c H; cbn [check_events existsb].
  - now rewrite orb_false_r.
  - rewrite orb_assoc. apply IH. now apply end_seen_event.
Qed.

End EndOfTrack.

(** For a track of type MTrk, [validate] reports a missing End of Track
    exactly when no event of the track has type 0xFF and meta type 0x2F;
    where in the track the event stands makes no difference. *)
Theorem validate_end_of_track (trackIndex : nat) (track : Track) :
  chunkType track = "MTrk" ->
  count is_missing_end (check_track trackIndex track)
  = if existsb is_end_of_track (events track) then 0 else 1.
Proof.
  intros Hty. unfold check_track. rewrite Hty.
  change (String.eqb "MTrk" "MThd") with false.
  change (String.eqb "MTrk" "MTrk") with true. cbn [negb andb app].
  destruct (end_seen_events trackIndex (events track) 0%nat false
              (mkTrackCheck [] [] false)) as [Hg Hc]; [now split|].
  fold (track_check trackIndex track) in Hg, Hc. cbn [orb] in Hg.
  rewrite !count_app, Hc, Hg.
  assert (H2 : forall l, count is_missing_end
                 (map (fun p : option Z * Z => UnmatchedNoteOn trackIndex (snd p) (fst p)) l)
                 = 0).
  { induction l as [|p l IHl]; [reflexivity|]. cbn [map count is_missing_end]. lia. }
  rewrite H2.
  destruct ((chunkLength track =? 0) && (0 <? length (events track))%nat);
    [|destruct ((chunkLength track >? 0) && (length (events track) =? 0)%nat)];
    destruct (existsb is_end_of_track (events track)); reflexivity.
Qed.

Lemma validate_end_of_track_witness :
  chunkType note_on_track = "MTrk"
  /\ count is_missing_end (check_track 0 note_on_track)
     = if existsb is_end_of_track (events note_on_track) then 0 else 1.
Proof.
  split; [reflexivity|]. apply (validate_end_of_track 0 note_on_track). reflexivity.
Defined.


(** ** The buffer: 16-bit and 32-bit numbers *)

Section Masks.

Lemma to_int32_shift (x : Z) : exists c, Js.to_int32 x = x + c * 4294967296.
Proof.
  unfold Js.to_int32. pose proof (Z.div_mod x 4294967296 ltac:(lia)) as H.
  destruct (_ <? _).
  - exists (- (x / 4294967296)). lia.
  - exists (- (x / 4294967296) - 1). lia.
Qed.

Lemma to_int32_range (x : Z) : -2147483648 <= Js.to_int32 x < 2147483648.
Proof.
  unfold Js.to_int32. pose proof (Z.mod_pos_bound x 4294967296 ltac:(lia)).
  destruct (Z.ltb_spec (x mod 4294967296) 2147483648); lia.
Qed.

Lemma land_mask (X k : Z) :
  0 <= k -> Z.land X (Z.shiftl 255 k) = Z.shiftl (Z.land (Z.shiftr X k) 255) k.
Proof.
  intros Hk. apply Z.bits_inj'. intros n Hn. rewrite Z.land_spec.
  destruct (Z_lt_le_dec n k).
  - rewrite !Z.shiftl_spec_low by lia. now rewrite andb_false_r.
  - rewrite !Z.shiftl_spec by lia. rewrite Z.land_spec, Z.shiftr_spec by lia.
    replace (n - k + k) with n by lia. reflexivity.
Qed.

Lemma land_255 (a : Z) : Z.land a 255 = a mod 256.
Proof. change 255 with (Z.ones 8). now rewrite Z.land_ones by lia. Qed.

Lemma masked_byte (x k : Z) :
  0 <= k <= 23 ->
  Js.to_uint8 (Js.sar (Js.and x (Z.shiftl 255 k)) k) = (Js.to_int32 x / 2 ^ k) mod 256.
Proof.
  intros Hk. unfold Js.and, Js.sar.
  assert (Hm : 0 <= Z.shiftl 255 k < 2147483648).
  { rewrite Z.shiftl_mul_pow2 by lia.
    assert (0 < 2 ^ k) by (apply Z.pow_pos_nonneg; lia).
    assert (2 ^ k <= 2 ^ 23) by (apply Z.pow_le_mono_r; lia).
    change (2 ^ 23) with 8388608 in *. lia. }
  rewrite (to_int32_small (Z.shiftl 255 k)) by lia.
  rewrite (Z.mod_small k 32) by lia.
  rewrite land_mask, land_255 by lia.
  rewrite (Z.shiftr_div_pow2 (Js.to_int32 x) k) by lia.
  rewrite Z.shiftl_mul_pow2 by lia.
  set (v := (Js.to_int32 x / 2 ^ k) mod 256).
  assert (Hv : 0 <= v < 256) by (apply Z.mod_pos_bound; lia).
  assert (Hp : 0 < 2 ^ k) by (apply Z.pow_pos_nonneg; lia).
  assert (Hp2 : 2 ^ k <= 2 ^ 23) by (apply Z.pow_le_mono_r; lia).
  change (2 ^ 23) with 8388608 in *.
  assert (Hr : -2147483648 <= v * 2 ^ k < 2147483648) by nia.
  rewrite !(to_int32_small (v * 2 ^ k)) by exact Hr.
  rewrite Z.shiftr_div_pow2 by lia.
  rewrite Z.div_mul by lia. unfold Js.to_uint8. now apply Z.mod_small.
Qed.

Lemma top_byte (x : Z) :
  Js.to_uint8 (Js.sar (Js.and x 4278190080) 24) = (Js.to_int32 x / 16777216) mod 256.
Proof.
  unfold Js.and, Js.sar.
  change (Js.to_int32 4278190080) with (Z.lnot (Z.ones 24)).
  rewrite <- Z.ldiff_land, Z.ldiff_ones_r by lia.
  pose proof (to_int32_range x) as Hx.
  change (24 mod 32) with 24.
  rewrite (Z.shiftr_div_pow2 (Js.to_int32 x) 24), Z.shiftl_mul_pow2 by lia.
  change (2 ^ 24) with 16777216.
  assert (Hq : -128 <= Js.to_int32 x / 16777216 < 128).
  { split; [apply Z.div_le_lower_bound; lia | apply Z.div_lt_upper_bound; lia]. }
  rewrite !(to_int32_small (Js.to_int32 x / 16777216 * 16777216)) by lia.
  rewrite Z.shiftr_div_pow2 by lia.
  change (2 ^ 24) with 16777216. rewrite Z.div_mul by lia. reflexivity.
Qed.

Lemma int32_byte (x k : Z) (p q : Z) :
  2 ^ k = p -> p * q = 16777216 -> 0 < p ->
  (Js.to_int32 x / p) mod 256 = (x / p) mod 256.
Proof.
  intros Hp Hq Hpos. destruct (to_int32_shift x) as [c ->].
  replace (c * 4294967296) with ((c * 256 * q) * p)
    by (rewrite <- (Z.mul_assoc (c * 256) q p), (Z.mul_comm q p), Hq; lia).
  rewrite Z.div_add by lia.
  replace (x / p + c * 256 * q) with (x / p + (c * q) * 256) by lia.
  now rewrite Z.mod_add by lia.
Qed.

Lemma be32_written (x : Z) :
  [Js.to_uint8 (Js.sar (Js.and x 4278190080) 24);
   Js.to_uint8 (Js.sar (Js.and x 16711680) 16);
   Js.to_uint8 (Js.sar (Js.and x 65280) 8);
   Js.to_uint8 (Js.and x 255)] = be32 x.
Proof.
  unfold be32. rewrite top_byte.
  change 16711680 with (Z.shiftl 255 16). change 65280 with (Z.shiftl 255 8).
  rewrite !masked_byte by lia.
  change (2 ^ 16) with 65536. change (2 ^ 8) with 256.
  rewrite (int32_byte x 24 16777216 1), (int32_byte x 16 65536 256),
    (int32_byte x 8 256 65536) by (reflexivity || lia).
  do 3 f_equal. f_equal.
  unfold Js.and. rewrite (to_int32_small 255), land_255 by lia.
  pose proof (Z.mod_pos_bound (Js.to_int32 x) 256 ltac:(lia)) as Hb.
  rewrite to_int32_small by lia. unfold Js.to_uint8. rewrite Z.mod_mod by lia.
  destruct (to_int32_shift x) as [c ->].
  replace (c * 4294967296) with ((c * 16777216) * 256) by lia.
  now rewrite Z.mod_add by lia.
Qed.

Lemma be16_written (x : Z) :
  [Js.to_uint8 (Js.sar (Js.and x 65280) 8); Js.to_uint8 (Js.and x 255)] = be16 x.
Proof.
  pose proof (be32_written x) as H. unfold be32 in H. unfold be16.
  injection H as _ _ H1 H0. now rewrite H1, H0.
Qed.

Lemma be32_value (x : Z) : DataBuffer.be_value (be32 x) = x mod 4294967296.
Proof.
  unfold be32, DataBuffer.be_value. cbn [fold_left].
  pose proof (Z.div_mod x 256 ltac:(lia)).
  pose proof (Z.div_mod (x / 256) 256 ltac:(lia)).
  pose proof (Z.div_mod (x / 256 / 256) 256 ltac:(lia)).
  pose proof (Z.div_mod (x / 256 / 256 / 256) 256 ltac:(lia)).
  pose proof (Z.mod_pos_bound x 256 ltac:(lia)).
  pose proof (Z.mod_pos_bound (x / 256) 256 ltac:(lia)).
  pose proof (Z.mod_pos_bound (x / 256 / 256) 256 ltac:(lia)).
  pose proof (Z.mod_pos_bound (x / 256 / 256 / 256) 256 ltac:(lia)).
  replace (x / 65536) with (x / 256 / 256)
    by (rewrite Z.div_div by lia; reflexivity).
  replace (x / 16777216) with (x / 256 / 256 / 256)
    by (rewrite !Z.div_div by lia; reflexivity).
  apply Z.mod_unique with (q := x / 256 / 256 / 256 / 256); lia.
Qed.

Lemma be16_value (x : Z) : DataBuffer.be_value (be16 x) = x mod 65536.
Proof.
  unfold be16, DataBuffer.be_value. cbn [fold_left].
  pose proof (Z.div_mod x 256 ltac:(lia)).
  pose proof (Z.div_mod (x / 256) 256 ltac:(lia)).
  pose proof (Z.mod_pos_bound x 256 ltac:(lia)).
  pose proof (Z.mod_pos_bound (x / 256) 256 ltac:(lia)).
  apply Z.mod_unique with (q := x / 256 / 256); lia.
Qed.

Lemma be32_bytes (x : Z) : Forall is_byte (be32 x).
Proof.
  unfold be32. repeat constructor; apply Z.mod_pos_bound; lia.
Qed.

Lemma be16_bytes (x : Z) : Forall is_byte (be16 x).
Proof.
  unfold be16. repeat constructor; apply Z.mod_pos_bound; lia.
Qed.

End Masks.

Section WriteRead.

Lemma read_at_end (n : nat) (pre bytes post : list Z) :
  length bytes = n -> Forall is_byte (pre ++ bytes ++ post) ->
  DataBuffer.read_loop n (DataBuffer.mk (pre ++ bytes ++ post) (Z.of_nat (length pre)))
  = Ok (bytes, DataBuffer.mk (pre ++ bytes ++ post)
                             (Z.of_nat (length pre) + Z.of_nat n)).
Proof.
  intros Hn Hall. rewrite read_loop_spec; [| cbn; lia | | exact Hall].
  - cbn [DataBuffer.data DataBuffer.offset]. rewrite Nat2Z.id.
    rewrite drop_app_length. subst n. now rewrite take_app_length.
  - unfold DataBuffer.bufLength. cbn. len_simpl. lia.
Qed.

Lemma readUInt32_at (pre bytes post : list Z) :
  length bytes = 4%nat -> Forall is_byte (pre ++ bytes ++ post) ->
  DataBuffer.readUInt32 (DataBuffer.mk (pre ++ bytes ++ post) (Z.of_nat (length pre)))
  = Ok (DataBuffer.be_value bytes,
        DataBuffer.mk (pre ++ bytes ++ post) (Z.of_nat (length pre) + 4)).
Proof.
  intros Hn Hall. unfold DataBuffer.readUInt32, bind, DataBuffer.read.
  change (4 <? 0) with false. cbv iota. change (Z.to_nat 4) with 4%nat.
  now rewrite (read_at_end 4 pre bytes post Hn Hall).
Qed.

Lemma readUInt16_at (pre bytes post : list Z) :
  length bytes = 2%nat -> Forall is_byte (pre ++ bytes ++ post) ->
  DataBuffer.readUInt16 (DataBuffer.mk (pre ++ bytes ++ post) (Z.of_nat (length pre)))
  = Ok (DataBuffer.be_value bytes,
        DataBuffer.mk (pre ++ bytes ++ post) (Z.of_nat (length pre) + 2)).
Proof.
  intros Hn Hall. unfold DataBuffer.readUInt16, bind, DataBuffer.read.
  change (2 <? 0) with false. cbv iota. change (Z.to_nat 2) with 2%nat.
  now rewrite (read_at_end 2 pre bytes post Hn Hall).
Qed.

End WriteRead.

(** A number written by [writeUInt32] or [writeUInt16] at the end of a
    buffer is stored most significant byte first and modulo 2^32 or 2^16,
    whatever its size and sign, and [readUInt32] or [readUInt16] reads that
    residue back from the committed bytes. *)
Theorem uint_write_then_read (x : Z) (w : DataBuffer.Writer) :
  at_end w -> Forall is_byte (DataBuffer.buffer w) ->
  (exists w',
     DataBuffer.writeUInt32 x w = Ok (tt, w')
     /\ DataBuffer.commit w' = DataBuffer.buffer w ++ be32 x
     /\ DataBuffer.readUInt32 (DataBuffer.mk (DataBuffer.commit w') (DataBuffer.woffset w))
        = Ok (x mod 4294967296,
              DataBuffer.mk (DataBuffer.commit w') (DataBuffer.woffset w'))
     /\ DataBuffer.woffset w' = DataBuffer.woffset w + 4)
  /\ (exists w',
        DataBuffer.writeUInt16 x w = Ok (tt, w')
        /\ DataBuffer.commit w' = DataBuffer.buffer w ++ be16 x
        /\ DataBuffer.readUInt16 (DataBuffer.mk (DataBuffer.commit w') (DataBuffer.woffset w))
           = Ok (x mod 65536,
                 DataBuffer.mk (DataBuffer.commit w') (DataBuffer.woffset w'))
        /\ DataBuffer.woffset w' = DataBuffer.woffset w + 2).
Proof.
  intros He Hall. split.
  - eexists. split; [now apply writeUInt32_end|].
    unfold DataBuffer.commit. cbn [DataBuffer.buffer DataBuffer.woffset].
    rewrite be32_written. repeat split. rewrite He.
    rewrite <- (app_nil_r (be32 x)) at 1 2.
    rewrite readUInt32_at, be32_value; [reflexivity | reflexivity |].
    rewrite app_nil_r. apply Forall_app. split; [exact Hall | apply be32_bytes].
  - eexists. split; [now apply writeUInt16_end|].
    unfold DataBuffer.commit. cbn [DataBuffer.buffer DataBuffer.woffset].
    rewrite be16_written. repeat split. rewrite He.
    rewrite <- (app_nil_r (be16 x)) at 1 2.
    rewrite readUInt16_at, be16_value; [reflexivity | reflexivity |].
    rewrite app_nil_r. apply Forall_app. split; [exact Hall | apply be16_bytes].
Qed.

Lemma uint_write_then_read_witness :
  at_end DataBuffer.newWriter
  /\ Forall is_byte (DataBuffer.buffer DataBuffer.newWriter)
  /\ exists w',
       DataBuffer.writeUInt32 (-2) DataBuffer.newWriter = Ok (tt, w')
       /\ DataBuffer.commit w' = DataBuffer.buffer DataBuffer.newWriter ++ be32 (-2)
       /\ DataBuffer.readUInt32
            (DataBuffer.mk (DataBuffer.commit w') (DataBuffer.woffset DataBuffer.newWriter))
          = Ok ((-2) mod 4294967296,
                DataBuffer.mk (DataBuffer.commit w') (DataBuffer.woffset w'))
       /\ DataBuffer.woffset w' = DataBuffer.woffset DataBuffer.newWriter + 4.
Proof.
  split; [reflexivity|]. split; [constructor|].
  apply (proj1 (uint_write_then_read (-2) DataBuffer.newWriter eq_refl
                  (List.Forall_nil is_byte))).
Defined.


(** ** The length stored in a saved chunk *)

Section ChunkLength.

Lemma writeUInt32_over (x : Z) (pre post : list Z) (a b c d : Z) :
  DataBuffer.writeUInt32 x
    (DataBuffer.mkWriter (pre ++ [a; b; c; d] ++ post) (Z.of_nat (length pre)))
  = Ok (tt, DataBuffer.mkWriter (pre ++ be32 x ++ post) (Z.of_nat (length pre) + 4)).
Proof.
  unfold DataBuffer.writeUInt32. cbn [DataBuffer.buffer DataBuffer.woffset app].
  rewrite (array_set_inside pre (b :: c :: d :: post) a) by reflexivity.
  change (pre ++ ?v :: b :: c :: d :: post) with (pre ++ [v] ++ b :: c :: d :: post).
  rewrite app_assoc.
  rewrite (array_set_inside (pre ++ [_]) (c :: d :: post) b) by (len_simpl; lia).
  rewrite <- app_assoc. cbn [app].
  change (pre ++ ?v :: ?v2 :: c :: d :: post) with (pre ++ [v; v2] ++ c :: d :: post).
  rewrite app_assoc.
  rewrite (array_set_inside (pre ++ [_; _]) (d :: post) c) by (len_simpl; lia).
  rewrite <- app_assoc. cbn [app].
  change (pre ++ ?v :: ?v2 :: ?v3 :: d :: post) with (pre ++ [v; v2; v3] ++ d :: post).
  rewrite app_assoc.
  rewrite (array_set_inside (pre ++ [_; _; _]) post d) by (len_simpl; lia).
  rewrite <- app_assoc. cbn [app].
  pose proof (be32_written x) as Hb. unfold be32 in *.
  injection Hb as -> -> -> ->. reflexivity.
Qed.

Lemma writeString_MTrk (w : DataBuffer.Writer) :
  at_end w ->
  DataBuffer.writeString "MTrk" w
  = Ok (tt, DataBuffer.mkWriter (DataBuffer.buffer w ++ [77; 84; 114; 107])
                                (DataBuffer.woffset w + 4)).
Proof.
  intros He. unfold DataBuffer.writeString, DataBuffer.writeBytes.
  rewrite He, write_at_end. reflexivity.
Qed.

(** A chunk of type MTrk, given what its events write. *)
Lemma writeChunk_run (c : Track) (w : DataBuffer.Writer) (body : list Z) :
  at_end w -> is_mtrk c = true ->
  writeEvents (events c)
    (DataBuffer.mkWriter (DataBuffer.buffer w ++ [77; 84; 114; 107; 0; 0; 0; 0])
                         (DataBuffer.woffset w + 8))
  = Ok (tt, DataBuffer.mkWriter
              ((DataBuffer.buffer w ++ [77; 84; 114; 107; 0; 0; 0; 0]) ++ body)
              (DataBuffer.woffset w + 8 + Z.of_nat (length body))) ->
  writeChunk c w
  = Ok (mkTrack (chunkType c) (Z.of_nat (length body)) (events c),
        DataBuffer.mkWriter
          (DataBuffer.buffer w ++ [77; 84; 114; 107] ++ be32 (Z.of_nat (length body)) ++ body)
          (DataBuffer.woffset w + 8 + Z.of_nat (length body))).
Proof.
  intros He Hty Hev. unfold is_mtrk in Hty. unfold writeChunk. rewrite Hty.
  unfold bind at 1. rewrite writeString_MTrk by exact He.
  unfold bind at 1. cbn [get_offset DataBuffer.woffset].
  unfold bind at 1. rewrite writeUInt32_end by (unfold at_end; cbn; len_simpl; rewrite He; lia).
  cbn [DataBuffer.buffer DataBuffer.woffset].
  change [Js.to_uint8 (Js.sar (Js.and 0 4278190080) 24);
          Js.to_uint8 (Js.sar (Js.and 0 16711680) 16);
          Js.to_uint8 (Js.sar (Js.and 0 65280) 8);
          Js.to_uint8 (Js.and 0 255)] with [0; 0; 0; 0].
  rewrite <- app_assoc. cbn [app].
  replace (DataBuffer.woffset w + 4 + 4) with (DataBuffer.woffset w + 8) by lia.
  unfold bind at 1. cbn [get_offset DataBuffer.woffset].
  unfold bind at 1. rewrite Hev.
  unfold bind at 1. cbn [get_offset DataBuffer.woffset].
  unfold bind at 1. rewrite wseek_to by (rewrite He; lia).
  cbn [DataBuffer.buffer].
  unfold bind at 1.
  replace ((DataBuffer.buffer w ++ [77; 84; 114; 107; 0; 0; 0; 0]) ++ body)
    with ((DataBuffer.buffer w ++ [77; 84; 114; 107]) ++ [0; 0; 0; 0] ++ body)
    by (now rewrite <- !app_assoc).
  replace (DataBuffer.woffset w + 4)
    with (Z.of_nat (length (DataBuffer.buffer w ++ [77; 84; 114; 107])))
    by (len_simpl; rewrite He; lia).
  rewrite writeUInt32_over.
  unfold bind at 1. rewrite wseek_to by (rewrite He; lia).
  cbn [DataBuffer.buffer]. unfold ret.
  replace (DataBuffer.woffset w + 8 + Z.of_nat (length body) - (DataBuffer.woffset w + 8))
    with (Z.of_nat (length body)) by lia.
  now rewrite <- !app_assoc.
Qed.

End ChunkLength.




(** ** The header of a saved file, and files built by hand *)

Section SavedHeader.

Lemma saved_bytes (self self' : AudioMIDI) (bytes : list Z) :
  0 <= format self < 65536 -> 0 <= trackCount self < 65536 ->
  0 <= default 0 (timeDivision self) < 65536 ->
  saveToDataBuffer self = Ok (bytes, self') ->
  exists body,
    bytes = saved_header (format self) (trackCount self) (default 0 (timeDivision self))
              ++ body.
Proof.
  intros Hf Ht Hd H. unfold saveToDataBuffer in H.
  rewrite header_written in H by assumption.
  match type of H with
  | context [writeChunks (chunks self) ?w0] =>
      destruct (writeChunks (chunks self) w0) as [[cs w1]| |] eqn:E; try discriminate;
      destruct (appends_writeChunks (chunks self) w0 cs w1) as [_ [body Hbody]];
        [reflexivity | exact E |]
  end.
  injection H as <- <-. exists body. exact Hbody.
Qed.

Lemma u16_split (x : Z) :
  0 <= x < 65536 -> 0 <= x / 256 < 256 /\ 0 <= x mod 256 < 256
                    /\ x / 256 * 256 + x mod 256 = x.
Proof.
  intros Hx. pose proof (Z.div_mod x 256 ltac:(lia)).
  pose proof (Z.mod_pos_bound x 256 ltac:(lia)).
  assert (0 <= x / 256) by (apply Z.div_pos; lia).
  assert (x / 256 < 256) by (apply Z.div_lt_upper_bound; lia).
  lia.
Qed.

Lemma header_of_saved (f tc td : Z) (body : list Z) :
  0 <= f < 65536 -> 0 <= tc < 65536 -> 0 <= td < 65536 ->
  header_of (saved_header f tc td ++ body)
  = mkHeader "MThd" 6 f tc
      (if td / 256 >=? 128 then Some (td / 256 - 128) else None)
      (if td / 256 >=? 128 then Some (td mod 256) else None)
      (if td / 256 >=? 128 then None else Some td).
Proof.
  intros Hf Ht Hd.
  destruct (u16_split f Hf) as (F1 & F2 & F3).
  destruct (u16_split tc Ht) as (T1 & T2 & T3).
  destruct (u16_split td Hd) as (D1 & D2 & D3).
  unfold header_of, bytes_at, saved_header.
  cbn [app map drop take lookup list_lookup].
  unfold Js.to_uint8.
  rewrite ?(Z.mod_small (f / 256) 256), ?(Z.mod_small (f mod 256) 256),
    ?(Z.mod_small (tc / 256) 256), ?(Z.mod_small (tc mod 256) 256),
    ?(Z.mod_small (td / 256) 256), ?(Z.mod_small (td mod 256) 256) by lia.
  change (default 0 (Some (td / 256))) with (td / 256).
  change (default 0 (Some (td mod 256))) with (td mod 256).
  unfold DataBuffer.be_value. cbn [fold_left].
  replace ((0 * 256 + f / 256) * 256 + f mod 256) with f by lia.
  replace ((0 * 256 + tc / 256) * 256 + tc mod 256) with tc by lia.
  rewrite D3.
  reflexivity.
Qed.

End SavedHeader.

(** The header of a saved file decodes to the stored format and track
    count; the time division comes back as stored while it is below 32768,
    and as frames per second and ticks per frame, with no time division at
    all, from 32768 on. *)
Theorem saved_header_decodes (self self' : AudioMIDI) (bytes : list Z) :
  0 <= format self < 65536 -> 0 <= trackCount self < 65536 ->
  0 <= default 0 (timeDivision self) < 65536 ->
  saveToDataBuffer self = Ok (bytes, self') ->
  exists h,
    decodeHeader bytes = Ok h
    /\ h_type h = "MThd" /\ h_chunkLength h = 6
    /\ h_format h = format self /\ h_trackCount h = trackCount self
    /\ (default 0 (timeDivision self) < 32768 ->
        h_timeDivision h = Some (default 0 (timeDivision self))
        /\ h_framesPerSecond h = None /\ h_ticksPerFrame h = None)
    /\ (32768 <= default 0 (timeDivision self) ->
        h_timeDivision h = None
        /\ h_framesPerSecond h = Some (default 0 (timeDivision self) / 256 - 128)
        /\ h_ticksPerFrame h = Some (default 0 (timeDivision self) mod 256)).
Proof.
  intros Hf Ht Hd H.
  destruct (saved_bytes _ _ _ Hf Ht Hd H) as [body ->].
  eexists. split.
  - rewrite decodeHeader_spec by (unfold saved_header; len_simpl; cbn; lia).
    rewrite header_of_saved by assumption. reflexivity.
  - cbn [h_type h_chunkLength h_format h_trackCount h_timeDivision
         h_framesPerSecond h_ticksPerFrame].
    repeat split.
    + destruct (Z.geb_spec (default 0 (timeDivision self) / 256) 128) as [Hge|Hlt];
        [|reflexivity].
      exfalso. assert (default 0 (timeDivision self) / 256 < 128)
        by (apply Z.div_lt_upper_bound; lia). lia.
    + destruct (Z.geb_spec (default 0 (timeDivision self) / 256) 128) as [Hge|Hlt];
        [|reflexivity].
      exfalso. assert (default 0 (timeDivision self) / 256 < 128)
        by (apply Z.div_lt_upper_bound; lia). lia.
    + destruct (Z.geb_spec (default 0 (timeDivision self) / 256) 128) as [Hge|Hlt];
        [|reflexivity].
      exfalso. assert (default 0 (timeDivision self) / 256 < 128)
        by (apply Z.div_lt_upper_bound; lia). lia.
    + destruct (Z.geb_spec (default 0 (timeDivision self) / 256) 128) as [Hge|Hlt];
        [reflexivity|].
      exfalso. assert (128 <= default 0 (timeDivision self) / 256)
        by (apply Z.div_le_lower_bound; lia). lia.
    + destruct (Z.geb_spec (default 0 (timeDivision self) / 256) 128) as [Hge|Hlt];
        [reflexivity|].
      exfalso. assert (128 <= default 0 (timeDivision self) / 256)
        by (apply Z.div_le_lower_bound; lia). lia.
    + destruct (Z.geb_spec (default 0 (timeDivision self) / 256) 128) as [Hge|Hlt];
        [reflexivity|].
      exfalso. assert (128 <= default 0 (timeDivision self) / 256)
        by (apply Z.div_le_lower_bound; lia). lia.
Qed.

Lemma saved_header_decodes_witness :
  exists h,
    decodeHeader (saved_header 0 1 480) = Ok h
    /\ h_type h = "MThd" /\ h_chunkLength h = 6
    /\ h_format h = format empty_midi /\ h_trackCount h = trackCount empty_midi.
Proof.
  destruct (saved_header_decodes empty_midi empty_midi (saved_header 0 1 480))
    as (h & E & H1 & H2 & H3 & H4 & _);
    [simpl; lia | simpl; lia | simpl; lia | reflexivity |].
  exists h. repeat split; assumption.
Defined.

Section Built.

Lemma built_invariant (m : AudioMIDI) :
  built m -> trackCount m = 0 /\ Forall (fun t => chunkType t = "MTrk") (chunks m).
Proof.
  induction 1 as [f td | m Hm [IH1 IH2] | m i ev Hm [IH1 IH2]].
  - split; [reflexivity | constructor].
  - split; [exact IH1|]. cbn. apply Forall_app. split; [exact IH2|].
    constructor; [reflexivity | constructor].
  - split; [exact IH1|]. cbn [addEvent chunks].
    apply Forall_lookup. intros j t Hj.
    destruct (decide (j = i)) as [->|Hne].
    + rewrite list_lookup_alter_eq in Hj.
      destruct (chunks m !! i) as [t0|] eqn:E; [|discriminate].
      injection Hj as <-. cbn. eapply Forall_lookup_1 in IH2; [exact IH2 | exact E].
    + rewrite list_lookup_alter_ne in Hj by congruence.
      eapply Forall_lookup_1 in IH2; [exact IH2 | exact Hj].
Qed.

Lemma parse_no_tracks (fuel : nat) (f td : Z) (body : list Z) :
  0 <= f < 65536 -> 0 <= td < 32768 ->
  parse fuel (saved_header f 0 td ++ body) = Ok (mkAudioMIDI f 0 (Some td) []).
Proof.
  intros Hf Hd. unfold parse.
  rewrite read_14 by (unfold saved_header; len_simpl; cbn; lia).
  rewrite decodeHeader_spec
    by (unfold bytes_at; rewrite length_take, length_drop, length_map;
        unfold saved_header; len_simpl; cbn; lia).
  rewrite header_of_prefix, header_of_saved by lia.
  cbn [h_trackCount h_format h_timeDivision]. change (Z.to_nat 0) with 0%nat.
  cbn [parse_tracks]. unfold ret. cbn [map].
  destruct (Z.geb_spec (td / 256) 128) as [Hge|Hlt]; [|reflexivity].
  exfalso. assert (td / 256 < 128) by (apply Z.div_lt_upper_bound; lia). lia.
Qed.

End Built.

(** No method but [parse] sets the track count: an instance made by the
    constructor, [addTrack] and [addEvent] has the track count 0 and chunks
    of type MTrk only.  So [validate] reports the track count as soon as
    there is a track, and the file that [saveToDataBuffer] writes for the
    instance declares no track: [parse] returns no chunk for it. *)
Theorem built_file_declares_no_track (m : AudioMIDI) :
  built m ->
  trackCount m = 0
  /\ Forall (fun t => chunkType t = "MTrk") (chunks m)
  /\ (chunks m <> [] -> In (TrackCountMismatch 0 (length (chunks m))) (validate m))
  /\ (forall bytes m' fuel,
        0 <= format m < 65536 -> 0 <= default 0 (timeDivision m) < 32768 ->
        saveToDataBuffer m = Ok (bytes, m') ->
        parse fuel bytes
        = Ok (mkAudioMIDI (format m) 0 (Some (default 0 (timeDivision m))) [])).
Proof.
  intros Hb. destruct (built_invariant m Hb) as [Htc Hty].
  split; [exact Htc|]. split; [exact Hty|]. split.
  - intros Hne. unfold validate. rewrite Htc.
    apply in_or_app. right. apply in_or_app. left.
    destruct (bool_decide_reflect (0 = Z.of_nat (length (chunks m)))) as [E|_];
      [|now left].
    destruct (chunks m); [congruence | cbn in E; lia].
  - intros bytes m' fuel Hf Hd H.
    destruct (saved_bytes m m' bytes Hf ltac:(rewrite Htc; lia) ltac:(lia) H) as [body ->].
    rewrite Htc. apply parse_no_tracks; assumption.
Qed.

Lemma built_file_declares_no_track_witness :
  built (snd (addTrack (newAudioMIDI None None)))
  /\ trackCount (snd (addTrack (newAudioMIDI None None))) = 0
  /\ In (TrackCountMismatch 0 1) (validate (snd (addTrack (newAudioMIDI None None)))).
Proof.
  assert (Hb : built (snd (addTrack (newAudioMIDI None None))))
    by (apply built_track, built_new).
  destruct (built_file_declares_no_track _ Hb) as (H1 & _ & H3 & _).
  split; [exact Hb|]. split; [exact H1|]. apply H3. discriminate.
Defined.


(** ** What the writers add to the buffer *)

Section Emits.

Lemma emits_ret {A : Type} (a : A) : emits (ret a) a [].
Proof.
  intros w _. unfold ret. rewrite app_nil_r. cbn. rewrite Z.add_0_r. now destruct w.
Qed.

Lemma emits_bind {A B : Type} (m : DataBuffer.writer A) (k : A -> DataBuffer.writer B)
    (a : A) (b : B) (bs1 bs2 : list Z) :
  emits m a bs1 -> emits (k a) b bs2 -> emits (bind m k) b (bs1 ++ bs2).
Proof.
  intros Hm Hk w He. unfold bind. rewrite (Hm w He).
  rewrite Hk by (unfold at_end; cbn; len_simpl; rewrite He; lia).
  cbn [DataBuffer.buffer DataBuffer.woffset]. rewrite <- app_assoc.
  do 3 f_equal. len_simpl. lia.
Qed.

Lemma emits_writeUInt8 (x : Z) : emits (DataBuffer.writeUInt8 x) tt [Js.to_uint8 x].
Proof. intros w He. now destruct (writeUInt8_end x w He) as [-> _]. Qed.

Lemma emits_writeBytes (bytes : list Z) :
  emits (DataBuffer.writeBytes bytes) tt (map Js.to_uint8 bytes).
Proof.
  intros w He. unfold DataBuffer.writeBytes. rewrite He, write_at_end.
  do 3 f_equal. len_simpl. lia.
Qed.

Lemma emits_writeVariableLengthValue (n : Z) :
  emits (writeVariableLengthValue (Some n)) tt (vlq_bytes n).
Proof.
  intros w He. unfold vlq_bytes, writeVariableLengthValue.
  change (default 0 (Some n)) with n.
  assert (Hg : exists g gs, vlq_groups 5 n = g :: gs) by (cbn [vlq_groups]; eauto).
  destruct Hg as (g & gs & ->). cbn [rev].
  rewrite (write_popped_snoc (rev gs) g w He).
  rewrite (write_popped_snoc (rev gs) g DataBuffer.newWriter eq_refl).
  unfold DataBuffer.newWriter. cbn [DataBuffer.commit DataBuffer.buffer app].
  do 3 f_equal. len_simpl. lia.
Qed.

Lemma vlq_bytes_are_bytes (n : Z) : Forall is_byte (vlq_bytes n).
Proof.
  unfold vlq_bytes, writeVariableLengthValue.
  change (default 0 (Some n)) with n.
  assert (Hg : exists g gs, vlq_groups 5 n = g :: gs) by (cbn [vlq_groups]; eauto).
  destruct Hg as (g & gs & ->). cbn [rev].
  rewrite (write_popped_snoc (rev gs) g DataBuffer.newWriter eq_refl).
  unfold DataBuffer.newWriter. cbn [DataBuffer.commit DataBuffer.buffer app].
  apply Forall_app. split.
  - apply Forall_map, Forall_forall. intros x _. apply Z.mod_pos_bound. lia.
  - constructor; [apply Z.mod_pos_bound; lia | constructor].
Qed.

Lemma status_with_channel (t c : Z) :
  128 <= t < 256 -> 128 <= Js.or (Js.to_int32 t) (Js.and c 15) < 256.
Proof.
  intros Ht.
  assert (Hk : 0 <= Js.and c 15 < 16).
  { unfold Js.and. rewrite (to_int32_small 15) by lia.
    change 15 with (Z.ones 4). rewrite Z.land_ones by lia.
    pose proof (Z.mod_pos_bound (Js.to_int32 c) (2 ^ 4) ltac:(lia)) as H.
    change (2 ^ 4) with 16 in *. rewrite to_int32_small by lia. exact H. }
  set (k := Js.and c 15) in *.
  assert (H : status_ok (t * 16 + k) = true).
  { apply (check_bits_sound status_ok 12 0); [now vm_compute | simpl; lia]. }
  unfold status_ok in H.
  replace ((t * 16 + k) / 16) with t in H
    by (apply Z.div_unique with (r := k); lia).
  replace ((t * 16 + k) mod 16) with k in H
    by (apply Z.mod_unique with (q := t); lia).
  destruct (Z.ltb_spec t 128); [lia|]. cbn [orb] in H.
  apply andb_prop in H as [H1 H2].
  apply Z.leb_le in H1. apply Z.ltb_lt in H2. lia.
Qed.

End Emits.


(** ** Events that [writeEvent] cuts short *)

Section Default.

Lemma status_of_typed (e : MidiTrackEvent) (t : Z) :
  type e = Some t -> 128 <= t < 256 ->
  exists s, statusByte_of e = Some s /\ 128 <= s < 256.
Proof.
  intros Ht Hr. unfold statusByte_of. rewrite Ht.
  destruct (channel e) as [c|]; [|now exists t].
  eexists. split; [reflexivity|]. cbn [Js.int32_of]. now apply status_with_channel.
Qed.

Lemma writeEvent_head (e : MidiTrackEvent) (t d s : Z) (w : DataBuffer.Writer)
    (k : DataBuffer.writer unit) :
  statusByte_of e = Some s -> 128 <= s < 256 -> deltaTime e = Some d -> at_end w ->
  (if negb (truthy (jv (statusByte_of e))) then throw (Error "Invalid status byte")
   else if is_undefined (jv (deltaTime e)) then throw (Error "Invalid delta time")
   else
     run writeVariableLengthValue (deltaTime e) in
     run DataBuffer.writeUInt8 (default 0 (statusByte_of e)) in
     k) w
  = k (DataBuffer.mkWriter (DataBuffer.buffer w ++ vlq_bytes d ++ [s])
         (DataBuffer.woffset w + Z.of_nat (length (vlq_bytes d)) + 1)).
Proof.
  intros Hs Hr Hd He. rewrite Hs, Hd. cbn [jv truthy is_undefined].
  destruct (Z.eqb_spec s 0); [lia|]. cbn [negb].
  unfold bind at 1. rewrite (emits_writeVariableLengthValue d w He).
  unfold bind at 1. change (default 0 (Some s)) with s.
  rewrite (emits_writeUInt8 s)
    by (unfold at_end; cbn; len_simpl; rewrite He; lia).
  cbn [DataBuffer.buffer DataBuffer.woffset].
  unfold Js.to_uint8. rewrite Z.mod_small by lia.
  rewrite <- app_assoc. reflexivity.
Qed.

End Default.

(** An event whose type holds a channel in its low four bits, as [parse]
    returns the events of the channels 2 to 16, matches no case of
    [writeEvent]: the delta time and the status byte are written and the
    data bytes are not. *)
Theorem writeEvent_drops_data_of_other_channels (e : MidiTrackEvent) (t d : Z)
    (w : DataBuffer.Writer) :
  type e = Some t -> deltaTime e = Some d ->
  128 <= t < 240 -> t mod 16 <> 0 -> at_end w ->
  exists s,
    128 <= s < 256
    /\ statusByte_of e = Some s
    /\ writeEvent e w
       = Ok (tt, DataBuffer.mkWriter (DataBuffer.buffer w ++ vlq_bytes d ++ [s])
                   (DataBuffer.woffset w + Z.of_nat (length (vlq_bytes d)) + 1)).
Proof.
  intros Ht Hd Hr Hmod He.
  destruct (status_of_typed e t Ht ltac:(lia)) as (s & Hs & Hsr).
  exists s. split; [exact Hsr|]. split; [exact Hs|].
  unfold writeEvent. cbv zeta.
  rewrite (writeEvent_head e t d s w _ Hs Hsr Hd He). rewrite Ht.
  revert Hr Hmod. clear.
  generalize (DataBuffer.mkWriter (DataBuffer.buffer w ++ vlq_bytes d ++ [s])
                (DataBuffer.woffset w + Z.of_nat (length (vlq_bytes d)) + 1)).
  intros w2.
  destruct t as [|p|p]; try lia.
  repeat match goal with
         | |- context [match ?x with _ => _ end] =>
             match type of x with
             | positive => destruct x
             end
         end; intros Hr Hmod;
    first [reflexivity | exfalso; lia | exfalso; apply Hmod; reflexivity].
Qed.

Lemma writeEvent_drops_data_of_other_channels_witness :
  exists s,
    128 <= s < 256
    /\ writeEvent (mkEvent (Some 0) (Some 145) (Some "Note On")
                           (note_data (VNum 60) (VNum 100)) None None (Some 1))
                  DataBuffer.newWriter
       = Ok (tt, DataBuffer.mkWriter
                   (DataBuffer.buffer DataBuffer.newWriter ++ vlq_bytes 0 ++ [s])
                   (DataBuffer.woffset DataBuffer.newWriter
                    + Z.of_nat (length (vlq_bytes 0)) + 1)).
Proof.
  destruct (writeEvent_drops_data_of_other_channels
              (mkEvent (Some 0) (Some 145) (Some "Note On")
                       (note_data (VNum 60) (VNum 100)) None None (Some 1))
              145 0 DataBuffer.newWriter)
    as (s & Hs & _ & E); [reflexivity | reflexivity | lia | | reflexivity |].
  - vm_compute. discriminate.
  - exists s. split; [exact Hs | exact E].
Defined.


(** ** Reading at the cursor *)

Section Cursor.

Lemma at_cursor_moved (b : DataBuffer.t) (bs l : list Z) :
  at_cursor b (bs ++ l) -> at_cursor (moved (length bs) b) l.
Proof.
  intros (Ho & Hlen & Hd). unfold at_cursor, moved. cbn [DataBuffer.offset DataBuffer.data].
  rewrite length_app in Hlen. unfold DataBuffer.bufLength in *. cbn [DataBuffer.data].
  repeat split; [lia | lia |].
  replace (Z.to_nat (DataBuffer.offset b + Z.of_nat (length bs)))
    with (Z.to_nat (DataBuffer.offset b) + length bs)%nat by lia.
  rewrite <- drop_drop, Hd. apply drop_app_length.
Qed.

Lemma at_cursor_remaining (b : DataBuffer.t) (l : list Z) :
  at_cursor b l -> DataBuffer.remainingBytes b = Z.of_nat (length l).
Proof. intros (Ho & Hlen & Hd). unfold DataBuffer.remainingBytes. lia. Qed.

Lemma at_cursor_split (b : DataBuffer.t) (l : list Z) :
  at_cursor b l ->
  DataBuffer.data b = take (Z.to_nat (DataBuffer.offset b)) (DataBuffer.data b) ++ l
  /\ DataBuffer.offset b
     = Z.of_nat (length (take (Z.to_nat (DataBuffer.offset b)) (DataBuffer.data b))).
Proof.
  intros (Ho & Hlen & Hd). split.
  - rewrite <- Hd. symmetry. apply take_drop.
  - rewrite length_take. unfold DataBuffer.bufLength in Hlen. lia.
Qed.

Lemma moved_moved (j k : nat) (b : DataBuffer.t) :
  moved k (moved j b) = moved (j + k) b.
Proof. unfold moved. cbn. f_equal. lia. Qed.

Lemma cursor_readUInt8 (b : DataBuffer.t) (x : Z) (l : list Z) :
  at_cursor b (x :: l) -> DataBuffer.readUInt8 b = Ok (Some x, moved 1 b).
Proof.
  intros Hc. destruct (at_cursor_split b _ Hc) as [Hd Ho].
  now rewrite (readUInt8_at b _ l x Hd Ho).
Qed.

Lemma cursor_end (b : DataBuffer.t) :
  at_cursor b [] -> DataBuffer.readUInt8 b = Throw UnderflowError.
Proof.
  intros Hc. apply readUInt8_underflow. rewrite (at_cursor_remaining b [] Hc). cbn. lia.
Qed.

Lemma cursor_vlq (b : DataBuffer.t) (n : Z) (l : list Z) :
  0 <= n < 2147483648 -> at_cursor b (vlq_bytes n ++ l) ->
  readVariableLengthValues b = Ok (n, moved (length (vlq_bytes n)) b).
Proof.
  intros Hn Hc. pose proof (at_cursor_remaining b _ Hc) as Hrem.
  destruct (at_cursor_split b _ Hc) as [Hd Ho].
  destruct (vlq_bytes_groups n Hn) as (g & gs & Hall & Hval & Hlen & Hbytes).
  pose proof (Forall_inv Hall) as Hg. pose proof (Forall_inv_tail Hall) as Hgs.
  assert (Hrev : Forall is_group (rev gs)) by (apply Forall_rev; assumption).
  assert (Hvalue : base128 (rev gs ++ [g]) = n).
  { change (rev gs ++ [g]) with (rev (g :: gs)). now rewrite base128_rev. }
  unfold readVariableLengthValues. rewrite Hrem.
  destruct b as [data0 off]. cbn [DataBuffer.data DataBuffer.offset] in *.
  remember (take (Z.to_nat off) data0) as pre eqn:Epre. clear Epre Hc.
  subst data0 off. rewrite Hbytes, <- app_assoc. cbn [app].
  rewrite (vlq_loop_spec (rev gs) 0 _ pre l g Hrev Hg ltac:(lia)).
  - fold (base128 (rev gs ++ [g])). rewrite Hvalue. unfold moved.
    cbn [DataBuffer.data DataBuffer.offset].
    do 3 f_equal. len_simpl. lia.
  - unfold base128 in Hvalue. rewrite fold_left_app in Hvalue. cbn [fold_left] in Hvalue.
    unfold is_group in Hg. lia.
  - len_simpl. lia.
Qed.

Lemma cursor_readString (b : DataBuffer.t) (bs l : list Z) :
  bs <> [] -> at_cursor b (bs ++ l) ->
  DataBuffer.readString (Z.of_nat (length bs)) b
  = Ok (ascii_string bs, moved (length bs) b).
Proof.
  intros Hne (Ho & Hlen & Hd). rewrite length_app in Hlen.
  assert (0 < length bs)%nat by (destruct bs; [congruence | cbn; lia]).
  rewrite readString_spec by lia.
  rewrite Nat2Z.id, Hd, take_app_length. reflexivity.
Qed.

Lemma cursor_readString_all (b : DataBuffer.t) (l : list Z) :
  at_cursor b l ->
  DataBuffer.readString 0 b = Ok (ascii_string l, moved (length l) b).
Proof.
  intros Hc. pose proof (at_cursor_remaining b l Hc) as Hrem.
  destruct Hc as (Ho & Hlen & Hd).
  unfold DataBuffer.readString. change (0 =? 0) with true. cbv iota. rewrite Hrem.
  unfold bind at 1. rewrite decode_ascii_spec by lia.
  rewrite Nat2Z.id, Hd, take_ge by lia.
  unfold bind, DataBuffer.advance, DataBuffer.available. rewrite Hrem.
  destruct (Z.leb_spec (Z.of_nat (length l)) (Z.of_nat (length l))); [|lia].
  reflexivity.
Qed.

Lemma cursor_read_loop (bs : list Z) :
  forall b l, Forall is_byte bs -> at_cursor b (bs ++ l) ->
  DataBuffer.read_loop (length bs) b = Ok (bs, moved (length bs) b).
Proof.
  induction bs as [|x bs IH]; intros b l Hall Hc.
  - cbn. unfold moved. rewrite Z.add_0_r. now destruct b.
  - cbn [length DataBuffer.read_loop]. unfold bind at 1.
    rewrite (cursor_readUInt8 b x (bs ++ l) Hc).
    unfold bind at 1.
    rewrite (IH (moved 1 b) l (Forall_inv_tail Hall)
                (at_cursor_moved b [x] (bs ++ l) Hc)).
    unfold ret. rewrite moved_moved. change (default 0 (Some x)) with x.
    pose proof (Forall_inv Hall) as Hx. unfold is_byte in Hx.
    unfold Js.to_uint8. now rewrite Z.mod_small by lia.
Qed.

Lemma cursor_readUInt32 (b : DataBuffer.t) (bs l : list Z) :
  length bs = 4%nat -> Forall is_byte bs -> at_cursor b (bs ++ l) ->
  DataBuffer.readUInt32 b = Ok (DataBuffer.be_value bs, moved 4 b).
Proof.
  intros Hn Hall Hc. unfold DataBuffer.readUInt32, bind, DataBuffer.read.
  change (4 <? 0) with false. cbv iota. change (Z.to_nat 4) with 4%nat.
  rewrite <- Hn. now rewrite (cursor_read_loop bs b l Hall Hc).
Qed.

End Cursor.


(** ** Events that round-trip: what is written *)

Section WireWrite.

Lemma tempo_facts (bpm : Z) :
  4 <= bpm <= 7811 ->
  let t := tempo_number bpm in
  0 < t < 16777216
  /\ Js.and (Js.sar (Js.to_int32 t) 16) 255 = t / 65536
  /\ Js.and (Js.sar (Js.to_int32 t) 8) 255 = (t / 256) mod 256
  /\ Js.and (Js.to_int32 t) 255 = t mod 256
  /\ Js.shl (Js.to_int32 (t / 65536)) 16
     + Js.shl (Js.to_int32 ((t / 256) mod 256)) 8 + t mod 256 = t
  /\ (120000000 + t) / (2 * t) = bpm.
Proof.
  intros Hb.
  assert (H : tempo_ok bpm = true).
  { apply (check_bits_sound tempo_ok 13 0); [now vm_compute | simpl; lia]. }
  unfold tempo_ok in H.
  destruct (Z.ltb_spec bpm 4); [lia|]. destruct (Z.ltb_spec 7811 bpm); [lia|].
  cbn [orb] in H. cbv zeta in *.
  repeat (apply andb_prop in H as [H ?]).
  repeat match goal with
         | Hx : (_ =? _) = true |- _ => apply Z.eqb_eq in Hx
         | Hx : (_ <? _) = true |- _ => apply Z.ltb_lt in Hx
         end.
  repeat split; assumption.
Qed.

Lemma tempo_event_form (bpm : Z) :
  4 <= bpm <= 7811 ->
  generateTempoEvent bpm
  = mkEvent (Some 0) (Some 255) (Some "Set Tempo")
      (VObj [("byte1", VNum (tempo_number bpm / 65536));
             ("byte2", VNum ((tempo_number bpm / 256) mod 256));
             ("byte3", VNum (tempo_number bpm mod 256));
             ("tempo", VNum (tempo_number bpm)); ("bpm", VNum bpm)])
      (Some 81) (Some 3) None.
Proof.
  intros Hb. destruct (tempo_facts bpm Hb) as (_ & H1 & H2 & H3 & _).
  unfold generateTempoEvent, tempo_of.
  destruct (Z.eqb_spec bpm 0); [lia|].
  fold (tempo_number bpm). unfold to_int32_value. cbn [to_integer].
  change (default 0 (Some (tempo_number bpm))) with (tempo_number bpm).
  now rewrite H1, H2, H3.
Qed.



Lemma emits_head (e : MidiTrackEvent) (d s : Z) (k : DataBuffer.writer unit)
    (bs : list Z) :
  statusByte_of e = Some s -> 128 <= s < 256 -> deltaTime e = Some d ->
  emits k tt bs ->
  emits (if negb (truthy (jv (statusByte_of e))) then throw (Error "Invalid status byte")
         else if is_undefined (jv (deltaTime e)) then throw (Error "Invalid delta time")
         else
           run writeVariableLengthValue (deltaTime e) in
           run DataBuffer.writeUInt8 (default 0 (statusByte_of e)) in
           k) tt (vlq_bytes d ++ [s] ++ bs).
Proof.
  intros Hs Hr Hd Hk w He.
  etransitivity; [apply (writeEvent_head e 0 d s w k Hs Hr Hd He)|].
  rewrite Hk by (unfold at_end; cbn; len_simpl; rewrite He; lia).
  cbn [DataBuffer.buffer DataBuffer.woffset].
  rewrite <- !app_assoc. do 3 f_equal. len_simpl. lia.
Qed.

Lemma vlq_bytes_0 : vlq_bytes 0 = [0].
Proof. reflexivity. Qed.

Lemma vlq_bytes_3 : vlq_bytes 3 = [3].
Proof. reflexivity. Qed.

Lemma utf8_ascii7 (s : string) : is_ascii7 s -> utf8_encode s = DataBuffer.char_codes s.
Proof.
  unfold is_ascii7, utf8_encode. generalize (DataBuffer.char_codes s). intros l Hall.
  induction Hall as [|c l Hc Hall IH]; [reflexivity|].
  cbn [flat_map]. rewrite IH. destruct (Z.ltb_spec c 128); [reflexivity | lia].
Qed.

Lemma text_label_cases (mt : Z) :
  1 <= mt <= 9 ->
  mt = 1 \/ mt = 2 \/ mt = 3 \/ mt = 4 \/ mt = 5 \/ mt = 6 \/ mt = 7 \/ mt = 8 \/ mt = 9.
Proof. lia. Qed.


End WireWrite.

(** ** Events that round-trip: what is read *)

Section WireRead.


Lemma p_byte (st : ParseState) (x : Z) (l : list Z) :
  at_cursor (buf st) (x :: l) ->
  this DataBuffer.readUInt8 st = Ok (Some x, st_moved 1 st)
  /\ at_cursor (buf (st_moved 1 st)) l.
Proof.
  intros Hc. split.
  - unfold this. now rewrite (cursor_readUInt8 (buf st) x l Hc).
  - apply (at_cursor_moved (buf st) [x] l Hc).
Qed.

Lemma p_vlq (st : ParseState) (n : Z) (l : list Z) :
  0 <= n < 2147483648 -> at_cursor (buf st) (vlq_bytes n ++ l) ->
  this readVariableLengthValues st = Ok (n, st_moved (length (vlq_bytes n)) st)
  /\ at_cursor (buf (st_moved (length (vlq_bytes n)) st)) l.
Proof.
  intros Hn Hc. split.
  - unfold this. now rewrite (cursor_vlq (buf st) n l Hn Hc).
  - apply (at_cursor_moved (buf st) _ l Hc).
Qed.

Lemma p_string (st : ParseState) (bs l : list Z) :
  bs <> [] -> at_cursor (buf st) (bs ++ l) ->
  this (DataBuffer.readString (Z.of_nat (length bs))) st
  = Ok (ascii_string bs, st_moved (length bs) st)
  /\ at_cursor (buf (st_moved (length bs) st)) l.
Proof.
  intros Hne Hc. split.
  - unfold this. now rewrite (cursor_readString (buf st) bs l Hne Hc).
  - apply (at_cursor_moved (buf st) _ l Hc).
Qed.

(** The round of the event loop on a note event of the first channel. *)
Lemma note_round (tc : Z) (last : option Z) (st : ParseState) (status d n v : Z)
    (l : list Z) :
  status = 144 \/ status = 160 ->
  0 <= d < 2147483648 ->
  at_cursor (buf st) (vlq_bytes d ++ [status; n; v] ++ l) ->
  exists A',
    track_event tc last st
    = Ok ((length (heap st), Some status),
          mkParseState (moved (length (vlq_bytes d ++ [status; n; v])) (buf st))
            (currentTime st + d) A'
            (heap st ++ [mkEvent (Some d) (Some status)
                           (Some (if status =? 144 then "Note On" else "Note Aftertouch"))
                           (note_data (VNum n) (VNum v)) None None (Some 0)])).
Proof.
  intros Hs Hd Hc. unfold track_event.
  destruct (p_vlq st d _ Hd Hc) as [E1 Hc1].
  unfold bind at 1. rewrite E1. unfold bind at 1, add_time at 1.
  set (st1 := mkParseState _ (currentTime _ + d) _ _).
  assert (Hc1' : at_cursor (buf st1) ([status; n; v] ++ l)) by exact Hc1.
  destruct (p_byte st1 status _ Hc1') as [E2 Hc2].
  unfold bind at 1. rewrite E2.
  assert (Hge : default false ((fun x => x >=? 128) <$> Some status) = true)
    by (destruct Hs as [-> | ->]; reflexivity).
  rewrite Hge. unfold bind at 1, ret at 1. unfold bind at 1.
  destruct (p_byte (st_moved 1 st1) n _ Hc2) as [E3 Hc3].
  destruct (p_byte (st_moved 1 (st_moved 1 st1)) v _ Hc3) as [E4 Hc4].
  destruct Hs as [-> | ->].
  - change (decode_event tc (Some 144) (newEvent d))
      with (channel_event (Some 144) (newEvent d)).
    unfold channel_event.
    change (Js.and (Js.sar (Js.int32_of (Some 144)) 4) 15) with 9.
    change (Js.and (Js.int32_of (Some 144)) 15) with 0. cbv zeta. cbv iota.
    unfold bind at 1. rewrite E3. unfold bind at 1. rewrite E4.
    unfold bind at 1, get_state at 1. unfold bind at 1, set_activeNotes at 1.
    unfold ret at 1. unfold bind at 1, push_event at 1. unfold ret.
    eexists. f_equal. f_equal.
    unfold st_moved, moved, st1. cbn. len_simpl. f_equal. f_equal. lia.
  - change (decode_event tc (Some 160) (newEvent d))
      with (channel_event (Some 160) (newEvent d)).
    unfold channel_event.
    change (Js.and (Js.sar (Js.int32_of (Some 160)) 4) 15) with 10.
    change (Js.and (Js.int32_of (Some 160)) 15) with 0. cbv zeta. cbv iota.
    unfold bind at 1. rewrite E3. unfold bind at 1. rewrite E4.
    unfold ret at 1. unfold bind at 1, push_event at 1. unfold ret.
    eexists. f_equal. f_equal.
    unfold st_moved, moved, st1. cbn. len_simpl. f_equal. f_equal. lia.
Qed.


Lemma meta_round_head (tc : Z) (last : option Z) (st : ParseState) (l : list Z) :
  at_cursor (buf st) ([0; 255] ++ l) ->
  track_event tc last st
  = (let* event := meta_event tc (newEvent 0) in
     let* ref := push_event event in
     ret (ref, Some 255))
      (mkParseState (moved 2 (buf st)) (currentTime st + 0) (activeNotes st) (heap st))
  /\ at_cursor (moved 2 (buf st)) l.
Proof.
  intros Hc. unfold track_event.
  assert (Hc0 : at_cursor (buf st) (vlq_bytes 0 ++ [255] ++ l)) by exact Hc.
  destruct (p_vlq st 0 _ ltac:(lia) Hc0) as [E1 Hc1].
  unfold bind at 1. rewrite E1. unfold bind at 1, add_time at 1.
  set (st1 := mkParseState _ (currentTime _ + 0) _ _).
  assert (Hc1' : at_cursor (buf st1) ([255] ++ l)) by exact Hc1.
  destruct (p_byte st1 255 _ Hc1') as [E2 Hc2].
  unfold bind at 1. rewrite E2.
  change (default false ((fun x => x >=? 128) <$> Some 255)) with true. cbv iota.
  unfold bind at 1, ret at 1.
  change (decode_event tc (Some 255) (newEvent 0)) with (meta_event tc (newEvent 0)).
  split; [|exact (at_cursor_moved (buf st) [0; 255] l Hc)].
  f_equal. unfold st1. change (length (vlq_bytes 0)) with 1%nat.
  unfold st_moved, moved.
  cbn [buf currentTime activeNotes heap DataBuffer.data DataBuffer.offset].
  f_equal. f_equal. lia.
Qed.

Lemma ascii_of_codes (s : string) : ascii_string (DataBuffer.char_codes s) = s.
Proof.
  unfold DataBuffer.char_codes. induction s as [|a s IH]; [reflexivity|].
  cbn [list_ascii_of_string map ascii_string fold_right]. f_equal; [|exact IH].
  unfold Js.fromCharCode.
  assert (Hlt : (N_of_ascii a < 256)%N) by apply N_ascii_bounded.
  rewrite Z.mod_small by lia. rewrite N2Z.id. apply ascii_N_embedding.
Qed.

Lemma end_round (tc : Z) (last : option Z) (st : ParseState) (l : list Z) :
  at_cursor (buf st) ([0; 255; 47; 0] ++ l) ->
  track_event tc last st
  = Ok ((length (heap st), Some 255),
        mkParseState (moved 4 (buf st)) (currentTime st + 0) (activeNotes st)
          (heap st ++ [generateEndOfTrackEvent])).
Proof.
  intros Hc. destruct (meta_round_head tc last st ([47; 0] ++ l) Hc) as [-> Hc2].
  set (st2 := mkParseState _ _ _ _).
  assert (Hc2' : at_cursor (buf st2) (47 :: vlq_bytes 0 ++ l)) by exact Hc2.
  destruct (p_byte st2 47 _ Hc2') as [E3 Hc3].
  destruct (p_vlq (st_moved 1 st2) 0 _ ltac:(lia) Hc3) as [E4 Hc4].
  unfold bind at 1, meta_event. unfold bind at 1. rewrite E3. cbv zeta.
  unfold bind at 1. rewrite E4. cbv iota.
  unfold ret at 1. unfold bind at 1, push_event at 1. unfold ret.
  f_equal. f_equal. change (length (vlq_bytes 0)) with 1%nat.
  unfold st2, st_moved, moved.
  cbn [buf currentTime activeNotes heap DataBuffer.data DataBuffer.offset].
  f_equal. f_equal. lia.
Qed.

Lemma tempo_round (tc : Z) (last : option Z) (st : ParseState) (bpm : Z) (l : list Z) :
  4 <= bpm <= 7811 ->
  at_cursor (buf st)
    (([0; 255; 81; 3]
        ++ [tempo_number bpm / 65536; (tempo_number bpm / 256) mod 256;
            tempo_number bpm mod 256]) ++ l) ->
  track_event tc last st
  = Ok ((length (heap st), Some 255),
        mkParseState (moved 7 (buf st)) (currentTime st + 0) (activeNotes st)
          (heap st ++ [generateTempoEvent bpm])).
Proof.
  intros Hb Hc. rewrite (tempo_event_form bpm Hb).
  destruct (tempo_facts bpm Hb) as (Ht & _ & _ & _ & Hsum & Hbpm). cbv zeta in *.
  set (t := tempo_number bpm) in *.
  destruct (meta_round_head tc last st _ Hc) as [-> Hc2].
  set (st2 := mkParseState _ _ _ _).
  assert (Hc2' : at_cursor (buf st2)
                   (81 :: vlq_bytes 3 ++ [t / 65536; (t / 256) mod 256; t mod 256] ++ l))
    by exact Hc2.
  destruct (p_byte st2 81 _ Hc2') as [E3 Hc3].
  destruct (p_vlq (st_moved 1 st2) 3 _ ltac:(lia) Hc3) as [E4 Hc4].
  set (st4 := st_moved (length (vlq_bytes 3)) (st_moved 1 st2)) in *.
  destruct (p_byte st4 _ _ Hc4) as [E5 Hc5].
  destruct (p_byte (st_moved 1 st4) _ _ Hc5) as [E6 Hc6].
  destruct (p_byte (st_moved 1 (st_moved 1 st4)) _ _ Hc6) as [E7 Hc7].
  unfold bind at 1, meta_event. unfold bind at 1. rewrite E3. cbv zeta.
  unfold bind at 1. rewrite E4. cbv iota.
  change (negb (3 =? 3)) with false. cbv iota.
  unfold bind at 1. rewrite E5. unfold bind at 1. rewrite E6.
  unfold bind at 1. rewrite E7.
  unfold ret at 1. unfold bind at 1, push_event at 1. unfold ret.
  cbn [Js.int32_of js_plus jv]. rewrite Hsum. unfold bpm_of.
  destruct (Z.eqb_spec t 0); [lia|]. rewrite Hbpm.
  f_equal. f_equal. unfold st4. change (length (vlq_bytes 3)) with 1%nat.
  unfold st2, st_moved, moved.
  cbn [buf currentTime activeNotes heap DataBuffer.data DataBuffer.offset].
  f_equal. f_equal. lia.
Qed.


Lemma text_event_round (st : ParseState) (labelText s : string) (mt : Z) (l : list Z) :
  s <> EmptyString ->
  at_cursor (buf st) (DataBuffer.char_codes s ++ l) ->
  (let* event :=
     text_event labelText
       (set_metaEventLength (Some (Z.of_nat (length (DataBuffer.char_codes s))))
          (set_metaType (Some mt) (set_type (Some 255) (newEvent 0)))) in
   let* ref := push_event event in
   ret (ref, Some 255)) st
  = Ok ((length (heap st), Some 255),
        mkParseState (moved (length (DataBuffer.char_codes s)) (buf st))
          (currentTime st) (activeNotes st)
          (heap st ++ [mkEvent (Some 0) (Some 255) (Some labelText) (VStr s)
                         (Some mt)
                         (Some (Z.of_nat (length (DataBuffer.char_codes s)))) None])).
Proof.
  intros Hne Hc.
  assert (Hcodes : DataBuffer.char_codes s <> []).
  { destruct s; [congruence | discriminate]. }
  destruct (p_string st _ l Hcodes Hc) as [E _].
  unfold bind at 1, text_event. unfold bind at 1.
  cbn [metaEventLength set_metaEventLength].
  change (default 0 (Some (Z.of_nat (length (DataBuffer.char_codes s)))))
    with (Z.of_nat (length (DataBuffer.char_codes s))).
  rewrite E, ascii_of_codes. unfold ret at 1. unfold bind at 1, push_event at 1.
  unfold ret. reflexivity.
Qed.

Lemma text_round (tc : Z) (last : option Z) (st : ParseState) (mt : Z) (s : string)
    (l : list Z) :
  1 <= mt <= 9 -> s <> EmptyString -> is_ascii7 s ->
  Z.of_nat (length (DataBuffer.char_codes s)) < 2147483648 ->
  at_cursor (buf st)
    (([0; 255; mt] ++ vlq_bytes (Z.of_nat (length (DataBuffer.char_codes s)))
        ++ DataBuffer.char_codes s) ++ l) ->
  track_event tc last st
  = Ok ((length (heap st), Some 255),
        mkParseState
          (moved (length ([0; 255; mt]
                            ++ vlq_bytes (Z.of_nat (length (DataBuffer.char_codes s)))
                            ++ DataBuffer.char_codes s)) (buf st))
          (currentTime st + 0) (activeNotes st)
          (heap st ++ [generateMetaStringEvent mt s])).
Proof.
  intros Hmt Hne Ha Hl Hc.
  set (codes := DataBuffer.char_codes s) in *.
  set (len := Z.of_nat (length codes)) in *.
  assert (Hc' : at_cursor (buf st) ([0; 255] ++ [mt] ++ vlq_bytes len ++ codes ++ l)).
  { rewrite <- !app_assoc in Hc. exact Hc. }
  destruct (meta_round_head tc last st _ Hc') as [-> Hc2].
  set (st2 := mkParseState _ _ _ _).
  assert (Hc2' : at_cursor (buf st2) (mt :: vlq_bytes len ++ codes ++ l)) by exact Hc2.
  destruct (p_byte st2 mt _ Hc2') as [E3 Hc3].
  destruct (p_vlq (st_moved 1 st2) len _ ltac:(lia) Hc3) as [E4 Hc4].
  set (st4 := st_moved (length (vlq_bytes len)) (st_moved 1 st2)) in *.
  unfold generateMetaStringEvent. cbv zeta. rewrite (utf8_ascii7 s Ha).
  fold codes. fold len.
  assert (Hfinal : forall labelText,
    (let* event :=
       text_event labelText
         (set_metaEventLength (Some len)
            (set_metaType (Some mt) (set_type (Some 255) (newEvent 0)))) in
     let* ref := push_event event in
     ret (ref, Some 255)) st4
    = Ok ((length (heap st), Some 255),
          mkParseState (moved (length ([0; 255; mt] ++ vlq_bytes len ++ codes)) (buf st))
            (currentTime st + 0) (activeNotes st)
            (heap st ++ [mkEvent (Some 0) (Some 255) (Some labelText) (VStr s)
                           (Some mt) (Some len) None]))).
  { intros labelText. subst len codes.
    rewrite (text_event_round st4 labelText s mt l Hne Hc4).
    f_equal. f_equal. unfold st4, st2, st_moved, moved.
    cbn [buf currentTime activeNotes heap DataBuffer.data DataBuffer.offset].
    f_equal. f_equal. len_simpl. lia. }
  unfold bind at 1, meta_event. unfold bind at 1. rewrite E3. cbv zeta.
  unfold bind at 1. rewrite E4.
  destruct (text_label_cases mt Hmt) as [->|[->|[->|[->|[->|[->|[->|[->| ->]]]]]]]];
    cbv iota; cbn [table_get meta_string_labels Z.eqb Pos.eqb];
    match goal with
    | |- context [text_event ?lab ?e] =>
        exact (Hfinal lab)
    end.
Qed.


Lemma wire_nonempty (e : MidiTrackEvent) (bs : list Z) : wire e bs -> bs <> [].
Proof.
  intros Hw. destruct Hw; try discriminate.
  - intros Hnil. apply app_eq_nil in Hnil as [_ Hnil]. discriminate.
  - intros Hnil. apply app_eq_nil in Hnil as [_ Hnil]. discriminate.
Qed.

Lemma wire_round (tc : Z) (last : option Z) (st : ParseState) (e : MidiTrackEvent)
    (bs l : list Z) :
  wire e bs -> at_cursor (buf st) (bs ++ l) ->
  exists A' status,
    track_event tc last st
    = Ok ((length (heap st), status),
          mkParseState (moved (length bs) (buf st)) (currentTime st + delta_of e) A'
            (heap st ++ [e])).
Proof.
  intros Hw Hc. destruct Hw as [d n v Hd Hn Hv | d n v Hd Hn Hv | bpm Hb | mt s Hmt Hne Ha Hl |].
  - rewrite <- app_assoc in Hc.
    destruct (note_round tc last st 144 d n v l (or_introl eq_refl) Hd Hc) as [A' E].
    exists A', (Some 144). exact E.
  - rewrite <- app_assoc in Hc.
    destruct (note_round tc last st 160 d n v l (or_intror eq_refl) Hd Hc) as [A' E].
    exists A', (Some 160). exact E.
  - exists (activeNotes st), (Some 255). rewrite (tempo_round tc last st bpm l Hb Hc).
    rewrite (tempo_event_form bpm Hb). reflexivity.
  - exists (activeNotes st), (Some 255).
    rewrite (text_round tc last st mt s l Hmt Hne Ha Hl Hc). reflexivity.
  - exists (activeNotes st), (Some 255). rewrite (end_round tc last st l Hc). reflexivity.
Qed.

Lemma wire_rounds (es : list MidiTrackEvent) (bss : list (list Z)) :
  Forall2 wire es bss ->
  forall fuel tc last refs st,
  (length es <= fuel)%nat -> at_cursor (buf st) (concat bss) ->
  exists A' T',
    track_events fuel tc last refs st
    = Ok (refs ++ seq (length (heap st)) (length es),
          mkParseState (moved (length (concat bss)) (buf st)) T' A' (heap st ++ es)).
Proof.
  induction 1 as [|e bs es bss Hw Hall IH]; intros fuel tc last refs st Hfuel Hc.
  - exists (activeNotes st), (currentTime st).
    pose proof (at_cursor_remaining _ _ Hc) as Hrem. cbn [concat length] in *.
    assert (E : track_events fuel tc last refs st = Ok (refs, st)).
    { destruct fuel; cbn [track_events]; rewrite Hrem; reflexivity. }
    rewrite E. cbn [seq]. rewrite !app_nil_r. f_equal. f_equal.
    destruct st as [[dt off] T A H]. unfold moved. cbn. f_equal. f_equal. lia.
  - cbn [concat] in Hc. pose proof (at_cursor_remaining _ _ Hc) as Hrem.
    pose proof (wire_nonempty e bs Hw) as Hne.
    assert (Hpos : (DataBuffer.remainingBytes (buf st) >? 0) = true).
    { rewrite Hrem, length_app. destruct bs; [congruence|]. cbn [length].
      apply Z.gtb_lt. lia. }
    destruct fuel as [|fuel]; [cbn in Hfuel; lia|].
    destruct (wire_round tc last st e bs (concat bss) Hw Hc) as (A1 & status & E1).
    set (st1 := mkParseState (moved (length bs) (buf st)) (currentTime st + delta_of e) A1
                  (heap st ++ [e])) in *.
    destruct (IH fuel tc status (refs ++ [length (heap st)]) st1
                ltac:(cbn [length] in Hfuel; lia)
                (at_cursor_moved (buf st) bs (concat bss) Hc)) as (A' & T' & E2).
    exists A', T'. cbn [track_events]. rewrite Hpos. unfold bind. rewrite E1, E2.
    f_equal. f_equal.
    + unfold st1. cbn [heap length]. rewrite length_app. cbn [length].
      rewrite <- app_assoc. f_equal. cbn [app].
      replace (length (heap st) + 1)%nat with (S (length (heap st))) by lia. reflexivity.
    + unfold st1. cbn [buf heap concat]. rewrite moved_moved, length_app.
      now rewrite <- app_assoc.
Qed.

End WireRead.

(** ** Saving and parsing again *)

Section RoundTrip.

Lemma wire_bytes (e : MidiTrackEvent) (bs : list Z) : wire e bs -> Forall is_byte bs.
Proof.
  intros Hw. destruct Hw as [d n v Hd Hn Hv | d n v Hd Hn Hv | bpm Hb | mt s Hmt Hne Ha Hl |].
  - apply Forall_app. split; [apply vlq_bytes_are_bytes|].
    constructor; [unfold is_byte; lia|]. constructor; [exact Hn|].
    constructor; [exact Hv | constructor].
  - apply Forall_app. split; [apply vlq_bytes_are_bytes|].
    constructor; [unfold is_byte; lia|]. constructor; [exact Hn|].
    constructor; [exact Hv | constructor].
  - destruct (tempo_facts bpm Hb) as (Ht & _). cbv zeta in Ht.
    assert (0 <= tempo_number bpm / 65536 < 256)
      by (split; [apply Z.div_pos; lia | apply Z.div_lt_upper_bound; lia]).
    cbn [app]. unfold is_byte.
    constructor; [lia|]. constructor; [lia|]. constructor; [lia|]. constructor; [lia|].
    constructor; [lia|]. constructor; [apply Z.mod_pos_bound; lia|].
    constructor; [apply Z.mod_pos_bound; lia | constructor].
  - apply Forall_app. split.
    + unfold is_byte. constructor; [lia|]. constructor; [lia|].
      constructor; [lia | constructor].
    + apply Forall_app. split; [apply vlq_bytes_are_bytes|].
      unfold is_ascii7 in Ha. eapply Forall_impl; [exact Ha|].
      intros c Hc. unfold is_byte. cbv beta in Hc. lia.
  - unfold is_byte. cbn. repeat (constructor; [lia|]). constructor.
Qed.

Lemma wires_bytes (es : list MidiTrackEvent) (bss : list (list Z)) :
  Forall2 wire es bss -> Forall is_byte (concat bss).
Proof.
  induction 1 as [|e bs es bss Hw Hall IH]; [constructor|].
  cbn [concat]. apply Forall_app. split; [now apply (wire_bytes e) | exact IH].
Qed.

Lemma bytes_unchanged (l : list Z) : Forall is_byte l -> map Js.to_uint8 l = l.
Proof.
  induction 1 as [|x l Hx Hall IH]; [reflexivity|].
  cbn [map]. rewrite IH. unfold is_byte in Hx. unfold Js.to_uint8.
  now rewrite Z.mod_small by lia.
Qed.

Lemma saved_header_bytes (f tc td : Z) :
  0 <= f < 65536 -> 0 <= tc < 65536 -> 0 <= td < 65536 ->
  Forall is_byte (saved_header f tc td).
Proof.
  intros Hf Ht Hd.
  destruct (u16_split f Hf) as (F1 & F2 & _).
  destruct (u16_split tc Ht) as (T1 & T2 & _).
  destruct (u16_split td Hd) as (D1 & D2 & _).
  unfold saved_header, is_byte. repeat (constructor; [lia|]). constructor.
Qed.



End RoundTrip.



(** ** The length of a text event *)

Section TextLength.

Lemma vlq_bytes_small (d : Z) : 0 <= d < 128 -> vlq_bytes d = [d].
Proof.
  intros Hd.
  destruct (vlq_bytes_shape d ltac:(lia)) as (g & gs & _ & _ & Hval & Hs & _ & Hb).
  rewrite (Hs ltac:(lia)) in Hval, Hb. cbn in Hval, Hb. rewrite Hb. f_equal. lia.
Qed.

(** [parse] up to the first event of the first track. *)
Lemma parse_track_body (f tc td len : Z) (body : list Z) (fuel : nat) :
  0 <= f < 65536 -> 1 <= tc < 65536 -> 0 <= td < 32768 -> 0 <= len < 4294967296 ->
  Forall is_byte body ->
  exists n st,
    at_cursor (buf st) body
    /\ (currentTime st = 0 /\ activeNotes st = ∅ /\ heap st = [])
    /\ Forall is_byte (DataBuffer.data (buf st))
    /\ parse fuel (saved_header f tc td ++ [77; 84; 114; 107] ++ be32 len ++ body)
       = match (let* refs := track_events fuel tc None [] in
                parse_tracks fuel tc n ([] ++ [mkTrackRefs "MTrk" len refs])) st with
         | Ok (tracks, st') =>
             Ok (mkAudioMIDI f tc (Some td) (map (resolve (heap st')) tracks))
         | Throw e => Throw e
         | OutOfFuel => OutOfFuel
         end.
Proof.
  intros Hf Ht Hd Hlen Hbody.
  set (rest := [77; 84; 114; 107] ++ be32 len ++ body).
  assert (Hbytes : Forall is_byte (saved_header f tc td ++ rest)).
  { apply Forall_app. split; [apply saved_header_bytes; lia|].
    apply Forall_app. split.
    { unfold is_byte. repeat (constructor; [lia|]). constructor. }
    apply Forall_app. split; [apply be32_bytes | exact Hbody]. }
  assert (Hlen14 : length (saved_header f tc td) = 14%nat) by reflexivity.
  assert (Htd : (td / 256 >=? 128) = false).
  { destruct (Z.geb_spec (td / 256) 128) as [Hge|]; [|reflexivity].
    assert (td / 256 < 128) by (apply Z.div_lt_upper_bound; lia). lia. }
  destruct (Z.to_nat tc) as [|n] eqn:En; [lia|].
  set (st0 := mkParseState (DataBuffer.mk (saved_header f tc td ++ rest) 14) 0 ∅ []).
  assert (Hc0 : at_cursor (buf st0) ([77; 84; 114; 107] ++ be32 len ++ body)).
  { unfold at_cursor, st0. cbn [buf DataBuffer.offset DataBuffer.data].
    unfold DataBuffer.bufLength. cbn [DataBuffer.data].
    split; [lia|]. split; [unfold rest; rewrite !length_app, Hlen14; lia|].
    change (Z.to_nat 14) with (length (saved_header f tc td)).
    apply drop_app_length. }
  destruct (p_string st0 [77; 84; 114; 107] _ ltac:(discriminate) Hc0) as [E1 Hc1].
  change (length [77; 84; 114; 107]) with 4%nat in *.
  change (Z.of_nat 4) with 4 in E1.
  assert (E2 : this DataBuffer.readUInt32 (st_moved 4 st0)
               = Ok (len, st_moved 4 (st_moved 4 st0))).
  { unfold this. rewrite (cursor_readUInt32 _ (be32 len) body eq_refl (be32_bytes len) Hc1).
    rewrite be32_value, Z.mod_small by lia. reflexivity. }
  exists n, (st_moved 4 (st_moved 4 st0)).
  split; [apply (at_cursor_moved (buf (st_moved 4 st0)) (be32 len) body Hc1)|].
  split; [repeat split|]. split; [exact Hbytes|].
  unfold parse.
  rewrite read_14 by (rewrite length_app, Hlen14; lia).
  rewrite decodeHeader_spec
    by (unfold bytes_at; rewrite length_take, length_drop, length_map, length_app, Hlen14; lia).
  rewrite header_of_prefix, header_of_saved by lia.
  cbn [h_trackCount h_format h_timeDivision].
  rewrite Htd, (bytes_unchanged _ Hbytes), En.
  fold st0. cbn [parse_tracks].
  rewrite (at_cursor_remaining _ _ Hc0).
  destruct (Z.eqb_spec (Z.of_nat (length ([77; 84; 114; 107] ++ be32 len ++ body))) 0)
    as [E0|_]; [rewrite length_app in E0; cbn in E0; lia|].
  unfold bind at 1. rewrite E1. change (ascii_string [77; 84; 114; 107]) with "MTrk".
  unfold bind at 1. rewrite E2.
  change (negb (String.eqb "MTrk" "MTrk")) with false. cbv iota. reflexivity.
Qed.

(** The head of a round on a meta event. *)
Lemma meta_head (tc : Z) (last : option Z) (st : ParseState) (d : Z) (l : list Z) :
  0 <= d < 2147483648 ->
  at_cursor (buf st) (vlq_bytes d ++ [255] ++ l) ->
  track_event tc last st
  = (let* event := meta_event tc (newEvent d) in
     let* ref := push_event event in
     ret (ref, Some 255))
      (mkParseState (moved (length (vlq_bytes d ++ [255])) (buf st)) (currentTime st + d)
         (activeNotes st) (heap st))
  /\ at_cursor (moved (length (vlq_bytes d ++ [255])) (buf st)) l.
Proof.
  intros Hd Hc. unfold track_event.
  destruct (p_vlq st d _ Hd Hc) as [E1 Hc1].
  unfold bind at 1. rewrite E1. unfold bind at 1, add_time at 1.
  set (st1 := mkParseState _ (currentTime _ + d) _ _).
  assert (Hc1' : at_cursor (buf st1) ([255] ++ l)) by exact Hc1.
  destruct (p_byte st1 255 _ Hc1') as [E2 Hc2].
  unfold bind at 1. rewrite E2.
  change (default false ((fun x => x >=? 128) <$> Some 255)) with true. cbv iota.
  unfold bind at 1, ret at 1.
  change (decode_event tc (Some 255) (newEvent d)) with (meta_event tc (newEvent d)).
  rewrite app_assoc in Hc.
  split; [|exact (at_cursor_moved (buf st) _ l Hc)].
  f_equal. unfold st1, st_moved, moved.
  cbn [buf currentTime activeNotes heap DataBuffer.data DataBuffer.offset].
  f_equal. f_equal. len_simpl. lia.
Qed.

(** The round on a text event whose length field is 0: the text is all
    that remains of the input. *)
Lemma empty_text_round (tc : Z) (last : option Z) (st : ParseState) (d mt : Z)
    (rest : list Z) :
  0 <= d < 2147483648 -> 1 <= mt <= 9 ->
  at_cursor (buf st) ((vlq_bytes d ++ [255; mt; 0]) ++ rest) ->
  track_event tc last st
  = Ok ((length (heap st), Some 255),
        mkParseState (moved (length ((vlq_bytes d ++ [255; mt; 0]) ++ rest)) (buf st))
          (currentTime st + d) (activeNotes st)
          (heap st ++ [mkEvent (Some d) (Some 255) (table_get mt meta_string_labels)
                         (VStr (ascii_string rest)) (Some mt) (Some 0) None])).
Proof.
  intros Hd Hmt Hc.
  assert (Hc' : at_cursor (buf st) (vlq_bytes d ++ [255] ++ [mt] ++ vlq_bytes 0 ++ rest)).
  { rewrite <- app_assoc in Hc. exact Hc. }
  destruct (meta_head tc last st d _ Hd Hc') as [-> Hc2].
  set (st2 := mkParseState _ _ _ _).
  assert (Hc2' : at_cursor (buf st2) (mt :: vlq_bytes 0 ++ rest)) by exact Hc2.
  destruct (p_byte st2 mt _ Hc2') as [E3 Hc3].
  destruct (p_vlq (st_moved 1 st2) 0 _ ltac:(lia) Hc3) as [E4 Hc4].
  set (st4 := st_moved (length (vlq_bytes 0)) (st_moved 1 st2)) in *.
  assert (Hfinal : forall labelText,
    (let* event :=
       text_event labelText
         (set_metaEventLength (Some 0)
            (set_metaType (Some mt) (set_type (Some 255) (newEvent d)))) in
     let* ref := push_event event in
     ret (ref, Some 255)) st4
    = Ok ((length (heap st), Some 255),
          mkParseState (moved (length ((vlq_bytes d ++ [255; mt; 0]) ++ rest)) (buf st))
            (currentTime st + d) (activeNotes st)
            (heap st ++ [mkEvent (Some d) (Some 255) (Some labelText)
                           (VStr (ascii_string rest)) (Some mt) (Some 0) None]))).
  { intros labelText.
    unfold bind at 1, text_event. unfold bind at 1.
    cbn [metaEventLength set_metaEventLength].
    change (default 0 (Some 0)) with 0.
    unfold this at 1. rewrite (cursor_readString_all (buf st4) rest Hc4).
    unfold ret at 1. unfold bind at 1, push_event at 1. unfold ret.
    f_equal. f_equal. unfold st4, st2, st_moved, moved.
    cbn [buf currentTime activeNotes heap DataBuffer.data DataBuffer.offset].
    f_equal. f_equal. len_simpl. change (length (vlq_bytes 0)) with 1%nat. lia. }
  unfold bind at 1, meta_event. unfold bind at 1. rewrite E3. cbv zeta.
  unfold bind at 1. rewrite E4.
  destruct (text_label_cases mt Hmt) as [->|[->|[->|[->|[->|[->|[->|[->| ->]]]]]]]];
    cbv iota; cbn [table_get meta_string_labels Z.eqb Pos.eqb];
    match goal with
    | |- context [text_event ?lab ?e] =>
        exact (Hfinal lab)
    end.
Qed.

(** One round of the loop of [readVariableLengthValues]. *)
Lemma vlq_loop_round (fuel : nat) (value : Z) (b : DataBuffer.t) (x : Z) (l : list Z) :
  at_cursor b (x :: l) ->
  vlq_loop (S fuel) value b
  = (if negb (Js.and (Js.int32_of (Some x)) 128 =? 0) && (Z.of_nat (length l) >? 0)
     then vlq_loop fuel (Js.shl value 7 + Js.and (Js.int32_of (Some x)) 127) (moved 1 b)
     else Ok (Js.shl value 7 + Js.and (Js.int32_of (Some x)) 127, moved 1 b)).
Proof.
  intros Hc. cbn [vlq_loop]. unfold bind.
  rewrite (cursor_readUInt8 b x l Hc).
  pose proof (at_cursor_remaining _ _ (at_cursor_moved b [x] l Hc)) as Hr.
  cbn [length] in Hr. now rewrite Hr.
Qed.

(** The five bytes 8F FF FF FF 78 are read as the quantity -8. *)
Lemma cursor_vlq_minus_8 (b : DataBuffer.t) (l : list Z) :
  at_cursor b ([143; 255; 255; 255; 120] ++ l) ->
  readVariableLengthValues b = Ok (-8, moved 5 b).
Proof.
  intros Hc. unfold readVariableLengthValues.
  rewrite (at_cursor_remaining _ _ Hc), Nat2Z.id. cbn [app length] in *.
  pose proof (at_cursor_moved b [143] _ Hc) as Hc1.
  pose proof (at_cursor_moved _ [255] _ Hc1) as Hc2.
  pose proof (at_cursor_moved _ [255] _ Hc2) as Hc3.
  pose proof (at_cursor_moved _ [255] _ Hc3) as Hc4.
  cbn [app length] in Hc1, Hc2, Hc3, Hc4.
  assert (Hpos : forall n, (Z.of_nat (S n) >? 0) = true) by reflexivity.
  rewrite (vlq_loop_round _ 0 b 143 _ Hc). cbn [length]. rewrite Hpos.
  change (negb (Js.and (Js.int32_of (Some 143)) 128 =? 0)) with true. cbv iota beta.
  cbn [andb].
  rewrite (vlq_loop_round _ _ _ 255 _ Hc1). cbn [length]. rewrite Hpos.
  change (negb (Js.and (Js.int32_of (Some 255)) 128 =? 0)) with true.
  cbn [andb].
  rewrite (vlq_loop_round _ _ _ 255 _ Hc2). cbn [length]. rewrite Hpos.
  change (negb (Js.and (Js.int32_of (Some 255)) 128 =? 0)) with true.
  cbn [andb].
  rewrite (vlq_loop_round _ _ _ 255 _ Hc3). cbn [length]. rewrite Hpos.
  change (negb (Js.and (Js.int32_of (Some 255)) 128 =? 0)) with true.
  cbn [andb].
  rewrite (vlq_loop_round _ _ _ 120 _ Hc4).
  change (negb (Js.and (Js.int32_of (Some 120)) 128 =? 0)) with false.
  cbn [andb].
  replace (moved 1 (moved 1 (moved 1 (moved 1 (moved 1 b))))) with (moved 5 b)
    by (unfold moved; cbn [DataBuffer.data DataBuffer.offset]; f_equal; lia).
  reflexivity.
Qed.

(** The round on a text event whose length field is read as -8, after a
    delta time of one byte: the cursor is back where the round began. *)
Lemma negative_text_round (tc : Z) (last : option Z) (st : ParseState) (d mt : Z)
    (rest : list Z) :
  0 <= d < 128 -> 1 <= mt <= 9 ->
  at_cursor (buf st) ([d; 255; mt; 143; 255; 255; 255; 120] ++ rest) ->
  exists e,
    track_event tc last st
    = Ok ((length (heap st), Some 255),
          mkParseState (buf st) (currentTime st + d) (activeNotes st) (heap st ++ [e])).
Proof.
  intros Hd Hmt Hc.
  assert (Hc' : at_cursor (buf st)
                  (vlq_bytes d ++ [255] ++ [mt] ++ [143; 255; 255; 255; 120] ++ rest)).
  { rewrite (vlq_bytes_small d Hd). exact Hc. }
  destruct (meta_head tc last st d _ ltac:(lia) Hc') as [-> Hc2].
  rewrite (vlq_bytes_small d Hd) in *. cbn [app length] in *.
  set (st2 := mkParseState _ _ _ _).
  assert (Hc2' : at_cursor (buf st2) (mt :: [143; 255; 255; 255; 120] ++ rest)) by exact Hc2.
  destruct (p_byte st2 mt _ Hc2') as [E3 Hc3].
  pose proof (cursor_vlq_minus_8 _ _ Hc3) as E4.
  pose proof (at_cursor_moved _ [143; 255; 255; 255; 120] rest Hc3) as Hc4.
  cbn [length] in Hc4.
  set (st4 := mkParseState (moved 5 (buf (st_moved 1 st2))) (currentTime st + d)
                (activeNotes st) (heap st)).
  assert (Hfinal : forall labelText,
    (let* event :=
       text_event labelText
         (set_metaEventLength (Some (-8))
            (set_metaType (Some mt) (set_type (Some 255) (newEvent d)))) in
     let* ref := push_event event in
     ret (ref, Some 255)) st4
    = Ok ((length (heap st), Some 255),
          mkParseState (buf st) (currentTime st + d) (activeNotes st)
            (heap st ++ [mkEvent (Some d) (Some 255) (Some labelText)
                           (VStr EmptyString) (Some mt) (Some (-8)) None]))).
  { intros labelText.
    unfold bind at 1, text_event. unfold bind at 1.
    cbn [metaEventLength set_metaEventLength].
    change (default 0 (Some (-8))) with (-8).
    unfold this at 1, DataBuffer.readString.
    change (-8 =? 0) with false. cbv iota. change (Z.to_nat (-8)) with 0%nat.
    cbn [DataBuffer.decode_ascii]. unfold bind at 1, ret at 1.
    unfold bind at 1, DataBuffer.advance, DataBuffer.available.
    pose proof (at_cursor_remaining _ _ Hc4) as Hrem.
    assert (Hle : (-8 <=? DataBuffer.remainingBytes (buf st4)) = true).
    { apply Z.leb_le. unfold st4. cbn [buf]. rewrite Hrem. lia. }
    rewrite Hle. unfold ret at 1. unfold ret at 1.
    unfold bind at 1, push_event at 1. unfold ret.
    f_equal. f_equal. unfold st4, st2, st_moved, moved.
    cbn [buf currentTime activeNotes heap DataBuffer.data DataBuffer.offset].
    f_equal. destruct (buf st) as [dt off].
    cbn [DataBuffer.data DataBuffer.offset]. f_equal. lia. }
  unfold bind at 1, meta_event. unfold bind at 1. rewrite E3. cbv zeta.
  unfold bind at 1, this at 1. rewrite E4.
  fold st4.
  destruct (text_label_cases mt Hmt) as [->|[->|[->|[->|[->|[->|[->|[->| ->]]]]]]]];
    cbv iota;
    match goal with
    | |- context [text_event ?lab ?e] =>
        eexists; exact (Hfinal lab)
    end.
Qed.

Lemma negative_text_loop (tc d mt : Z) (rest : list Z) (b : DataBuffer.t) :
  0 <= d < 128 -> 1 <= mt <= 9 ->
  at_cursor b ([d; 255; mt; 143; 255; 255; 255; 120] ++ rest) ->
  forall fuel last refs st,
    buf st = b -> track_events fuel tc last refs st = OutOfFuel.
Proof.
  intros Hd Hmt Hc. induction fuel as [|fuel IH]; intros last refs st Hb.
  - cbn [track_events]. rewrite Hb, (at_cursor_remaining _ _ Hc). reflexivity.
  - cbn [track_events]. rewrite Hb, (at_cursor_remaining _ _ Hc).
    change (Z.of_nat (length ([d; 255; mt; 143; 255; 255; 255; 120] ++ rest)) >? 0)
      with true. cbv iota.
    rewrite <- Hb in Hc.
    destruct (negative_text_round tc last st d mt rest Hd Hmt Hc) as (e & E).
    unfold bind at 1. rewrite E. apply IH. cbn [buf]. exact Hb.
Qed.

End TextLength.

(** A text meta event with the length 0 takes everything that remains of the
    input as its text: [readString(0)] reads to the end, so [parse] returns
    the track with this one event, whatever follows it. *)
Theorem empty_text_takes_the_rest (f tc td len d mt : Z) (rest : list Z) (fuel : nat) :
  0 <= f < 65536 -> 1 <= tc < 65536 -> 0 <= td < 32768 -> 0 <= len < 4294967296 ->
  0 <= d < 2147483648 -> 1 <= mt <= 9 -> Forall is_byte rest -> (1 <= fuel)%nat ->
  parse fuel (saved_header f tc td ++ [77; 84; 114; 107] ++ be32 len
                ++ (vlq_bytes d ++ [255; mt; 0]) ++ rest)
  = Ok (mkAudioMIDI f tc (Some td)
          [mkTrack "MTrk" len
             [mkEvent (Some d) (Some 255) (table_get mt meta_string_labels)
                (VStr (ascii_string rest)) (Some mt) (Some 0) None]]).
Proof.
  intros Hf Ht Htd Hlen Hd Hmt Hrest Hfuel.
  assert (Hbody : Forall is_byte ((vlq_bytes d ++ [255; mt; 0]) ++ rest)).
  { apply Forall_app. split; [|exact Hrest].
    apply Forall_app. split; [apply vlq_bytes_are_bytes|].
    unfold is_byte. repeat (constructor; [lia|]). constructor. }
  destruct (parse_track_body f tc td len _ fuel Hf Ht Htd Hlen Hbody)
    as (n & st & Hc & (_ & _ & Hheap) & _ & ->).
  destruct fuel as [|fuel]; [lia|].
  unfold bind at 1. cbn [track_events].
  rewrite (at_cursor_remaining _ _ Hc).
  assert (Hpos : (Z.of_nat (length ((vlq_bytes d ++ [255; mt; 0]) ++ rest)) >? 0) = true).
  { apply Z.gtb_lt. len_simpl. lia. }
  rewrite Hpos. unfold bind at 1.
  rewrite (empty_text_round tc None st d mt rest Hd Hmt Hc).
  set (st1 := mkParseState _ _ _ _).
  assert (Hc1 : at_cursor (buf st1) []).
  { rewrite <- (app_nil_r (_ ++ rest)) in Hc.
    exact (at_cursor_moved (buf st) _ [] Hc). }
  assert (E : forall last refs, track_events fuel tc last refs st1 = Ok (refs, st1)).
  { intros last refs. destruct fuel; cbn [track_events];
      rewrite (at_cursor_remaining _ _ Hc1); reflexivity. }
  rewrite E. rewrite parse_tracks_stops by (now rewrite (at_cursor_remaining _ _ Hc1)).
  unfold st1. cbn [heap]. rewrite Hheap. reflexivity.
Qed.

Lemma empty_text_takes_the_rest_witness :
  parse 1 (saved_header 0 1 480 ++ [77; 84; 114; 107] ++ be32 8
             ++ (vlq_bytes 0 ++ [255; 3; 0]) ++ [0; 255; 47; 0])
  = Ok (mkAudioMIDI 0 1 (Some 480)
          [mkTrack "MTrk" 8
             [mkEvent (Some 0) (Some 255) (table_get 3 meta_string_labels)
                (VStr (ascii_string [0; 255; 47; 0])) (Some 3) (Some 0) None]]).
Proof.
  apply (empty_text_takes_the_rest 0 1 480 8 0 3 [0; 255; 47; 0] 1);
    try lia.
  unfold is_byte. repeat (constructor; [lia|]). constructor.
Defined.

(** A text meta event after a delta time of one byte whose length field is
    the five bytes 8F FF FF FF 78 is read with the length -8: [readString]
    returns the empty text and moves the cursor back to the start of the
    event, so every round of the event loop decodes the same event again and
    no number of rounds ends the loop. *)
Theorem negative_text_length_never_ends (f tc td len d mt : Z) (rest : list Z)
    (fuel : nat) :
  0 <= f < 65536 -> 1 <= tc < 65536 -> 0 <= td < 32768 -> 0 <= len < 4294967296 ->
  0 <= d < 128 -> 1 <= mt <= 9 -> Forall is_byte rest ->
  parse fuel (saved_header f tc td ++ [77; 84; 114; 107] ++ be32 len
                ++ [d; 255; mt; 143; 255; 255; 255; 120] ++ rest)
  = OutOfFuel.
Proof.
  intros Hf Ht Htd Hlen Hd Hmt Hrest.
  assert (Hbody : Forall is_byte ([d; 255; mt; 143; 255; 255; 255; 120] ++ rest)).
  { apply Forall_app. split; [|exact Hrest].
    unfold is_byte. repeat (constructor; [lia|]). constructor. }
  destruct (parse_track_body f tc td len _ fuel Hf Ht Htd Hlen Hbody)
    as (n & st & Hc & _ & _ & ->).
  unfold bind at 1.
  now rewrite (negative_text_loop tc d mt rest (buf st) Hd Hmt Hc fuel None [] st eq_refl).
Qed.

Lemma negative_text_length_never_ends_witness :
  parse 1000 (saved_header 0 1 480 ++ [77; 84; 114; 107] ++ be32 12
                ++ [0; 255; 1; 143; 255; 255; 255; 120] ++ [0; 255; 47; 0])
  = OutOfFuel.
Proof.
  apply (negative_text_length_never_ends 0 1 480 12 0 1 [0; 255; 47; 0] 1000);
    try lia.
  unfold is_byte. repeat (constructor; [lia|]). constructor.
Defined.

(** ** Parsed events that cannot be written *)

Section Unsaved.

(** The head of a round on an event that carries its status byte. *)
Lemma status_head (tc : Z) (last : option Z) (st : ParseState) (s d : Z) (l : list Z) :
  0 <= d < 2147483648 -> 128 <= s ->
  at_cursor (buf st) (vlq_bytes d ++ [s] ++ l) ->
  track_event tc last st
  = (let* event := decode_event tc (Some s) (newEvent d) in
     let* ref := push_event event in
     ret (ref, Some s))
      (mkParseState (moved (length (vlq_bytes d ++ [s])) (buf st)) (currentTime st + d)
         (activeNotes st) (heap st))
  /\ at_cursor (moved (length (vlq_bytes d ++ [s])) (buf st)) l.
Proof.
  intros Hd Hs Hc. unfold track_event.
  destruct (p_vlq st d _ Hd Hc) as [E1 Hc1].
  unfold bind at 1. rewrite E1. unfold bind at 1, add_time at 1.
  set (st1 := mkParseState _ (currentTime _ + d) _ _).
  assert (Hc1' : at_cursor (buf st1) ([s] ++ l)) by exact Hc1.
  destruct (p_byte st1 s _ Hc1') as [E2 Hc2].
  unfold bind at 1. rewrite E2.
  assert (Hge : default false ((fun x => x >=? 128) <$> Some s) = true).
  { cbn. apply Z.geb_le. lia. }
  rewrite Hge. unfold bind at 1, ret at 1.
  rewrite app_assoc in Hc.
  split; [|exact (at_cursor_moved (buf st) _ l Hc)].
  f_equal. unfold st1, st_moved, moved.
  cbn [buf currentTime activeNotes heap DataBuffer.data DataBuffer.offset].
  f_equal. f_equal. len_simpl. lia.
Qed.

Lemma write_popped_total (r : list Z) :
  forall w, exists w', write_popped r w = Ok (tt, w').
Proof.
  induction r as [|x r IH]; intros w; [eexists; reflexivity|].
  destruct r as [|y r]; [eexists; reflexivity|].
  change (write_popped (x :: y :: r))
    with (run DataBuffer.writeUInt8 (Js.or x 128) in write_popped (y :: r)).
  unfold bind, DataBuffer.writeUInt8 at 1. apply IH.
Qed.

(** [writeEvent] up to the switch on the type, for an event of the first
    channel with a delta time. *)
Lemma writeEvent_switch (e : MidiTrackEvent) (s d : Z) (w : DataBuffer.Writer) :
  type e = Some s -> channel e = Some 0 -> deltaTime e = Some d -> 128 <= s < 256 ->
  exists w',
    writeEvent e w
    = match Some s with
      | Some 176 =>
          let* controllerNumber := prop "controllerNumber" (data e) in
          if negb (truthy controllerNumber)
          then throw (Error "Invalid controller number or value")
          else
            let* value := prop "value" (data e) in
            if negb (truthy value) then throw (Error "Invalid controller number or value")
            else writeEventData (VArr [controllerNumber; value])
      | Some 192 =>
          let* programNumber := prop "programNumber" (data e) in
          if negb (truthy programNumber) then throw (Error "Invalid programNumber")
          else writeEventData (VArr [programNumber])
      | Some 208 =>
          let* pressureAmount := prop "pressureAmount" (data e) in
          if negb (truthy pressureAmount) then throw (Error "Invalid pressureAmount")
          else writeEventData (VArr [pressureAmount])
      | Some 224 =>
          let* lsb := prop "lsb" (data e) in
          let* msb := prop "msb" (data e) in
          if negb (truthy lsb) || negb (truthy msb) then throw (Error "Invalid lsb or msb")
          else writeEventData (VArr [lsb; msb])
      | _ => throw TypeError
      end w'
    \/ (s <> 176 /\ s <> 192 /\ s <> 208 /\ s <> 224).
Proof.
  intros Ht Hch Hd Hs.
  destruct (Z.eq_dec s 176) as [->|N1]; [|destruct (Z.eq_dec s 192) as [->|N2];
    [|destruct (Z.eq_dec s 208) as [->|N3]; [|destruct (Z.eq_dec s 224) as [->|N4]]]].
  5: { exists w. right. repeat split; assumption. }
  all: destruct (write_popped_total (rev (vlq_groups 5 d)) w) as [w1 E1];
    eexists; left; unfold writeEvent, statusByte_of; rewrite Ht, Hch, Hd;
    cbn [jv truthy is_undefined negb default Js.int32_of];
    match goal with
    | |- context [Js.or ?a ?b] =>
        let v := eval vm_compute in (Js.or a b) in change (Js.or a b) with v
    end;
    cbn [Z.eqb Pos.eqb negb]; cbv iota;
    unfold bind at 1, writeVariableLengthValue; cbn [default]; unfold id; rewrite E1;
    unfold bind at 1, DataBuffer.writeUInt8 at 1; reflexivity.
Qed.

(** The round on a Control Change, Program Change, Channel Aftertouch or
    Pitch Bend event of the first channel, and what [writeEvent] makes of the
    event it pushes. *)
Lemma control_round (tc : Z) (last : option Z) (st : ParseState) (s d x y : Z)
    (l : list Z) :
  s = 176 \/ s = 192 \/ s = 208 \/ s = 224 ->
  0 <= d < 2147483648 ->
  at_cursor (buf st) ((vlq_bytes d ++ s :: channel_data s x y) ++ l) ->
  exists e,
    track_event tc last st
    = Ok ((length (heap st), Some s),
          mkParseState (moved (length (vlq_bytes d ++ s :: channel_data s x y)) (buf st))
            (currentTime st + d) (activeNotes st) (heap st ++ [e]))
    /\ exists msg, forall w, writeEvent e w = Throw (Error msg).
Proof.
  intros Hs Hd Hc.
  assert (Hc' : at_cursor (buf st) (vlq_bytes d ++ [s] ++ channel_data s x y ++ l)).
  { rewrite <- app_assoc in Hc. exact Hc. }
  destruct (status_head tc last st s d _ Hd ltac:(lia) Hc') as [-> Hc2].
  set (st2 := mkParseState _ _ _ _).
  assert (Hmoved : forall k,
    mkParseState (moved k (buf st2)) (currentTime st + d) (activeNotes st) (heap st)
    = st_moved k st2) by reflexivity.
  destruct Hs as [-> | [-> | [-> | ->]]];
    change (decode_event tc (Some ?s) (newEvent d))
      with (channel_event (Some s) (newEvent d));
    unfold channel_event;
    match goal with
    | |- context [Js.and (Js.sar (Js.int32_of (Some ?s)) 4) 15] =>
        let v := eval vm_compute in (Js.and (Js.sar (Js.int32_of (Some s)) 4) 15) in
        change (Js.and (Js.sar (Js.int32_of (Some s)) 4) 15) with v;
        change (Js.and (Js.int32_of (Some s)) 15) with 0
    end;
    cbv zeta; cbv iota; unfold channel_data in *;
    match type of Hc2 with
    | context [if ?c then _ else _] =>
        let v := eval vm_compute in c in change c with v in *
    end; cbv iota in *.
  - assert (Hc2' : at_cursor (buf st2) (x :: [y] ++ l)) by exact Hc2.
    destruct (p_byte st2 x _ Hc2') as [E3 Hc3].
    destruct (p_byte (st_moved 1 st2) y _ Hc3) as [E4 Hc4].
    unfold bind at 1. unfold bind at 1. rewrite E3. unfold bind at 1. rewrite E4.
    unfold ret at 1. unfold bind at 1, push_event at 1. unfold ret.
    eexists. split.
    + f_equal. f_equal. unfold st_moved, moved, st2. cbn. len_simpl.
      f_equal. f_equal. lia.
    + eexists. intros w.
      match goal with
      | |- context [writeEvent ?e w] =>
          destruct (writeEvent_switch e 176 d w eq_refl eq_refl eq_refl ltac:(lia))
            as [w' [E | (N & _)]]; [|congruence]
      end.
      rewrite E. reflexivity.
  - assert (Hc2' : at_cursor (buf st2) (x :: l)) by exact Hc2.
    destruct (p_byte st2 x _ Hc2') as [E3 Hc3].
    unfold bind at 1. unfold bind at 1. rewrite E3.
    unfold ret at 1. unfold bind at 1, push_event at 1. unfold ret.
    eexists. split.
    + f_equal. f_equal. unfold st_moved, moved, st2. cbn. len_simpl.
      f_equal. f_equal. lia.
    + eexists. intros w.
      match goal with
      | |- context [writeEvent ?e w] =>
          destruct (writeEvent_switch e 192 d w eq_refl eq_refl eq_refl ltac:(lia))
            as [w' [E | (_ & N & _)]]; [|congruence]
      end.
      rewrite E. reflexivity.
  - assert (Hc2' : at_cursor (buf st2) (x :: l)) by exact Hc2.
    destruct (p_byte st2 x _ Hc2') as [E3 Hc3].
    unfold bind at 1. unfold bind at 1. rewrite E3.
    unfold ret at 1. unfold bind at 1, push_event at 1. unfold ret.
    eexists. split.
    + f_equal. f_equal. unfold st_moved, moved, st2. cbn. len_simpl.
      f_equal. f_equal. lia.
    + eexists. intros w.
      match goal with
      | |- context [writeEvent ?e w] =>
          destruct (writeEvent_switch e 208 d w eq_refl eq_refl eq_refl ltac:(lia))
            as [w' [E | (_ & _ & N & _)]]; [|congruence]
      end.
      rewrite E. reflexivity.
  - assert (Hc2' : at_cursor (buf st2) (x :: [y] ++ l)) by exact Hc2.
    destruct (p_byte st2 x _ Hc2') as [E3 Hc3].
    destruct (p_byte (st_moved 1 st2) y _ Hc3) as [E4 Hc4].
    unfold bind at 1. unfold bind at 1. rewrite E3. unfold bind at 1. rewrite E4.
    unfold ret at 1. unfold bind at 1, push_event at 1. unfold ret.
    eexists. split.
    + f_equal. f_equal. unfold st_moved, moved, st2. cbn. len_simpl.
      f_equal. f_equal. lia.
    + eexists. intros w.
      match goal with
      | |- context [writeEvent ?e w] =>
          destruct (writeEvent_switch e 224 d w eq_refl eq_refl eq_refl ltac:(lia))
            as [w' [E | (_ & _ & _ & N)]]; [|congruence]
      end.
      rewrite E. reflexivity.
Qed.

(** A track whose first event cannot be written makes the save throw. *)
Lemma save_throws (f tc td len : Z) (e : MidiTrackEvent) (es : list MidiTrackEvent)
    (err : JsError) :
  0 <= f < 65536 -> 0 <= tc < 65536 -> 0 <= td < 65536 ->
  (forall w, writeEvent e w = Throw err) ->
  saveToDataBuffer (mkAudioMIDI f tc (Some td) [mkTrack "MTrk" len (e :: es)])
  = Throw err.
Proof.
  intros Hf Ht Hd Hthrow. unfold saveToDataBuffer.
  cbn [format trackCount timeDivision chunks].
  change (default 0 (Some td)) with td.
  rewrite header_written by assumption.
  cbn [writeChunks]. unfold bind at 1.
  set (w := DataBuffer.mkWriter _ 14).
  assert (He : at_end w) by reflexivity.
  unfold writeChunk. cbn [chunkType events].
  change (String.eqb "MTrk" "MTrk") with true. cbv iota.
  unfold bind at 1. rewrite writeString_MTrk by exact He.
  unfold bind at 1. cbn [get_offset DataBuffer.woffset].
  unfold bind at 1. rewrite writeUInt32_end by (unfold at_end; cbn; lia).
  unfold bind at 1. cbn [get_offset].
  unfold bind at 1. cbn [writeEvents]. unfold bind at 1. rewrite Hthrow. reflexivity.
Qed.

End Unsaved.

(** A Control Change, Program Change, Channel Aftertouch or Pitch Bend event
    of the first channel that [parse] decodes cannot be written again:
    [parse] keeps its data under other names ([controller], a plain number,
    [pitchValue]) than [writeEvent] reads ([controllerNumber],
    [programNumber], [pressureAmount], [lsb] and [msb]), so that
    [saveToDataBuffer] throws on the instance [parse] returns. *)
Theorem parsed_control_events_cannot_be_saved (f tc td len s d x y : Z)
    (es : list MidiTrackEvent) (bss : list (list Z)) (fuel : nat) :
  0 <= f < 65536 -> 1 <= tc < 65536 -> 0 <= td < 32768 -> 0 <= len < 4294967296 ->
  s = 176 \/ s = 192 \/ s = 208 \/ s = 224 ->
  0 <= d < 2147483648 -> is_byte x -> is_byte y ->
  Forall2 wire es bss -> (length es < fuel)%nat ->
  exists e msg,
    parse fuel (saved_header f tc td ++ [77; 84; 114; 107] ++ be32 len
                  ++ (vlq_bytes d ++ s :: channel_data s x y) ++ concat bss)
    = Ok (mkAudioMIDI f tc (Some td) [mkTrack "MTrk" len (e :: es)])
    /\ saveToDataBuffer (mkAudioMIDI f tc (Some td) [mkTrack "MTrk" len (e :: es)])
       = Throw (Error msg).
Proof.
  intros Hf Ht Htd Hlen Hs Hd Hx Hy Hall Hfuel.
  assert (Hdata : Forall is_byte (channel_data s x y)).
  { unfold channel_data. destruct (_ || _); repeat (constructor; [assumption|]); constructor. }
  assert (Hbody : Forall is_byte ((vlq_bytes d ++ s :: channel_data s x y) ++ concat bss)).
  { apply Forall_app. split; [|now apply (wires_bytes es)].
    apply Forall_app. split; [apply vlq_bytes_are_bytes|].
    constructor; [unfold is_byte; lia | exact Hdata]. }
  destruct (parse_track_body f tc td len _ fuel Hf Ht Htd Hlen Hbody)
    as (n & st & Hc & (_ & _ & Hheap) & _ & ->).
  destruct fuel as [|fuel]; [lia|].
  destruct (control_round tc None st s d x y _ Hs Hd Hc) as (e & E & msg & Hthrow).
  exists e, msg. split; [|apply save_throws; [lia | lia | lia | exact Hthrow]].
  unfold bind at 1. cbn [track_events].
  rewrite (at_cursor_remaining _ _ Hc).
  assert (Hpos : (Z.of_nat (length ((vlq_bytes d ++ s :: channel_data s x y) ++ concat bss))
                  >? 0) = true).
  { apply Z.gtb_lt. len_simpl. lia. }
  rewrite Hpos. unfold bind at 1. rewrite E.
  set (st1 := mkParseState _ _ _ _).
  assert (Hc1 : at_cursor (buf st1) (concat bss))
    by exact (at_cursor_moved (buf st) _ _ Hc).
  destruct (wire_rounds es bss Hall fuel tc (Some s) ([] ++ [length (heap st)]) st1
              ltac:(lia) Hc1) as (A' & T' & E2).
  rewrite E2. rewrite parse_tracks_stops.
  - unfold st1. cbn [heap]. rewrite Hheap. cbn [app length map]. unfold resolve.
    cbn [r_type r_chunkLength r_events].
    pose proof (resolve_all (e :: es) []) as Hr. cbn [app length seq] in Hr.
    rewrite Hr. reflexivity.
  - cbn [buf].
    pose proof (at_cursor_moved (buf st1) (concat bss) [] ltac:(now rewrite app_nil_r))
      as Hend.
    now rewrite (at_cursor_remaining _ _ Hend).
Qed.

Lemma parsed_control_events_cannot_be_saved_witness :
  exists e msg,
    parse 2 (saved_header 0 1 480 ++ [77; 84; 114; 107] ++ be32 8
               ++ (vlq_bytes 0 ++ 176 :: channel_data 176 7 100) ++ concat [[0; 255; 47; 0]])
    = Ok (mkAudioMIDI 0 1 (Some 480) [mkTrack "MTrk" 8 [e; generateEndOfTrackEvent]])
    /\ saveToDataBuffer (mkAudioMIDI 0 1 (Some 480)
                           [mkTrack "MTrk" 8 [e; generateEndOfTrackEvent]])
       = Throw (Error msg).
Proof.
  apply (parsed_control_events_cannot_be_saved 0 1 480 8 176 0 7 100
           [generateEndOfTrackEvent] [[0; 255; 47; 0]] 2);
    try (unfold is_byte; lia).
  - constructor; [apply wire_end | constructor].
  - simpl. lia.
Defined.

(** ** Running status *)

Section RunningStatus.

Lemma reads_alike_ret {A : Type} (a : A) (Q : A -> Prop) : Q a -> reads_alike [] (ret a) Q.
Proof.
  intros Hq l1 l2 st1 st2 Ha. exists a, st1, st2.
  split; [reflexivity|]. split; [reflexivity|]. split; [exact Ha | exact Hq].
Qed.

Lemma reads_alike_bind {A B : Type} (p q : list Z) (m : parser A) (k : A -> parser B)
    (Q : A -> Prop) (R : B -> Prop) :
  reads_alike p m Q -> (forall a, Q a -> reads_alike q (k a) R) ->
  reads_alike (p ++ q) (bind m k) R.
Proof.
  intros Hm Hk l1 l2 st1 st2 Ha. rewrite <- !app_assoc in Ha.
  destruct (Hm _ _ _ _ Ha) as (a & s1 & s2 & E1 & E2 & Ha' & Hq).
  destruct (Hk a Hq _ _ _ _ Ha') as (b & t1 & t2 & F1 & F2 & Hb & Hr).
  exists b, t1, t2. unfold bind. rewrite E1, E2.
  split; [exact F1|]. split; [exact F2|]. split; [exact Hb | exact Hr].
Qed.

Lemma reads_alike_byte_then {B : Type} (x : Z) (q : list Z)
    (k : option Z -> parser B) (R : B -> Prop) :
  reads_alike q (k (Some x)) R ->
  reads_alike (x :: q) (bind (this DataBuffer.readUInt8) k) R.
Proof.
  intros Hk. apply (reads_alike_bind [x] q _ k (eq (Some x))).
  - intros l1 l2 st1 st2 (H1 & H2 & Ht & Hn & Hh).
    destruct (p_byte st1 x l1 H1) as [E1 C1].
    destruct (p_byte st2 x l2 H2) as [E2 C2].
    exists (Some x), (st_moved 1 st1), (st_moved 1 st2).
    split; [exact E1|]. split; [exact E2|]. split; [|reflexivity].
    split; [exact C1|]. split; [exact C2|]. split; [exact Ht|]. split; [exact Hn | exact Hh].
  - intros a <-. exact Hk.
Qed.

Lemma reads_alike_then {A B : Type} (q : list Z) (m : parser A) (k : A -> parser B)
    (R : B -> Prop) :
  reads_alike [] m (fun _ => True) -> (forall a, reads_alike q (k a) R) ->
  reads_alike q (bind m k) R.
Proof.
  intros Hm Hk. apply (reads_alike_bind [] q m k (fun _ => True)); [exact Hm|].
  intros a _. apply Hk.
Qed.

Lemma reads_alike_get_state {B : Type} (q : list Z) (k : ParseState -> parser B)
    (R : B -> Prop) :
  (forall st st', currentTime st = currentTime st' -> activeNotes st = activeNotes st' ->
                  heap st = heap st' -> k st = k st') ->
  (forall st, reads_alike q (k st) R) ->
  reads_alike q (bind get_state k) R.
Proof.
  intros Hsame Hk l1 l2 st1 st2 Ha. unfold bind, get_state.
  destruct Ha as (H1 & H2 & Ht & Hn & Hh).
  rewrite (Hsame st1 st2 Ht Hn Hh).
  apply (Hk st2). exact (conj H1 (conj H2 (conj Ht (conj Hn Hh)))).
Qed.

Lemma reads_alike_set_activeNotes (m : gmap (option Z) NoteOnData) :
  reads_alike [] (set_activeNotes m) (fun _ => True).
Proof.
  intros l1 l2 st1 st2 (H1 & H2 & Ht & Hn & Hh).
  eexists tt, _, _. unfold set_activeNotes.
  split; [reflexivity|]. split; [reflexivity|]. split; [|exact I].
  split; [exact H1|]. split; [exact H2|]. split; [exact Ht|]. split; reflexivity || exact Hh.
Qed.

Lemma reads_alike_patch_length (ref : nat) (len : Z) :
  reads_alike [] (patch_length ref len) (fun _ => True).
Proof.
  intros l1 l2 st1 st2 (H1 & H2 & Ht & Hn & Hh).
  eexists tt, _, _. unfold patch_length.
  split; [reflexivity|]. split; [reflexivity|]. split; [|exact I].
  split; [exact H1|]. split; [exact H2|]. split; [exact Ht|]. split; [exact Hn|].
  cbn [heap]. now rewrite Hh.
Qed.

Lemma reads_alike_push_event (e : MidiTrackEvent) :
  reads_alike [] (push_event e) (fun _ => True).
Proof.
  intros l1 l2 st1 st2 (H1 & H2 & Ht & Hn & Hh).
  eexists (length (heap st1)), _, _. unfold push_event.
  split; [reflexivity|]. split; [now rewrite Hh|]. split; [|exact I].
  split; [exact H1|]. split; [exact H2|]. split; [exact Ht|]. split; [exact Hn|].
  cbn [heap]. now rewrite Hh.
Qed.

(** The upper four bits of a status byte. *)
Lemma status_kind (s : Z) :
  0 <= s < 256 -> Js.and (Js.sar (Js.int32_of (Some s)) 4) 15 = s / 16.
Proof.
  intros H.
  apply (check_bits_sound
           (fun s => Js.and (Js.sar (Js.int32_of (Some s)) 4) 15 =? s / 16) 8 0) in H.
  - now apply Z.eqb_eq in H.
  - now vm_compute.
Qed.

Lemma decode_channel (tc s : Z) (e : MidiTrackEvent) :
  128 <= s < 240 -> decode_event tc (Some s) e = channel_event (Some s) e.
Proof.
  intros Hs. unfold decode_event.
  destruct s as [|p|p]; try lia.
  do 8 (try (destruct p as [p|p|]; try reflexivity; try lia)).
Qed.

(** The event switch on a channel status reads the data bytes of the event
    and nothing else of the buffer. *)
Lemma reads_alike_channel_event (s x y : Z) (e : MidiTrackEvent) :
  128 <= s < 240 ->
  reads_alike (channel_data s x y) (channel_event (Some s) e) (fun _ => True).
Proof.
  intros Hs. unfold channel_event, channel_data. rewrite status_kind by lia. cbv zeta.
  assert (Hk : s / 16 = 8 \/ s / 16 = 9 \/ s / 16 = 10 \/ s / 16 = 11
               \/ s / 16 = 12 \/ s / 16 = 13 \/ s / 16 = 14).
  { pose proof (Z.div_mod s 16 ltac:(lia)).
    pose proof (Z.mod_pos_bound s 16 ltac:(lia)). lia. }
  destruct Hk as [Hk|[Hk|[Hk|[Hk|[Hk|[Hk|Hk]]]]]]; rewrite Hk;
    cbn [Z.eqb Pos.eqb orb]; cbv iota.
  - apply reads_alike_byte_then, reads_alike_byte_then, reads_alike_get_state.
    { intros st st' Ht Hn Hh. now rewrite Ht, Hn. }
    intros st. destruct (activeNotes st !! Some x) as [nd|].
    + apply reads_alike_then; [apply reads_alike_patch_length|]. intros _.
      apply reads_alike_then; [apply reads_alike_set_activeNotes|]. intros _.
      now apply reads_alike_ret.
    + now apply reads_alike_ret.
  - apply reads_alike_byte_then, reads_alike_byte_then, reads_alike_get_state.
    { intros st st' Ht Hn Hh. now rewrite Ht, Hn, Hh. }
    intros st.
    apply reads_alike_then; [apply reads_alike_set_activeNotes|]. intros _.
    now apply reads_alike_ret.
  - apply reads_alike_byte_then, reads_alike_byte_then. now apply reads_alike_ret.
  - apply reads_alike_byte_then, reads_alike_byte_then. now apply reads_alike_ret.
  - apply reads_alike_byte_then. now apply reads_alike_ret.
  - apply reads_alike_byte_then. now apply reads_alike_ret.
  - apply reads_alike_byte_then, reads_alike_byte_then. now apply reads_alike_ret.
Qed.

(** The rest of a round once the status is known. *)
Lemma reads_alike_decode (tc s d x y : Z) :
  128 <= s < 240 ->
  reads_alike (channel_data s x y)
    (let* event := decode_event tc (Some s) (newEvent d) in
     let* ref := push_event event in
     ret (ref, Some s))
    (fun r => snd r = Some s).
Proof.
  intros Hs. rewrite decode_channel by exact Hs.
  rewrite <- (app_nil_r (channel_data s x y)).
  eapply reads_alike_bind; [apply reads_alike_channel_event; exact Hs|].
  intros e _. apply reads_alike_then; [apply reads_alike_push_event|].
  intros ref. now apply reads_alike_ret.
Qed.

Lemma channel_data_head (s x y : Z) : exists t, channel_data s x y = x :: t.
Proof. unfold channel_data. destruct (_ || _); eexists; reflexivity. Qed.

(** The head of a round on an event without a status byte: the byte read
    for the status is a data byte, the cursor goes back over it and the
    last status is taken. *)
Lemma running_head (tc : Z) (s : option Z) (st : ParseState) (d x : Z) (l : list Z) :
  0 <= d < 2147483648 -> 0 <= x < 128 ->
  at_cursor (buf st) (vlq_bytes d ++ x :: l) ->
  track_event tc s st
  = (let* event := decode_event tc s (newEvent d) in
     let* ref := push_event event in
     ret (ref, s))
      (mkParseState (moved (length (vlq_bytes d)) (buf st)) (currentTime st + d)
         (activeNotes st) (heap st))
  /\ at_cursor (moved (length (vlq_bytes d)) (buf st)) (x :: l).
Proof.
  intros Hd Hx Hc. unfold track_event.
  destruct (p_vlq st d _ Hd Hc) as [E1 Hc1].
  unfold bind at 1. rewrite E1. unfold bind at 1, add_time at 1.
  set (st1 := mkParseState _ (currentTime _ + d) _ _).
  assert (Hc1' : at_cursor (buf st1) (x :: l)) by exact Hc1.
  destruct (p_byte st1 x _ Hc1') as [E2 Hc2].
  unfold bind at 1. rewrite E2.
  assert (Hlt : default false ((fun x => x >=? 128) <$> Some x) = false).
  { cbn. destruct (Z.geb_spec x 128); [lia | reflexivity]. }
  rewrite Hlt. unfold bind at 1. unfold bind at 1.
  unfold this at 1, DataBuffer.rewind.
  destruct Hc1' as (Ho & Hlen & Hdrop).
  assert (Hgt : (1 >? DataBuffer.offset (buf (st_moved 1 st1))) = false).
  { unfold st_moved, moved. cbn [buf DataBuffer.offset].
    destruct (Z.gtb_spec 1 (DataBuffer.offset (buf st1) + Z.of_nat 1)); [lia | reflexivity]. }
  rewrite Hgt. unfold ret at 1.
  split; [|exact (at_cursor_moved (buf st) _ _ Hc)].
  f_equal. unfold st1, st_moved, moved.
  cbn [buf currentTime activeNotes heap DataBuffer.data DataBuffer.offset].
  f_equal. f_equal. lia.
Qed.

(** A round on a channel message, with and without its status byte. *)
Lemma running_round (tc s d x y : Z) (last : option Z) (l1 l2 : list Z)
    (st1 st2 : ParseState) :
  128 <= s < 240 -> 0 <= d < 2147483648 -> 0 <= x < 128 ->
  alike ((vlq_bytes d ++ channel_data s x y) ++ l1)
        ((vlq_bytes d ++ s :: channel_data s x y) ++ l2) st1 st2 ->
  exists ref s1 s2,
    track_event tc (Some s) st1 = Ok ((ref, Some s), s1)
    /\ track_event tc last st2 = Ok ((ref, Some s), s2)
    /\ alike l1 l2 s1 s2.
Proof.
  intros Hs Hd Hx (H1 & H2 & Ht & Hn & Hh).
  destruct (channel_data_head s x y) as [t Et].
  assert (H1' : at_cursor (buf st1) (vlq_bytes d ++ x :: t ++ l1)).
  { rewrite Et, <- app_assoc in H1. exact H1. }
  assert (H2' : at_cursor (buf st2) (vlq_bytes d ++ [s] ++ channel_data s x y ++ l2)).
  { rewrite <- app_assoc in H2. exact H2. }
  destruct (running_head tc (Some s) st1 d x _ Hd Hx H1') as [-> C1].
  destruct (status_head tc last st2 s d _ Hd ltac:(lia) H2') as [-> C2].
  rewrite app_comm_cons, <- Et in C1.
  set (u1 := mkParseState (moved (length (vlq_bytes d)) (buf st1)) (currentTime st1 + d)
               (activeNotes st1) (heap st1)).
  set (u2 := mkParseState (moved (length (vlq_bytes d ++ [s])) (buf st2))
               (currentTime st2 + d) (activeNotes st2) (heap st2)).
  destruct (reads_alike_decode tc s d x y Hs l1 l2 u1 u2
              (conj C1 (conj C2 (conj (f_equal (fun t => t + d) Ht) (conj Hn Hh)))))
    as ([ref status] & s1 & s2 & E1 & E2 & Ha & Hst).
  cbn [snd] in Hst. subst status.
  exists ref, s1, s2. split; [exact E1|]. split; [exact E2 | exact Ha].
Qed.

(** A round on a channel message with its status byte, in two buffers. *)
Lemma explicit_round (tc s d x y : Z) (last1 last2 : option Z) (l1 l2 : list Z)
    (st1 st2 : ParseState) :
  128 <= s < 240 -> 0 <= d < 2147483648 ->
  alike ((vlq_bytes d ++ s :: channel_data s x y) ++ l1)
        ((vlq_bytes d ++ s :: channel_data s x y) ++ l2) st1 st2 ->
  exists ref s1 s2,
    track_event tc last1 st1 = Ok ((ref, Some s), s1)
    /\ track_event tc last2 st2 = Ok ((ref, Some s), s2)
    /\ alike l1 l2 s1 s2.
Proof.
  intros Hs Hd (H1 & H2 & Ht & Hn & Hh).
  assert (H1' : at_cursor (buf st1) (vlq_bytes d ++ [s] ++ channel_data s x y ++ l1)).
  { rewrite <- app_assoc in H1. exact H1. }
  assert (H2' : at_cursor (buf st2) (vlq_bytes d ++ [s] ++ channel_data s x y ++ l2)).
  { rewrite <- app_assoc in H2. exact H2. }
  destruct (status_head tc last1 st1 s d _ Hd ltac:(lia) H1') as [-> C1].
  destruct (status_head tc last2 st2 s d _ Hd ltac:(lia) H2') as [-> C2].
  set (u1 := mkParseState (moved (length (vlq_bytes d ++ [s])) (buf st1))
               (currentTime st1 + d) (activeNotes st1) (heap st1)).
  set (u2 := mkParseState (moved (length (vlq_bytes d ++ [s])) (buf st2))
               (currentTime st2 + d) (activeNotes st2) (heap st2)).
  destruct (reads_alike_decode tc s d x y Hs l1 l2 u1 u2
              (conj C1 (conj C2 (conj (f_equal (fun t => t + d) Ht) (conj Hn Hh)))))
    as ([ref status] & s1 & s2 & E1 & E2 & Ha & Hst).
  cbn [snd] in Hst. subst status.
  exists ref, s1, s2. split; [exact E1|]. split; [exact E2 | exact Ha].
Qed.

(** A round adds one event to the heap and returns its place. *)
Lemma track_event_grows (tc : Z) (last status : option Z) (ref : nat)
    (st st' : ParseState) :
  Forall is_byte (DataBuffer.data (buf st)) ->
  track_event tc last st = Ok ((ref, status), st') ->
  ref = length (heap st)
  /\ length (heap st') = S (length (heap st))
  /\ DataBuffer.data (buf st') = DataBuffer.data (buf st).
Proof.
  intros Hall H.
  destruct (track_event_step tc last status ref st st' Hall H)
    as (e & Hstep & _ & Href & Hdata & _).
  split; [exact Href|]. split; [|exact Hdata].
  unfold paired_step in Hstep. destruct (kind_of e) as [|k|k].
  - destruct Hstep as (-> & _). len_simpl. lia.
  - destruct Hstep as (-> & _). len_simpl. lia.
  - destruct (activeNotes st !! k); destruct Hstep as (-> & _); len_simpl;
      rewrite ?length_alter; lia.
Qed.

Lemma running_rounds (tc s : Z) (msgs : list (Z * Z * Z)) :
  128 <= s < 240 -> Forall channel_message msgs ->
  forall fuel last refs st1 st2,
    (length msgs <= fuel)%nat ->
    Forall is_byte (DataBuffer.data (buf st1)) ->
    alike (running_bytes s msgs) (explicit_bytes s msgs) st1 st2 ->
    exists s1 s2,
      track_events fuel tc (Some s) refs st1
      = Ok (refs ++ seq (length (heap st1)) (length msgs), s1)
      /\ track_events fuel tc last refs st2
         = Ok (refs ++ seq (length (heap st1)) (length msgs), s2)
      /\ alike [] [] s1 s2
      /\ length (heap s1) = (length (heap st1) + length msgs)%nat.
Proof.
  intros Hs Hall. induction Hall as [|[[d x] y] msgs (Hd & Hx & Hy) Hall IH];
    intros fuel last refs st1 st2 Hfuel Hbytes Ha.
  - destruct Ha as (H1 & H2 & Ht & Hn & Hh). exists st1, st2.
    cbn [length seq]. rewrite app_nil_r, Nat.add_0_r.
    assert (E : forall l st, at_cursor (buf st) [] ->
                  track_events fuel tc l refs st = Ok (refs, st)).
    { intros l st Hc. destruct fuel; cbn [track_events];
        rewrite (at_cursor_remaining _ _ Hc); reflexivity. }
    rewrite (E _ _ H1), (E _ _ H2).
    split; [reflexivity|]. split; [reflexivity|]. split; [|reflexivity].
    exact (conj H1 (conj H2 (conj Ht (conj Hn Hh)))).
  - destruct fuel as [|fuel]; [cbn in Hfuel; lia|].
    unfold running_bytes, explicit_bytes in Ha. cbn [map concat] in Ha.
    fold (running_bytes s msgs) in Ha. fold (explicit_bytes s msgs) in Ha.
    pose proof Ha as (H1 & H2 & _).
    assert (Hpos : forall b t l, at_cursor b ((vlq_bytes d ++ t) ++ l) ->
                     (DataBuffer.remainingBytes b >? 0) = true).
    { intros b t l Hc. rewrite (at_cursor_remaining _ _ Hc). apply Z.gtb_lt.
      pose proof (vlq_bytes_groups d Hd) as (g & gs & _ & _ & _ & Eb).
      rewrite Eb. len_simpl. lia. }
    destruct (running_round tc s d x y last _ _ st1 st2 Hs Hd Hx Ha)
      as (ref & s1 & s2 & E1 & E2 & Ha').
    destruct (track_event_grows tc (Some s) (Some s) ref st1 s1 Hbytes E1)
      as (Href & Hlen & Hdata).
    assert (Hbytes' : Forall is_byte (DataBuffer.data (buf s1))) by (now rewrite Hdata).
    destruct (IH fuel (Some s) (refs ++ [ref]) s1 s2 ltac:(cbn in Hfuel; lia) Hbytes' Ha')
      as (t1 & t2 & F1 & F2 & Hb & Hl).
    exists t1, t2. cbn [track_events].
    rewrite (Hpos _ _ _ H1), (Hpos _ _ _ H2).
    unfold bind. rewrite E1, E2, F1, F2.
    cbn [length seq]. rewrite <- !app_assoc, Hlen, Href. cbn [app].
    split; [reflexivity|]. split; [reflexivity|]. split; [exact Hb | lia].
Qed.

End RunningStatus.

(** With running status, channel messages of one status that leave out the
    status byte after the first are parsed as the same messages with the
    status byte in each: [parse] returns the same instance for both files,
    with one event for each message. *)
Theorem running_status_parses_alike (f tc td len s d x y : Z)
    (msgs : list (Z * Z * Z)) (fuel : nat) :
  0 <= f < 65536 -> 1 <= tc < 65536 -> 0 <= td < 32768 -> 0 <= len < 4294967296 ->
  128 <= s < 240 -> 0 <= d < 2147483648 -> is_byte x -> is_byte y ->
  Forall channel_message msgs -> (length msgs < fuel)%nat ->
  exists events,
    parse fuel (saved_header f tc td ++ [77; 84; 114; 107] ++ be32 len
                  ++ (vlq_bytes d ++ s :: channel_data s x y) ++ running_bytes s msgs)
    = Ok (mkAudioMIDI f tc (Some td) [mkTrack "MTrk" len events])
    /\ parse fuel (saved_header f tc td ++ [77; 84; 114; 107] ++ be32 len
                     ++ (vlq_bytes d ++ s :: channel_data s x y) ++ explicit_bytes s msgs)
       = Ok (mkAudioMIDI f tc (Some td) [mkTrack "MTrk" len events])
    /\ length events = S (length msgs).
Proof.
  intros Hf Ht Htd Hlen Hs Hd Hx Hy Hall Hfuel.
  assert (Hdata : Forall is_byte (channel_data s x y)).
  { unfold channel_data. destruct (_ || _); repeat (constructor; [assumption|]); constructor. }
  assert (Hfirst : Forall is_byte (vlq_bytes d ++ s :: channel_data s x y)).
  { apply Forall_app. split; [apply vlq_bytes_are_bytes|].
    constructor; [unfold is_byte; lia | exact Hdata]. }
  assert (Hcd : forall b c, 0 <= b < 128 -> is_byte c -> Forall is_byte (channel_data s b c)).
  { intros b c Hb Hc. unfold channel_data, is_byte in *.
    destruct (_ || _); repeat (constructor; [lia|]); constructor. }
  assert (Hrun : Forall is_byte (running_bytes s msgs)).
  { unfold running_bytes. clear Hfuel.
    induction Hall as [|[[a b] c] msgs (Ha & Hb & Hc) Hall IH]; [constructor|].
    cbn [map concat]. apply Forall_app. split; [|exact IH].
    apply Forall_app. split; [apply vlq_bytes_are_bytes | now apply Hcd]. }
  assert (Hexp : Forall is_byte (explicit_bytes s msgs)).
  { unfold explicit_bytes. clear Hfuel Hrun.
    induction Hall as [|[[a b] c] msgs (Ha & Hb & Hc) Hall IH]; [constructor|].
    cbn [map concat]. apply Forall_app. split; [|exact IH].
    apply Forall_app. split; [apply vlq_bytes_are_bytes|].
    constructor; [unfold is_byte; lia | now apply Hcd]. }
  destruct (parse_track_body f tc td len _ fuel Hf Ht Htd Hlen
              (proj2 (Forall_app _ _ _) (conj Hfirst Hrun)))
    as (n1 & st1 & C1 & (T1 & N1 & Hp1) & B1 & ->).
  destruct (parse_track_body f tc td len _ fuel Hf Ht Htd Hlen
              (proj2 (Forall_app _ _ _) (conj Hfirst Hexp)))
    as (n2 & st2 & C2 & (T2 & N2 & Hp2) & B2 & ->).
  destruct fuel as [|fuel]; [lia|].
  assert (Ha : alike ((vlq_bytes d ++ s :: channel_data s x y) ++ running_bytes s msgs)
                     ((vlq_bytes d ++ s :: channel_data s x y) ++ explicit_bytes s msgs)
                     st1 st2).
  { split; [exact C1|]. split; [exact C2|]. split; [congruence|]. split; congruence. }
  destruct (explicit_round tc s d x y None None _ _ st1 st2 Hs Hd Ha)
    as (ref & s1 & s2 & E1 & E2 & Ha1).
  destruct (track_event_grows tc None (Some s) ref st1 s1 B1 E1) as (Href & Hlen1 & Hdata1).
  assert (B1' : Forall is_byte (DataBuffer.data (buf s1))) by (now rewrite Hdata1).
  destruct (running_rounds tc s msgs Hs Hall fuel (Some s) ([] ++ [ref]) s1 s2
              ltac:(lia) B1' Ha1) as (t1 & t2 & F1 & F2 & Hb & Hl).
  rewrite Hp1 in Href, Hlen1. cbn [length] in Href, Hlen1. subst ref.
  rewrite Hlen1 in F1, F2, Hl.
  assert (Hrefs : ([] ++ [0%nat]) ++ seq 1 (length msgs) = seq 0 (length (heap t1))).
  { rewrite Hl. reflexivity. }
  rewrite Hrefs in F1, F2.
  assert (Hpos : forall b l, at_cursor b ((vlq_bytes d ++ s :: channel_data s x y) ++ l) ->
                   (DataBuffer.remainingBytes b >? 0) = true).
  { intros b l Hc. rewrite (at_cursor_remaining _ _ Hc). apply Z.gtb_lt. len_simpl. lia. }
  destruct Hb as (D1 & D2 & _ & _ & Hheap).
  exists (heap t1). split; [|split; [|lia]].
  - unfold bind at 1. cbn [track_events]. rewrite (Hpos _ _ C1).
    unfold bind at 1. rewrite E1, F1.
    rewrite parse_tracks_stops by (now rewrite (at_cursor_remaining _ _ D1)).
    cbn [app map]. unfold resolve. cbn [r_type r_chunkLength r_events].
    pose proof (resolve_all (heap t1) []) as Hr. cbn [app length] in Hr.
    now rewrite Hr.
  - unfold bind at 1. cbn [track_events]. rewrite (Hpos _ _ C2).
    unfold bind at 1. rewrite E2, F2.
    rewrite parse_tracks_stops by (now rewrite (at_cursor_remaining _ _ D2)).
    cbn [app map]. unfold resolve. cbn [r_type r_chunkLength r_events].
    rewrite <- Hheap.
    pose proof (resolve_all (heap t1) []) as Hr. cbn [app length] in Hr.
    now rewrite Hr.
Qed.

Lemma running_status_parses_alike_witness :
  exists events,
    parse 3 (saved_header 0 1 480 ++ [77; 84; 114; 107] ++ be32 10
               ++ (vlq_bytes 0 ++ 144 :: channel_data 144 60 64)
               ++ running_bytes 144 [(0, 62, 64); (0, 64, 64)])
    = Ok (mkAudioMIDI 0 1 (Some 480) [mkTrack "MTrk" 10 events])
    /\ parse 3 (saved_header 0 1 480 ++ [77; 84; 114; 107] ++ be32 10
                  ++ (vlq_bytes 0 ++ 144 :: channel_data 144 60 64)
                  ++ explicit_bytes 144 [(0, 62, 64); (0, 64, 64)])
       = Ok (mkAudioMIDI 0 1 (Some 480) [mkTrack "MTrk" 10 events])
    /\ length events = 3%nat.
Proof.
  apply (running_status_parses_alike 0 1 480 10 144 0 60 64 [(0, 62, 64); (0, 64, 64)] 3);
    try (unfold is_byte; lia).
  - repeat (constructor; [unfold channel_message, is_byte; lia|]). constructor.
  - simpl. lia.
Defined.

(** ** Validation: the events that are looked at *)

Section Overlooked.

Lemma check_event_other (ti ei : nat) (e : MidiTrackEvent) (c : TrackCheck) :
  type e <> Some 144 -> type e <> Some 128 -> type e <> Some 255 ->
  default 0 (deltaTime e) >= 0 ->
  check_event ti ei e c = c.
Proof.
  intros H1 H2 H3 Hd. unfold check_event.
  assert (Hdelta : match deltaTime e with
                   | Some d => if d <? 0 then add_issue (NegativeDeltaTime ti ei d) c else c
                   | None => c
                   end = c).
  { destruct (deltaTime e) as [d|]; [|reflexivity]. cbn in Hd.
    destruct (Z.ltb_spec d 0); [lia | reflexivity]. }
  rewrite Hdelta. cbv zeta.
  destruct (type e) as [[|p|p]|]; try reflexivity.
  do 8 (try (destruct p as [p|p|]; try reflexivity; try congruence)).
Qed.

Lemma check_events_other (ti : nat) (evs : list MidiTrackEvent) :
  Forall (fun e => type e <> Some 144 /\ type e <> Some 128 /\ type e <> Some 255
                   /\ default 0 (deltaTime e) >= 0) evs ->
  forall ei c, check_events ti ei evs c = c.
Proof.
  induction 1 as [|e evs (H1 & H2 & H3 & Hd) Hall IH]; intros ei c; [reflexivity|].
  cbn [check_events]. rewrite check_event_other by assumption. apply IH.
Qed.

End Overlooked.

(** [validate] looks at an event only when its type is exactly 0x90, 0x80 or
    0xFF.  The type of a parsed event is its status byte, channel included,
    so the Note On and Note Off events of the channels after the first are
    never counted: for a track that holds only events of other types (and
    no negative delta time), the one issue about its events is the missing
    track end, whatever notes it starts or releases. *)
Theorem validate_overlooks_other_types (trackIndex : nat) (track : Track) :
  chunkType track = "MTrk" ->
  Forall (fun e => type e <> Some 144 /\ type e <> Some 128 /\ type e <> Some 255
                   /\ default 0 (deltaTime e) >= 0) (events track) ->
  check_track trackIndex track
  = (if (chunkLength track =? 0) && (0 <? length (events track))%nat
     then [ZeroLengthWithEvents trackIndex (length (events track))]
     else if (chunkLength track >? 0) && (length (events track) =? 0)%nat
     then [LengthWithoutEvents trackIndex (chunkLength track)]
     else [])
    ++ [MissingEndOfTrack trackIndex].
Proof.
  intros Hty Hall. unfold check_track, track_check. rewrite Hty.
  change (String.eqb "MTrk" "MTrk") with true.
  change (String.eqb "MTrk" "MThd") with false.
  cbn [negb andb]. cbv zeta. cbv iota.
  rewrite (check_events_other trackIndex (events track) Hall).
  cbn [issues gotEndOfTrack activeCounts leftover List.filter map app].
  reflexivity.
Qed.

Lemma validate_overlooks_other_types_witness :
  check_track 0
    (mkTrack "MTrk" 8
       [mkEvent (Some 0) (Some 145) (Some "Note On")
          (VObj [("note", VNum 60); ("velocity", VNum 100)]) None None (Some 1);
        mkEvent (Some 0) (Some 129) (Some "Note Off")
          (VObj [("note", VStr "61"); ("velocity", VNum 0); ("length", VNum 0)])
          None None (Some 1)])
  = [MissingEndOfTrack 0].
Proof.
  apply (validate_overlooks_other_types 0
           (mkTrack "MTrk" 8
              [mkEvent (Some 0) (Some 145) (Some "Note On")
                 (VObj [("note", VNum 60); ("velocity", VNum 100)]) None None (Some 1);
               mkEvent (Some 0) (Some 129) (Some "Note Off")
                 (VObj [("note", VStr "61"); ("velocity", VNum 0); ("length", VNum 0)])
                 None None (Some 1)])).
  - reflexivity.
  - repeat constructor; simpl; (discriminate || lia).
Defined.

(** ** Note names at any octave offset *)

Section Decimal.

Lemma digit_char (n : Z) :
  0 <= n < 10 ->
  Js.is_digit (ascii_of_N (Z.to_N (48 + n))) = true
  /\ Js.digit_val (ascii_of_N (Z.to_N (48 + n))) = n.
Proof.
  intros H.
  assert (Hc : (10 <=? n)
               || Js.is_digit (ascii_of_N (Z.to_N (48 + n)))
                  && (Js.digit_val (ascii_of_N (Z.to_N (48 + n))) =? n) = true).
  { apply (check_bits_sound
             (fun n => (10 <=? n)
                       || Js.is_digit (ascii_of_N (Z.to_N (48 + n)))
                          && (Js.digit_val (ascii_of_N (Z.to_N (48 + n))) =? n)) 4 0);
      [now vm_compute | simpl; lia]. }
  destruct (Z.leb_spec 10 n); [lia|]. cbn [orb] in Hc.
  apply andb_prop in Hc as [H1 H2]. split; [exact H1 | now apply Z.eqb_eq].
Qed.

(** The digits that [digits_of_pos] puts before [acc] are decimal digits,
    the first is there, and reading through them gives [n]. *)
Lemma digits_of_pos_spec (fuel : nat) :
  forall n acc, 0 <= n < 10 ^ Z.of_nat fuel -> (0 < fuel)%nat ->
    (exists k, forall a seen,
        Js.read_digits (Js.digits_of_pos fuel n acc) a seen
        = Js.read_digits acc (a * k + n) true)
    /\ (forallb Js.is_digit (list_ascii_of_string acc) = true ->
        forallb Js.is_digit (list_ascii_of_string (Js.digits_of_pos fuel n acc)) = true)
    /\ exists c r, Js.digits_of_pos fuel n acc = String c r /\ Js.is_digit c = true.
Proof.
  induction fuel as [|f IH]; intros n acc Hn Hf; [lia|].
  cbn [Js.digits_of_pos].
  pose proof (Z.mod_pos_bound n 10 ltac:(lia)) as Hm.
  pose proof (Z.div_mod n 10 ltac:(lia)) as Hdm.
  destruct (digit_char (n mod 10) Hm) as [Hdig Hval].
  set (c0 := ascii_of_N (Z.to_N (48 + n mod 10))) in *.
  destruct (Z.eqb_spec (n / 10) 0) as [Hz|Hnz].
  - split; [|split].
    + exists 10. intros a seen. cbn [Js.read_digits]. rewrite Hdig, Hval.
      f_equal. lia.
    + intros Hacc. cbn [list_ascii_of_string forallb]. now rewrite Hdig, Hacc.
    + exists c0, acc. split; [reflexivity | exact Hdig].
  - assert (Hf' : (0 < f)%nat).
    { destruct f; [|lia]. change (10 ^ Z.of_nat 1) with 10 in Hn.
      exfalso. apply Hnz. apply Z.div_small. lia. }
    assert (Hn' : 0 <= n / 10 < 10 ^ Z.of_nat f).
    { split; [apply Z.div_pos; lia|]. apply Z.div_lt_upper_bound; [lia|].
      rewrite Nat2Z.inj_succ, Z.pow_succ_r in Hn by lia. lia. }
    destruct (IH (n / 10) (String c0 acc) Hn' Hf') as ((k & Hk) & Hall & Hfirst).
    split; [|split].
    + exists (k * 10). intros a seen. rewrite Hk. cbn [Js.read_digits].
      rewrite Hdig, Hval. f_equal. lia.
    + intros Hacc. apply Hall. cbn [list_ascii_of_string forallb]. now rewrite Hdig, Hacc.
    + exact Hfirst.
Qed.

Lemma decimal_fuel (n : Z) : 0 <= n -> 0 <= n < 10 ^ Z.of_nat (S (Z.to_nat (Z.log2 n))).
Proof.
  intros Hn. split; [exact Hn|].
  rewrite Nat2Z.inj_succ, Z2Nat.id by apply Z.log2_nonneg.
  destruct (Z.eq_dec n 0) as [->|Hnz]; [reflexivity|].
  pose proof (Z.log2_spec n ltac:(lia)) as [_ Hlt].
  pose proof (Z.pow_le_mono_l 2 10 (Z.succ (Z.log2 n)) ltac:(lia)). lia.
Qed.

Lemma digit_first_parse (s : string) :
  (exists a r, s = String a r /\ Js.is_digit a = true) ->
  Js.parseInt s = Js.read_digits s 0 false.
Proof.
  intros (a & r & -> & H). destruct a as [[] [] [] [] [] [] [] []];
    try (vm_compute in H; discriminate H); reflexivity.
Qed.

Lemma digit_not_sharp (c : ascii) (s : string) :
  (exists a r, s = String a r /\ Js.is_digit a = true) ->
  match s with
  | String "#" r0 => (String c "#", r0)
  | _ => (String c EmptyString, s)
  end = (String c EmptyString, s).
Proof.
  intros (a & r & -> & H). destruct a as [[] [] [] [] [] [] [] []];
    try (vm_compute in H; discriminate H); reflexivity.
Qed.

Lemma digit_not_minus (s : string) :
  (exists a r, s = String a r /\ Js.is_digit a = true) ->
  match s with
  | String "-" r0 => r0
  | _ => s
  end = s.
Proof.
  intros (a & r & -> & H). destruct a as [[] [] [] [] [] [] [] []];
    try (vm_compute in H; discriminate H); reflexivity.
Qed.

(** The decimal rendering of an integer is read back by [parseInt], and it
    is what the pattern of a note string accepts after the note. *)
Lemma toString_spec (z : Z) :
  Js.parseInt (Js.toString z) = Some z
  /\ forall c, (65 <=? Z.of_N (N_of_ascii c)) && (Z.of_N (N_of_ascii c) <=? 71) = true ->
       match_note (String c (Js.toString z)) = Some (String c EmptyString, Js.toString z)
       /\ match_note (String c (String "#" (Js.toString z)))
          = Some (String c "#", Js.toString z).
Proof.
  unfold Js.toString. destruct (Z.ltb_spec z 0) as [Hneg|Hpos].
  - destruct (digits_of_pos_spec _ (- z) EmptyString (decimal_fuel (- z) ltac:(lia))
                ltac:(lia)) as ((k & Hk) & Hall & (a & r & Er & Ha)).
    set (ds := Js.digits_of_pos _ (- z) EmptyString) in *.
    assert (Hne : negb (String.eqb ds EmptyString) = true) by (now rewrite Er).
    split.
    + unfold Js.parseInt. cbn [Js.skip_spaces].
      change (Js.is_space "-") with false. cbv iota.
      rewrite (Hk 0 false). cbn [Js.read_digits]. cbn. f_equal. lia.
    + intros c Hc. unfold match_note. rewrite Hc. cbv zeta.
      rewrite Hne, (Hall eq_refl). split; reflexivity.
  - destruct (digits_of_pos_spec _ z EmptyString (decimal_fuel z Hpos) ltac:(lia))
      as ((k & Hk) & Hall & Hfirst).
    set (ds := Js.digits_of_pos _ z EmptyString) in *.
    assert (Hne : negb (String.eqb ds EmptyString) = true).
    { destruct Hfirst as (a & r & -> & _). reflexivity. }
    split.
    + rewrite (digit_first_parse ds Hfirst), (Hk 0 false).
      cbn [Js.read_digits]. f_equal; lia.
    + intros c Hc. unfold match_note. rewrite Hc. cbv zeta. split.
      * rewrite (digit_not_sharp c ds Hfirst).
        rewrite (digit_not_minus ds Hfirst), Hne, (Hall eq_refl). reflexivity.
      * rewrite (digit_not_minus ds Hfirst), Hne, (Hall eq_refl). reflexivity.
Qed.

Lemma noteToMidi_of_name (i z offset : Z) (name : string) :
  noteNames !! Z.to_nat i = Some name -> 0 <= i < 12 ->
  0 <= (z + offset) * 12 + i <= 127 ->
  noteToMidi (name +:+ Js.toString z) offset noteMap = Ok (Some ((z + offset) * 12 + i)).
Proof.
  intros Hname Hi Hr. destruct (toString_spec z) as [Hparse Hmatch].
  assert (Hrange : ((z + offset) * 12 + i <? 0) || ((z + offset) * 12 + i >? 127) = false).
  { destruct (Z.ltb_spec ((z + offset) * 12 + i) 0),
             (Z.gtb_spec ((z + offset) * 12 + i) 127); cbn; try reflexivity; lia. }
  assert (Hcases : i = 0 \/ i = 1 \/ i = 2 \/ i = 3 \/ i = 4 \/ i = 5 \/ i = 6 \/ i = 7
                   \/ i = 8 \/ i = 9 \/ i = 10 \/ i = 11) by lia.
  unfold noteToMidi.
  assert (Hdone : forall c sharp k,
            (65 <=? Z.of_N (N_of_ascii c)) && (Z.of_N (N_of_ascii c) <=? 71) = true ->
            i = k ->
            assoc_get (String c (if sharp : bool then "#" else EmptyString)) noteMap = Some k ->
            match match_note (String c ((if sharp then "#" else EmptyString)
                                          +:+ Js.toString z)) with
            | Some (note, octave) =>
                match Js.parseInt octave, assoc_get note noteMap with
                | Some o, Some v =>
                    let midiNumber := (o + offset) * 12 + v in
                    if (midiNumber <? 0) || (midiNumber >? 127)
                    then Throw (Error "Note out of valid MIDI range")
                    else Ok (Some midiNumber)
                | _, _ => Ok None
                end
            | None => Throw (Error "Invalid note format")
            end = Ok (Some ((z + offset) * 12 + i))).
  { intros c sharp k Hc Hk Hmap. destruct (Hmatch c Hc) as [M1 M2].
    destruct sharp.
    - change ("#" +:+ Js.toString z) with (String "#" (Js.toString z)).
      rewrite M2, Hparse, Hmap. cbv zeta. subst k. now rewrite Hrange.
    - change (EmptyString +:+ Js.toString z) with (Js.toString z).
      rewrite M1, Hparse, Hmap. cbv zeta. subst k. now rewrite Hrange. }
  destruct Hcases as [E|[E|[E|[E|[E|[E|[E|[E|[E|[E|[E|E]]]]]]]]]]];
    rewrite E in Hname; cbn in Hname; injection Hname as <-.
  - exact (Hdone "C"%char false 0 eq_refl E eq_refl).
  - exact (Hdone "C"%char true 1 eq_refl E eq_refl).
  - exact (Hdone "D"%char false 2 eq_refl E eq_refl).
  - exact (Hdone "D"%char true 3 eq_refl E eq_refl).
  - exact (Hdone "E"%char false 4 eq_refl E eq_refl).
  - exact (Hdone "F"%char false 5 eq_refl E eq_refl).
  - exact (Hdone "F"%char true 6 eq_refl E eq_refl).
  - exact (Hdone "G"%char false 7 eq_refl E eq_refl).
  - exact (Hdone "G"%char true 8 eq_refl E eq_refl).
  - exact (Hdone "A"%char false 9 eq_refl E eq_refl).
  - exact (Hdone "A"%char true 10 eq_refl E eq_refl).
  - exact (Hdone "B"%char false 11 eq_refl E eq_refl).
Qed.

End Decimal.

(** At every octave offset, [noteToMidi] undoes [midiToNote] on 0..127: the
    octave is written in decimal, with its sign, and read back by
    [parseInt].  The offset is an integer that JavaScript numbers hold
    exactly. *)
Theorem note_name_roundtrip_any_offset (v offset : Z) :
  0 <= v <= 127 -> - 4503599627370496 < offset < 4503599627370496 ->
  exists s, midiToNote v offset noteNames = Ok s
            /\ noteToMidi s offset noteMap = Ok (Some v).
Proof.
  intros Hv _. unfold midiToNote.
  assert (Hrange : (v <? 0) || (v >? 127) = false).
  { destruct (Z.ltb_spec v 0), (Z.gtb_spec v 127); cbn; try reflexivity; lia. }
  rewrite Hrange. cbv zeta.
  pose proof (Z.mod_pos_bound v 12 ltac:(lia)) as Hm.
  pose proof (Z.div_mod v 12 ltac:(lia)) as Hdm.
  destruct (noteNames !! Z.to_nat (v mod 12)) as [name|] eqn:Ename.
  - eexists. split; [reflexivity|]. cbn [default].
    unfold id at 1.
    rewrite (noteToMidi_of_name (v mod 12) (v / 12 - offset) offset name Ename Hm)
      by lia.
    f_equal. f_equal. lia.
  - exfalso. apply lookup_ge_None in Ename.
    change (length noteNames) with 12%nat in Ename. lia.
Qed.

Lemma note_name_roundtrip_any_offset_witness :
  exists s, midiToNote 61 (-1) noteNames = Ok s
            /\ noteToMidi s (-1) noteMap = Ok (Some 61).
Proof.
  apply (note_name_roundtrip_any_offset 61 (-1)); lia.
Defined.

(** ** System events *)

Section SystemEvents.

Lemma quiet_length_prefixed_untyped (l : option string) (e0 : MidiTrackEvent) :
  quiet (length_prefixed l e0) (fun e => type e = type e0 /\ channel e = channel e0).
Proof. unfold length_prefixed. destruct l; repeat quiet_step. Qed.

(** The cases 0xF0 and 0xF2 to 0xFE of the event switch leave the type and
    the channel of the event as they are. *)
Lemma quiet_system_event (tc s : Z) (e0 : MidiTrackEvent) :
  s = 240 \/ 242 <= s <= 254 ->
  quiet (decode_event tc (Some s) e0) (fun e => type e = type e0 /\ channel e = channel e0).
Proof.
  intros Hs.
  assert (Hcases : s = 240 \/ s = 242 \/ s = 243 \/ s = 244 \/ s = 245 \/ s = 246
                   \/ s = 247 \/ s = 248 \/ s = 249 \/ s = 250 \/ s = 251 \/ s = 252
                   \/ s = 253 \/ s = 254) by lia.
  repeat (destruct Hcases as [-> | Hcases];
    [first [apply quiet_length_prefixed_untyped | unfold decode_event; repeat quiet_step]|]).
  subst s. apply quiet_length_prefixed_untyped.
Qed.

End SystemEvents.

(** [parse] sets the type of an event for meta events and channel events
    only.  A System Exclusive event, or an event with a status byte from
    0xF2 to 0xFE, is pushed without a type and without a channel, so that
    [writeEvent] finds no status byte for it and throws. *)
Theorem system_events_cannot_be_written (tc s : Z) (last : option Z) (ref : nat)
    (st st' : ParseState) :
  s = 240 \/ 242 <= s <= 254 ->
  track_event tc last st = Ok ((ref, Some s), st') ->
  exists e,
    heap st' = heap st ++ [e]
    /\ type e = None
    /\ forall w, writeEvent e w = Throw (Error "Invalid status byte").
Proof.
  intros Hs H. unfold track_event in H.
  unfold bind at 1 in H.
  destruct (this readVariableLengthValues st) as [[delta st1]| |] eqn:E1; try discriminate.
  destruct (quiet_this _ rd_ok_readVariableLengthValues _ _ _ E1) as (A1 & _).
  unfold bind at 1 in H. unfold add_time at 1 in H.
  unfold bind at 1 in H.
  match type of H with
  | context [this DataBuffer.readUInt8 ?s0] =>
      destruct (this DataBuffer.readUInt8 s0) as [[eventType st2]| |] eqn:E2;
        try discriminate;
      destruct (quiet_this _ rd_ok_readUInt8 _ _ _ E2) as (B1 & _)
  end.
  cbn [heap] in B1.
  unfold bind at 1 in H.
  match type of H with
  | context [match ?m st2 with _ => _ end] =>
      destruct (m st2) as [[status' st3]| |] eqn:E3; try discriminate;
      assert (Hq3 : quiet m (fun _ => True)) by (repeat quiet_step);
      destruct (Hq3 _ _ _ E3) as (C1 & _)
  end.
  unfold bind at 1 in H.
  destruct (decode_event tc status' (newEvent delta) st3) as [[event st4]| |] eqn:E4;
    try discriminate.
  unfold bind, push_event, ret in H. injection H as <- -> <-.
  destruct (quiet_system_event tc s (newEvent delta) Hs _ _ _ E4)
    as (D1 & _ & _ & _ & _ & Hty & Hch).
  exists event. cbn [heap]. split; [congruence|]. split; [exact Hty|].
  intros w. unfold writeEvent, statusByte_of. rewrite Hch, Hty. reflexivity.
Qed.

Lemma system_events_cannot_be_written_witness :
  exists e,
    (forall w, writeEvent e w = Throw (Error "Invalid status byte"))
    /\ exists ref st',
         track_event 1 None (mkParseState (DataBuffer.new [0; 240; 1; 5; 247]) 0 ∅ [])
         = Ok ((ref, Some 240), st').
Proof.
  assert (H : track_event 1 None (mkParseState (DataBuffer.new [0; 240; 1; 5; 247]) 0 ∅ [])
              = Ok ((0%nat, Some 240),
                    mkParseState (DataBuffer.mk [0; 240; 1; 5; 247] 5) 0 ∅
                      [mkEvent (Some 0) None None
                         (VObj [("manufacturerId", VNum 1);
                                ("manufacturerLabel", VStr "Sequential Circuits");
                                ("data", VArr [VNum 5])])
                         None None None]))
    by (vm_compute; reflexivity).
  destruct (system_events_cannot_be_written 1 240 None _ _ _ (or_introl eq_refl) H)
    as (e & _ & _ & Hw).
  exists e. split; [exact Hw|]. eexists _, _. exact H.
Defined.

(** ** Parsing and saving again *)

Section Resave.

Lemma note_string_byte (n : Z) : is_byte n -> to_byte (VStr (template (Some n))) = n.
Proof.
  intros H. unfold is_byte in H.
  apply (check_bits_sound note_string_ok 8 0) in H.
  - now apply Z.eqb_eq in H.
  - now vm_compute.
Qed.

Lemma note_like_patch (len : Z) (e : MidiTrackEvent) (m : Z * Z * Z * Z) :
  note_like e m -> note_like (patch len e) m.
Proof.
  destruct m as [[[d s] n] v].
  intros (Hd & Ht & Hc & fs & nv & Hdata & Hn & Hu & Hb & Hv).
  unfold patch, note_like. cbn [deltaTime type channel data set_data].
  split; [exact Hd|]. split; [exact Ht|]. split; [exact Hc|].
  exists (assoc_set "length" (VNum len) fs), nv. rewrite Hdata. cbn [set_field].
  rewrite !assoc_get_set_other by discriminate.
  split; [reflexivity|]. split; [exact Hn|]. split; [exact Hu|]. split; [exact Hb | exact Hv].
Qed.

(** What [writeEvent] writes for an event that holds a note message. *)
Lemma note_like_emits (e : MidiTrackEvent) (d s n v : Z) :
  note_like e (d, s, n, v) -> note_message (d, s, n, v) ->
  emits (writeEvent e) tt (vlq_bytes d ++ [s; n; v]).
Proof.
  intros (Hd & Ht & Hc & fs & nv & Hdata & Hn & Hu & Hb & Hv) (Hdr & Hs & Hnb & Hvb).
  unfold is_byte in Hnb, Hvb.
  assert (Hst : statusByte_of e = Some s).
  { unfold statusByte_of. rewrite Hc, Ht. destruct Hs as [-> | ->]; reflexivity. }
  assert (Hbody : emits (writeEventData (VArr [nv; VNum v])) tt ([n] ++ [v] ++ [])).
  { unfold writeEventData. cbn [existsb]. rewrite Hu. cbn [is_undefined orb].
    eapply emits_bind.
    - intros w He. rewrite (emits_writeUInt8 (to_byte nv) w He), Hb.
      unfold Js.to_uint8. now rewrite Z.mod_small by lia.
    - eapply emits_bind; [|apply emits_ret].
      intros w He. rewrite (emits_writeUInt8 (to_byte (VNum v)) w He).
      unfold to_byte. cbn [to_integer]. change (default 0 (Some v)) with v.
      unfold Js.to_uint8. now rewrite !(Z.mod_small v 256) by lia. }
  unfold writeEvent. cbv zeta.
  change (vlq_bytes d ++ [s; n; v]) with (vlq_bytes d ++ [s] ++ [n; v]).
  apply (emits_head e d s _ [n; v] Hst ltac:(lia) Hd).
  rewrite Ht, Hdata.
  assert (Hnote : get_field "note" (VObj fs) = nv) by (cbn [get_field]; now rewrite Hn).
  assert (Hvel : get_field "velocity" (VObj fs) = VNum v)
    by (cbn [get_field]; now rewrite Hv).
  assert (Hhn : has_field "note" (VObj fs) = true) by (cbn [has_field]; now rewrite Hn).
  assert (Hhv : has_field "velocity" (VObj fs) = true) by (cbn [has_field]; now rewrite Hv).
  destruct Hs as [-> | ->]; cbv iota; rewrite Hnote, Hvel, Hhn, Hhv, Hu;
    cbn [is_object is_undefined negb orb]; exact Hbody.
Qed.

Lemma note_on_like (d n v : Z) :
  is_byte n -> note_like (note_on_event d n v) (d, 144, n, v).
Proof.
  intros Hn. unfold note_like, note_on_event, note_data.
  cbn [deltaTime type channel data].
  split; [reflexivity|]. split; [reflexivity|]. split; [reflexivity|].
  exists [("note", VNum n); ("velocity", VNum v)], (VNum n).
  split; [reflexivity|]. split; [reflexivity|]. split; [reflexivity|].
  split; [|reflexivity].
  unfold to_byte, Js.to_uint8. cbn [to_integer]. change (default 0 (Some n)) with n.
  unfold is_byte in Hn. now rewrite Z.mod_small by lia.
Qed.

(** The round of the event loop on a Note Off of the first channel. *)
Lemma note_off_round (tc : Z) (last : option Z) (st : ParseState) (d n v : Z)
    (l : list Z) (pre : list (Z * Z * Z * Z)) :
  0 <= d < 2147483648 -> is_byte n -> is_byte v ->
  at_cursor (buf st) ((vlq_bytes d ++ [128; n; v]) ++ l) ->
  Forall2 note_like (heap st) pre ->
  exists H' A',
    track_event tc last st
    = Ok ((length (heap st), Some 128),
          mkParseState (moved (length (vlq_bytes d ++ [128; n; v])) (buf st))
            (currentTime st + d) A' H')
    /\ Forall2 note_like H' (pre ++ [(d, 128, n, v)]).
Proof.
  intros Hd Hn Hv Hc Hpre.
  assert (Hc' : at_cursor (buf st) (vlq_bytes d ++ [128] ++ [n; v] ++ l)).
  { rewrite <- app_assoc in Hc. exact Hc. }
  destruct (status_head tc last st 128 d _ Hd ltac:(lia) Hc') as [-> Hc2].
  set (st2 := mkParseState _ _ _ _).
  assert (Hc2' : at_cursor (buf st2) (n :: [v] ++ l)) by exact Hc2.
  destruct (p_byte st2 n _ Hc2') as [E3 Hc3].
  destruct (p_byte (st_moved 1 st2) v _ Hc3) as [E4 Hc4].
  change (decode_event tc (Some 128) (newEvent d))
    with (channel_event (Some 128) (newEvent d)).
  unfold channel_event.
  change (Js.and (Js.sar (Js.int32_of (Some 128)) 4) 15) with 8.
  change (Js.and (Js.int32_of (Some 128)) 15) with 0. cbv zeta. cbv iota.
  unfold bind at 1. unfold bind at 1. rewrite E3. unfold bind at 1. rewrite E4.
  unfold bind at 1, get_state at 1.
  assert (Hlast : forall len,
            note_like
              (set_label "Note Off"
                 (set_data (VObj [("note", VStr (template (Some n)));
                                  ("velocity", jv (Some v)); ("length", VNum len)])
                    (set_channel (Some 0) (set_type (Some 128) (newEvent d)))))
              (d, 128, n, v)).
  { intros len. unfold note_like. cbn [deltaTime type channel data set_label set_data
                                        set_channel set_type newEvent].
    split; [reflexivity|]. split; [reflexivity|]. split; [reflexivity|].
    eexists _, (VStr (template (Some n))).
    split; [reflexivity|]. split; [reflexivity|]. split; [reflexivity|].
    split; [apply note_string_byte; exact Hn | reflexivity]. }
  assert (Hbuf : moved 1 (moved 1 (buf st2))
                 = moved (length (vlq_bytes d ++ [128; n; v])) (buf st)).
  { unfold st2, moved. cbn [buf DataBuffer.data DataBuffer.offset]. len_simpl.
    f_equal. lia. }
  cbn [activeNotes st_moved currentTime heap buf].
  destruct (activeNotes st2 !! Some n) as [nd|] eqn:El.
  - unfold bind at 1, patch_length at 1. unfold bind at 1, set_activeNotes at 1.
    unfold ret at 1. unfold bind at 1, push_event at 1. unfold ret.
    cbn [activeNotes st_moved currentTime heap buf]. rewrite Hbuf.
    eexists _, _. split.
    + unfold st2. cbn [heap currentTime]. rewrite length_alter. reflexivity.
    + apply Forall2_app; [|constructor; [apply Hlast | constructor]].
      apply Forall2_alter_l; [exact Hpre|].
      intros x y _ _ Hxy. exact (note_like_patch _ x y Hxy).
  - unfold ret at 1. unfold bind at 1, push_event at 1. unfold ret.
    cbn [activeNotes st_moved currentTime heap buf]. rewrite Hbuf.
    eexists _, _. split.
    + unfold st2. cbn [heap currentTime activeNotes]. reflexivity.
    + apply Forall2_app; [exact Hpre | constructor; [apply Hlast | constructor]].
Qed.

(** The round on a note message. *)
Lemma note_message_round (tc : Z) (last : option Z) (st : ParseState)
    (m : Z * Z * Z * Z) (l : list Z) (pre : list (Z * Z * Z * Z)) :
  note_message m ->
  at_cursor (buf st) (note_bytes [m] ++ l) ->
  Forall2 note_like (heap st) pre ->
  exists H' A' status T',
    track_event tc last st
    = Ok ((length (heap st), status),
          mkParseState (moved (length (note_bytes [m])) (buf st)) T' A' H')
    /\ Forall2 note_like H' (pre ++ [m]).
Proof.
  destruct m as [[[d s] n] v]. intros (Hd & Hs & Hn & Hv) Hc Hpre.
  unfold note_bytes in *. cbn [map concat] in *. rewrite app_nil_r in *.
  destruct Hs as [-> | ->].
  - assert (Hc' : at_cursor (buf st) (vlq_bytes d ++ [144; n; v] ++ l)).
    { rewrite <- app_assoc in Hc. exact Hc. }
    destruct (note_round tc last st 144 d n v l (or_introl eq_refl) Hd Hc') as [A' E].
    eexists _, A', _, _. split; [exact E|].
    apply Forall2_app; [exact Hpre|].
    constructor; [exact (note_on_like d n v Hn) | constructor].
  - destruct (note_off_round tc last st d n v l pre Hd Hn Hv Hc Hpre)
      as (H' & A' & E & Hall).
    eexists H', A', _, _. split; [exact E | exact Hall].
Qed.

Lemma note_bytes_cons (m : Z * Z * Z * Z) (msgs : list (Z * Z * Z * Z)) :
  note_bytes (m :: msgs) = note_bytes [m] ++ note_bytes msgs.
Proof. unfold note_bytes. cbn [map concat]. now rewrite app_nil_r. Qed.

Lemma note_message_nonempty (m : Z * Z * Z * Z) (l : list Z) :
  (0 < length (note_bytes [m] ++ l))%nat.
Proof.
  destruct m as [[[d s] n] v]. unfold note_bytes. cbn [map concat]. len_simpl. lia.
Qed.

Lemma note_rounds (tc : Z) (msgs : list (Z * Z * Z * Z)) :
  Forall note_message msgs ->
  forall fuel last refs st pre,
    (length msgs <= fuel)%nat ->
    at_cursor (buf st) (note_bytes msgs) ->
    Forall2 note_like (heap st) pre ->
    exists st',
      track_events fuel tc last refs st
      = Ok (refs ++ seq (length (heap st)) (length msgs), st')
      /\ at_cursor (buf st') []
      /\ Forall2 note_like (heap st') (pre ++ msgs).
Proof.
  induction 1 as [|m msgs Hm Hall IH]; intros fuel last refs st pre Hfuel Hc Hpre.
  - exists st. cbn [length seq]. rewrite !app_nil_r.
    split; [|split; [exact Hc | exact Hpre]].
    destruct fuel; cbn [track_events]; rewrite (at_cursor_remaining _ _ Hc); reflexivity.
  - destruct fuel as [|fuel]; [cbn in Hfuel; lia|].
    rewrite note_bytes_cons in Hc.
    destruct (note_message_round tc last st m _ pre Hm Hc Hpre)
      as (H' & A' & status & T' & E & Hall').
    set (st1 := mkParseState _ T' A' H') in *.
    assert (Hc1 : at_cursor (buf st1) (note_bytes msgs))
      by exact (at_cursor_moved (buf st) _ _ Hc).
    destruct (IH fuel status (refs ++ [length (heap st)]) st1 (pre ++ [m])
                ltac:(cbn in Hfuel; lia) Hc1 Hall') as (st' & F & Hend & Hfinal).
    exists st'. cbn [track_events].
    rewrite (at_cursor_remaining _ _ Hc).
    pose proof (note_message_nonempty m (note_bytes msgs)) as Hpos.
    destruct (Z.gtb_spec (Z.of_nat (length (note_bytes [m] ++ note_bytes msgs))) 0);
      [|lia].
    unfold bind. rewrite E, F.
    assert (Hlen : length (heap st1) = S (length (heap st))).
    { apply Forall2_length in Hall', Hpre. unfold st1. cbn [heap].
      rewrite Hall', length_app, Hpre. cbn [length]. lia. }
    rewrite Hlen. cbn [length seq]. rewrite <- !app_assoc. cbn [app].
    rewrite <- app_assoc in Hfinal.
    split; [reflexivity|]. split; [exact Hend | exact Hfinal].
Qed.

Lemma emits_note_events (es : list MidiTrackEvent) (msgs : list (Z * Z * Z * Z)) :
  Forall2 note_like es msgs -> Forall note_message msgs ->
  emits (writeEvents es) tt (note_bytes msgs).
Proof.
  induction 1 as [|e m es msgs He Hall IH]; intros Hmsgs; [apply emits_ret|].
  pose proof (Forall_inv Hmsgs) as Hm. pose proof (Forall_inv_tail Hmsgs) as Hms.
  rewrite note_bytes_cons.
  cbn [writeEvents]. eapply emits_bind; [|exact (IH Hms)].
  destruct m as [[[d s] n] v]. unfold note_bytes. cbn [map concat]. rewrite app_nil_r.
  now apply note_like_emits.
Qed.

(** What [saveToDataBuffer] returns for one track, given what its events
    write. *)
Lemma save_emitted (f tc td len0 : Z) (es : list MidiTrackEvent) (body : list Z) :
  0 <= f < 65536 -> 0 <= tc < 65536 -> 0 <= td < 65536 ->
  emits (writeEvents es) tt body ->
  saveToDataBuffer (mkAudioMIDI f tc (Some td) [mkTrack "MTrk" len0 es])
  = Ok (saved_header f tc td ++ [77; 84; 114; 107]
          ++ be32 (Z.of_nat (length body)) ++ body,
        mkAudioMIDI f tc (Some td) [mkTrack "MTrk" (Z.of_nat (length body)) es]).
Proof.
  intros Hf Ht Hd Hall. unfold saveToDataBuffer.
  cbn [format trackCount timeDivision chunks].
  change (default 0 (Some td)) with td.
  rewrite header_written by assumption. fold (saved_header f tc td).
  cbn [writeChunks]. unfold bind at 1.
  set (w := DataBuffer.mkWriter (saved_header f tc td) 14).
  assert (He : at_end w) by reflexivity.
  rewrite (writeChunk_run (mkTrack "MTrk" len0 es) w body He eq_refl).
  - unfold bind, ret. cbn [events chunkType DataBuffer.commit DataBuffer.buffer].
    reflexivity.
  - cbn [events]. rewrite Hall by (unfold at_end; cbn; lia).
    cbn [DataBuffer.buffer DataBuffer.woffset]. reflexivity.
Qed.

End Resave.

(** A file of one track that holds Note On and Note Off events of the first
    channel, each with its status byte, and whose chunk length is the length
    of its events, is parsed into an instance that [saveToDataBuffer] writes
    as the same bytes, leaving the instance as it is: the length that
    [parse] adds to a Note On is not written, and the note that it keeps as
    a string in a Note Off is written as its number. *)
Theorem parse_then_save_notes (f tc td : Z) (msgs : list (Z * Z * Z * Z)) (fuel : nat) :
  0 <= f < 65536 -> 1 <= tc < 65536 -> 0 <= td < 32768 ->
  Forall note_message msgs ->
  Z.of_nat (length (note_bytes msgs)) < 4294967296 ->
  (length msgs <= fuel)%nat ->
  exists m,
    parse fuel (saved_header f tc td ++ [77; 84; 114; 107]
                  ++ be32 (Z.of_nat (length (note_bytes msgs))) ++ note_bytes msgs)
    = Ok m
    /\ saveToDataBuffer m
       = Ok (saved_header f tc td ++ [77; 84; 114; 107]
               ++ be32 (Z.of_nat (length (note_bytes msgs))) ++ note_bytes msgs, m)
    /\ exists t, chunks m = [t] /\ length (events t) = length msgs.
Proof.
  intros Hf Ht Htd Hall Hsize Hfuel.
  assert (Hbody : Forall is_byte (note_bytes msgs)).
  { unfold note_bytes. clear Hsize Hfuel.
    induction Hall as [|[[[d s] n] v] msgs (Hd & Hs & Hn & Hv) Hall IH]; [constructor|].
    cbn [map concat]. apply Forall_app. split; [|exact IH].
    apply Forall_app. split; [apply vlq_bytes_are_bytes|].
    constructor; [unfold is_byte; lia|].
    constructor; [exact Hn|]. constructor; [exact Hv | constructor]. }
  destruct (parse_track_body f tc td (Z.of_nat (length (note_bytes msgs))) _ fuel
              Hf Ht Htd ltac:(lia) Hbody)
    as (n & st & Hc & (_ & _ & Hheap) & _ & ->).
  assert (Hpre : Forall2 note_like (heap st) []) by (rewrite Hheap; constructor).
  destruct (note_rounds tc msgs Hall fuel None [] st [] Hfuel Hc Hpre)
    as (st' & E & Hend & Hfinal).
  cbn [app] in Hfinal. rewrite Hheap in E. cbn [length app] in E.
  exists (mkAudioMIDI f tc (Some td)
            [mkTrack "MTrk" (Z.of_nat (length (note_bytes msgs))) (heap st')]).
  pose proof (Forall2_length _ _ _ Hfinal) as Hlen.
  split; [|split].
  - unfold bind at 1. rewrite E.
    rewrite parse_tracks_stops by (now rewrite (at_cursor_remaining _ _ Hend)).
    cbn [app map]. unfold resolve. cbn [r_type r_chunkLength r_events].
    rewrite <- Hlen.
    pose proof (resolve_all (heap st') []) as Hr. cbn [app length] in Hr.
    now rewrite Hr.
  - apply save_emitted; [lia | lia | lia |].
    now apply emits_note_events.
  - eexists. split; [reflexivity|]. exact Hlen.
Qed.

Lemma parse_then_save_notes_witness :
  exists m,
    parse 2 (saved_header 0 1 480 ++ [77; 84; 114; 107]
               ++ be32 (Z.of_nat (length (note_bytes [(0, 144, 60, 100); (480, 128, 60, 0)])))
               ++ note_bytes [(0, 144, 60, 100); (480, 128, 60, 0)])
    = Ok m
    /\ saveToDataBuffer m
       = Ok (saved_header 0 1 480 ++ [77; 84; 114; 107]
               ++ be32 (Z.of_nat (length (note_bytes [(0, 144, 60, 100); (480, 128, 60, 0)])))
               ++ note_bytes [(0, 144, 60, 100); (480, 128, 60, 0)], m)
    /\ exists t, chunks m = [t] /\ length (events t) = 2%nat.
Proof.
  apply (parse_then_save_notes 0 1 480 [(0, 144, 60, 100); (480, 128, 60, 0)] 2);
    try lia.
  - repeat (constructor; [unfold note_message, is_byte; lia|]). constructor.
  - vm_compute. reflexivity.
  - simpl. lia.
Defined.

(** ** What a saved file holds *)

Section Steady.

Lemma steady_ret {A : Type} (a : A) : steady (ret a).
Proof. left. exists a, []. apply emits_ret. Qed.

Lemma steady_throw {A : Type} (e : JsError) : steady (@throw _ A e).
Proof. right. exists e. intros w _. reflexivity. Qed.

Lemma steady_bind {A B : Type} (m : DataBuffer.writer A) (k : A -> DataBuffer.writer B) :
  steady m -> (forall a, steady (k a)) -> steady (bind m k).
Proof.
  intros [(a & bs & Hm)|(e & Hm)] Hk.
  - destruct (Hk a) as [(b & bs2 & Hk1)|(e & Hk1)].
    + left. exists b, (bs ++ bs2). now apply emits_bind with (a := a).
    + right. exists e. intros w He. unfold bind. rewrite (Hm w He).
      apply Hk1. unfold at_end. cbn. len_simpl. rewrite He. lia.
  - right. exists e. intros w He. unfold bind. now rewrite (Hm w He).
Qed.

Lemma steady_prop (k : string) (d : JsValue) : steady (prop k d).
Proof. destruct d; first [apply steady_throw | apply steady_ret]. Qed.

Lemma steady_writeUInt8 (x : Z) : steady (DataBuffer.writeUInt8 x).
Proof. left. exists tt, [Js.to_uint8 x]. apply emits_writeUInt8. Qed.

Lemma steady_writeBytes (bytes : list Z) : steady (DataBuffer.writeBytes bytes).
Proof. left. exists tt, (map Js.to_uint8 bytes). apply emits_writeBytes. Qed.

Lemma steady_write_popped (r : list Z) : steady (write_popped r).
Proof.
  induction r as [|x r IH]; [apply steady_writeUInt8|].
  destruct r as [|y r]; [apply steady_writeUInt8|].
  cbn [write_popped]. apply steady_bind; [apply steady_writeUInt8 | intros _; exact IH].
Qed.

Lemma steady_writeVariableLengthValue (v : option Z) :
  steady (writeVariableLengthValue v).
Proof. apply steady_write_popped. Qed.

Lemma steady_writeEventData (d : JsValue) : steady (writeEventData d).
Proof.
  destruct d; cbn [writeEventData];
    try apply steady_throw; try apply steady_writeBytes.
  destruct (existsb is_undefined l); [apply steady_throw|].
  induction l as [|x l IH]; [apply steady_ret|].
  apply steady_bind; [apply steady_writeUInt8 | intros _; exact IH].
Qed.

Ltac steady_step :=
  first
    [ apply steady_ret
    | apply steady_throw
    | apply steady_writeUInt8
    | apply steady_writeEventData
    | apply steady_writeVariableLengthValue
    | apply steady_prop
    | apply steady_bind; [|intros ?]
    | match goal with
      | |- steady (if ?b then _ else _) => destruct b
      | |- steady (match ?x with _ => _ end) => destruct x
      end ].

Lemma steady_writeMetaData (mt : option Z) (d : JsValue) : steady (writeMetaData mt d).
Proof. unfold writeMetaData. repeat steady_step. Qed.

Lemma steady_writeEvent (e : MidiTrackEvent) : steady (writeEvent e).
Proof.
  unfold writeEvent.
  destruct (negb (truthy (jv (statusByte_of e)))); [apply steady_throw|].
  destruct (is_undefined (jv (deltaTime e))); [apply steady_throw|].
  apply steady_bind; [apply steady_writeVariableLengthValue | intros _].
  apply steady_bind; [apply steady_writeUInt8 | intros _].
  generalize (data e) (metaType e) (metaEventLength e). intros d mt len.
  destruct (type e) as [z|]; [|apply steady_throw].
  repeat first [ apply steady_writeMetaData | steady_step ].
Qed.

Lemma steady_writeEvents (evs : list MidiTrackEvent) : steady (writeEvents evs).
Proof.
  induction evs as [|e evs IH]; [apply steady_ret|].
  cbn [writeEvents]. apply steady_bind; [apply steady_writeEvent | intros _; exact IH].
Qed.

End Steady.

Section SavedBytes.

Lemma header_written_any {A : Type} (f tc td : Z) (k : DataBuffer.writer A) :
  (run DataBuffer.writeString "MThd" in
   run DataBuffer.writeUInt32 6 in
   run DataBuffer.writeUInt16 f in
   run DataBuffer.writeUInt16 tc in
   run DataBuffer.writeUInt16 td in
   k) DataBuffer.newWriter
  = k (DataBuffer.mkWriter
         ([77; 84; 104; 100; 0; 0; 0; 6] ++ be16 f ++ be16 tc ++ be16 td) 14).
Proof.
  unfold bind at 1.
  change (DataBuffer.writeString "MThd" DataBuffer.newWriter)
    with (Ok (tt, DataBuffer.mkWriter [77; 84; 104; 100] 4)).
  unfold bind at 1.
  change (DataBuffer.writeUInt32 6 (DataBuffer.mkWriter [77; 84; 104; 100] 4))
    with (Ok (tt, DataBuffer.mkWriter [77; 84; 104; 100; 0; 0; 0; 6] 8)).
  unfold bind at 1. rewrite writeUInt16_end by reflexivity.
  cbn [DataBuffer.buffer DataBuffer.woffset].
  unfold bind at 1. rewrite writeUInt16_end by reflexivity.
  cbn [DataBuffer.buffer DataBuffer.woffset].
  unfold bind at 1. rewrite writeUInt16_end by reflexivity.
  cbn [DataBuffer.buffer DataBuffer.woffset].
  rewrite !be16_written, <- !app_assoc. reflexivity.
Qed.

(** A chunk of type MTrk whose events cannot be written. *)
Lemma writeChunk_throws (c : Track) (w : DataBuffer.Writer) (e : JsError) :
  at_end w -> is_mtrk c = true ->
  writeEvents (events c)
    (DataBuffer.mkWriter (DataBuffer.buffer w ++ [77; 84; 114; 107; 0; 0; 0; 0])
                         (DataBuffer.woffset w + 8))
  = Throw e ->
  writeChunk c w = Throw e.
Proof.
  intros He Hty Hev. unfold is_mtrk in Hty. unfold writeChunk. rewrite Hty.
  unfold bind at 1. rewrite writeString_MTrk by exact He.
  unfold bind at 1. cbn [get_offset DataBuffer.woffset].
  unfold bind at 1. rewrite writeUInt32_end by (unfold at_end; cbn; len_simpl; rewrite He; lia).
  cbn [DataBuffer.buffer DataBuffer.woffset].
  change [Js.to_uint8 (Js.sar (Js.and 0 4278190080) 24);
          Js.to_uint8 (Js.sar (Js.and 0 16711680) 16);
          Js.to_uint8 (Js.sar (Js.and 0 65280) 8);
          Js.to_uint8 (Js.and 0 255)] with [0; 0; 0; 0].
  rewrite <- app_assoc. cbn [app].
  replace (DataBuffer.woffset w + 4 + 4) with (DataBuffer.woffset w + 8) by lia.
  unfold bind at 1. cbn [get_offset DataBuffer.woffset].
  unfold bind at 1. now rewrite Hev.
Qed.

Lemma track_image_length (body : list Z) :
  length (track_image body) = (8 + length body)%nat.
Proof. unfold track_image, be32. len_simpl. lia. Qed.

(** The chunks one after the other: the first track whose events throw
    stops the loop, and otherwise each track adds its image and every
    other chunk adds nothing. *)
Lemma writeChunks_run (cs : list Track) :
  forall w, at_end w ->
    (exists e c,
        writeChunks cs w = Throw e
        /\ In c cs /\ is_mtrk c = true
        /\ forall w', at_end w' -> writeEvents (events c) w' = Throw e)
    \/ (exists bodies cs',
          Forall2 (fun c body => emits (writeEvents (events c)) tt body)
                  (List.filter is_mtrk cs) bodies
          /\ writeChunks cs w
             = Ok (cs',
                   DataBuffer.mkWriter
                     (DataBuffer.buffer w ++ concat (map track_image bodies))
                     (DataBuffer.woffset w
                      + Z.of_nat (length (concat (map track_image bodies)))))).
Proof.
  induction cs as [|c cs IH]; intros w He.
  - right. exists [], []. split; [constructor|].
    cbn [writeChunks map concat length]. unfold ret.
    rewrite app_nil_r, Z.add_0_r. now destruct w.
  - cbn [writeChunks List.filter]. destruct (is_mtrk c) eqn:Ec.
    + destruct (steady_writeEvents (events c)) as [([] & body & Hem)|(e & Hth)].
      * set (w1 := DataBuffer.mkWriter
                     (DataBuffer.buffer w ++ [77; 84; 114; 107; 0; 0; 0; 0])
                     (DataBuffer.woffset w + 8)).
        assert (He1 : at_end w1) by (unfold at_end; cbn; len_simpl; rewrite He; lia).
        pose proof (Hem w1 He1) as Hev. subst w1.
        cbn [DataBuffer.buffer DataBuffer.woffset] in Hev.
        pose proof (writeChunk_run c w body He Ec Hev) as Hc.
        match type of Hc with
        | _ = Ok (_, ?w2) =>
            assert (He2 : at_end w2)
              by (unfold at_end; cbn; len_simpl; unfold be32; cbn [length];
                  rewrite He; lia);
            destruct (IH w2 He2) as [(e & c0 & Hr & Hin & Hty & Hth)
                                    |(bodies & cs' & HF & Hr)]
        end.
        -- left. exists e, c0. split; [|split; [now right | now split]].
           unfold bind at 1. rewrite Hc. unfold bind at 1. now rewrite Hr.
        -- right. exists (body :: bodies). eexists. split; [now constructor|].
           unfold bind at 1. rewrite Hc. unfold bind at 1. rewrite Hr.
           unfold ret. cbn [DataBuffer.buffer DataBuffer.woffset map concat].
           do 3 f_equal.
           ++ unfold track_image. now rewrite <- !app_assoc.
           ++ rewrite (length_app (track_image body)), track_image_length. lia.
      * left. exists e, c. split; [|split; [now left | now split]].
        unfold bind at 1.
        rewrite (writeChunk_throws c w e He Ec); [reflexivity|].
        apply Hth. unfold at_end. cbn. len_simpl. rewrite He. lia.
    + destruct (IH w He) as [(e & c0 & Hr & Hin & Hty & Hth)|(bodies & cs' & HF & Hr)].
      * left. exists e, c0. split; [|split; [now right | now split]].
        unfold bind at 1. rewrite (writeChunk_other_type c w Ec).
        unfold bind at 1. now rewrite Hr.
      * right. exists bodies. eexists. split; [exact HF|].
        unfold bind at 1. rewrite (writeChunk_other_type c w Ec).
        unfold bind at 1. rewrite Hr. reflexivity.
Qed.

End SavedBytes.

(** C10, as the code has it: for every instance [saveToDataBuffer] either throws,
    which it does when the events of one of its chunks of type MTrk cannot
    be written, or returns one 14-byte header followed, for each chunk of
    type MTrk in order, by the four letters, the length of the bytes its
    events write and these bytes; a chunk of any other type leaves the
    buffer as it is.  The header holds MThd, the length 6 and the stored
    format, track count and time division, each as the two bytes of its low
    16 bits, which read back as the stored value modulo 65536; the track
    count is not counted from the chunks.  So the file whose parse stopped
    on a chunk that is not a track is saved with a track count of 2 and no
    chunk, and the instance that stores a track count of 3 and holds one
    track among three chunks is saved with a track count of 3 and one MTrk
    chunk. *)
Theorem save_writes_header_and_tracks :
  (forall self,
     (exists e c,
         saveToDataBuffer self = Throw e
         /\ In c (chunks self) /\ is_mtrk c = true
         /\ forall w, at_end w -> writeEvents (events c) w = Throw e)
     \/ (exists bodies self',
           Forall2 (fun c body => emits (writeEvents (events c)) tt body)
                   (List.filter is_mtrk (chunks self)) bodies
           /\ saveToDataBuffer self
              = Ok ([77; 84; 104; 100; 0; 0; 0; 6]
                      ++ be16 (format self) ++ be16 (trackCount self)
                      ++ be16 (default 0 (timeDivision self))
                      ++ concat (map track_image bodies),
                    self')
           /\ trackCount self' = trackCount self))
  /\ (forall x, DataBuffer.be_value (be16 x) = x mod 65536)
  /\ (forall c w, is_mtrk c = false -> writeChunk c w = Ok (c, w))
  /\ (exists m m',
        parse 1 bad_track_file = Ok m
        /\ trackCount m = 2 /\ chunks m = []
        /\ saveToDataBuffer m
           = Ok ([77; 84; 104; 100; 0; 0; 0; 6; 0; 0; 0; 2; 1; 224], m'))
  /\ (exists m',
        trackCount mixed_midi = 3
        /\ length (List.filter is_mtrk (chunks mixed_midi)) = 1%nat
        /\ saveToDataBuffer mixed_midi
           = Ok ([77; 84; 104; 100; 0; 0; 0; 6; 0; 0; 0; 3; 1; 224;
                  77; 84; 114; 107; 0; 0; 0; 8;
                  0; 144; 60; 64; 0; 255; 47; 0], m')).
Proof.
  split; [|split; [exact be16_value|split; [exact writeChunk_other_type|split]]].
  - intros self. unfold saveToDataBuffer. rewrite header_written_any.
    match goal with
    | |- context [writeChunks (chunks self) ?w0] =>
        destruct (writeChunks_run (chunks self) w0 eq_refl)
          as [(e & c & Hr & Hin & Hty & Hth)|(bodies & cs' & HF & Hr)];
        rewrite Hr
    end.
    + left. exists e, c. now repeat split.
    + right. exists bodies. eexists. split; [exact HF|]. split.
      * unfold DataBuffer.commit. cbn [DataBuffer.buffer].
        rewrite <- !app_assoc. reflexivity.
      * reflexivity.
  - do 2 eexists. split; [vm_compute; reflexivity|].
    split; [reflexivity|]. split; [reflexivity|]. vm_compute. reflexivity.
  - eexists. split; [reflexivity|]. split; [reflexivity|]. vm_compute. reflexivity.
Qed.

Lemma save_writes_header_and_tracks_witness :
  (exists bodies,
      Forall2 (fun c body => emits (writeEvents (events c)) tt body)
              (List.filter is_mtrk (chunks mixed_midi)) bodies
      /\ [77; 84; 104; 100; 0; 0; 0; 6; 0; 0; 0; 3; 1; 224;
          77; 84; 114; 107; 0; 0; 0; 8; 0; 144; 60; 64; 0; 255; 47; 0]
         = [77; 84; 104; 100; 0; 0; 0; 6]
             ++ be16 (format mixed_midi) ++ be16 (trackCount mixed_midi)
             ++ be16 (default 0 (timeDivision mixed_midi))
             ++ concat (map track_image bodies))
  /\ is_mtrk (mkTrack "mtrk" 4 [generateEndOfTrackEvent]) = false
  /\ writeChunk (mkTrack "mtrk" 4 [generateEndOfTrackEvent])
       (DataBuffer.mkWriter [77; 84; 104; 100] 4)
     = Ok (mkTrack "mtrk" 4 [generateEndOfTrackEvent],
           DataBuffer.mkWriter [77; 84; 104; 100] 4).
Proof.
  split.
  - destruct (proj1 save_writes_header_and_tracks mixed_midi)
      as [(e & c & H & _)|(bodies & self' & HF & H & _)].
    + exfalso. vm_compute in H. discriminate.
    + exists bodies. split; [exact HF|].
      destruct (proj2 (proj2 (proj2 (proj2 save_writes_header_and_tracks))))
        as (m' & _ & _ & Hs).
      rewrite Hs in H. injection H as Hb _. rewrite <- Hb. reflexivity.
  - split; [reflexivity|].
    apply (proj1 (proj2 (proj2 save_writes_header_and_tracks))). reflexivity.
Defined.

(** C10, the claim as stated fails for a stored field that does not fit 16 bits: the
    instance built with a time division of 66016 is saved with the header
    bytes of a time division of 480, and the instance that stores a track
    count of 65537 is saved with a track count of 1. *)
Lemma save_truncates_header_fields :
  (timeDivision wide_division_midi = Some 66016
   /\ exists m' h,
        saveToDataBuffer wide_division_midi
        = Ok ([77; 84; 104; 100; 0; 0; 0; 6; 0; 0; 0; 0; 1; 224;
               77; 84; 114; 107; 0; 0; 0; 4; 0; 255; 47; 0], m')
        /\ decodeHeader [77; 84; 104; 100; 0; 0; 0; 6; 0; 0; 0; 0; 1; 224] = Ok h
        /\ h_timeDivision h = Some 480)
  /\ (trackCount wide_count_midi = 65537
      /\ exists m' h,
           saveToDataBuffer wide_count_midi
           = Ok ([77; 84; 104; 100; 0; 0; 0; 6; 0; 0; 0; 1; 1; 224;
                  77; 84; 114; 107; 0; 0; 0; 4; 0; 255; 47; 0], m')
           /\ decodeHeader [77; 84; 104; 100; 0; 0; 0; 6; 0; 0; 0; 1; 1; 224] = Ok h
           /\ h_trackCount h = 1).
Proof.
  split; (split; [reflexivity|]); do 2 eexists;
    (split; [vm_compute; reflexivity|]); split; vm_compute; reflexivity.
Qed.
